(** * The xv6 file system (fs.c): blocks, inodes, directories, path elements

    A shallow embedding of [fs.c].  The logical disk is the content of the
    buffer cache: one copy of every block, read and modified in place through
    the buffer that [bread] hands out.  In-memory inodes live in a heap of
    [kmalloc]ed objects and are reached through the inode name space [ins].
    Every routine is a function of the machine state in an error monad whose
    failures are the kernel's [panic]s and the two ways a single thread can
    hang ([cv_sleep] with nobody to wake it, a [goto retry] on an unchanged
    state). *)

From Stdlib Require Import ZArith Lia String.
From stdpp Require Import base option list gmap.

Open Scope Z_scope.

(** ** Constants *)

Module Param.

(** Modelled from the spec: [fs.h], [stat.h], [file.h] and [param.h] are not
    under src/.  The values are the ones the spec names (BSIZE 512, NDIRECT 12,
    NINDIRECT = BSIZE/4, DIRSIZ 14, a 16-byte directory entry); the layout
    macros follow the on-disk layout of the spec (boot, superblock, inode
    table from block 2, then the bitmap). *)
Definition BSIZE : Z := 512.
Definition NDIRECT : Z := 12.
Definition NINDIRECT : Z := BSIZE / 4.
Definition MAXFILE : Z := NDIRECT + NINDIRECT.
Definition DIRSIZ : Z := 14.

(** [sizeof(struct dinode)]: four shorts, [size], [gen], [addrs[NDIRECT+1]]. *)
Definition DINODE : Z := 8 + 4 + 4 + 4 * (NDIRECT + 1).
(** [sizeof(struct dirent)]: a [ushort] and [DIRSIZ] characters. *)
Definition DIRENT : Z := 2 + DIRSIZ.

Definition IPB : Z := BSIZE / DINODE.
Definition BPB : Z := BSIZE * 8.
Definition IBLOCK (i : Z) : Z := i / IPB + 2.
Definition BBLOCK (b ninodes : Z) : Z := b / BPB + ninodes / IPB + 3.

Definition T_DIR : Z := 1.
Definition T_FILE : Z := 2.
Definition T_DEV : Z := 3.

(** The four inode flags are distinct single bits. *)
Definition I_BUSYR : Z := 1.
Definition I_BUSYW : Z := 2.
Definition I_VALID : Z := 4.
Definition I_FREE : Z := 8.

Definition NINODE : Z := 50.
Definition ROOTDEV : Z := 1.
Definition ROOTINO : Z := 1.

End Param.
Export Param.

(** ** Machine integers *)

Definition WORD : Z := 4294967296.

(** A [uint] result: arithmetic wraps modulo 2^32. *)
Definition u32 (x : Z) : Z := x mod WORD.

(** The value of a 16-bit pattern read as a [short]. *)
Definition s16 (x : Z) : Z := if x <? 32768 then x else x - 65536.

(** The value of a [uint] returned through an [int]. *)
Definition to_int (x : Z) : Z := if x <? 2147483648 then x else x - WORD.

(** The counters [ref] and [readbusy] are of type [int] and go up and down
    by [__sync_fetch_and_add] and [__sync_sub_and_fetch]: at either end of
    the range of an [int] the machine wraps around to the other. *)
Definition INT_MAX : Z := 2147483647.
Definition INT_MIN : Z := -2147483648.
Definition int_inc (x : Z) : Z := if x =? INT_MAX then INT_MIN else x + 1.
Definition int_dec (x : Z) : Z := if x =? INT_MIN then INT_MAX else x - 1.

(** ** The disk

    A cell is addressed by block number and byte index.  Reading makes the
    cell a [uchar]; a cell never written reads as zero. *)

Abbreviation disk := (gmap (Z * Z) Z).

Definition rd (d : disk) (b i : Z) : Z := default 0 (d !! (b, i)) mod 256.
Definition wr (d : disk) (b i v : Z) : disk := <[(b, i) := v mod 256]> d.

(** Little-endian [ushort] and [uint] fields of a buffer. *)
Definition rd16 (d : disk) (b i : Z) : Z := rd d b i + 256 * rd d b (i + 1).
Definition wr16 (d : disk) (b i v : Z) : disk :=
  wr (wr d b i v) b (i + 1) (v / 256).

Definition rd32 (d : disk) (b i : Z) : Z :=
  rd d b i + 256 * rd d b (i + 1) + 65536 * rd d b (i + 2)
  + 16777216 * rd d b (i + 3).
Definition wr32 (d : disk) (b i v : Z) : disk :=
  wr (wr (wr (wr d b i v) b (i + 1) (v / 256)) b (i + 2) (v / 65536))
     b (i + 3) (v / 16777216).

(** [memmove] into a buffer, out of a buffer, and [memset]. *)
Fixpoint wrs (d : disk) (b i : Z) (l : list Z) : disk :=
  match l with
  | [] => d
  | x :: l' => wrs (wr d b i x) b (i + 1) l'
  end.

Definition rds (d : disk) (b i : Z) (n : nat) : list Z :=
  map (fun k => rd d b (i + Z.of_nat k)) (seq 0 n).

Definition memset (d : disk) (b i v : Z) (n : nat) : disk :=
  wrs d b i (repeat v n).

(** An array of [uint]s in a buffer. *)
Definition rd32s (d : disk) (b i : Z) (n : nat) : list Z :=
  map (fun k => rd32 d b (i + 4 * Z.of_nat k)) (seq 0 n).
Fixpoint wr32s (d : disk) (b i : Z) (l : list Z) : disk :=
  match l with
  | [] => d
  | x :: l' => wr32s (wr32 d b i x) b (i + 4) l'
  end.

(** ** Superblock and on-disk inodes *)

Record superblock := mkSb { sb_size : Z; sb_nblocks : Z; sb_ninodes : Z }.

Definition readsb (d : disk) : superblock :=
  {| sb_size := rd32 d 1 0; sb_nblocks := rd32 d 1 4; sb_ninodes := rd32 d 1 8 |}.

Record dinode := mkDinode {
  d_type : Z; d_major : Z; d_minor : Z; d_nlink : Z;
  d_size : Z; d_gen : Z; d_addrs : list Z }.

(** The [dinode] that [(struct dinode* )bp->data + inum % IPB] points at, in
    block [IBLOCK inum]. *)
Definition dslot (inum : Z) : Z := inum mod IPB * DINODE.

Definition rd_dinode (d : disk) (inum : Z) : dinode :=
  let b := IBLOCK inum in
  let o := dslot inum in
  {| d_type := s16 (rd16 d b o);
     d_major := s16 (rd16 d b (o + 2));
     d_minor := s16 (rd16 d b (o + 4));
     d_nlink := s16 (rd16 d b (o + 6));
     d_size := rd32 d b (o + 8);
     d_gen := rd32 d b (o + 12);
     d_addrs := rd32s d b (o + 16) (Z.to_nat (NDIRECT + 1)) |}.

Definition wr_dinode (d : disk) (inum : Z) (di : dinode) : disk :=
  let b := IBLOCK inum in
  let o := dslot inum in
  let d := wr16 d b o (d_type di) in
  let d := wr16 d b (o + 2) (d_major di) in
  let d := wr16 d b (o + 4) (d_minor di) in
  let d := wr16 d b (o + 6) (d_nlink di) in
  let d := wr32 d b (o + 8) (d_size di) in
  let d := wr32 d b (o + 12) (d_gen di) in
  wr32s d b (o + 16) (d_addrs di).

(** ** In-memory inodes, the heap and the name space *)

Record inode := mkInode {
  dev : Z; inum : Z; ref : Z; flags : Z; readbusy : Z; gen : Z;
  type : Z; major : Z; minor : Z; nlink : Z; size : Z; addrs : list Z }.

Definition set_ref (v : Z) (ip : inode) : inode :=
  mkInode (dev ip) (inum ip) v (flags ip) (readbusy ip) (gen ip)
          (type ip) (major ip) (minor ip) (nlink ip) (size ip) (addrs ip).
Definition set_flags (v : Z) (ip : inode) : inode :=
  mkInode (dev ip) (inum ip) (ref ip) v (readbusy ip) (gen ip)
          (type ip) (major ip) (minor ip) (nlink ip) (size ip) (addrs ip).
Definition set_readbusy (v : Z) (ip : inode) : inode :=
  mkInode (dev ip) (inum ip) (ref ip) (flags ip) v (gen ip)
          (type ip) (major ip) (minor ip) (nlink ip) (size ip) (addrs ip).
Definition set_gen (v : Z) (ip : inode) : inode :=
  mkInode (dev ip) (inum ip) (ref ip) (flags ip) (readbusy ip) v
          (type ip) (major ip) (minor ip) (nlink ip) (size ip) (addrs ip).
Definition set_type (v : Z) (ip : inode) : inode :=
  mkInode (dev ip) (inum ip) (ref ip) (flags ip) (readbusy ip) (gen ip)
          v (major ip) (minor ip) (nlink ip) (size ip) (addrs ip).
Definition set_major (v : Z) (ip : inode) : inode :=
  mkInode (dev ip) (inum ip) (ref ip) (flags ip) (readbusy ip) (gen ip)
          (type ip) v (minor ip) (nlink ip) (size ip) (addrs ip).
Definition set_minor (v : Z) (ip : inode) : inode :=
  mkInode (dev ip) (inum ip) (ref ip) (flags ip) (readbusy ip) (gen ip)
          (type ip) (major ip) v (nlink ip) (size ip) (addrs ip).
Definition set_size (v : Z) (ip : inode) : inode :=
  mkInode (dev ip) (inum ip) (ref ip) (flags ip) (readbusy ip) (gen ip)
          (type ip) (major ip) (minor ip) (nlink ip) v (addrs ip).
Definition set_addrs (v : list Z) (ip : inode) : inode :=
  mkInode (dev ip) (inum ip) (ref ip) (flags ip) (readbusy ip) (gen ip)
          (type ip) (major ip) (minor ip) (nlink ip) (size ip) v.

(** [ip->addrs[i]] and [ip->addrs[i] = v]. *)
Definition aget (l : list Z) (i : Z) : Z := nth (Z.to_nat i) l 0.
Definition aset (l : list Z) (i v : Z) : list Z := <[Z.to_nat i := v]> l.

(** The fields [iupdate] copies to disk. *)
Definition dinode_of (ip : inode) : dinode :=
  mkDinode (type ip) (major ip) (minor ip) (nlink ip) (size ip) (gen ip)
           (map (fun k => aget (addrs ip) (Z.of_nat k))
                (seq 0 (Z.to_nat (NDIRECT + 1)))).

(** Work handed to [rcu_delayed] and [rcu_delayed2]. *)
Inductive work :=
| KmFree (a : Z)
| BFree (dev b : Z).

Record state := mkState {
  sdisk : disk;                (* the blocks, as the buffer cache shows them *)
  heap : gmap Z inode;         (* kmalloc'ed struct inode, by address *)
  brk : Z;                     (* the next address kmalloc hands out *)
  ins : list (Z * Z);          (* the name space: inum -> address *)
  delayed : list work          (* pending rcu_delayed work, oldest first *)
}.

Definition set_disk (d : disk) (st : state) : state :=
  mkState d (heap st) (brk st) (ins st) (delayed st).
Definition set_heap (h : gmap Z inode) (st : state) : state :=
  mkState (sdisk st) h (brk st) (ins st) (delayed st).
Definition set_brk (v : Z) (st : state) : state :=
  mkState (sdisk st) (heap st) v (ins st) (delayed st).
Definition set_ins (l : list (Z * Z)) (st : state) : state :=
  mkState (sdisk st) (heap st) (brk st) l (delayed st).
Definition set_delayed (l : list work) (st : state) : state :=
  mkState (sdisk st) (heap st) (brk st) (ins st) l.

(** ** The monad *)

Inductive result (A : Type) : Type :=
| Ok (a : A) (st : state)
| Panic (msg : string)
| Sleep      (* cv_sleep, and no other thread to wake the sleeper *)
| Spin       (* goto retry on a state that did not change *)
| Fault.     (* use of a null pointer or of reclaimed memory *)
Arguments Ok {A} a st.
Arguments Panic {A} msg.
Arguments Sleep {A}.
Arguments Spin {A}.
Arguments Fault {A}.

Definition M (A : Type) : Type := state -> result A.

Definition ret {A} (a : A) : M A := fun st => Ok a st.
Definition bind {A B} (m : M A) (k : A -> M B) : M B := fun st =>
  match m st with
  | Ok a st' => k a st'
  | Panic msg => Panic msg
  | Sleep => Sleep
  | Spin => Spin
  | Fault => Fault
  end.
Definition panic {A} (msg : string) : M A := fun _ => Panic msg.

Declare Scope fs_scope.
Delimit Scope fs_scope with fs.
Notation "x <- m ; k" := (bind m (fun x => k))
  (at level 20, m at level 100, k at level 200, only parsing) : fs_scope.
Notation "m ;; k" := (bind m (fun _ => k))
  (at level 100, k at level 200, only parsing, right associativity) : fs_scope.
Open Scope fs_scope.

Definition get_disk : M disk := fun st => Ok (sdisk st) st.
Definition put_disk (d : disk) : M unit := fun st => Ok tt (set_disk d st).

(** [*ip] and [*ip = v] for a pointer [a] to a [struct inode]. *)
Definition deref (a : Z) : M inode := fun st =>
  match heap st !! a with
  | Some ip => Ok ip st
  | None => Fault
  end.
Definition store (a : Z) (ip : inode) : M unit := fun st =>
  Ok tt (set_heap (<[a := ip]> (heap st)) st).
Definition modify (a : Z) (f : inode -> inode) : M unit :=
  ip <- deref a; store a (f ip).

Definition rcu_delayed (w : work) : M unit := fun st =>
  Ok tt (set_delayed (delayed st ++ [w]) st).

Definition spin {A} : M A := fun _ => Spin.
Definition sleep {A} : M A := fun _ => Sleep.

(** [kmalloc]: a fresh address; the memory is not initialised. *)
Definition kmalloc : M Z := fun st => Ok (brk st) (set_brk (brk st + 1) st).

(** ** Blocks *)

Definition bzero (d : disk) (bno : Z) : disk :=
  memset d bno 0 0 (Z.to_nat BSIZE).

(** The inner loop of [balloc]: the first clear bit among bits
    [bi .. bi + k - 1] of bitmap block [blk]. *)
Fixpoint balloc_scan (d : disk) (blk : Z) (k : nat) (bi : Z) : option Z :=
  match k with
  | O => None
  | S k' =>
      let m := Z.shiftl 1 (bi mod 8) in
      if Z.land (rd d blk (bi / 8)) m =? 0 then Some bi
      else balloc_scan d blk k' (bi + 1)
  end.

(** The outer loop of [balloc], [k] bitmap blocks from block number [b] on
    ([b] advances by [BPB] while [b < sb.size]). *)
Fixpoint balloc_chunks (k : nat) (d : disk) (sb : superblock) (b : Z)
  : option (Z * disk) :=
  match k with
  | O => None
  | S k' =>
      let blk := BBLOCK b (sb_ninodes sb) in
      match balloc_scan d blk (Z.to_nat BPB) 0 with
      | Some bi =>
          let m := Z.shiftl 1 (bi mod 8) in
          Some (u32 (b + bi),
                wr d blk (bi / 8) (Z.lor (rd d blk (bi / 8)) m))
      | None => balloc_chunks k' d sb (b + BPB)
      end
  end.

(** Number of turns of [for(b = 0; b < size; b += BPB)]. *)
Definition nchunks (sz : Z) : nat := Z.to_nat ((sz + BPB - 1) / BPB).

Definition balloc (dv : Z) : M Z := fun st =>
  let d := sdisk st in
  let sb := readsb d in
  match balloc_chunks (nchunks (sb_size sb)) d sb 0 with
  | Some (b, d') => Ok b (set_disk d' st)
  | None => Panic "balloc: out of blocks"
  end.

Definition bfree (dv b : Z) : M unit := fun st =>
  let d := bzero (sdisk st) b in
  let sb := readsb d in
  let blk := BBLOCK b (sb_ninodes sb) in
  let bi := b mod BPB in
  let m := Z.shiftl 1 (bi mod 8) in
  if Z.land (rd d blk (bi / 8)) m =? 0 then Panic "freeing free block"
  else Ok tt (set_disk
                (wr d blk (bi / 8) (Z.land (rd d blk (bi / 8)) (Z.lnot m))) st).

(** ** The inode name space

    Modelled from the spec: [ns.c] is not under src/.  The index supports
    lookup, insert (fails if the key is present), remove, and enumerate, which
    visits every entry and returns the first non-null result.  Entries are
    kept newest first. *)

Fixpoint ns_lookup (ns : list (Z * Z)) (key : Z) : option Z :=
  match ns with
  | [] => None
  | (k, a) :: ns' => if k =? key then Some a else ns_lookup ns' key
  end.

Definition ns_insert (ns : list (Z * Z)) (key a : Z) : option (list (Z * Z)) :=
  match ns_lookup ns key with
  | Some _ => None
  | None => Some ((key, a) :: ns)
  end.

Definition ns_remove (ns : list (Z * Z)) (key a : Z) : list (Z * Z) :=
  filter (fun e => ¬ (e.1 = key ∧ e.2 = a)) ns.

Fixpoint ns_enumerate (ns : list (Z * Z)) (f : Z -> Z -> M (option Z))
  : M (option Z) :=
  match ns with
  | [] => ret None
  | (k, a) :: ns' =>
      r <- f k a;
      match r with
      | Some v => ret (Some v)
      | None => ns_enumerate ns' f
      end
  end.

(** ** Inodes *)

Definition blank (i : Z) : inode :=
  mkInode 0 i 0 0 0 0 0 0 0 0 0 (repeat 0 (Z.to_nat (NDIRECT + 1))).

Fixpoint iinit_loop (k : nat) (i : Z) : M unit :=
  match k with
  | O => ret tt
  | S k' =>
      a <- kmalloc;
      store a (blank (u32 (- i - 1)));;
      (fun st => match ns_insert (ins st) (u32 (- i - 1)) a with
                 | Some ns => Ok tt (set_ins ns st)
                 | None => Ok tt st
                 end);;
      iinit_loop k' (i + 1)
  end.

Definition iinit : M unit := fun st =>
  iinit_loop (Z.to_nat NINODE) 0 (set_ins [] st).

(** Copy inode, which has changed, from memory to disk. *)
Definition iupdate (a : Z) : M unit :=
  ip <- deref a;
  d <- get_disk;
  put_disk (wr_dinode d (inum ip) (dinode_of ip)).

(** The callback of [ns_enumerate] in [iget]. *)
Definition evict (key a : Z) : M (option Z) :=
  ip <- deref a;
  if ref ip =? 0 then ret (Some a) else ret None.

(** What [ilock] does to the inode once it stops waiting; [None] while it
    has to wait. *)
Definition ilock_acquire (writer : bool) (ip : inode) : option inode :=
  if Z.land (flags ip) (Z.lor I_BUSYW (if writer then I_BUSYR else 0)) =? 0
  then Some (set_readbusy (int_inc (readbusy ip))
               (set_flags (Z.lor (flags ip)
                  (Z.lor I_BUSYR (if writer then I_BUSYW else 0))) ip))
  else None.

Definition ilock (a : Z) (writer : bool) : M unit :=
  if a =? 0 then panic "ilock" else
  ip <- deref a;
  if ref ip <? 1 then panic "ilock" else
  match ilock_acquire writer ip with
  | None => sleep
  | Some ip' =>
      store a ip';;
      if Z.land (flags ip') I_VALID =? 0 then panic "ilock" else ret tt
  end.

(** What [iunlock] does to the inode under its spin lock. *)
Definition iunlock_release (ip : inode) : inode :=
  let lastreader := int_dec (readbusy ip) in
  set_flags (Z.land (flags ip)
               (Z.lnot (Z.lor I_BUSYW (if lastreader =? 0 then I_BUSYR else 0))))
            (set_readbusy lastreader ip).

Definition iunlock (a : Z) : M unit :=
  if a =? 0 then panic "iunlock" else
  ip <- deref a;
  if (Z.land (flags ip) (Z.lor I_BUSYR I_BUSYW) =? 0) || (ref ip <? 1)
  then panic "iunlock"
  else store a (iunlock_release ip).

(** [iget]'s miss path from [retry_evict] on.  Two of its branches are
    races with other threads: a victim whose [ref] became positive after
    [evict] saw it zero, and an [ns_insert] that fails on a key [ns_lookup]
    has just missed.  A single thread never takes them; both jump back. *)
Definition iget_miss (dv ino : Z) : M Z :=
  ns <- (fun st => Ok (ins st) st);
  v <- ns_enumerate ns evict;
  match v with
  | None => panic "iget out of space"
  | Some victim =>
      modify victim (fun ip => set_flags (Z.lor (flags ip) I_FREE) ip);;
      vp <- deref victim;
      if 0 <? ref vp then
        modify victim
          (fun ip => set_flags (Z.land (flags ip) (Z.lnot I_FREE)) ip);;
        spin
      else
        (fun st => Ok tt (set_ins (ns_remove (ins st) (inum vp) victim) st));;
        rcu_delayed (KmFree victim);;
        a <- kmalloc;
        store a (mkInode dv ino 1 (Z.lor I_BUSYR I_BUSYW) 1 0 0 0 0 0 0
                   (repeat 0 (Z.to_nat (NDIRECT + 1))));;
        ns' <- (fun st => Ok (ns_insert (ins st) ino a) st);
        match ns' with
        | None => rcu_delayed (KmFree a);; spin
        | Some l =>
            (fun st => Ok tt (set_ins l st));;
            d <- get_disk;
            let di := rd_dinode d ino in
            modify a (fun ip =>
              mkInode (dev ip) (inum ip) (ref ip)
                      (flags ip) (readbusy ip) (d_gen di) (d_type di)
                      (d_major di) (d_minor di) (d_nlink di) (d_size di)
                      (d_addrs di));;
            modify a (fun ip => set_flags (Z.lor (flags ip) I_VALID) ip);;
            iunlock a;;
            ret a
        end
  end.

(** Find the inode with number [ino] on device [dv] and return the
    in-memory copy.  On a hit whose entry carries [I_FREE] the code undoes
    the increment and jumps to [retry]; with no other thread the state is the
    one it started from, so the run spins.  An entry that is not yet
    [I_VALID] makes the caller sleep. *)
Definition iget (dv ino : Z) : M Z :=
  ns <- (fun st => Ok (ins st) st);
  match ns_lookup ns ino with
  | Some a =>
      ip <- deref a;
      if negb (dev ip =? dv) then panic "iget dev mismatch" else
      store a (set_ref (int_inc (ref ip)) ip);;
      if negb (Z.land (flags ip) I_FREE =? 0) then
        modify a (fun ip => set_ref (int_dec (ref ip)) ip);;
        spin
      else if Z.land (flags ip) I_VALID =? 0 then sleep
      else ret a
  | None => iget_miss dv ino
  end.

(** Increment reference count for [ip]. *)
Definition idup (a : Z) : M Z :=
  modify a (fun ip => set_ref (int_inc (ref ip)) ip);; ret a.

(** Modelled from the spec: [rcu.c] is not under src/.  Work handed to
    [rcu_delayed] runs once every reader section that was active has ended;
    [rcu_gc] is that moment. *)
Definition run_work (w : work) : M unit :=
  match w with
  | KmFree a => fun st => Ok tt (set_heap (delete a (heap st)) st)
  | BFree dv b => bfree dv b
  end.

Fixpoint run_works (l : list work) : M unit :=
  match l with
  | [] => ret tt
  | w :: l' => run_work w;; run_works l'
  end.

Definition rcu_gc : M unit := fun st =>
  run_works (delayed st) (set_delayed [] st).

(** ** Inode contents *)

(** The first loop of [itrunc]: direct blocks [i .. i + k - 1]. *)
Fixpoint itrunc_direct (k : nat) (a i : Z) : M unit :=
  match k with
  | O => ret tt
  | S k' =>
      ip <- deref a;
      (if aget (addrs ip) i =? 0 then ret tt
       else rcu_delayed (BFree (dev ip) (aget (addrs ip) i));;
            store a (set_addrs (aset (addrs ip) i 0) ip));;
      itrunc_direct k' a (i + 1)
  end.

(** The second loop of [itrunc]: entries [j .. j + k - 1] of the indirect
    block [blk]. *)
Fixpoint itrunc_indirect (k : nat) (dv blk j : Z) : M unit :=
  match k with
  | O => ret tt
  | S k' =>
      d <- get_disk;
      (if rd32 d blk (4 * j) =? 0 then ret tt
       else rcu_delayed (BFree dv (rd32 d blk (4 * j))));;
      itrunc_indirect k' dv blk (j + 1)
  end.

(** Truncate inode (discard contents). *)
Definition itrunc (a : Z) : M unit :=
  itrunc_direct (Z.to_nat NDIRECT) a 0;;
  ip <- deref a;
  (if aget (addrs ip) NDIRECT =? 0 then ret tt
   else itrunc_indirect (Z.to_nat NINDIRECT) (dev ip)
          (aget (addrs ip) NDIRECT) 0;;
        rcu_delayed (BFree (dev ip) (aget (addrs ip) NDIRECT));;
        store a (set_addrs (aset (addrs ip) NDIRECT 0) ip));;
  modify a (set_size 0);;
  iupdate a.

(** The busy-flag transitions of [iput]'s teardown. *)
Definition iput_enter (ip : inode) : inode :=
  set_readbusy (int_inc (readbusy ip))
    (set_flags (Z.lor (flags ip) (Z.lor I_BUSYR I_BUSYW)) ip).
Definition iput_exit (ip : inode) : inode :=
  set_readbusy (int_dec (readbusy ip))
    (set_flags (Z.land (flags ip) (Z.lnot (Z.lor I_BUSYR I_BUSYW))) ip).

(** Caller holds reference to unlocked [ip].  Drop reference. *)
Definition iput (a : Z) : M unit :=
  ip <- deref a;
  store a (set_ref (int_dec (ref ip)) ip);;
  if int_dec (ref ip) =? 0 then
    ip <- deref a;
    if (ref ip =? 0) && (nlink ip =? 0) then
      if negb (Z.land (flags ip) (Z.lor I_BUSYR I_BUSYW) =? 0)
      then panic "iput busy"
      else if Z.land (flags ip) I_VALID =? 0 then panic "iput not valid"
      else
        store a (iput_enter ip);;
        itrunc a;;
        modify a (fun ip =>
          set_gen (u32 (gen ip + 1))
            (set_minor 0 (set_major 0 (set_type 0 ip))));;
        iupdate a;;
        modify a iput_exit
    else ret tt
  else ret tt.

(** Common idiom: unlock, then put. *)
Definition iunlockput (a : Z) : M unit := iunlock a;; iput a.

(** The loop of [ialloc] over [k] inode numbers from [ino] on. *)
Fixpoint ialloc_loop (k : nat) (dv ty ino : Z) : M Z :=
  match k with
  | O => panic "ialloc: no inodes"
  | S k' =>
      d <- get_disk;
      let seemsfree := d_type (rd_dinode d ino) =? 0 in
      if seemsfree then
        a <- iget dv ino;
        ilock a true;;
        ip <- deref a;
        if type ip =? 0 then
          store a (set_gen (u32 (gen ip + 1)) (set_type ty ip));;
          if negb (nlink ip =? 0) || negb (size ip =? 0)
             || negb (aget (addrs ip) 0 =? 0)
          then panic "ialloc not zeroed"
          else iupdate a;; ret a
        else
          iunlockput a;;
          ialloc_loop k' dv ty (ino + 1)
      else ialloc_loop k' dv ty (ino + 1)
  end.

(** Allocate a new inode with the given type on device [dv].  Returns a
    locked inode. *)
Definition ialloc (dv ty : Z) : M Z :=
  d <- get_disk;
  ialloc_loop (Z.to_nat (sb_ninodes (readsb d) - 1)) dv ty 1.

(** Return the disk block address of the [bn]th block in inode [a].  If
    there is no such block, [bmap] allocates one. *)
Definition bmap (a bn : Z) : M Z :=
  ip <- deref a;
  if bn <? NDIRECT then
    if aget (addrs ip) bn =? 0 then
      b <- balloc (dev ip);
      store a (set_addrs (aset (addrs ip) bn b) ip);;
      ret b
    else ret (aget (addrs ip) bn)
  else
    let bn := bn - NDIRECT in
    if bn <? NINDIRECT then
      addr <- (if aget (addrs ip) NDIRECT =? 0 then
                 b <- balloc (dev ip);
                 store a (set_addrs (aset (addrs ip) NDIRECT b) ip);;
                 ret b
               else ret (aget (addrs ip) NDIRECT));
      d <- get_disk;
      if rd32 d addr (4 * bn) =? 0 then
        b <- balloc (dev ip);
        d' <- get_disk;
        put_disk (wr32 d' addr (4 * bn) b);;
        ret b
      else ret (rd32 d addr (4 * bn))
    else panic "bmap: out of range".

(** Modelled from the spec: the driver table [devsw] is filled by drivers
    outside this file ([NDEV] slots, from [param.h]).  No driver is
    registered here, so a device inode is refused. *)
Definition NDEV : Z := 10.
Definition devsw_read (mj : Z) : option (Z -> Z -> M (Z * list Z)) := None.
Definition devsw_write (mj : Z) : option (Z -> list Z -> Z -> M Z) := None.

(** The copy loop of [readi]; [dst] collects the bytes copied so far. *)
Fixpoint readi_loop (fuel : nat) (a tot off n : Z) (dst : list Z)
  : M (list Z) :=
  if tot <? n then
    match fuel with
    | O => spin
    | S fuel' =>
        b <- bmap a (off / BSIZE);
        d <- get_disk;
        let m := Z.min (n - tot) (BSIZE - off mod BSIZE) in
        readi_loop fuel' a (u32 (tot + m)) (u32 (off + m)) n
                   (dst ++ rds d b (off mod BSIZE) (Z.to_nat m))
    end
  else ret dst.

(** Read data from inode: the value returned and the bytes left in [dst]. *)
Definition readi (a off n : Z) : M (Z * list Z) :=
  ip <- deref a;
  if type ip =? T_DEV then
    match (if (major ip <? 0) || (NDEV <=? major ip) then None
           else devsw_read (major ip)) with
    | None => ret (-1, [])
    | Some f => f a n
    end
  else if (size ip <? off) || (u32 (off + n) <? off) then ret (-1, [])
  else
    let n := if size ip <? u32 (off + n) then u32 (size ip - off) else n in
    dst <- readi_loop (Z.to_nat n) a 0 off n [];
    ret (to_int n, dst).

(** The copy loop of [writei]; returns the final [off]. *)
Fixpoint writei_loop (fuel : nat) (a : Z) (src : list Z) (tot off n : Z)
  : M Z :=
  if tot <? n then
    match fuel with
    | O => spin
    | S fuel' =>
        b <- bmap a (off / BSIZE);
        d <- get_disk;
        let m := Z.min (n - tot) (BSIZE - off mod BSIZE) in
        put_disk (wrs d b (off mod BSIZE) (take (Z.to_nat m) src));;
        writei_loop fuel' a (drop (Z.to_nat m) src)
                    (u32 (tot + m)) (u32 (off + m)) n
    end
  else ret off.

(** Write data to inode. *)
Definition writei (a : Z) (src : list Z) (off n : Z) : M Z :=
  ip <- deref a;
  if type ip =? T_DEV then
    match (if (major ip <? 0) || (NDEV <=? major ip) then None
           else devsw_write (major ip)) with
    | None => ret (-1)
    | Some f => f a src n
    end
  else if (size ip <? off) || (u32 (off + n) <? off) then ret (-1)
  else
    let n := if MAXFILE * BSIZE <? u32 (off + n)
             then u32 (MAXFILE * BSIZE - off) else n in
    off' <- writei_loop (Z.to_nat n) a src 0 off n;
    ip <- deref a;
    (if (0 <? n) && (size ip <? off') then
       store a (set_size off' ip);; iupdate a
     else ret tt);;
    ret (to_int n).

(** ** Directories *)

(** Modelled from the spec: [string.c] is not under src/.  [strncmp] is the
    bounded string compare, [strncpy] the bounded copy that pads with NULs.
    A [char*] is the list of the bytes it points at; past the end of the
    list it reads NUL. *)
Fixpoint strncmp (p q : list Z) (n : nat) : Z :=
  match n with
  | O => 0
  | S n' =>
      let a := hd 0 p in
      let b := hd 0 q in
      if negb (a =? 0) && (a =? b) then strncmp (tl p) (tl q) n'
      else a - b
  end.

Fixpoint strncpy (t : list Z) (n : nat) : list Z :=
  match n with
  | O => []
  | S n' =>
      if hd 0 t =? 0 then repeat 0 n
      else hd 0 t :: strncpy (tl t) n'
  end.

Definition namecmp (s t : list Z) : Z := strncmp s t (Z.to_nat DIRSIZ).

(** The inner loop of [dirlookup]: [k] directory entries of block [b] from
    byte [o] on.  The result is the byte index and the [inum] of the first
    entry in use whose name matches. *)
Fixpoint dirscan (d : disk) (b : Z) (name : list Z) (k : nat) (o : Z)
  : option (Z * Z) :=
  match k with
  | O => None
  | S k' =>
      if rd16 d b o =? 0 then dirscan d b name k' (o + DIRENT)
      else if namecmp name (rds d b (o + 2) (Z.to_nat DIRSIZ)) =? 0
           then Some (o, rd16 d b o)
           else dirscan d b name k' (o + DIRENT)
  end.

(** Number of turns of [for(off = 0; off < size; off += step)]. *)
Definition turns (sz step : Z) : nat := Z.to_nat ((sz + step - 1) / step).

(** The outer loop of [dirlookup]: [k] blocks from byte [off] on. *)
Fixpoint dirlookup_loop (k : nat) (dp : Z) (name : list Z) (off : Z)
  : M (option (Z * Z)) :=
  match k with
  | O => ret None
  | S k' =>
      b <- bmap dp (off / BSIZE);
      d <- get_disk;
      match dirscan d b name (Z.to_nat (BSIZE / DIRENT)) 0 with
      | Some (o, i) => ret (Some (u32 (off + o), i))
      | None => dirlookup_loop k' dp name (off + BSIZE)
      end
  end.

(** Look for a directory entry in a directory.  The result is the inode and,
    when [poff] is wanted, the byte offset stored through it. *)
Definition dirlookup (dp : Z) (name : list Z) (poff : bool)
  : M (option (Z * option Z)) :=
  ip <- deref dp;
  if negb (type ip =? T_DIR) then panic "dirlookup not DIR" else
  r <- dirlookup_loop (turns (size ip) BSIZE) dp name 0;
  match r with
  | Some (o, i) =>
      c <- iget (dev ip) i;
      ret (Some (c, if poff then Some o else None))
  | None => ret None
  end.

(** The scan of [dirlink] for an empty entry: [k] entries from [off] on; the
    result is the offset the loop ends with. *)
Fixpoint dirlink_scan (k : nat) (dp off : Z) : M Z :=
  match k with
  | O => ret off
  | S k' =>
      r <- readi dp off DIRENT;
      if negb (r.1 =? DIRENT) then panic "dirlink read"
      else if nth 0 r.2 0 + 256 * nth 1 r.2 0 =? 0 then ret off
      else dirlink_scan k' dp (off + DIRENT)
  end.

(** The bytes of a [struct dirent]. *)
Definition dirent_bytes (name : list Z) (ino : Z) : list Z :=
  ino mod 256 :: ino / 256 mod 256 :: strncpy name (Z.to_nat DIRSIZ).

(** Write a new directory entry (name, inum) into the directory [dp]. *)
Definition dirlink (dp : Z) (name : list Z) (ino : Z) : M Z :=
  r <- dirlookup dp name false;
  match r with
  | Some (c, _) => iput c;; ret (-1)
  | None =>
      ip <- deref dp;
      off <- dirlink_scan (turns (size ip) DIRENT) dp 0;
      w <- writei dp (dirent_bytes name ino) off DIRENT;
      if negb (w =? DIRENT) then panic "dirlink" else ret 0
  end.

(** ** Paths *)

Definition slash : Z := 47.

(** [while( *path == '/') path++] *)
Fixpoint skip_slashes (path : list Z) : list Z :=
  match path with
  | c :: p => if c =? slash then skip_slashes p else path
  | [] => []
  end.

(** [while( *path != '/' && *path != 0) path++] *)
Fixpoint skip_name (path : list Z) : list Z :=
  match path with
  | c :: p => if negb (c =? slash) && negb (c =? 0) then skip_name p else path
  | [] => []
  end.

(** [memmove(dst, src, n)] on character buffers. *)
Definition bufcpy (dst src : list Z) (n : nat) : list Z :=
  take n src ++ drop n dst.

(** Copy the next path element from [path] into [name]; the result is the
    rest of the path and the new content of the buffer [name], or [None]
    for the null pointer. *)
Definition skipelem (path name : list Z) : option (list Z * list Z) :=
  let path := skip_slashes path in
  if hd 0 path =? 0 then None else
  let s := path in
  let path := skip_name path in
  let len := Z.of_nat (length s) - Z.of_nat (length path) in
  let name' :=
    if DIRSIZ <=? len then bufcpy name s (Z.to_nat DIRSIZ)
    else <[Z.to_nat len := 0]> (bufcpy name s (Z.to_nat len)) in
  Some (skip_slashes path, name').

(** * Specification-level definitions *)

(** Ranges of the C integer types. *)
Definition uint (x : Z) : Prop := 0 <= x < WORD.
Definition short (x : Z) : Prop := -32768 <= x < 32768.

(** ** What [itrunc] leaves behind *)
Fixpoint clear_range (l : list Z) (i : Z) (k : nat) : list Z :=
  match k with
  | O => l
  | S k' => clear_range (aset l i 0) (i + 1) k'
  end.

Fixpoint direct_frees (dv : Z) (l : list Z) (i : Z) (k : nat) : list work :=
  match k with
  | O => []
  | S k' => (if aget l i =? 0 then [] else [BFree dv (aget l i)])
              ++ direct_frees dv l (i + 1) k'
  end.

Fixpoint indirect_frees (dv : Z) (d : disk) (blk j : Z) (k : nat) : list work :=
  match k with
  | O => []
  | S k' => (if rd32 d blk (4 * j) =? 0 then [] else [BFree dv (rd32 d blk (4 * j))])
              ++ indirect_frees dv d blk (j + 1) k'
  end.

Definition itrunc_frees (d : disk) (ip : inode) : list work :=
  direct_frees (dev ip) (addrs ip) 0 (Z.to_nat NDIRECT)
  ++ (if aget (addrs ip) NDIRECT =? 0 then []
      else indirect_frees (dev ip) d (aget (addrs ip) NDIRECT) 0 (Z.to_nat NINDIRECT)
           ++ [BFree (dev ip) (aget (addrs ip) NDIRECT)]).

Definition truncated (ip : inode) : inode :=
  set_size 0 (set_addrs (aset (clear_range (addrs ip) 0 (Z.to_nat NDIRECT)) NDIRECT 0) ip).

(** ** The block map of a file, read without allocating

    [baddr d ip bn] is the address [bmap] finds for block [bn] when it has
    nothing to allocate; zero stands for a block that is not there. *)
Definition baddr (d : disk) (ip : inode) (bn : Z) : Z :=
  if bn <? NDIRECT then aget (addrs ip) bn
  else if aget (addrs ip) NDIRECT =? 0 then 0
       else rd32 d (aget (addrs ip) NDIRECT) (4 * (bn - NDIRECT)).

(** The inode is held by nobody: neither busy flag is set. *)
Definition unlocked (ip : inode) : Prop :=
  Z.land (flags ip) (Z.lor I_BUSYR I_BUSYW) = 0.

(** [I_VALID] is set: the entry has been filled from disk, as every inode
    that [iget] has returned is. *)
Definition valid (ip : inode) : Prop := Z.land (flags ip) I_VALID <> 0.

(** The inode [iput] leaves behind when it frees it on disk. *)
Definition freed (ip : inode) : inode :=
  set_gen (u32 (gen ip + 1))
    (set_minor 0 (set_major 0 (set_type 0 (truncated (set_ref 0 ip))))).

(** A cached regular file with two blocks, for the examples. *)
Definition wit_inode (r nl : Z) : inode :=
  mkInode 1 2 r I_VALID 0 7 T_FILE 0 0 nl 1000
          [40; 41; 0; 0; 0; 0; 0; 0; 0; 0; 0; 0; 0].
Definition wit_state (r nl : Z) : state :=
  mkState ∅ {[ 9 := wit_inode r nl ]} 10 [(2, 9)] [].

(** ** The inode lock as a transition system

    Many threads work on one in-memory inode; each transition below is one
    critical section under the inode's spin lock.  Two ghost components
    record who holds the logical lock: the number of callers between their
    [ilock] (or the [iget] that created the entry) and their [iunlock], and
    whether an [iput] is between the two halves of its teardown.  The
    callers are threads, and there are fewer of them than an [int] can
    count: [ilock] is not entered by a caller that would be the
    [INT_MAX + 1]st holder, where the counter [readbusy] would wrap. *)
Definition busyr (ip : inode) : Prop := Z.land (flags ip) I_BUSYR <> 0.
Definition busyw (ip : inode) : Prop := Z.land (flags ip) I_BUSYW <> 0.

Record lockst := mkLock { l_ino : inode; l_holders : Z; l_teardown : bool }.

(** The entries [iinit] and [iget] create. *)
Inductive lock_init : lockst -> Prop :=
| init_blank i : lock_init (mkLock (blank i) 0 false)
| init_iget ip :
    flags ip = Z.lor I_BUSYR I_BUSYW -> readbusy ip = 1 ->
    lock_init (mkLock ip 1 false).

Inductive lock_step : lockst -> lockst -> Prop :=
| step_ilock w ip ip' h t :
    h < INT_MAX ->
    1 <= ref ip ->
    ilock_acquire w ip = Some ip' ->
    lock_step (mkLock ip h t) (mkLock ip' (h + 1) t)
| step_iunlock ip h t :
    1 <= h ->
    Z.land (flags ip) (Z.lor I_BUSYR I_BUSYW) <> 0 -> 1 <= ref ip ->
    lock_step (mkLock ip h t) (mkLock (iunlock_release ip) (h - 1) t)
| step_iput_enter ip h :
    Z.land (flags ip) (Z.lor I_BUSYR I_BUSYW) = 0 ->
    lock_step (mkLock ip h false) (mkLock (iput_enter ip) h true)
| step_iput_exit ip h :
    lock_step (mkLock ip h true) (mkLock (iput_exit ip) h false)
| step_set_flag ip h t m :
    m = I_VALID \/ m = I_FREE ->
    lock_step (mkLock ip h t) (mkLock (set_flags (Z.lor (flags ip) m) ip) h t)
| step_clear_free ip h t :
    lock_step (mkLock ip h t)
              (mkLock (set_flags (Z.land (flags ip) (Z.lnot I_FREE)) ip) h t)
| step_fields ip ip' h t :
    flags ip' = flags ip -> readbusy ip' = readbusy ip ->
    lock_step (mkLock ip h t) (mkLock ip' h t).

Inductive lock_reach : lockst -> Prop :=
| reach_init s : lock_init s -> lock_reach s
| reach_step s s' : lock_reach s -> lock_step s s' -> lock_reach s'.

(** The invariant that carries the induction. *)
Definition lock_inv (s : lockst) : Prop :=
  let ip := l_ino s in
  0 <= l_holders s <= INT_MAX /\
  readbusy ip = l_holders s + (if l_teardown s then 1 else 0) /\
  (busyr ip <-> 1 <= readbusy ip) /\
  (busyw ip -> readbusy ip = 1) /\
  (l_teardown s = true -> busyw ip).

(** The entry [iget] has just created, held by its creator; and the same
    entry once the creator has unlocked it and two readers have locked
    it. *)
Definition wit_lock0 : inode :=
  mkInode 1 2 1 (Z.lor I_BUSYR I_BUSYW) 1 0 0 0 0 0 0 [].
Definition wit_read2 : inode := mkInode 1 2 1 I_BUSYR 2 0 0 0 0 0 0 [].

(** ** Path elements *)

(** A character of a path element: neither a slash nor the terminator. *)
Definition elem_char (c : Z) : Prop := c <> slash /\ c <> 0.

(** The string at [p] does not start with a slash. *)
Definition no_slash (p : list Z) : Prop := hd 0 p <> slash.

(** ** The content of a file *)

(** Byte [i] of the file, read through the block map. *)
Definition fbyte (d : disk) (ip : inode) (i : Z) : Z :=
  rd d (baddr d ip (i / BSIZE)) (i mod BSIZE).

(** The [n] bytes of the file from byte [off] on. *)
Definition fbytes (d : disk) (ip : inode) (off : Z) (n : nat) : list Z :=
  map (fun k => fbyte d ip (off + Z.of_nat k)) (seq 0 n).

(** Every byte position in [lo, hi) lies in a block the file has. *)
Definition mapped (d : disk) (ip : inode) (lo hi : Z) : Prop :=
  forall i, lo <= i < hi -> i / BSIZE < MAXFILE /\ baddr d ip (i / BSIZE) <> 0.

(** ** The block bitmap *)

(** Bit [b] of the bitmap, where [balloc] and [bfree] look for it. *)
Definition inuse (d : disk) (b : Z) : bool :=
  negb (Z.land (rd d (BBLOCK b (sb_ninodes (readsb d))) (b mod BPB / 8))
               (Z.shiftl 1 (b mod BPB mod 8)) =? 0).

(** The disk after [balloc] has marked block [b]. *)
Definition setbit (d : disk) (b : Z) : disk :=
  wr d (BBLOCK b (sb_ninodes (readsb d))) (b mod BPB / 8)
     (Z.lor (rd d (BBLOCK b (sb_ninodes (readsb d))) (b mod BPB / 8))
            (Z.shiftl 1 (b mod BPB mod 8))).

(** The block numbers whose bits [balloc] scans, and the first block after
    the bitmap. *)
Definition nbits (d : disk) : Z :=
  Z.of_nat (nchunks (sb_size (readsb d))) * BPB.
Definition datastart (d : disk) : Z :=
  sb_ninodes (readsb d) / IPB + 3 + Z.of_nat (nchunks (sb_size (readsb d))).

(** Number of clear bits among the first [n]. *)
Fixpoint count_free (d : disk) (n : nat) : nat :=
  match n with
  | O => O
  | S n' => (if inuse d (Z.of_nat n') then 0 else 1) + count_free d n'
  end.
Definition nfree (d : disk) : nat := count_free d (Z.to_nat (nbits d)).

(** The bitmap is sound: its bits fit an [int], the blocks before the data
    area are marked, and a block that is not marked holds zeros (as [mkfs]
    and [bfree] leave it). *)
Record fs_ok (d : disk) : Prop := {
  fs_bits : nbits d <= 2147483648;
  fs_meta : forall b, 0 <= b < datastart d -> b < nbits d -> inuse d b = true;
  fs_zero : forall b i, 0 <= b < nbits d -> inuse d b = false -> rd d b i = 0
}.

(** ** A file in a sound file system *)

Definition indirect (ip : inode) : Z := aget (addrs ip) NDIRECT.

(** A block of the data area that is marked in the bitmap. *)
Definition datablock (d : disk) (x : Z) : Prop :=
  datastart d <= x < nbits d /\ inuse d x = true.

(** The inode and its blocks fit the bitmap: the blocks of the file and its
    indirect block are marked blocks of the data area, no block is used
    twice, every byte below [size] is in a block the file has, and the inode
    number is one of the inode table. *)
Record file_ok (d : disk) (ip : inode) : Prop := {
  fo_len : length (addrs ip) = Z.to_nat (NDIRECT + 1);
  fo_data : forall bn, 0 <= bn < MAXFILE -> baddr d ip bn <> 0 ->
            datablock d (baddr d ip bn) /\ baddr d ip bn <> indirect ip;
  fo_inj : forall bn bn', 0 <= bn < MAXFILE -> 0 <= bn' < MAXFILE ->
           baddr d ip bn <> 0 -> baddr d ip bn = baddr d ip bn' -> bn = bn';
  fo_ind : indirect ip <> 0 -> datablock d (indirect ip);
  fo_size : 0 <= size ip <= MAXFILE * BSIZE;
  fo_mapped : mapped d ip 0 (size ip);
  fo_inum : 0 <= inum ip < sb_ninodes (readsb d)
}.

(** A marked, zeroed block of the data area that the file does not use:
    what [balloc] has just handed out. *)
Record unowned (d : disk) (ip : inode) (x : Z) : Prop := {
  un_data : datablock d x;
  un_blocks : forall bn, 0 <= bn < MAXFILE -> baddr d ip bn <> x;
  un_ind : indirect ip <> x;
  un_zero : forall i, rd d x i = 0
}.

(** [wrote d ip d' ip' lo src]: from disk [d] and inode [ip] the file went to
    [d'] and [ip'] by mapping new blocks and storing [src] at byte [lo]:
    blocks it had keep their address, bytes outside the stored range keep
    their value, bytes of new blocks outside the range are zero. *)
Record wrote (d : disk) (ip : inode) (d' : disk) (ip' : inode)
             (lo : Z) (src : list Z) : Prop := {
  w_fs : fs_ok d';
  w_file : file_ok d' ip';
  w_sb : readsb d' = readsb d;
  w_fields : ip' = set_addrs (addrs ip') ip;
  w_keep : forall bn, 0 <= bn < MAXFILE -> baddr d ip bn <> 0 ->
           baddr d' ip' bn = baddr d ip bn;
  w_old : forall i, 0 <= i < MAXFILE * BSIZE ->
          ~ (lo <= i < lo + Z.of_nat (length src)) ->
          baddr d ip (i / BSIZE) <> 0 -> fbyte d' ip' i = fbyte d ip i;
  w_new : forall i, 0 <= i < MAXFILE * BSIZE ->
          ~ (lo <= i < lo + Z.of_nat (length src)) ->
          baddr d ip (i / BSIZE) = 0 -> baddr d' ip' (i / BSIZE) <> 0 ->
          fbyte d' ip' i = 0;
  w_src : forall i, lo <= i < lo + Z.of_nat (length src) ->
          baddr d' ip' (i / BSIZE) <> 0 /\
          fbyte d' ip' i = nth (Z.to_nat (i - lo)) src 0 mod 256;
  w_free : (nfree d' <= nfree d)%nat;
  w_range : 0 <= lo /\ lo + Z.of_nat (length src) <= MAXFILE * BSIZE
}.

(** One more block is needed while the indirect block is missing. *)
Definition slack (ip : inode) : nat := if indirect ip =? 0 then 1%nat else O.

(** Number of blocks that bytes [off .. off + r - 1] lie in. *)
Definition span (off r : Z) : Z :=
  if r =? 0 then 0 else (off + r - 1) / BSIZE - off / BSIZE + 1.

(** Enough clear bits for a write of [r] bytes at [off]: one per block, and
    one for the indirect block while the file has none. *)
Definition room (d : disk) (ip : inode) (off r : Z) : Prop :=
  (Z.to_nat (span off r) + slack ip <= nfree d)%nat.

(** [written d ip d' ip' off src]: what a [writei] of [src] at [off] that
    does not refuse leaves behind.  Only [size] and the block map of the
    inode change; [size] becomes the end of the written range when that is
    beyond it, and then the inode has gone to disk through [iupdate]. *)
Record written (d : disk) (ip : inode) (d' : disk) (ip' : inode)
               (off : Z) (src : list Z) : Prop := {
  wn_fs : fs_ok d';
  wn_file : file_ok d' ip';
  wn_sb : readsb d' = readsb d;
  wn_size : size ip' = Z.max (size ip) (off + Z.of_nat (length src));
  wn_fields : ip' = set_size (size ip') (set_addrs (addrs ip') ip);
  wn_keep : forall bn, 0 <= bn < MAXFILE -> baddr d ip bn <> 0 ->
            baddr d' ip' bn = baddr d ip bn;
  wn_old : forall i, 0 <= i < MAXFILE * BSIZE ->
           ~ (off <= i < off + Z.of_nat (length src)) ->
           baddr d ip (i / BSIZE) <> 0 -> fbyte d' ip' i = fbyte d ip i;
  wn_new : forall i, 0 <= i < MAXFILE * BSIZE ->
           ~ (off <= i < off + Z.of_nat (length src)) ->
           baddr d ip (i / BSIZE) = 0 -> baddr d' ip' (i / BSIZE) <> 0 ->
           fbyte d' ip' i = 0;
  wn_src : forall i, off <= i < off + Z.of_nat (length src) ->
           fbyte d' ip' i = nth (Z.to_nat (i - off)) src 0 mod 256;
  wn_free : (nfree d' <= nfree d)%nat;
  wn_disk : size ip < off + Z.of_nat (length src) ->
            exists d0, d' = wr_dinode d0 (inum ip) (dinode_of ip')
}.

(** ** A small file system for the examples
    1024 blocks and 200 inodes: the inode table is in blocks 2 .. 30, the
    bitmap in block 31 with the bits of blocks 0 .. 31 set, and inode 1 is
    the root directory, empty. *)
Definition mkfs : disk :=
  let d := wr32 (wr32 (wr32 ∅ 1 0 1024) 1 4 992) 1 8 200 in
  let d := wrs d 31 0 [255; 255; 255; 255] in
  wr_dinode d 1 (mkDinode T_DIR 0 0 1 0 0 (repeat 0 13)).

(** A regular file without content, cached at address [10]. *)
Definition newfile : inode :=
  mkInode 1 2 1 (Z.lor I_VALID (Z.lor I_BUSYR I_BUSYW)) 1 0 T_FILE 0 0 1 0
          (repeat 0 13).
Definition st_new : state := mkState mkfs {[ 10 := newfile ]} 11 [(2, 10)] [].

(** The bitmap check that [fs_ok] asks for, as a program. *)
Definition fs_okb (d : disk) : bool :=
  (nbits d <=? 2147483648)
  && forallb (fun k => inuse d (Z.of_nat k)) (seq 0 (Z.to_nat (datastart d)))
  && forallb (fun kv => (kv.2 mod 256 =? 0) || (kv.1.1 <? datastart d))
             (map_to_list d).

(** The value a run returns, when it returns. *)
Definition value {A} (r : result A) : option A :=
  match r with Ok x _ => Some x | _ => None end.

(** Write 8192 bytes [0x41] at offset 0 of a file that [ialloc] has just
    made, then read them back: the count written, the size and block map
    after the write, and what [readi] returns. *)
Definition write_read_8192 : M (Z * Z * list Z * (Z * list Z)) :=
  iinit;;
  a <- ialloc ROOTDEV T_FILE;
  r <- writei a (repeat 65 (Z.to_nat 8192)) 0 8192;
  ip <- deref a;
  x <- readi a 0 8192;
  ret (r, size ip, addrs ip, x).

(** The state after the three bytes [1; 2; 3] went to the empty file. *)
Definition st_123 : state :=
  match writei 10 [1; 2; 3] 0 3 st_new with Ok _ s => s | _ => st_new end.

(** ** The content of a directory
    Entry [k] is the [struct dirent] in bytes [k * DIRENT ..] of the file. *)
Definition de_inum (d : disk) (ip : inode) (k : Z) : Z :=
  fbyte d ip (k * DIRENT) + 256 * fbyte d ip (k * DIRENT + 1).
Definition de_name (d : disk) (ip : inode) (k : Z) : list Z :=
  fbytes d ip (k * DIRENT + 2) (Z.to_nat DIRSIZ).
(** The entry is in use and has the name. *)
Definition de_match (d : disk) (ip : inode) (name : list Z) (k : Z) : bool :=
  negb (de_inum d ip k =? 0) && (namecmp name (de_name d ip k) =? 0).
(** The first of the [n] entries from [k] on that matches [name]. *)
Fixpoint dir_find (d : disk) (ip : inode) (name : list Z) (n : nat) (k : Z)
  : option Z :=
  match n with
  | O => None
  | S n' => if de_match d ip name k then Some k
            else dir_find d ip name n' (k + 1)
  end.
(** The entries of the directory: those that lie below [size]. *)
Definition nents (ip : inode) : Z := size ip / DIRENT.
(** What the last block holds beyond [size] is free: [balloc] hands out
    zeroed blocks and [writei] leaves [size] after the last byte written. *)
Definition tail_free (d : disk) (ip : inode) : Prop :=
  forall k, nents ip <= k < Z.of_nat (turns (size ip) BSIZE) * (BSIZE / DIRENT) ->
            de_inum d ip k = 0.

(** ** The inode cache
    Every entry of the name space points at an inode with that number. *)
Definition cache_ok (st : state) : Prop :=
  forall k a, In (k, a) (ins st) ->
              exists ip, heap st !! a = Some ip /\ inum ip = k.

(** ** A directory with one entry
    The state a run ends in; the state it began in when it does not end. *)
Definition final {A} (m : M A) (st : state) : state :=
  match m st with Ok _ s => s | _ => st end.

(** The file system of the examples after boot: the cache is set up and the
    root directory is held exclusively.  [iinit] takes the addresses
    1 .. 50, so the root inode is at 51. *)
Definition st_boot : state :=
  final (iinit;; root <- iget ROOTDEV ROOTINO; ilock root true)
        (mkState mkfs ∅ 1 [] []).
Definition root : Z := 51.

(** The name [a], and the root directory after [a] was linked to inode 3. *)
Definition name_a : list Z := [97].
Definition st_a : state := final (dirlink root name_a 3) st_boot.
Definition root_a : inode := default (blank 0) (heap st_a !! root).

(** The checks that [cache_ok] and [tail_free] ask for, as programs. *)
Definition cache_okb (st : state) : bool :=
  forallb (fun e => match heap st !! e.2 with
                    | Some ip => inum ip =? e.1
                    | None => false
                    end) (ins st).
Definition zrange (lo hi : Z) : list Z :=
  map (fun i => lo + Z.of_nat i) (seq 0 (Z.to_nat (hi - lo))).
Definition tail_freeb (d : disk) (ip : inode) : bool :=
  forallb (fun k => de_inum d ip k =? 0)
          (zrange (nents ip)
                  (Z.of_nat (turns (size ip) BSIZE) * (BSIZE / DIRENT))).
Definition mappedb (d : disk) (ip : inode) : bool :=
  forallb (fun bn => negb (baddr d ip bn =? 0))
          (zrange 0 (Z.of_nat (turns (size ip) BSIZE))).

(** The first free entry among the [n] from [k] on, and [k + n] when
    there is none. *)
Fixpoint dir_free (d : disk) (ip : inode) (n : nat) (k : Z) : Z :=
  match n with
  | O => k
  | S n' => if de_inum d ip k =? 0 then k else dir_free d ip n' (k + 1)
  end.
(** The byte offset [dirlink] writes the new entry at. *)
Definition dir_slot (d : disk) (ip : inode) : Z :=
  dir_free d ip (Z.to_nat (nents ip)) 0 * DIRENT.

(** The root directory after boot, and the run of the example: link [a] to
    inode 3, link [a] to inode 4, look [a] up; the results of the two
    [dirlink] and the number of the inode found. *)
Definition root_0 : inode := default (blank 0) (heap st_boot !! root).
Definition link_twice : M (Z * Z * option Z) :=
  r1 <- dirlink root name_a 3;
  r2 <- dirlink root name_a 4;
  l <- dirlookup root name_a false;
  match l with
  | Some (c, _) => cp <- deref c; ret (r1, r2, Some (inum cp))
  | None => ret (r1, r2, None)
  end.

(** ** Allocation of inodes
    The entry [iget] leaves in the cache when it has read inode [ino] from
    disk: one reference, valid, not locked. *)
Definition fresh_inode (dv ino : Z) (di : dinode) : inode :=
  mkInode dv ino 1 I_VALID 0 (d_gen di) (d_type di) (d_major di) (d_minor di)
          (d_nlink di) (d_size di) (d_addrs di).

(** The inode [ialloc] returns, made from the one [iget] gave it. *)
Definition allocated (ty : Z) (ip : inode) : inode :=
  set_gen (u32 (gen ip + 1))
    (set_type ty
       (set_readbusy (readbusy ip + 1)
          (set_flags (Z.lor (flags ip) (Z.lor I_BUSYR I_BUSYW)) ip))).

(** The entry that [ns_enumerate] with [evict] picks. *)
Fixpoint first_unref (h : gmap Z inode) (ns : list (Z * Z)) : option Z :=
  match ns with
  | [] => None
  | (k, a) :: ns' =>
      match h !! a with
      | Some ip => if ref ip =? 0 then Some a else first_unref h ns'
      | None => None
      end
  end.

(** Inode [i] is free and zeroed on disk, as [mkfs] and [iput] leave it, and
    so is its copy in the cache when it has one. *)
Record free_inode (st : state) (i : Z) : Prop := {
  fi_type : d_type (rd_dinode (sdisk st) i) = 0;
  fi_nlink : d_nlink (rd_dinode (sdisk st) i) = 0;
  fi_size : d_size (rd_dinode (sdisk st) i) = 0;
  fi_addrs : d_addrs (rd_dinode (sdisk st) i) = repeat 0 (Z.to_nat (NDIRECT + 1));
  fi_cache : forall a ip, ns_lookup (ins st) i = Some a -> heap st !! a = Some ip ->
             type ip = 0 /\ addrs ip = repeat 0 (Z.to_nat (NDIRECT + 1))
}.

(** ** Freeing blocks
    The disk after [bfree] has cleared the bit of block [b]. *)
Definition clearbit (d : disk) (b : Z) : disk :=
  wr d (BBLOCK b (sb_ninodes (readsb d))) (b mod BPB / 8)
     (Z.land (rd d (BBLOCK b (sb_ninodes (readsb d))) (b mod BPB / 8))
             (Z.lnot (Z.shiftl 1 (b mod BPB mod 8)))).

(** Block [b] holds nothing beyond its [BSIZE] bytes. *)
Definition in_block (d : disk) (b : Z) : Prop :=
  forall i, ~ (0 <= i < BSIZE) -> rd d b i = 0.

(** The state of the examples after [balloc] has handed out block 32, the
    first data block, and the check for [in_block] as a program. *)
Definition st_alloc : state := set_disk (setbit mkfs 32) st_new.
Definition in_blockb (d : disk) (b : Z) : bool :=
  forallb (fun kv => negb (kv.1.1 =? b)
                     || ((0 <=? kv.1.2) && (kv.1.2 <? BSIZE))
                     || (kv.2 mod 256 =? 0))
          (map_to_list d).

(** ** Inodes on disk
    The fields of the inode fit their C types: [short] for [type], [major],
    [minor] and [nlink], [uint] for the others. *)
Record fits (ip : inode) : Prop := {
  ft_type : short (type ip);
  ft_major : short (major ip);
  ft_minor : short (minor ip);
  ft_nlink : short (nlink ip);
  ft_size : uint (size ip);
  ft_gen : uint (gen ip);
  ft_len : length (addrs ip) = Z.to_nat (NDIRECT + 1);
  ft_addrs : Forall uint (addrs ip)
}.

(** A disk whose inode table has one inode beside inode 0, in use. *)
Definition full_disk : disk :=
  wr_dinode (wr32 ∅ 1 8 2) 1 (mkDinode T_DIR 0 0 1 0 0 (repeat 0 13)).

(** The cache of the examples right after [iinit]. *)
Definition st_init : state := final iinit (mkState mkfs ∅ 1 [] []).

(** ** Truncation and reclamation
    The block a piece of delayed work frees. *)
Definition work_block (w : work) : Z :=
  match w with BFree _ b => b | KmFree _ => 0 end.

(** The inode of the file of [st_123], which has one block. *)
Definition ip_123 : inode :=
  match heap st_123 !! 10 with Some ip => ip | None => newfile end.

(** ** Linking, then looking up
    A byte of a name or of a block. *)
Definition is_byte (c : Z) : Prop := 0 <= c < 256.

(** ** The path walker

    Modelled from the spec: the name cache ([nc_lookup], [nc_insert]) and
    the process table ([proc->cwd]) are not under src/; the spec names them
    as interfaces only.  [namex] takes them as its environment: the address
    of the current directory's inode, and the two operations of the name
    cache, which may look at the state and change it as they like.
    [nc_lookup] returns [None] for the null pointer. *)
Record penv := mkPenv {
  cwd : Z;
  nc_lookup : Z -> list Z -> M (option Z);
  nc_insert : Z -> list Z -> Z -> M unit
}.

(** The loop of [namex], [while((path = skipelem(path, name)) != 0)], and
    what follows it.  Every turn but the last shortens [path], so [fuel]
    turns are enough when [fuel] exceeds its length.  The result is the
    pointer returned, [None] for null, and the content of the buffer
    [name]. *)
Fixpoint namex_loop (fuel : nat) (E : penv) (nameiparent : bool) (ip : Z)
         (path name : list Z) : M (option Z * list Z) :=
  match fuel with
  | O => fun _ => Spin
  | S fuel' =>
      match skipelem path name with
      | None =>
          if nameiparent then iput ip;; ret (None, name)
          else ret (Some ip, name)
      | Some (path', name') =>
          next <- (if nameiparent then ret None else nc_lookup E ip name');
          match next with
          | Some nx => namex_loop fuel' E nameiparent nx path' name'
          | None =>
              ilock ip false;;
              i <- deref ip;
              if type i =? 0 then panic "namex" else
              if negb (type i =? T_DIR) then iunlockput ip;; ret (None, name')
              else if nameiparent && (hd 0 path' =? 0)
              then iunlock ip;; ret (Some ip, name')
              else
                r <- dirlookup ip name' false;
                match r with
                | None => iunlockput ip;; ret (None, name')
                | Some (nx, _) =>
                    nc_insert E ip name' nx;;
                    iunlockput ip;;
                    namex_loop fuel' E nameiparent nx path' name'
                end
          end
      end
  end.

(** Look up and return the inode for a path name. *)
Definition namex (E : penv) (path : list Z) (nameiparent : bool)
           (name : list Z) : M (option Z * list Z) :=
  ip <- (if hd 0 path =? slash then iget ROOTDEV ROOTINO else idup (cwd E));
  namex_loop (S (length path)) E nameiparent ip path name.

(** [namei] hands [namex] a local buffer that it has not initialised:
    [buf] is what that memory holds. *)
Definition namei (E : penv) (buf path : list Z) : M (option Z) :=
  r <- namex E path false buf; ret r.1.

Definition nameiparent (E : penv) (path name : list Z)
  : M (option Z * list Z) :=
  namex E path true name.

(** An environment whose name cache holds nothing and keeps nothing. *)
Definition no_cache (c : Z) : penv :=
  mkPenv c (fun _ _ => ret None) (fun _ _ _ => ret tt).

(** The inode [ip] at address [a] is the one [namex] starts from: the
    current directory, or for an absolute path the root directory, which
    the cache has. *)
Definition start_at (E : penv) (path : list Z) (st : state) (a : Z)
           (ip : inode) : Prop :=
  heap st !! a = Some ip /\
  (if hd 0 path =? slash
   then ns_lookup (ins st) ROOTINO = Some a /\ dev ip = ROOTDEV /\
        Z.land (flags ip) I_FREE = 0
   else a = cwd E).

(** A reader can lock the inode at once: it is valid, no writer holds it,
    and [readbusy] counts its readers, fewer than [INT_MAX]. *)
Definition readable (ip : inode) : Prop :=
  valid ip /\ Z.land (flags ip) I_BUSYW = 0 /\
  (readbusy ip = 0 <-> Z.land (flags ip) I_BUSYR = 0) /\
  0 <= readbusy ip < INT_MAX.

(** The example file system once [a] is linked to inode 3 in the root
    directory, the root directory being unlocked again and inode 3 in the
    cache; the root inode is at address 51 and inode 3 at 52. *)
Definition st_dir : state :=
  final (iinit;; r <- iget ROOTDEV ROOTINO; ilock r true;;
         dirlink r name_a 3;; iunlock r;; c <- iget ROOTDEV 3; iput c)
        (mkState mkfs ∅ 1 [] []).
Definition root_d : inode := default (blank 0) (heap st_dir !! 51).
Definition ino3_d : inode := default (blank 0) (heap st_dir !! 52).
Definition path_a : list Z := [slash; 97].

(** ** The last reference to an unlinked file

    The scenario: after boot a file is made by [ialloc], with [nlink] 0 and
    one reference; 1000 bytes are written to it; it is unlocked, and the
    memory of the evicted cache entry is reclaimed.  The inode is at
    address 51. *)
Definition st_file : state :=
  final (iinit;; a <- ialloc ROOTDEV T_FILE; ret tt) (mkState mkfs ∅ 1 [] []).
Definition st_1000 : state :=
  final (writei 51 (repeat 65 1000) 0 1000) st_file.
Definition st_last : state := final (iunlock 51;; rcu_gc) st_1000.
Definition ip_file : inode := default (blank 0) (heap st_file !! 51).
Definition ip_last : inode := default (blank 0) (heap st_last !! 51).

(** * Proofs *)

Ltac consts :=
  change MAXFILE with 140 in *; change NINDIRECT with 128 in *;
  change IPB with 7 in *; change BPB with 4096 in *;
  change DINODE with 68 in *; change DIRENT with 16 in *;
  change NDIRECT with 12 in *; change BSIZE with 512 in *;
  change DIRSIZ with 14 in *; change WORD with 4294967296 in *;
  unfold T_DIR, T_FILE, T_DEV, I_BUSYR, I_BUSYW, I_VALID, I_FREE in *.

Ltac zdiv := consts; Z.div_mod_to_equations; lia.

Lemma rd_range d b i : 0 <= rd d b i < 256.
Proof. unfold rd. apply Z.mod_pos_bound. lia. Qed.

Lemma rd_wr_eq d b i v : rd (wr d b i v) b i = v mod 256.
Proof.
  unfold rd, wr. rewrite lookup_insert_eq. simpl. apply Z.mod_mod. lia.
Qed.

Lemma rd_wr_ne d b i v b' i' :
  b' <> b \/ i' <> i -> rd (wr d b i v) b' i' = rd d b' i'.
Proof.
  intros H. unfold rd, wr. rewrite lookup_insert_ne; [done|].
  intros E. inversion E. lia.
Qed.

Lemma rd_wr d b i v b' i' :
  rd (wr d b i v) b' i' = if decide (b' = b /\ i' = i) then v mod 256 else rd d b' i'.
Proof.
  case_decide as H.
  - destruct H; subst. apply rd_wr_eq.
  - apply rd_wr_ne. lia.
Qed.

Lemma rd_wrs d b i l b' i' :
  rd (wrs d b i l) b' i' =
  if decide (b' = b /\ i <= i' < i + Z.of_nat (length l))
  then nth (Z.to_nat (i' - i)) l 0 mod 256 else rd d b' i'.
Proof.
  revert d i. induction l as [|x l IH]; intros d i; simpl.
  - case_decide; [lia|done].
  - rewrite IH.
    destruct (decide (b' = b /\ i + 1 <= i' < i + 1 + Z.of_nat (length l))) as [H1|H1];
    destruct (decide (b' = b /\ i <= i' < i + Z.of_nat (S (length l)))) as [H2|H2];
    try lia.
    + replace (Z.to_nat (i' - i)) with (S (Z.to_nat (i' - (i + 1)))) by lia. done.
    + assert (i' = i) by lia. subst i'. destruct H2 as [-> _].
      replace (i - i) with 0 by lia. simpl. apply rd_wr_eq.
    + apply rd_wr_ne. lia.
Qed.

Lemma rd16_range d b i : 0 <= rd16 d b i < 65536.
Proof. unfold rd16. pose proof (rd_range d b i). pose proof (rd_range d b (i+1)). lia. Qed.

Lemma rd32_range d b i : 0 <= rd32 d b i < WORD.
Proof.
  unfold rd32, WORD. pose proof (rd_range d b i). pose proof (rd_range d b (i+1)).
  pose proof (rd_range d b (i+2)). pose proof (rd_range d b (i+3)). lia.
Qed.

Lemma rd_wr16 d b i v b' i' :
  rd (wr16 d b i v) b' i' =
  if decide (b' = b /\ i' = i) then v mod 256
  else if decide (b' = b /\ i' = i + 1) then v / 256 mod 256
  else rd d b' i'.
Proof. unfold wr16. rewrite !rd_wr. repeat case_decide; try lia; done. Qed.

Lemma rd_wr32 d b i v b' i' :
  rd (wr32 d b i v) b' i' =
  if decide (b' = b /\ i' = i) then v mod 256
  else if decide (b' = b /\ i' = i + 1) then v / 256 mod 256
  else if decide (b' = b /\ i' = i + 2) then v / 65536 mod 256
  else if decide (b' = b /\ i' = i + 3) then v / 16777216 mod 256
  else rd d b' i'.
Proof. unfold wr32. rewrite !rd_wr. repeat case_decide; try lia; done. Qed.

Lemma rd_wr32_out d b i v b' i' :
  b' <> b \/ i' < i \/ i + 4 <= i' -> rd (wr32 d b i v) b' i' = rd d b' i'.
Proof. intros. rewrite rd_wr32. repeat case_decide; try lia; done. Qed.

Lemma rd16_wr16 d b i v : rd16 (wr16 d b i v) b i = v mod 65536.
Proof.
  unfold rd16. rewrite !rd_wr16. repeat case_decide; try lia.
  Z.div_mod_to_equations; lia.
Qed.

Lemma rd32_wr32 d b i v : rd32 (wr32 d b i v) b i = v mod WORD.
Proof.
  unfold rd32. rewrite !rd_wr32. repeat case_decide; try lia.
  unfold WORD. Z.div_mod_to_equations; lia.
Qed.

Lemma rd32_ext d d' b i :
  (forall k, i <= k < i + 4 -> rd d' b k = rd d b k) -> rd32 d' b i = rd32 d b i.
Proof. intros H. unfold rd32. rewrite !H by lia. done. Qed.

Lemma rd16_ext d d' b i :
  (forall k, i <= k < i + 2 -> rd d' b k = rd d b k) -> rd16 d' b i = rd16 d b i.
Proof. intros H. unfold rd16. rewrite !H by lia. done. Qed.

Lemma rd_wr32s d b i l b' i' :
  b' <> b \/ i' < i \/ i + 4 * Z.of_nat (length l) <= i' ->
  rd (wr32s d b i l) b' i' = rd d b' i'.
Proof.
  revert d i. induction l as [|x l IH]; intros d i H; simpl; [done|].
  simpl in H. rewrite IH by lia. apply rd_wr32_out. lia.
Qed.

Lemma rd32_wr32s d b i l (k : nat) :
  (k < length l)%nat ->
  rd32 (wr32s d b i l) b (i + 4 * Z.of_nat k) = nth k l 0 mod WORD.
Proof.
  revert d i k. induction l as [|x l IH]; intros d i k H; simpl in *; [lia|].
  destruct k as [|k].
  - replace (i + 4 * Z.of_nat 0) with i by lia.
    erewrite rd32_ext; [apply rd32_wr32|].
    intros. apply rd_wr32s. lia.
  - replace (i + 4 * Z.of_nat (S k)) with (i + 4 + 4 * Z.of_nat k) by lia.
    apply IH. lia.
Qed.

Lemma aget_aset_eq l i v : 0 <= i < Z.of_nat (length l) -> aget (aset l i v) i = v.
Proof.
  intros H. unfold aget, aset. apply nth_lookup_Some with (d := 0).
  apply list_lookup_insert_eq. lia.
Qed.

Lemma aget_aset_ne l i j v : 0 <= i -> 0 <= j -> i <> j -> aget (aset l i v) j = aget l j.
Proof.
  intros Hi Hj H. unfold aget, aset.
  rewrite !nth_lookup. rewrite list_lookup_insert_ne by lia. done.
Qed.

Lemma aset_id l i : aget l i = 0 -> aset l i 0 = l.
Proof.
  unfold aget, aset. intros H.
  destruct (decide (Z.to_nat i < length l)%nat) as [Hl|Hl].
  - apply list_insert_id. rewrite nth_lookup in H.
    destruct (l !! Z.to_nat i) eqn:E; simpl in H; [by subst|].
    apply lookup_ge_None in E. lia.
  - apply list_insert_ge. lia.
Qed.

Lemma aget_aset_zero l i j : aget l j = 0 -> aget (aset l i 0) j = 0.
Proof.
  unfold aget, aset. rewrite !nth_lookup. intros H.
  destruct (decide (Z.to_nat i = Z.to_nat j)) as [E|E].
  - rewrite E. destruct (decide (Z.to_nat j < length l)%nat).
    + rewrite list_lookup_insert_eq by lia. done.
    + rewrite list_insert_ge by lia. done.
  - rewrite list_lookup_insert_ne by done. done.
Qed.

Lemma aget_aset_same_zero l i : aget (aset l i 0) i = 0.
Proof.
  unfold aget, aset. rewrite nth_lookup.
  destruct (decide (Z.to_nat i < length l)%nat).
  - rewrite list_lookup_insert_eq by lia. done.
  - rewrite list_insert_ge by lia. rewrite lookup_ge_None_2 by lia. done.
Qed.

Lemma length_aset l i v : length (aset l i v) = length l.
Proof. apply length_insert. Qed.

Lemma aget_clear_range_out l i k j :
  0 <= i -> 0 <= j -> (j < i \/ i + Z.of_nat k <= j) ->
  aget (clear_range l i k) j = aget l j.
Proof.
  revert l i. induction k as [|k IH]; intros l i Hi Hj H; simpl; [done|].
  rewrite IH by lia. apply aget_aset_ne; lia.
Qed.

Lemma aget_clear_range_zero l i k j :
  0 <= i -> aget l j = 0 -> aget (clear_range l i k) j = 0.
Proof.
  revert l i. induction k as [|k IH]; intros l i Hi H; simpl; [done|].
  apply IH; [lia|]. by apply aget_aset_zero.
Qed.

Lemma aget_clear_range_in l i k j :
  0 <= i -> i <= j < i + Z.of_nat k -> aget (clear_range l i k) j = 0.
Proof.
  revert l i. induction k as [|k IH]; intros l i Hi H; simpl; [lia|].
  destruct (decide (j = i)) as [->|Hne].
  - apply aget_clear_range_zero; [lia|]. apply aget_aset_same_zero.
  - apply IH; lia.
Qed.

Ltac st_simpl :=
  unfold set_disk, set_heap, set_brk, set_ins, set_delayed; cbn [sdisk heap brk ins delayed].

Lemma direct_frees_aset dv l i j k :
  0 <= i -> i < j -> direct_frees dv (aset l i 0) j k = direct_frees dv l j k.
Proof.
  revert j. induction k as [|k IH]; intros j Hi Hj; simpl; [done|].
  rewrite aget_aset_ne by lia. rewrite IH by lia. done.
Qed.

Lemma itrunc_direct_spec k a i d h b ns dl ip :
  0 <= i ->
  h !! a = Some ip ->
  itrunc_direct k a i (mkState d h b ns dl) =
  Ok tt (mkState d (<[a := set_addrs (clear_range (addrs ip) i k) ip]> h) b ns
                 (dl ++ direct_frees (dev ip) (addrs ip) i k)).
Proof.
  revert i h dl ip. induction k as [|k IH]; intros i h dl ip Hi Hh; simpl.
  - unfold ret. rewrite app_nil_r. f_equal. f_equal.
    symmetry. apply insert_id. rewrite Hh. by destruct ip.
  - unfold bind at 1. unfold deref at 1. simpl. rewrite Hh.
    unfold bind at 1.
    destruct (aget (addrs ip) i =? 0) eqn:E.
    + unfold ret at 1. cbn beta iota. rewrite (IH (i+1) h dl ip); [|lia|done].
      simpl. apply Z.eqb_eq in E. rewrite aset_id by done. done.
    + unfold bind at 1, rcu_delayed at 1, store at 1. st_simpl.
      erewrite IH; [|lia|apply lookup_insert_eq]. simpl.
      rewrite insert_insert_eq. rewrite <- app_assoc. simpl.
      rewrite direct_frees_aset by lia. done.
Qed.

Lemma itrunc_indirect_spec k dv blk j d h b ns dl :
  itrunc_indirect k dv blk j (mkState d h b ns dl) =
  Ok tt (mkState d h b ns (dl ++ indirect_frees dv d blk j k)).
Proof.
  revert j dl. induction k as [|k IH]; intros j dl; simpl.
  - unfold ret. by rewrite app_nil_r.
  - unfold bind at 1, get_disk at 1. cbn [sdisk]. unfold bind at 1.
    destruct (rd32 d blk (4 * j) =? 0).
    + unfold ret at 1. cbn beta iota. rewrite IH. done.
    + unfold rcu_delayed at 1. st_simpl. rewrite IH. by rewrite <- app_assoc.
Qed.

Lemma iupdate_spec a d h b ns dl ip :
  h !! a = Some ip ->
  iupdate a (mkState d h b ns dl) =
  Ok tt (mkState (wr_dinode d (inum ip) (dinode_of ip)) h b ns dl).
Proof.
  intros Hh. unfold iupdate, bind, deref, get_disk, put_disk. simpl. rewrite Hh. done.
Qed.

Lemma itrunc_spec a d h b ns dl ip :
  h !! a = Some ip ->
  itrunc a (mkState d h b ns dl) =
  Ok tt (mkState (wr_dinode d (inum ip) (dinode_of (truncated ip)))
                 (<[a := truncated ip]> h) b ns (dl ++ itrunc_frees d ip)).
Proof.
  intros Hh. unfold itrunc. unfold bind at 1.
  rewrite (itrunc_direct_spec _ _ _ _ _ _ _ _ ip) by (done || lia).
  unfold bind at 1, deref at 1. cbn [heap]. rewrite lookup_insert_eq.
  cbn [addrs set_addrs dev].
  rewrite aget_clear_range_out by (unfold NDIRECT; simpl; lia).
  unfold bind at 1, itrunc_frees.
  destruct (aget (addrs ip) NDIRECT =? 0) eqn:E.
  - unfold ret at 1. cbn beta iota.
    unfold bind at 1, modify, bind at 1, deref at 1. cbn [heap].
    rewrite lookup_insert_eq. unfold store. st_simpl.
    rewrite insert_insert_eq.
    erewrite iupdate_spec by apply lookup_insert_eq.
    rewrite app_nil_r. unfold truncated.
    apply Z.eqb_eq in E.
    rewrite (aset_id (clear_range _ _ _) NDIRECT).
    2:{ rewrite aget_clear_range_out by (unfold NDIRECT; simpl; lia). done. }
    done.
  - unfold bind at 1. rewrite itrunc_indirect_spec.
    unfold bind at 1, rcu_delayed at 1, store at 1. st_simpl.
    unfold bind at 1, modify, bind at 1, deref at 1. cbn [heap].
    rewrite lookup_insert_eq. unfold store. st_simpl.
    rewrite !insert_insert_eq.
    erewrite iupdate_spec by apply lookup_insert_eq.
    rewrite <- !app_assoc. done.
Qed.

Lemma s16_rd16_wr16 d b i v : short v -> s16 (rd16 (wr16 d b i v) b i) = v.
Proof.
  intros H. rewrite rd16_wr16. unfold s16, short in *.
  destruct (v mod 65536 <? 32768) eqn:E; [apply Z.ltb_lt in E|apply Z.ltb_ge in E];
    Z.div_mod_to_equations; lia.
Qed.

Lemma rd_wr16_out d b i v b' i' :
  b' <> b \/ i' < i \/ i + 2 <= i' -> rd (wr16 d b i v) b' i' = rd d b' i'.
Proof. intros. rewrite rd_wr16. repeat case_decide; try lia; done. Qed.

Lemma rd32s_wr32s d b i l n :
  length l = n -> Forall uint l -> rd32s (wr32s d b i l) b i n = l.
Proof.
  intros Hn Hl. unfold rd32s. apply list_eq_same_length with n; [done| |].
  - by rewrite length_map, length_seq.
  - intros k x y Hk Hx Hy.
    rewrite list_lookup_fmap in Hx. rewrite lookup_seq_lt in Hx by done.
    simpl in Hx. injection Hx as <-.
    rewrite rd32_wr32s by lia.
    rewrite (nth_lookup_Some _ _ _ _ Hy).
    rewrite Forall_forall in Hl. apply Z.mod_small. apply Hl.
    eapply list_elem_of_lookup_2; eauto.
Qed.

Lemma rd_wr_dinode_out d i di b' i' :
  length (d_addrs di) = Z.to_nat (NDIRECT + 1) ->
  b' <> IBLOCK i \/ i' < dslot i \/ dslot i + DINODE <= i' ->
  rd (wr_dinode d i di) b' i' = rd d b' i'.
Proof.
  intros Hl H. unfold wr_dinode.
  rewrite rd_wr32s by (rewrite Hl; consts; simpl; lia).
  rewrite !rd_wr32_out by (consts; simpl in *; lia).
  rewrite !rd_wr16_out by (consts; simpl in *; lia). done.
Qed.

Lemma rd_wr_dinode d i di :
  short (d_type di) -> short (d_major di) -> short (d_minor di) ->
  short (d_nlink di) -> uint (d_size di) -> uint (d_gen di) ->
  length (d_addrs di) = Z.to_nat (NDIRECT + 1) -> Forall uint (d_addrs di) ->
  rd_dinode (wr_dinode d i di) i = di.
Proof.
  intros Ht Hma Hmi Hn Hs Hg Hl Ha.
  destruct di as [ty ma mi nl sz gn ad]. simpl in *.
  unfold rd_dinode, wr_dinode. simpl.
  set (b := IBLOCK i). set (o := dslot i).
  f_equal.
  - erewrite rd16_ext; [apply s16_rd16_wr16; done|].
    intros k Hk. rewrite rd_wr32s by lia.
    rewrite !rd_wr32_out by lia. rewrite !rd_wr16_out by lia. done.
  - erewrite rd16_ext; [apply s16_rd16_wr16; done|].
    intros k Hk. rewrite rd_wr32s by lia.
    rewrite !rd_wr32_out by lia. rewrite !rd_wr16_out by lia. done.
  - erewrite rd16_ext; [apply s16_rd16_wr16; done|].
    intros k Hk. rewrite rd_wr32s by lia.
    rewrite !rd_wr32_out by lia. rewrite !rd_wr16_out by lia. done.
  - erewrite rd16_ext; [apply s16_rd16_wr16; done|].
    intros k Hk. rewrite rd_wr32s by lia.
    rewrite !rd_wr32_out by lia. done.
  - erewrite rd32_ext; [rewrite rd32_wr32; apply Z.mod_small; done|].
    intros k Hk. rewrite rd_wr32s by lia.
    rewrite !rd_wr32_out by lia. done.
  - erewrite rd32_ext; [rewrite rd32_wr32; apply Z.mod_small; done|].
    intros k Hk. rewrite rd_wr32s by lia. done.
  - apply rd32s_wr32s; done.
Qed.

(** Flag arithmetic *)
Lemma land_lor_lnot f m : Z.land f m = 0 -> Z.land (Z.lor f m) (Z.lnot m) = f.
Proof.
  intros H. apply Z.bits_inj'. intros n Hn.
  rewrite Z.land_spec, Z.lor_spec, Z.lnot_spec by done.
  assert (Z.testbit (Z.land f m) n = false) as Hb by (rewrite H; apply Z.bits_0).
  rewrite Z.land_spec in Hb.
  destruct (Z.testbit f n), (Z.testbit m n); simpl in *; congruence.
Qed.

Lemma direct_frees_elem dv l i k j :
  0 <= i -> i <= j < i + Z.of_nat k -> aget l j <> 0 ->
  BFree dv (aget l j) ∈ direct_frees dv l i k.
Proof.
  revert i. induction k as [|k IH]; intros i Hi Hj Hne; simpl; [lia|].
  destruct (decide (j = i)) as [Hji|Hji].
  - subst j. apply Z.eqb_neq in Hne. rewrite Hne. apply elem_of_app. left.
    apply list_elem_of_singleton. reflexivity.
  - apply elem_of_app. right. apply IH; lia.
Qed.

Lemma indirect_frees_elem dv d blk j0 k j :
  j0 <= j < j0 + Z.of_nat k -> rd32 d blk (4 * j) <> 0 ->
  BFree dv (rd32 d blk (4 * j)) ∈ indirect_frees dv d blk j0 k.
Proof.
  revert j0. induction k as [|k IH]; intros j0 Hj Hne; simpl; [lia|].
  destruct (decide (j = j0)) as [Hji|Hji].
  - subst j. apply Z.eqb_neq in Hne. rewrite Hne. apply elem_of_app. left.
    apply list_elem_of_singleton. reflexivity.
  - apply elem_of_app. right. apply IH; lia.
Qed.

(** Every block of the file, and its indirect block, is handed to [bfree]. *)
Lemma itrunc_frees_data d ip bn :
  0 <= bn < MAXFILE -> baddr d ip bn <> 0 ->
  BFree (dev ip) (baddr d ip bn) ∈ itrunc_frees d ip.
Proof.
  intros Hbn Hne. unfold baddr in *. unfold itrunc_frees.
  destruct (bn <? NDIRECT) eqn:E.
  - apply Z.ltb_lt in E. apply elem_of_app. left.
    apply direct_frees_elem; [lia| |done]. consts. simpl. lia.
  - apply Z.ltb_ge in E. apply elem_of_app. right.
    destruct (aget (addrs ip) NDIRECT =? 0); [done|].
    apply elem_of_app. left.
    apply indirect_frees_elem; [|done]. consts. simpl in *. lia.
Qed.

Lemma itrunc_frees_indirect d ip :
  aget (addrs ip) NDIRECT <> 0 ->
  BFree (dev ip) (aget (addrs ip) NDIRECT) ∈ itrunc_frees d ip.
Proof.
  intros Hne. unfold itrunc_frees. apply elem_of_app. right.
  apply Z.eqb_neq in Hne. rewrite Hne. apply elem_of_app. right.
  apply list_elem_of_singleton. reflexivity.
Qed.

Lemma aget_truncated ip i : 0 <= i <= NDIRECT -> aget (addrs (truncated ip)) i = 0.
Proof.
  intros Hi. unfold truncated. cbn [addrs set_size set_addrs].
  destruct (decide (i = NDIRECT)) as [->|Hne].
  - apply aget_aset_same_zero.
  - apply aget_aset_zero. apply aget_clear_range_in; [lia|].
    consts. simpl. lia.
Qed.

Lemma dinode_of_freed ip :
  nlink ip = 0 ->
  dinode_of (freed ip) =
  mkDinode 0 0 0 0 0 (u32 (gen ip + 1)) (repeat 0 (Z.to_nat (NDIRECT + 1))).
Proof.
  intros Hn. unfold dinode_of, freed. cbn [type major minor nlink size gen addrs
    set_gen set_minor set_major set_type truncated set_size set_addrs set_ref].
  rewrite Hn. f_equal.
  apply list_eq_same_length with (Z.to_nat (NDIRECT + 1)).
  - by rewrite repeat_length.
  - by rewrite length_map, length_seq.
  - intros k x y Hk Hx Hy.
    rewrite list_lookup_fmap, lookup_seq_lt in Hx by done. simpl in Hx.
    injection Hx as <-.
    assert (y = 0) as ->.
    { eapply repeat_spec, list_elem_of_In, list_elem_of_lookup_2; eauto. }
    pose proof (aget_truncated (set_ref 0 ip) (Z.of_nat k)) as H.
    unfold truncated in H. cbn [addrs set_size set_addrs set_ref] in H.
    apply H. lia.
Qed.

(** The counters away from the ends of the range of an [int]. *)
Lemma int_inc_small x : x <> INT_MAX -> int_inc x = x + 1.
Proof. intros H. unfold int_inc. by destruct (Z.eqb_spec x INT_MAX). Qed.

Lemma int_dec_small x : x <> INT_MIN -> int_dec x = x - 1.
Proof. intros H. unfold int_dec. by destruct (Z.eqb_spec x INT_MIN). Qed.

Lemma int_dec_inc x : INT_MIN <= x <= INT_MAX -> int_dec (int_inc x) = x.
Proof.
  unfold int_dec, int_inc, INT_MIN, INT_MAX. intros H.
  destruct (Z.eqb_spec x 2147483647) as [->|]; [reflexivity|].
  destruct (Z.eqb_spec (x + 1) (-2147483648)); lia.
Qed.

Lemma int_inc_range x : INT_MIN <= x <= INT_MAX -> INT_MIN <= int_inc x <= INT_MAX.
Proof.
  unfold int_inc, INT_MIN, INT_MAX. intros H.
  destruct (Z.eqb_spec x 2147483647); lia.
Qed.

(** The state [iput] ends in on each of its paths. *)
Lemma iput_keep a d h b ns dl ip :
  h !! a = Some ip ->
  int_dec (ref ip) <> 0 \/ nlink ip <> 0 ->
  iput a (mkState d h b ns dl) =
  Ok tt (mkState d (<[a := set_ref (int_dec (ref ip)) ip]> h) b ns dl).
Proof.
  intros Hh Hc. unfold iput. unfold bind at 1, deref at 1. cbn [heap]. rewrite Hh.
  unfold bind at 1, store at 1. st_simpl.
  destruct (int_dec (ref ip) =? 0) eqn:E; [|done].
  unfold bind at 1, deref at 1. cbn [heap]. rewrite lookup_insert_eq.
  cbn [ref nlink set_ref]. rewrite E. simpl.
  apply Z.eqb_eq in E. destruct Hc as [Hc|Hc]; [lia|].
  apply Z.eqb_neq in Hc. rewrite Hc. done.
Qed.

(** Projections of nested field updates are computed inside out, on an
    inode given by its fields. *)
Ltac rec_simpl :=
  cbv [iput_exit iput_enter truncated freed
       set_ref set_flags set_readbusy set_gen set_type set_major set_minor
       set_size set_addrs
       dev inum ref flags readbusy gen type major minor nlink size addrs].

Lemma exit_enter (L : list Z -> list Z) (g : Z) (ip : inode) :
  unlocked ip ->
  iput_exit
    (set_gen g (set_minor 0 (set_major 0 (set_type 0
       (set_size 0
          (set_addrs (L (addrs (iput_enter (set_ref 0 ip))))
             (iput_enter (set_ref 0 ip))))))))
  = set_readbusy (int_dec (int_inc (readbusy ip)))
      (set_gen g (set_minor 0 (set_major 0 (set_type 0
         (set_size 0 (set_addrs (L (addrs ip)) (set_ref 0 ip))))))).
Proof.
  intros Hu. destruct ip as [dv i r f rb g0 ty ma mi nl sz ad].
  unfold unlocked in Hu. cbn [flags] in Hu. rec_simpl.
  rewrite land_lor_lnot by exact Hu. reflexivity.
Qed.

Lemma exit_freed g ip :
  unlocked ip ->
  iput_exit (set_gen g (set_minor 0 (set_major 0 (set_type 0
     (truncated (iput_enter (set_ref 0 ip)))))))
  = set_readbusy (int_dec (int_inc (readbusy ip)))
      (set_gen g (set_minor 0 (set_major 0 (set_type 0
         (truncated (set_ref 0 ip)))))).
Proof.
  intros Hu. unfold truncated.
  rewrite (exit_enter
             (fun l => aset (clear_range l 0 (Z.to_nat NDIRECT)) NDIRECT 0) g ip Hu).
  destruct ip. reflexivity.
Qed.

Lemma dinode_of_readbusy r ip : dinode_of (set_readbusy r ip) = dinode_of ip.
Proof. destruct ip. reflexivity. Qed.

Lemma dinode_of_exit ip : dinode_of (iput_exit ip) = dinode_of ip.
Proof. destruct ip. unfold dinode_of. rec_simpl. reflexivity. Qed.

Lemma itrunc_frees_enter d ip :
  itrunc_frees d (iput_enter (set_ref 0 ip)) = itrunc_frees d ip.
Proof. destruct ip. unfold itrunc_frees. rec_simpl. reflexivity. Qed.

Lemma inum_freed_pre g ip :
  inum (set_gen g (set_minor 0 (set_major 0 (set_type 0
          (truncated (iput_enter (set_ref 0 ip))))))) = inum ip.
Proof. destruct ip. rec_simpl. reflexivity. Qed.

Lemma gen_truncated_enter ip :
  gen (truncated (iput_enter (set_ref 0 ip))) = gen ip.
Proof. destruct ip. rec_simpl. reflexivity. Qed.

Lemma if_true {A} (x y : A) : (if true then x else y) = x.
Proof. reflexivity. Qed.
Lemma if_false {A} (x y : A) : (if false then x else y) = y.
Proof. reflexivity. Qed.

Lemma bind_Ok {A B} (m : M A) (k : A -> M B) st a st' :
  m st = Ok a st' -> bind m k st = k a st'.
Proof. intros H. unfold bind. rewrite H. reflexivity. Qed.

Lemma deref_Ok a d h b ns dl ip :
  h !! a = Some ip -> deref a (mkState d h b ns dl) = Ok ip (mkState d h b ns dl).
Proof. intros H. unfold deref. cbn [heap]. rewrite H. reflexivity. Qed.

Lemma store_Ok a ip d h b ns dl :
  store a ip (mkState d h b ns dl) = Ok tt (mkState d (<[a := ip]> h) b ns dl).
Proof. reflexivity. Qed.

Lemma modify_Ok a f d h b ns dl ip :
  h !! a = Some ip ->
  modify a f (mkState d h b ns dl) = Ok tt (mkState d (<[a := f ip]> h) b ns dl).
Proof.
  intros H. unfold modify. erewrite bind_Ok by (apply deref_Ok; exact H).
  apply store_Ok.
Qed.

Lemma iput_teardown a d h b ns dl ip :
  h !! a = Some ip ->
  ref ip = 1 -> nlink ip = 0 -> unlocked ip -> valid ip ->
  iput a (mkState d h b ns dl) =
  Ok tt (mkState
           (wr_dinode
              (wr_dinode d (inum ip) (dinode_of (truncated (iput_enter (set_ref 0 ip)))))
              (inum ip) (dinode_of (freed ip)))
           (<[a := set_readbusy (int_dec (int_inc (readbusy ip))) (freed ip)]> h)
           b ns (dl ++ itrunc_frees d ip)).
Proof.
  intros Hh Hr Hn Hu Hv. unfold iput.
  erewrite bind_Ok by (apply deref_Ok; exact Hh).
  erewrite bind_Ok by apply store_Ok.
  rewrite Hr. change (int_dec 1) with 0. change (0 =? 0) with true.
  cbv beta iota.
  erewrite bind_Ok by (apply deref_Ok; apply lookup_insert_eq).
  cbn [ref nlink flags set_ref]. rewrite Hn. change (0 =? 0) with true.
  cbn [andb]. cbv beta iota.
  red in Hu. rewrite Hu. change (0 =? 0) with true. cbn [negb]. cbv beta iota.
  assert ((Z.land (flags ip) I_VALID =? 0) = false) as -> by (by apply Z.eqb_neq).
  cbv beta iota.
  erewrite bind_Ok by apply store_Ok. rewrite insert_insert_eq.
  erewrite bind_Ok by (apply itrunc_spec; apply lookup_insert_eq).
  rewrite insert_insert_eq.
  erewrite bind_Ok by (apply modify_Ok; apply lookup_insert_eq).
  rewrite insert_insert_eq.
  erewrite bind_Ok by (apply iupdate_spec; apply lookup_insert_eq).
  erewrite modify_Ok by apply lookup_insert_eq.
  rewrite insert_insert_eq.
  rewrite inum_freed_pre, gen_truncated_enter, itrunc_frees_enter.
  replace (inum (iput_enter (set_ref 0 ip))) with (inum ip)
    by (destruct ip; rec_simpl; reflexivity).
  rewrite <- (dinode_of_exit (set_gen _ _)).
  rewrite (exit_freed _ _ Hu), dinode_of_readbusy.
  reflexivity.
Qed.

(** C10.  When [iput] does not tear the inode down -- the count stays
    positive, or it reaches zero while [nlink > 0] -- the state it returns is
    the state it was given with [ref] one less in that inode: type, major,
    minor, nlink, size, gen, addrs and flags of the inode, every other inode,
    the disk (so the on-disk inode too) and the list of blocks waiting to be
    freed are the same. *)
Theorem iput_frame (a : Z) (ip : inode) (st : state) :
  heap st !! a = Some ip ->
  1 <= ref ip ->
  unlocked ip ->
  1 < ref ip \/ (ref ip = 1 /\ 0 < nlink ip) ->
  iput a st = Ok tt (set_heap (<[a := set_ref (ref ip - 1) ip]> (heap st)) st).
Proof.
  intros Hh Hr _ Hc. destruct st as [d h b ns dl]. cbn [heap] in *.
  assert (int_dec (ref ip) = ref ip - 1) as Hdec
    by (apply int_dec_small; unfold INT_MIN; lia).
  rewrite (iput_keep _ _ _ _ _ _ ip Hh) by (rewrite Hdec; lia).
  rewrite Hdec. reflexivity.
Qed.

Lemma iput_frame_witness :
  iput 9 (wit_state 1 1) =
  Ok tt (set_heap (<[9 := set_ref 0 (wit_inode 1 1)]> (heap (wit_state 1 1)))
                  (wit_state 1 1)).
Proof.
  apply (iput_frame 9 (wit_inode 1 1) (wit_state 1 1)).
  - reflexivity.
  - simpl. lia.
  - reflexivity.
  - right. simpl. lia.
Defined.

(** Flags are tested one bit at a time. *)
Lemma land_bit f k :
  0 <= k -> Z.land f (2 ^ k) <> 0 <-> Z.testbit f k = true.
Proof.
  intros Hk. split.
  - intros H. destruct (Z.testbit f k) eqn:E; [done|]. exfalso. apply H.
    apply Z.bits_inj'. intros n Hn. rewrite Z.land_spec, Z.bits_0.
    rewrite Z.pow2_bits_eqb by done.
    destruct (Z.eqb_spec k n) as [->|]; [by rewrite E|apply andb_false_r].
  - intros H E.
    assert (Z.testbit (Z.land f (2 ^ k)) k = false) as Hb
      by (rewrite E; apply Z.bits_0).
    rewrite Z.land_spec, H, Z.pow2_bits_eqb, Z.eqb_refl in Hb by done. done.
Qed.

Lemma busyr_bit ip : busyr ip <-> Z.testbit (flags ip) 0 = true.
Proof. apply (land_bit (flags ip) 0). lia. Qed.
Lemma busyw_bit ip : busyw ip <-> Z.testbit (flags ip) 1 = true.
Proof. apply (land_bit (flags ip) 1). lia. Qed.

Lemma land_bit_zero f k :
  0 <= k -> Z.land f (2 ^ k) = 0 <-> Z.testbit f k = false.
Proof.
  intros Hk. pose proof (land_bit f k Hk) as H.
  destruct (decide (Z.land f (2 ^ k) = 0)) as [E|E];
    destruct (Z.testbit f k); split; intros; try done.
  - exfalso. by apply H.
  - exfalso. apply H in E. done.
Qed.

Lemma land_busy_zero f :
  Z.land f (Z.lor I_BUSYR I_BUSYW) = 0 <->
  Z.testbit f 0 = false /\ Z.testbit f 1 = false.
Proof.
  rewrite Z.land_lor_distr_r, Z.lor_eq_0_iff.
  rewrite <- (land_bit_zero f 0), <- (land_bit_zero f 1) by lia. done.
Qed.

Lemma land_busyw_zero f :
  Z.land f (Z.lor I_BUSYW 0) = 0 <-> Z.testbit f 1 = false.
Proof. rewrite Z.lor_0_r. apply (land_bit_zero f 1). lia. Qed.

(** Bits of the masks the code uses. *)
Ltac bits :=
  repeat (rewrite ?Z.lor_spec, ?Z.land_spec, ?Z.lnot_spec by lia);
  change (Z.testbit I_BUSYR 0) with true;
  change (Z.testbit I_BUSYR 1) with false;
  change (Z.testbit I_BUSYW 0) with false;
  change (Z.testbit I_BUSYW 1) with true;
  change (Z.testbit I_VALID 0) with false;
  change (Z.testbit I_VALID 1) with false;
  change (Z.testbit I_FREE 0) with false;
  change (Z.testbit I_FREE 1) with false;
  change (Z.testbit 0 0) with false;
  change (Z.testbit 0 1) with false;
  cbn [negb andb orb];
  rewrite ?andb_false_r, ?orb_false_r, ?andb_true_r, ?orb_true_r.

Lemma lock_inv_init s : lock_init s -> lock_inv s.
Proof.
  intros [i|ip Hf Hr]; unfold lock_inv, INT_MAX;
    cbn [l_ino l_holders l_teardown].
  - rewrite busyr_bit, busyw_bit. cbn. repeat split; try lia; try done.
  - rewrite busyr_bit, busyw_bit, Hf, Hr. bits. repeat split; try lia; try done.
Qed.

Lemma lock_inv_step s s' : lock_inv s -> lock_step s s' -> lock_inv s'.
Proof.
  intros Hinv Hstep. destruct Hstep as
    [w ip ip' h t Hb Href Hacq|ip h t Hh Hb Href|ip h Hb|ip h|ip h t m Hm|ip h t
    |ip ip' h t Hf Hr];
    unfold lock_inv in *; cbn [l_ino l_holders l_teardown] in *;
    rewrite !busyr_bit, !busyw_bit in *;
    destruct Hinv as (H0 & Hrb & Hr1 & Hw1 & Ht).
  - unfold ilock_acquire in Hacq.
    destruct (Z.land (flags ip) _ =? 0) eqn:E; [|done].
    apply Z.eqb_eq in E. injection Hacq as <-.
    cbn [flags readbusy set_readbusy set_flags].
    assert (Z.testbit (flags ip) 1 = false) as E1.
    { destruct w; [by apply land_busy_zero in E as [_ E1]|
                   by apply land_busyw_zero in E]. }
    assert (t = false) as ->.
    { destruct t; [|done]. specialize (Ht eq_refl). congruence. }
    rewrite int_inc_small by lia.
    destruct w.
    + apply land_busy_zero in E as [E0 _]. bits. rewrite E0, E1 in *.
      assert (readbusy ip = 0) by (destruct Hr1; lia).
      repeat split; try lia; try done.
    + bits. rewrite E1 in *.
      repeat split; try lia; try done.
  - cbn [flags readbusy iunlock_release set_readbusy set_flags].
    rewrite int_dec_small by (unfold INT_MIN; destruct t; lia).
    destruct (readbusy ip - 1 =? 0) eqn:E;
      [apply Z.eqb_eq in E|apply Z.eqb_neq in E]; bits.
    + assert (t = false) as -> by (destruct t; [lia|done]).
      repeat split; try lia; try done.
    + assert (t = false) as ->.
      { destruct t; [|done]. specialize (Ht eq_refl). specialize (Hw1 Ht). lia. }
      assert (Z.testbit (flags ip) 0 = true) as -> by (apply Hr1; lia).
      repeat split; try lia; try done.
  - apply land_busy_zero in Hb as [E0 E1].
    cbn [flags readbusy iput_enter set_readbusy set_flags]. bits.
    rewrite E0, E1 in *. assert (readbusy ip = 0) as Hz by (destruct Hr1; lia).
    rewrite Hz in *. change (int_inc 0) with 1.
    repeat split; try lia; try done.
  - cbn [flags readbusy iput_exit set_readbusy set_flags]. bits.
    specialize (Ht eq_refl). specialize (Hw1 Ht).
    rewrite Hw1 in *. change (int_dec 1) with 0.
    repeat split; try lia; try done.
  - cbn [flags readbusy set_flags].
    destruct Hm as [-> | ->]; bits; done.
  - cbn [flags readbusy set_flags]. bits. done.
  - rewrite Hf, Hr. done.
Qed.

Lemma lock_reach_inv s : lock_reach s -> lock_inv s.
Proof.
  induction 1 as [s Hi|s s' _ IH Hs].
  - by apply lock_inv_init.
  - by apply (lock_inv_step s s').
Qed.

(** What [iunlock] does under the spin lock. *)
Lemma iunlock_spec a d h b ns dl ip :
  a <> 0 -> h !! a = Some ip ->
  Z.land (flags ip) (Z.lor I_BUSYR I_BUSYW) <> 0 -> 1 <= ref ip ->
  iunlock a (mkState d h b ns dl) =
  Ok tt (mkState d (<[a := iunlock_release ip]> h) b ns dl).
Proof.
  intros Ha Hh Hb Hr. unfold iunlock.
  apply Z.eqb_neq in Ha. rewrite Ha.
  erewrite bind_Ok by (apply deref_Ok; exact Hh).
  apply Z.eqb_neq in Hb. rewrite Hb.
  assert ((ref ip <? 1) = false) as -> by (apply Z.ltb_ge; lia).
  cbn [orb]. apply store_Ok.
Qed.

(** C3.  In every state an in-memory inode reaches through [ilock],
    [iunlock] and the busy-flag transitions of [iget] and [iput], with
    fewer holders than an [int] counts, [I_BUSYW] set implies
    [readbusy == 1] and [I_BUSYR] set, and [I_BUSYR] set implies
    [readbusy >= 1]; so [readbusy] is at least 1 whenever [iunlock] finds a
    busy flag.  [iunlock] stores [iunlock_release ip], which, [readbusy]
    not being [INT_MIN], has [readbusy] one less, [I_BUSYW] clear, and
    [I_BUSYR] clear exactly when it was clear before or the new [readbusy]
    is zero. *)
Theorem lock_invariant :
  (forall s, lock_reach s ->
     (busyw (l_ino s) -> readbusy (l_ino s) = 1 /\ busyr (l_ino s)) /\
     (busyr (l_ino s) -> 1 <= readbusy (l_ino s)) /\
     (Z.land (flags (l_ino s)) (Z.lor I_BUSYR I_BUSYW) <> 0 ->
      1 <= readbusy (l_ino s) <= INT_MAX)) /\
  (forall ip,
     readbusy ip <> INT_MIN ->
     readbusy (iunlock_release ip) = readbusy ip - 1 /\
     ~ busyw (iunlock_release ip) /\
     (busyr (iunlock_release ip) <-> busyr ip /\ readbusy ip - 1 <> 0)) /\
  (forall a d h b ns dl ip,
     a <> 0 -> h !! a = Some ip ->
     Z.land (flags ip) (Z.lor I_BUSYR I_BUSYW) <> 0 -> 1 <= ref ip ->
     iunlock a (mkState d h b ns dl) =
     Ok tt (mkState d (<[a := iunlock_release ip]> h) b ns dl)).
Proof.
  split; [|split].
  - intros s Hs. apply lock_reach_inv in Hs.
    destruct Hs as (H0 & Hrb & Hr1 & Hw1 & Ht).
    assert (busyw (l_ino s) -> busyr (l_ino s)) as Hwr.
    { intros Hw. apply Hr1. rewrite (Hw1 Hw). lia. }
    split; [|split].
    + intros Hw. split; [by apply Hw1|by apply Hwr].
    + intros Hr. by apply Hr1.
    + intros Hb.
      assert (busyr (l_ino s)) as Hr.
      { destruct (decide (Z.land (flags (l_ino s)) I_BUSYR = 0)) as [E|E];
          [|exact E].
        apply Hwr. intros Ew. apply Hb.
        rewrite Z.land_lor_distr_r, E, Ew. reflexivity. }
      apply Hr1 in Hr. split; [done|].
      destruct (l_teardown s).
      * specialize (Ht eq_refl). rewrite (Hw1 Ht). unfold INT_MAX. lia.
      * lia.
  - intros ip Hmin. rewrite !busyr_bit, !busyw_bit.
    cbn [flags readbusy iunlock_release set_readbusy set_flags].
    rewrite int_dec_small by done.
    split; [done|].
    destruct (readbusy ip - 1 =? 0) eqn:E;
      [apply Z.eqb_eq in E|apply Z.eqb_neq in E]; bits.
    + split; [done|]. split; [done|]. intros [_ ?]. done.
    + split; [done|].
      split; [by intros|by intros [? _]].
  - intros. by apply iunlock_spec.
Qed.

Lemma lock_invariant_witness :
  (readbusy wit_lock0 = 1 /\ busyr wit_lock0) /\ 1 <= readbusy wit_read2.
Proof.
  assert (lock_reach (mkLock wit_lock0 1 false)) as H0
    by (apply reach_init, init_iget; reflexivity).
  assert (lock_reach (mkLock wit_read2 2 false)) as H2.
  { apply (reach_step (mkLock (mkInode 1 2 1 I_BUSYR 1 0 0 0 0 0 0 []) (0 + 1) false)).
    - apply (reach_step (mkLock (iunlock_release wit_lock0) (1 - 1) false)).
      + apply (reach_step (mkLock wit_lock0 1 false)); [exact H0|].
        apply step_iunlock; [lia|intros H; discriminate H|cbn; lia].
      + apply (step_ilock false); [unfold INT_MAX; lia|cbn; lia|reflexivity].
    - apply (step_ilock false (mkInode 1 2 1 I_BUSYR 1 0 0 0 0 0 0 []) wit_read2
               (0 + 1) false); [unfold INT_MAX; lia|cbn; lia|reflexivity]. }
  split.
  - apply (proj1 (proj1 lock_invariant (mkLock wit_lock0 1 false) H0)).
    intros H. discriminate H.
  - apply (proj1 (proj2 (proj1 lock_invariant (mkLock wit_read2 2 false) H2))).
    intros H. discriminate H.
Defined.

Lemma skip_slashes_spec path :
  exists k, path = repeat slash k ++ skip_slashes path /\
            no_slash (skip_slashes path).
Proof.
  induction path as [|c p IH]; simpl.
  - exists 0%nat. split; [done|]. unfold no_slash, slash. simpl. lia.
  - destruct (Z.eqb_spec c slash) as [->|Hne].
    + destruct IH as (k & Hk & Hn). exists (S k). simpl. by rewrite <- Hk.
    + exists 0%nat. split; [done|]. unfold no_slash. simpl. done.
Qed.

Lemma skip_name_spec p :
  exists elem, p = elem ++ skip_name p /\ Forall elem_char elem /\
               (hd 0 (skip_name p) = slash \/ hd 0 (skip_name p) = 0).
Proof.
  induction p as [|c p IH]; simpl.
  - exists []. split; [done|]. split; [constructor|]. by right.
  - destruct (Z.eqb_spec c slash) as [->|Hs]; simpl.
    + exists []. split; [done|]. split; [constructor|]. by left.
    + destruct (Z.eqb_spec c 0) as [->|Hz]; simpl.
      * exists []. split; [done|]. split; [constructor|]. by right.
      * destruct IH as (e & He & Hf & Hh). exists (c :: e). simpl.
        rewrite <- He. split; [done|]. split; [|done].
        constructor; [done|done].
Qed.

Lemma skip_slashes_id p : no_slash p -> skip_slashes p = p.
Proof.
  destruct p as [|c p]; [done|]. unfold no_slash. simpl. intros H.
  destruct (Z.eqb_spec c slash); done.
Qed.

(** C9.  [skipelem] strips the leading slashes of [path].  When nothing is
    left it returns the null pointer.  Otherwise the path goes on with an
    element [elem], slashes, and [rest]: the result is [rest], and the
    [DIRSIZ]-byte buffer [name] holds [elem] followed by a NUL when [elem] is
    shorter than [DIRSIZ] (the bytes after the NUL keep their old value), and
    the first [DIRSIZ] bytes of [elem], with no NUL, otherwise. *)
Theorem skipelem_spec (path name : list Z) :
  length name = Z.to_nat DIRSIZ ->
  exists k p,
    path = repeat slash k ++ p /\ no_slash p /\
    ((hd 0 p = 0 /\ skipelem path name = None) \/
     (exists elem j rest name',
        p = elem ++ repeat slash j ++ rest /\
        elem <> [] /\ Forall elem_char elem /\
        no_slash rest /\ (j = 0%nat -> hd 0 rest = 0) /\
        skipelem path name = Some (rest, name') /\
        length name' = Z.to_nat DIRSIZ /\
        ((length elem < Z.to_nat DIRSIZ)%nat ->
           take (length elem) name' = elem /\
           name' !! length elem = Some 0 /\
           drop (S (length elem)) name' = drop (S (length elem)) name) /\
        ((Z.to_nat DIRSIZ <= length elem)%nat ->
           name' = take (Z.to_nat DIRSIZ) elem /\ Forall elem_char name'))).
Proof.
  intros Hname.
  destruct (skip_slashes_spec path) as (k & Hk & Hns).
  exists k, (skip_slashes path). split; [done|]. split; [done|].
  unfold skipelem.
  destruct (Z.eqb_spec (hd 0 (skip_slashes path)) 0) as [Hz|Hz]; [by left|right].
  set (p := skip_slashes path) in *.
  destruct (skip_name_spec p) as (elem & He & Hf & Hh).
  destruct (skip_slashes_spec (skip_name p)) as (j & Hj & Hnr).
  exists elem, j, (skip_slashes (skip_name p)).
  assert (Z.of_nat (length p) - Z.of_nat (length (skip_name p))
          = Z.of_nat (length elem)) as Hlen.
  { rewrite He at 1. rewrite length_app. lia. }
  rewrite Hlen.
  assert (elem <> []) as Hne.
  { intros ->. simpl in He. rewrite <- He in Hh. unfold no_slash in Hns.
    destruct Hh; done. }
  eexists. split; [by rewrite <- Hj|]. split; [done|]. split; [done|].
  split; [done|]. split.
  { intros ->. simpl in Hj. rewrite <- Hj. destruct Hh as [Hh|Hh]; [|done].
    unfold no_slash in Hnr. rewrite <- Hj in Hnr. done. }
  split; [reflexivity|].
  unfold bufcpy.
  destruct (Z.leb_spec DIRSIZ (Z.of_nat (length elem))) as [Hge|Hlt].
  - assert (take (Z.to_nat DIRSIZ) p = take (Z.to_nat DIRSIZ) elem) as ->.
    { rewrite He. rewrite take_app_le by lia. done. }
    rewrite drop_ge by lia. rewrite app_nil_r.
    split; [rewrite length_take; lia|]. split; [lia|].
    intros _. split; [done|]. by apply Forall_take.
  - rewrite Nat2Z.id.
    assert (take (length elem) p = elem) as ->.
    { rewrite He. rewrite take_app_length. done. }
    split.
    { rewrite length_insert, length_app, length_drop. lia. }
    split; [|lia]. intros _.
    split; [|split].
    + rewrite take_insert_ge by lia. by rewrite take_app_length.
    + apply list_lookup_insert_eq. rewrite length_app, length_drop. lia.
    + rewrite drop_insert_lt by lia. rewrite drop_app_ge by lia.
      rewrite drop_drop. f_equal. lia.
Qed.

Lemma skipelem_spec_witness :
  exists k p,
    [slash; slash; 97; slash; 98; 98] = repeat slash k ++ p /\ no_slash p /\
    ((hd 0 p = 0 /\ skipelem [slash; slash; 97; slash; 98; 98] (repeat 1 14) = None) \/
     (exists elem j rest name',
        p = elem ++ repeat slash j ++ rest /\
        elem <> [] /\ Forall elem_char elem /\
        no_slash rest /\ (j = 0%nat -> hd 0 rest = 0) /\
        skipelem [slash; slash; 97; slash; 98; 98] (repeat 1 14) = Some (rest, name') /\
        length name' = Z.to_nat DIRSIZ /\
        ((length elem < Z.to_nat DIRSIZ)%nat ->
           take (length elem) name' = elem /\
           name' !! length elem = Some 0 /\
           drop (S (length elem)) name' = drop (S (length elem)) (repeat 1 14)) /\
        ((Z.to_nat DIRSIZ <= length elem)%nat ->
           name' = take (Z.to_nat DIRSIZ) elem /\ Forall elem_char name'))).
Proof.
  apply (skipelem_spec [slash; slash; 97; slash; 98; 98] (repeat 1 14)).
  reflexivity.
Defined.

(** The examples in the comment above [skipelem] in fs.c. *)
Example skipelem_ex1 :
  skipelem [97; 47; 98; 98; 47; 99] (repeat 0 14) =
  Some ([98; 98; 47; 99], 97 :: repeat 0 13).
Proof. reflexivity. Qed.
Example skipelem_ex2 :
  skipelem [47; 47; 47; 97; 47; 47; 98; 98] (repeat 0 14) =
  Some ([98; 98], 97 :: repeat 0 13).
Proof. reflexivity. Qed.
Example skipelem_ex3 :
  skipelem [97] (repeat 0 14) = Some ([], 97 :: repeat 0 13).
Proof. reflexivity. Qed.
Example skipelem_ex4 :
  skipelem [] (repeat 0 14) = None /\ skipelem [47; 47; 47; 47] (repeat 0 14) = None.
Proof. split; reflexivity. Qed.

Lemma get_disk_Ok d h b ns dl :
  get_disk (mkState d h b ns dl) = Ok d (mkState d h b ns dl).
Proof. reflexivity. Qed.

Lemma put_disk_Ok d' d h b ns dl :
  put_disk d' (mkState d h b ns dl) = Ok tt (mkState d' h b ns dl).
Proof. reflexivity. Qed.

Lemma ret_Ok {A} (x : A) st : ret x st = Ok x st.
Proof. reflexivity. Qed.

(** [bmap] on a block the file has: no allocation, no change. *)
Lemma bmap_mapped a bn d h b ns dl ip :
  h !! a = Some ip -> 0 <= bn < MAXFILE -> baddr d ip bn <> 0 ->
  bmap a bn (mkState d h b ns dl) = Ok (baddr d ip bn) (mkState d h b ns dl).
Proof.
  intros Hh Hbn Hne. unfold bmap, baddr in *.
  erewrite bind_Ok by (apply deref_Ok; exact Hh).
  destruct (bn <? NDIRECT) eqn:E.
  - apply Z.eqb_neq in Hne. rewrite Hne. reflexivity.
  - apply Z.ltb_ge in E.
    assert ((bn - NDIRECT <? NINDIRECT) = true) as ->
      by (apply Z.ltb_lt; unfold MAXFILE in Hbn; lia).
    destruct (aget (addrs ip) NDIRECT =? 0) eqn:E2; [done|].
    erewrite bind_Ok by apply ret_Ok.
    erewrite bind_Ok by apply get_disk_Ok.
    apply Z.eqb_neq in Hne. rewrite Hne. reflexivity.
Qed.

Lemma fbytes_app d ip off (n m : nat) :
  fbytes d ip off (n + m) = fbytes d ip off n ++ fbytes d ip (off + Z.of_nat n) m.
Proof.
  unfold fbytes. rewrite seq_app, map_app. f_equal. cbn [Nat.add].
  assert (seq n m = Nat.add n <$> seq 0 m) as ->
    by (rewrite fmap_add_seq; f_equal; lia).
  change (map ?f ?l) with (f <$> l). rewrite <- list_fmap_compose.
  apply list_fmap_ext. intros _ k _. simpl. f_equal. lia.
Qed.

Lemma length_fbytes d ip off n : length (fbytes d ip off n) = n.
Proof. unfold fbytes. by rewrite length_map, length_seq. Qed.

Lemma nth_fbytes d ip off n (k : nat) :
  (k < n)%nat -> nth k (fbytes d ip off n) 0 = fbyte d ip (off + Z.of_nat k).
Proof.
  intros Hk. unfold fbytes. apply nth_lookup_Some with (d := 0).
  rewrite list_lookup_fmap, lookup_seq_lt by done. reflexivity.
Qed.

(** One turn of the copy loop reads bytes of one block. *)
Lemma rds_fbytes d ip off (m : nat) :
  0 <= off -> Z.of_nat m <= BSIZE - off mod BSIZE ->
  rds d (baddr d ip (off / BSIZE)) (off mod BSIZE) m = fbytes d ip off m.
Proof.
  intros Hoff Hm. unfold rds, fbytes. apply list_fmap_ext. intros j k Hk.
  apply lookup_seq in Hk as [Hk1 Hk2]. simpl in Hk1. subst k. unfold fbyte.
  assert ((off + Z.of_nat j) / BSIZE = off / BSIZE) as -> by zdiv.
  f_equal. zdiv.
Qed.

Lemma mapped_mono d ip lo hi lo' hi' :
  mapped d ip lo hi -> lo <= lo' -> hi' <= hi -> mapped d ip lo' hi'.
Proof. intros H ? ? i Hi. apply H. lia. Qed.

Lemma readi_loop_spec fuel a d h b ns dl ip tot off n dst :
  h !! a = Some ip ->
  0 <= tot <= n -> n < WORD -> 0 <= off -> off + (n - tot) < WORD ->
  mapped d ip off (off + (n - tot)) ->
  n - tot <= Z.of_nat fuel ->
  readi_loop fuel a tot off n dst (mkState d h b ns dl) =
  Ok (dst ++ fbytes d ip off (Z.to_nat (n - tot))) (mkState d h b ns dl).
Proof.
  intros Hh. revert tot off dst.
  induction fuel as [|fuel IH]; intros tot off dst Htot Hn Hoff Hw Hm Hf.
  - assert (tot = n) as -> by lia. simpl. rewrite Z.ltb_irrefl.
    replace (n - n) with 0 by lia. simpl. by rewrite app_nil_r.
  - cbn [readi_loop]. destruct (tot <? n) eqn:E.
    2:{ apply Z.ltb_ge in E. assert (tot = n) as -> by lia.
        replace (n - n) with 0 by lia. simpl. by rewrite app_nil_r. }
    apply Z.ltb_lt in E.
    destruct (Hm off ltac:(lia)) as [Hb1 Hb2].
    erewrite bind_Ok.
    2:{ apply (bmap_mapped _ _ _ _ _ _ _ ip Hh); [|exact Hb2]. split; [zdiv|lia]. }
    erewrite bind_Ok by apply get_disk_Ok.
    set (m := Z.min (n - tot) (BSIZE - off mod BSIZE)).
    assert (1 <= m <= n - tot /\ m <= BSIZE - off mod BSIZE) as Hmm
      by (unfold m; zdiv).
    unfold u32.
    rewrite (Z.mod_small (tot + m)), (Z.mod_small (off + m))
      by (unfold WORD in *; lia).
    rewrite IH; [|lia|lia|lia|lia| |lia].
    2:{ eapply mapped_mono; [exact Hm|lia|lia]. }
    rewrite <- (Z2Nat.id m) at 1 by lia.
    rewrite rds_fbytes by lia.
    rewrite <- app_assoc. f_equal. f_equal.
    replace (Z.to_nat (n - tot)) with (Z.to_nat m + Z.to_nat (n - (tot + m)))%nat by lia.
    rewrite fbytes_app, Z2Nat.id by lia. reflexivity.
Qed.

Lemma to_int_small x : 0 <= x < 2147483648 -> to_int x = x.
Proof. intros H. unfold to_int. destruct (Z.ltb_spec x 2147483648); lia. Qed.

(** [readi], case by case. *)
Lemma readi_run (a : Z) (ip : inode) (st : state) (off n : Z) :
  heap st !! a = Some ip ->
  type ip <> T_DEV ->
  uint off -> uint n -> uint (size ip) ->
  (size ip < off \/ WORD <= off + n -> readi a off n st = Ok (-1, []) st) /\
  (off <= size ip -> off + n < WORD ->
   mapped (sdisk st) ip off (off + Z.min n (size ip - off)) ->
   0 <= Z.min n (size ip - off) /\
   (off = size ip -> Z.min n (size ip - off) = 0) /\
   readi a off n st =
   Ok (Z.min n (size ip - off),
       fbytes (sdisk st) ip off (Z.to_nat (Z.min n (size ip - off)))) st).
Proof.
  intros Hh Hty Hoff Hn Hsz. destruct st as [d h b ns dl]. cbn [heap sdisk] in *.
  unfold uint in *. unfold readi.
  erewrite bind_Ok by (apply deref_Ok; exact Hh).
  apply Z.eqb_neq in Hty. rewrite Hty.
  split.
  - intros Hrej.
    assert ((size ip <? off) || (u32 (off + n) <? off) = true) as ->; [|done].
    apply orb_true_iff. destruct Hrej as [H|H].
    + left. apply Z.ltb_lt. lia.
    + right. apply Z.ltb_lt. unfold u32.
      replace (off + n) with (off + n - WORD + 1 * WORD) by lia.
      rewrite Z.mod_add by (unfold WORD; lia).
      rewrite Z.mod_small by lia. lia.
  - intros Hle Hov Hm.
    split; [lia|]. split; [lia|].
    assert (u32 (off + n) = off + n) as Hu by (apply Z.mod_small; lia).
    rewrite Hu.
    assert ((size ip <? off) || (off + n <? off) = false) as ->.
    { apply orb_false_iff. split; apply Z.ltb_ge; lia. }
    set (n' := Z.min n (size ip - off)) in *.
    assert ((if size ip <? off + n then u32 (size ip - off) else n) = n') as ->.
    { unfold n'. destruct (Z.ltb_spec (size ip) (off + n)).
      - unfold u32. rewrite Z.mod_small by lia. lia.
      - lia. }
    assert (n' <= MAXFILE * BSIZE) as Hbound.
    { destruct (decide (n' = 0)) as [Hz|Hnz]; [rewrite Hz; consts; lia|].
      destruct (Hm (off + n' - 1) ltac:(lia)) as [Hb _]. zdiv. }
    erewrite bind_Ok.
    2:{ apply readi_loop_spec with (ip := ip).
        - exact Hh.
        - lia.
        - lia.
        - lia.
        - lia.
        - replace (n' - 0) with n' by lia. exact Hm.
        - lia. }
    rewrite to_int_small by (consts; lia).
    replace (n' - 0) with n' by lia. reflexivity.
Qed.

(** C5.  For an inode that is not a device, [readi] returns -1 when
    [off > size] or [off + n] overflows, and only then: otherwise, with [n']
    the smaller of [n] and [size - off], it copies bytes [off .. off + n' - 1]
    of the file, block by block through [bmap], at the offsets within the
    blocks, and returns [n'] (zero when [off == size]); the state is left
    as it was. *)
Theorem readi_spec (a : Z) (ip : inode) (st : state) (off n : Z) :
  heap st !! a = Some ip ->
  type ip <> T_DEV ->
  uint off -> uint n -> uint (size ip) ->
  (size ip < off \/ WORD <= off + n -> readi a off n st = Ok (-1, []) st) /\
  (off <= size ip -> off + n < WORD ->
   mapped (sdisk st) ip off (off + Z.min n (size ip - off)) ->
   0 <= Z.min n (size ip - off) /\
   (off = size ip -> Z.min n (size ip - off) = 0) /\
   readi a off n st =
   Ok (Z.min n (size ip - off),
       fbytes (sdisk st) ip off (Z.to_nat (Z.min n (size ip - off)))) st).
Proof. exact (readi_run a ip st off n). Qed.

Lemma readi_spec_witness_aux :
  mapped ∅ (wit_inode 1 1) 100 (100 + Z.min 50 (1000 - 100)).
Proof.
  intros i Hi. change (Z.min 50 (1000 - 100)) with 50 in Hi.
  assert (i / BSIZE = 0) as -> by zdiv.
  split; [consts; lia|]. vm_compute. discriminate.
Qed.

Lemma readi_spec_witness :
  (1000 < 100 \/ WORD <= 100 + 50 -> readi 9 100 50 (wit_state 1 1) = Ok (-1, []) (wit_state 1 1)) /\
  (100 <= 1000 -> 100 + 50 < WORD ->
   mapped ∅ (wit_inode 1 1) 100 (100 + Z.min 50 (1000 - 100)) ->
   0 <= Z.min 50 (1000 - 100) /\
   (100 = 1000 -> Z.min 50 (1000 - 100) = 0) /\
   readi 9 100 50 (wit_state 1 1) =
   Ok (Z.min 50 (1000 - 100),
       fbytes ∅ (wit_inode 1 1) 100 (Z.to_nat (Z.min 50 (1000 - 100)))) (wit_state 1 1)).
Proof.
  apply (readi_spec 9 (wit_inode 1 1) (wit_state 1 1) 100 50).
  - reflexivity.
  - discriminate.
  - unfold uint, WORD. lia.
  - unfold uint, WORD. lia.
  - unfold uint, WORD. simpl. lia.
Defined.

Lemma shiftl_1 k : 0 <= k -> Z.shiftl 1 k = 2 ^ k.
Proof. intros. rewrite Z.shiftl_1_l. reflexivity. Qed.

Lemma bit_clear v k :
  0 <= k -> (Z.land v (Z.shiftl 1 k) =? 0) = negb (Z.testbit v k).
Proof.
  intros Hk. rewrite shiftl_1 by done.
  destruct (Z.testbit v k) eqn:E.
  - apply Z.eqb_neq. by apply land_bit.
  - apply Z.eqb_eq. by apply land_bit_zero.
Qed.

Lemma inuse_bit d b :
  0 <= b ->
  inuse d b = Z.testbit (rd d (BBLOCK b (sb_ninodes (readsb d))) (b mod BPB / 8))
                        (b mod BPB mod 8).
Proof.
  intros Hb. unfold inuse. rewrite bit_clear by zdiv. apply negb_involutive.
Qed.

(** The views of the disk depend on a few blocks only. *)
Lemma readsb_ext d d' :
  (forall i, rd d' 1 i = rd d 1 i) -> readsb d' = readsb d.
Proof. intros H. unfold readsb, rd32. rewrite !H. reflexivity. Qed.

Lemma inuse_ext d d' b :
  readsb d' = readsb d ->
  (forall i, rd d' (BBLOCK b (sb_ninodes (readsb d))) i
             = rd d (BBLOCK b (sb_ninodes (readsb d))) i) ->
  inuse d' b = inuse d b.
Proof. intros Hsb H. unfold inuse. rewrite Hsb, H. reflexivity. Qed.

Lemma baddr_ext d d' ip bn :
  (forall i, rd d' (aget (addrs ip) NDIRECT) i = rd d (aget (addrs ip) NDIRECT) i) ->
  baddr d' ip bn = baddr d ip bn.
Proof.
  intros H. unfold baddr.
  destruct (bn <? NDIRECT); [done|].
  destruct (aget (addrs ip) NDIRECT =? 0); [done|].
  apply rd32_ext. intros. apply H.
Qed.

Lemma count_free_ext d d' n :
  (forall b, 0 <= b < Z.of_nat n -> inuse d' b = inuse d b) ->
  count_free d' n = count_free d n.
Proof.
  induction n as [|n IH]; intros H; [done|].
  cbn [count_free]. rewrite H by lia. rewrite IH; [done|].
  intros. apply H. lia.
Qed.

Lemma nbits_ext d d' : readsb d' = readsb d -> nbits d' = nbits d.
Proof. intros H. unfold nbits. by rewrite H. Qed.
Lemma datastart_ext d d' : readsb d' = readsb d -> datastart d' = datastart d.
Proof. intros H. unfold datastart. by rewrite H. Qed.

Lemma nfree_ext d d' :
  readsb d' = readsb d ->
  (forall b, 0 <= b < nbits d -> inuse d' b = inuse d b) ->
  nfree d' = nfree d.
Proof.
  intros Hsb H. unfold nfree. rewrite (nbits_ext _ _ Hsb).
  apply count_free_ext. intros. apply H. lia.
Qed.

(** Geometry: the bitmap blocks lie between the inode table and the data. *)
Lemma rd32_nonneg d b i : 0 <= rd32 d b i.
Proof. pose proof (rd32_range d b i). lia. Qed.

Lemma nchunks_pos d : 0 <= Z.of_nat (nchunks (sb_size (readsb d))).
Proof. lia. Qed.

Lemma bblock_range d b :
  0 <= b < nbits d ->
  sb_ninodes (readsb d) / IPB + 3 <= BBLOCK b (sb_ninodes (readsb d)) < datastart d.
Proof.
  unfold nbits, datastart, BBLOCK. intros Hb.
  set (k := Z.of_nat (nchunks (sb_size (readsb d)))) in *.
  assert (0 <= b / BPB < k) by (consts; Z.div_mod_to_equations; nia).
  lia.
Qed.

Lemma ninodes_nonneg d : 0 <= sb_ninodes (readsb d) / IPB.
Proof.
  unfold readsb. cbn [sb_ninodes]. pose proof (rd32_range d 1 8). zdiv.
Qed.

Lemma datastart_ge d : 3 <= datastart d.
Proof. unfold datastart. pose proof (ninodes_nonneg d). lia. Qed.

(** Marking a block. *)
Lemma rd_setbit_ne d x b i :
  b <> BBLOCK x (sb_ninodes (readsb d)) -> rd (setbit d x) b i = rd d b i.
Proof. intros H. unfold setbit. apply rd_wr_ne. by left. Qed.

Lemma readsb_setbit d x : 0 <= x -> readsb (setbit d x) = readsb d.
Proof.
  intros Hx. apply readsb_ext. intros i. apply rd_setbit_ne.
  unfold BBLOCK. pose proof (ninodes_nonneg d). zdiv.
Qed.

Lemma testbit_mod256 v k : 0 <= k < 8 -> Z.testbit (v mod 256) k = Z.testbit v k.
Proof. intros. change 256 with (2 ^ 8). apply Z.mod_pow2_bits_low. lia. Qed.

Lemma inuse_setbit d x y :
  0 <= x -> 0 <= y -> inuse (setbit d x) y = inuse d y || (y =? x).
Proof.
  intros Hx Hy. rewrite !inuse_bit by done. rewrite readsb_setbit by done.
  unfold setbit. rewrite rd_wr.
  set (nin := sb_ninodes (readsb d)).
  case_decide as Hc.
  - destruct Hc as [Hb Hi]. rewrite testbit_mod256 by zdiv.
    rewrite Z.lor_spec, shiftl_1 by zdiv. rewrite Z.pow2_bits_eqb by zdiv.
    rewrite Hb, Hi. f_equal.
    unfold BBLOCK in Hb.
    destruct (Z.eqb_spec (x mod BPB mod 8) (y mod BPB mod 8)) as [E|E];
      destruct (Z.eqb_spec y x) as [E'|E']; try done.
    + exfalso. apply E'. zdiv.
    + exfalso. apply E. by rewrite E'.
  - destruct (Z.eqb_spec y x) as [->|E]; [tauto|]. by rewrite orb_false_r.
Qed.

Lemma count_free_setbit d x n :
  0 <= x ->
  inuse d x = false ->
  count_free d n =
  ((if decide (x < Z.of_nat n)%Z then 1 else 0) + count_free (setbit d x) n)%nat.
Proof.
  intros Hx Hfree. induction n as [|n IH].
  - cbn [count_free]. case_decide; [lia|done].
  - cbn [count_free]. rewrite IH. rewrite inuse_setbit by lia.
    destruct (Z.eqb_spec (Z.of_nat n) x) as [E|E].
    + rewrite E, Hfree. cbn [orb].
      repeat case_decide; lia.
    + rewrite orb_false_r. repeat case_decide; lia.
Qed.

Lemma nfree_setbit d x :
  0 <= x < nbits d -> inuse d x = false ->
  nfree d = S (nfree (setbit d x)).
Proof.
  intros Hx Hf. unfold nfree.
  rewrite (nbits_ext _ _ (readsb_setbit d x ltac:(lia))).
  rewrite (count_free_setbit d x) by (lia || done).
  case_decide; [done|lia].
Qed.

Lemma count_free_pos d n :
  (0 < count_free d n)%nat -> exists x, 0 <= x < Z.of_nat n /\ inuse d x = false.
Proof.
  induction n as [|n IH]; cbn [count_free]; [lia|].
  destruct (inuse d (Z.of_nat n)) eqn:E.
  - intros H. destruct IH as (x & Hx & Hf); [lia|]. exists x. split; [lia|done].
  - intros _. exists (Z.of_nat n). split; [lia|done].
Qed.

Lemma fs_ok_setbit d x :
  fs_ok d -> 0 <= x < nbits d -> fs_ok (setbit d x).
Proof.
  intros [Hb Hm Hz] Hx.
  pose proof (readsb_setbit d x ltac:(lia)) as Hsb.
  split.
  - by rewrite (nbits_ext _ _ Hsb).
  - rewrite (nbits_ext _ _ Hsb), (datastart_ext _ _ Hsb). intros b Hb1 Hb2.
    rewrite inuse_setbit by lia. rewrite Hm by done. done.
  - rewrite (nbits_ext _ _ Hsb). intros b i Hb1 Hf.
    rewrite inuse_setbit in Hf by lia.
    apply orb_false_iff in Hf as [Hf Hne].
    rewrite rd_setbit_ne; [by apply Hz|].
    intros ->. pose proof (bblock_range d x Hx) as Hr.
    rewrite Hm in Hf; [done|lia|lia].
Qed.

(** [balloc]. *)
Lemma balloc_scan_spec d blk k bi :
  0 <= bi ->
  match balloc_scan d blk k bi with
  | Some x => bi <= x < bi + Z.of_nat k /\
              Z.testbit (rd d blk (x / 8)) (x mod 8) = false
  | None => forall x, bi <= x < bi + Z.of_nat k ->
                      Z.testbit (rd d blk (x / 8)) (x mod 8) = true
  end.
Proof.
  revert bi. induction k as [|k IH]; intros bi Hbi; cbn [balloc_scan].
  - intros. lia.
  - rewrite bit_clear by zdiv.
    destruct (Z.testbit (rd d blk (bi / 8)) (bi mod 8)) eqn:E; cbn [negb].
    + specialize (IH (bi + 1) ltac:(lia)).
      destruct (balloc_scan d blk k (bi + 1)) as [x|].
      * destruct IH. split; [lia|done].
      * intros x Hx. destruct (decide (x = bi)) as [->|]; [done|]. apply IH. lia.
    + split; [lia|done].
Qed.

Lemma balloc_chunks_spec k d c :
  0 <= c ->
  match balloc_chunks k d (readsb d) (c * BPB) with
  | Some (r, d') =>
      exists x, c * BPB <= x < (c + Z.of_nat k) * BPB /\
                inuse d x = false /\ r = u32 x /\ d' = setbit d x
  | None => forall x, c * BPB <= x < (c + Z.of_nat k) * BPB -> inuse d x = true
  end.
Proof.
  revert c. induction k as [|k IH]; intros c Hc; cbn [balloc_chunks].
  - intros. lia.
  - pose proof (balloc_scan_spec d (BBLOCK (c * BPB) (sb_ninodes (readsb d)))
                  (Z.to_nat BPB) 0 ltac:(lia)) as Hs.
    destruct (balloc_scan _ _ _ 0) as [bi|].
    + destruct Hs as [Hbi Hbit]. exists (c * BPB + bi).
      assert (Z.of_nat (Z.to_nat BPB) = BPB) as HB by (consts; lia).
      rewrite HB in Hbi.
      assert ((c * BPB + bi) mod BPB = bi) as Hmod.
      { rewrite Z.add_comm, Z.mod_add by (consts; lia).
        apply Z.mod_small. lia. }
      assert (BBLOCK (c * BPB + bi) (sb_ninodes (readsb d))
              = BBLOCK (c * BPB) (sb_ninodes (readsb d))) as Hblk.
      { unfold BBLOCK. f_equal. f_equal.
        rewrite Z.div_mul by (consts; lia).
        rewrite Z.add_comm, Z.div_add by (consts; lia).
        rewrite Z.div_small by lia. lia. }
      split; [consts; lia|]. split; [|split; [done|]].
      * rewrite inuse_bit by (consts; lia). rewrite Hblk, Hmod. done.
      * unfold setbit. rewrite Hblk, Hmod. done.
    + specialize (IH (c + 1) ltac:(lia)).
      replace ((c + 1) * BPB) with (c * BPB + BPB) in IH by lia.
      assert (forall x, c * BPB <= x < c * BPB + BPB -> inuse d x = true) as Hthis.
      { intros x Hx. rewrite inuse_bit by (consts; lia).
        assert (Z.of_nat (Z.to_nat BPB) = BPB) as HB by (consts; lia).
        rewrite HB in Hs.
        assert (x = c * BPB + x mod BPB) as Hx' by zdiv.
        assert (BBLOCK x (sb_ninodes (readsb d))
                = BBLOCK (c * BPB) (sb_ninodes (readsb d))) as ->.
        { unfold BBLOCK. f_equal. f_equal.
          rewrite Z.div_mul by (consts; lia). zdiv. }
        apply Hs. zdiv. }
      destruct (balloc_chunks k d (readsb d) (c * BPB + BPB)) as [[r d']|].
      * destruct IH as (x & Hx & Hf & Hr & Hd). exists x.
        split; [consts; lia|done].
      * intros x Hx.
        destruct (decide (x < c * BPB + BPB)); [apply Hthis; lia|].
        apply IH. consts. lia.
Qed.

Lemma balloc_spec dv d h b ns dl :
  fs_ok d ->
  match balloc dv (mkState d h b ns dl) with
  | Ok x st' => 0 <= x < nbits d /\ inuse d x = false /\
                st' = mkState (setbit d x) h b ns dl
  | Panic msg => msg = "balloc: out of blocks"%string /\ nfree d = O
  | _ => False
  end.
Proof.
  intros Hfs. unfold balloc. cbn [sdisk].
  pose proof (balloc_chunks_spec (nchunks (sb_size (readsb d))) d 0 ltac:(lia)) as H.
  change (0 * BPB) with 0 in H.
  destruct (balloc_chunks _ d (readsb d) 0) as [[r d']|].
  - destruct H as (x & Hx & Hf & -> & ->).
    assert (0 <= x < nbits d) as Hx' by (unfold nbits; lia).
    pose proof (fs_bits d Hfs).
    unfold u32. rewrite Z.mod_small by (unfold WORD; lia).
    done.
  - split; [done|].
    destruct (nfree d) eqn:E; [done|]. exfalso.
    destruct (count_free_pos d (Z.to_nat (nbits d))) as (x & Hx & Hf).
    { unfold nfree in E. lia. }
    rewrite H in Hf; [done|]. unfold nbits in Hx. lia.
Qed.

Lemma set_addrs_id ip : set_addrs (addrs ip) ip = ip.
Proof. destruct ip. reflexivity. Qed.

Lemma set_addrs_twice l l' ip : set_addrs l (set_addrs l' ip) = set_addrs l ip.
Proof. destruct ip. reflexivity. Qed.

Lemma size_set_addrs l ip : size (set_addrs l ip) = size ip.
Proof. destruct ip. reflexivity. Qed.

Lemma inum_set_addrs l ip : inum (set_addrs l ip) = inum ip.
Proof. destruct ip. reflexivity. Qed.

Lemma addrs_set_addrs l ip : addrs (set_addrs l ip) = l.
Proof. destruct ip. reflexivity. Qed.

Lemma block_of_byte i : 0 <= i < MAXFILE * BSIZE -> 0 <= i / BSIZE < MAXFILE.
Proof. intros. zdiv. Qed.

Lemma wrote_refl d ip lo :
  fs_ok d -> file_ok d ip -> 0 <= lo <= MAXFILE * BSIZE ->
  wrote d ip d ip lo [].
Proof.
  intros Hfs Hfo Hlo. split.
  - exact Hfs.
  - exact Hfo.
  - reflexivity.
  - by rewrite set_addrs_id.
  - reflexivity.
  - reflexivity.
  - intros i _ _ Hz Hne. done.
  - intros i Hi. cbn [length] in Hi. lia.
  - lia.
  - cbn [length]. lia.
Qed.

Lemma wrote_trans d ip d1 ip1 d2 ip2 lo s1 s2 :
  wrote d ip d1 ip1 lo s1 ->
  wrote d1 ip1 d2 ip2 (lo + Z.of_nat (length s1)) s2 ->
  wrote d ip d2 ip2 lo (s1 ++ s2).
Proof.
  intros H1 H2.
  pose proof (w_range _ _ _ _ _ _ H1) as Hr1.
  pose proof (w_range _ _ _ _ _ _ H2) as Hr2.
  split.
  - apply (w_fs _ _ _ _ _ _ H2).
  - apply (w_file _ _ _ _ _ _ H2).
  - rewrite (w_sb _ _ _ _ _ _ H2). apply (w_sb _ _ _ _ _ _ H1).
  - transitivity (set_addrs (addrs ip2) ip1); [apply (w_fields _ _ _ _ _ _ H2)|].
    rewrite (w_fields _ _ _ _ _ _ H1) at 1. apply set_addrs_twice.
  - intros bn Hbn Hne.
    rewrite (w_keep _ _ _ _ _ _ H2 bn Hbn);
      rewrite (w_keep _ _ _ _ _ _ H1 bn Hbn Hne); done.
  - intros i Hi Hout Hne. rewrite length_app in Hout.
    pose proof (block_of_byte i Hi) as Hb.
    rewrite (w_old _ _ _ _ _ _ H2 i Hi);
      [apply (w_old _ _ _ _ _ _ H1 i Hi); [lia|done]|lia|].
    rewrite (w_keep _ _ _ _ _ _ H1 _ Hb Hne). done.
  - intros i Hi Hout Hz Hne. rewrite length_app in Hout.
    pose proof (block_of_byte i Hi) as Hb.
    destruct (decide (baddr d1 ip1 (i / BSIZE) = 0)) as [E|E].
    + apply (w_new _ _ _ _ _ _ H2 i Hi); [lia|done|done].
    + rewrite (w_old _ _ _ _ _ _ H2 i Hi); [|lia|done].
      apply (w_new _ _ _ _ _ _ H1 i Hi); [lia|done|done].
  - intros i Hi. rewrite length_app in Hi.
    destruct (decide (i < lo + Z.of_nat (length s1))) as [Hlt|Hge].
    + destruct (w_src _ _ _ _ _ _ H1 i ltac:(lia)) as [Hm Hv].
      assert (0 <= i < MAXFILE * BSIZE) as Hir by lia.
      pose proof (block_of_byte i Hir) as Hb.
      rewrite (w_keep _ _ _ _ _ _ H2 _ Hb Hm).
      split; [done|].
      rewrite (w_old _ _ _ _ _ _ H2 i Hir); [|lia|done].
      rewrite Hv. rewrite app_nth1 by lia. done.
    + destruct (w_src _ _ _ _ _ _ H2 i ltac:(lia)) as [Hm Hv].
      split; [done|]. rewrite Hv. rewrite app_nth2 by lia.
      do 2 f_equal. lia.
  - pose proof (w_free _ _ _ _ _ _ H1). pose proof (w_free _ _ _ _ _ _ H2). lia.
  - rewrite length_app. lia.
Qed.

Lemma baddr_direct d ip bn : bn < NDIRECT -> baddr d ip bn = aget (addrs ip) bn.
Proof.
  intros H. unfold baddr. destruct (Z.ltb_spec bn NDIRECT); [done|lia].
Qed.

Lemma baddr_indirect d ip bn :
  NDIRECT <= bn ->
  baddr d ip bn = if indirect ip =? 0 then 0
                  else rd32 d (indirect ip) (4 * (bn - NDIRECT)).
Proof.
  intros H. unfold baddr, indirect. destruct (Z.ltb_spec bn NDIRECT); [lia|done].
Qed.

(** A change confined to one block [B], which is an inode block or a
    marked data block, leaves the superblock and the bitmap as they were. *)
Lemma frame_fs d d' B :
  (forall b i, b <> B -> rd d' b i = rd d b i) ->
  2 <= B ->
  B < sb_ninodes (readsb d) / IPB + 3 \/ datastart d <= B ->
  (forall y, 0 <= y < nbits d -> inuse d y = false -> y <> B) ->
  fs_ok d ->
  readsb d' = readsb d /\
  (forall y, 0 <= y < nbits d -> inuse d' y = inuse d y) /\
  nfree d' = nfree d /\ fs_ok d'.
Proof.
  intros Hag HB Hreg Hfree Hfs.
  assert (readsb d' = readsb d) as Hsb.
  { apply readsb_ext. intros i. apply Hag. lia. }
  assert (forall y, 0 <= y < nbits d -> inuse d' y = inuse d y) as Hin.
  { intros y Hy. apply inuse_ext; [done|]. intros i. apply Hag.
    pose proof (bblock_range d y Hy). lia. }
  split; [done|]. split; [done|]. split; [by apply nfree_ext|].
  destruct Hfs as [Hb Hm Hz]. split.
  - by rewrite (nbits_ext _ _ Hsb).
  - rewrite (nbits_ext _ _ Hsb), (datastart_ext _ _ Hsb). intros b Hb1 Hb2.
    rewrite Hin by lia. by apply Hm.
  - rewrite (nbits_ext _ _ Hsb). intros b i Hb1 Hf.
    rewrite Hin in Hf by done. rewrite Hag by (by apply Hfree). by apply Hz.
Qed.

Lemma datablock_ext d d' x :
  readsb d' = readsb d ->
  (forall y, 0 <= y < nbits d -> inuse d' y = inuse d y) ->
  datablock d x -> datablock d' x.
Proof.
  intros Hsb Hin [Hr Hu]. unfold datablock.
  rewrite (nbits_ext _ _ Hsb), (datastart_ext _ _ Hsb).
  split; [done|]. rewrite Hin; [done|]. pose proof (datastart_ge d). lia.
Qed.

Lemma datablock_pos d x : datablock d x -> 3 <= x.
Proof. intros [Hr _]. pose proof (datastart_ge d). lia. Qed.

Lemma mapped_ext d d' ip ip' lo hi :
  (forall bn, 0 <= bn < MAXFILE -> baddr d ip bn <> 0 ->
              baddr d' ip' bn = baddr d ip bn) ->
  0 <= lo -> mapped d ip lo hi -> mapped d' ip' lo hi.
Proof.
  intros Hk Hlo Hm i Hi. destruct (Hm i Hi) as [H1 H2].
  split; [done|]. rewrite Hk; [done| |done]. split; [zdiv|done].
Qed.

(** The same file on a disk that differs in one block the file does not
    keep its block map in. *)
Lemma frame_file d d' B ip :
  (forall b i, b <> B -> rd d' b i = rd d b i) ->
  readsb d' = readsb d ->
  (forall y, 0 <= y < nbits d -> inuse d' y = inuse d y) ->
  B <> indirect ip ->
  file_ok d ip ->
  (forall bn, baddr d' ip bn = baddr d ip bn) /\ file_ok d' ip.
Proof.
  intros Hag Hsb Hin HB Hfo.
  assert (forall bn, baddr d' ip bn = baddr d ip bn) as Hba.
  { intros bn. apply baddr_ext. intros i. apply Hag. done. }
  split; [done|]. destruct Hfo as [Hl Hd Hj Hi Hs Hm Hn]. split.
  - done.
  - intros bn Hbn. rewrite Hba. intros Hne. destruct (Hd bn Hbn Hne) as [H1 H2].
    split; [|done]. by apply (datablock_ext d).
  - intros bn bn' Hbn Hbn'. rewrite !Hba. by apply Hj.
  - intros Hne. by apply (datablock_ext d), Hi.
  - done.
  - apply (mapped_ext d _ ip); [|lia|done]. intros. apply Hba.
  - by rewrite Hsb.
Qed.

(** [balloc]'s block is fresh for the file. *)
Lemma alloc_step d ip x lo :
  fs_ok d -> file_ok d ip -> 0 <= lo <= MAXFILE * BSIZE ->
  0 <= x < nbits d -> inuse d x = false ->
  wrote d ip (setbit d x) ip lo [] /\ unowned (setbit d x) ip x /\
  nfree d = S (nfree (setbit d x)) /\
  (forall bn, baddr (setbit d x) ip bn = baddr d ip bn).
Proof.
  intros Hfs Hfo Hlo Hx Hfree.
  pose proof (readsb_setbit d x ltac:(lia)) as Hsb.
  pose proof (fs_ok_setbit d x Hfs Hx) as Hfs'.
  pose proof (bblock_range d x Hx) as Hbb.
  pose proof (ninodes_nonneg d) as Hnn.
  assert (datastart d <= x) as Hds.
  { destruct (decide (datastart d <= x)); [done|].
    rewrite (fs_meta d Hfs x) in Hfree; [done|lia|lia]. }
  assert (forall b i, b <> BBLOCK x (sb_ninodes (readsb d)) ->
                      rd (setbit d x) b i = rd d b i) as Hag
    by (intros; by apply rd_setbit_ne).
  assert (forall y, datablock d y -> datablock (setbit d x) y) as Hdb.
  { intros y [Hr Hu]. unfold datablock.
    rewrite (nbits_ext _ _ Hsb), (datastart_ext _ _ Hsb).
    split; [done|]. pose proof (datastart_ge d).
    rewrite inuse_setbit by lia. by rewrite Hu. }
  assert (BBLOCK x (sb_ninodes (readsb d)) <> indirect ip) as Hni.
  { destruct (decide (indirect ip = 0)) as [E|E]; [rewrite E; lia|].
    destruct (fo_ind d ip Hfo E) as [Hr _]. lia. }
  assert (forall bn, baddr (setbit d x) ip bn = baddr d ip bn) as Hba.
  { intros bn. apply baddr_ext. intros i. apply Hag. done. }
  assert (forall i, 0 <= i < MAXFILE * BSIZE ->
                    fbyte (setbit d x) ip i = fbyte d ip i) as Hfb.
  { intros i Hi. unfold fbyte. rewrite Hba. apply Hag.
    destruct (decide (baddr d ip (i / BSIZE) = 0)) as [E|E]; [rewrite E; lia|].
    destruct (fo_data d ip Hfo _ (block_of_byte i Hi) E) as [[Hr _] _]. lia. }
  assert (file_ok (setbit d x) ip) as Hfo'.
  { destruct Hfo as [Hl Hd Hj Hi Hs Hm Hn]. split; try done.
    - intros bn Hbn. rewrite Hba. intros Hne. destruct (Hd bn Hbn Hne).
      split; [by apply Hdb|done].
    - intros bn bn' Hbn Hbn'. rewrite !Hba. by apply Hj.
    - intros Hne. by apply Hdb, Hi.
    - apply (mapped_ext d _ ip); [|lia|done]. intros. apply Hba.
    - by rewrite Hsb. }
  split; [|split; [|split; [by apply nfree_setbit|exact Hba]]].
  - split.
    + exact Hfs'.
    + exact Hfo'.
    + exact Hsb.
    + by rewrite set_addrs_id.
    + intros. apply Hba.
    + intros. by apply Hfb.
    + intros i Hi _ Hz. rewrite Hba. done.
    + intros i Hi. cbn [length] in Hi. lia.
    + rewrite (nfree_setbit d x Hx Hfree). lia.
    + cbn [length]. lia.
  - split.
    + unfold datablock. rewrite (nbits_ext _ _ Hsb), (datastart_ext _ _ Hsb).
      split; [lia|]. rewrite inuse_setbit by lia. rewrite Z.eqb_refl.
      apply orb_true_r.
    + intros bn Hbn. rewrite Hba. intros E.
      assert (baddr d ip bn <> 0) as Hne by (pose proof (datastart_ge d); lia).
      destruct (fo_data d ip Hfo bn Hbn Hne) as [[_ Hu] _].
      rewrite E in Hu. congruence.
    + intros E. assert (indirect ip <> 0) as Hne
        by (pose proof (datastart_ge d); lia).
      destruct (fo_ind d ip Hfo Hne) as [_ Hu]. rewrite E in Hu. congruence.
    + intros i. rewrite Hag by lia. by apply (fs_zero d Hfs).
Qed.

(** Putting a fresh block [x] into the block map at [bn], be it in [addrs]
    or in the indirect block. *)
Lemma wrote_link d ip d' ip' bn x lo :
  fs_ok d -> file_ok d ip -> unowned d ip x ->
  0 <= lo <= MAXFILE * BSIZE ->
  0 <= bn < MAXFILE -> baddr d ip bn = 0 ->
  fs_ok d' -> readsb d' = readsb d ->
  (forall y, 0 <= y < nbits d -> inuse d' y = inuse d y) ->
  nfree d' = nfree d ->
  (forall blk i, blk <> indirect ip -> rd d' blk i = rd d blk i) ->
  ip' = set_addrs (addrs ip') ip ->
  length (addrs ip') = Z.to_nat (NDIRECT + 1) ->
  indirect ip' = indirect ip ->
  (forall bn', 0 <= bn' < MAXFILE ->
     baddr d' ip' bn' = if decide (bn' = bn) then x else baddr d ip bn') ->
  wrote d ip d' ip' lo [].
Proof.
  intros Hfs Hfo [Hxd Hxb Hxi Hxz] Hlo Hbn Hz Hfs' Hsb Hin Hnf Hag Hfl Hlen Hind Hba.
  assert (x <> 0) as Hx0 by (pose proof (datablock_pos d x Hxd); lia).
  assert (forall y, datablock d y -> datablock d' y) as Hdb
    by (intros y; by apply datablock_ext).
  assert (forall bn', 0 <= bn' < MAXFILE -> baddr d ip bn' <> 0 ->
                      baddr d' ip' bn' = baddr d ip bn') as Hkeep.
  { intros bn' Hbn' Hne. rewrite Hba by done.
    case_decide as E; [subst; done|done]. }
  assert (size ip' = size ip) as Hsz by (rewrite Hfl; apply size_set_addrs).
  assert (inum ip' = inum ip) as Hino by (rewrite Hfl; apply inum_set_addrs).
  split.
  - exact Hfs'.
  - destruct Hfo as [Hl Hd Hj Hi Hs Hm Hn]. split.
    + exact Hlen.
    + intros bn' Hbn'. rewrite Hba, Hind by done. case_decide as E.
      * intros _. split; [by apply Hdb|]. intros E'. by apply Hxi.
      * intros Hne. destruct (Hd bn' Hbn' Hne). split; [by apply Hdb|done].
    + intros b1 b2 Hb1 Hb2. rewrite !Hba by done.
      case_decide as E1; case_decide as E2; try (subst; done).
      * intros _ E. exfalso. by apply (Hxb b2).
      * intros Hne E. exfalso. by apply (Hxb b1).
      * by apply Hj.
    + rewrite Hind. intros Hne. by apply Hdb, Hi.
    + by rewrite Hsz.
    + rewrite Hsz. apply (mapped_ext d _ ip); [exact Hkeep|lia|done].
    + by rewrite Hino, Hsb.
  - exact Hsb.
  - exact Hfl.
  - exact Hkeep.
  - intros i Hi _ Hne. pose proof (block_of_byte i Hi) as Hb.
    unfold fbyte. rewrite (Hkeep _ Hb Hne). apply Hag.
    by destruct (fo_data d ip Hfo _ Hb Hne).
  - intros i Hi _ Hzi Hne. pose proof (block_of_byte i Hi) as Hb.
    unfold fbyte. rewrite Hba in * by done.
    case_decide as E; [|done]. rewrite Hag; [apply Hxz|]. by intros E'; apply Hxi.
  - intros i Hi. cbn [length] in Hi. lia.
  - lia.
  - cbn [length]. lia.
Qed.

Lemma rd32_zero d b i : (forall k, rd d b k = 0) -> rd32 d b i = 0.
Proof. intros H. unfold rd32. rewrite !H. reflexivity. Qed.

(** [ip->addrs[bn] = balloc()] for a direct block. *)
Lemma link_direct d ip x bn lo :
  fs_ok d -> file_ok d ip -> unowned d ip x ->
  0 <= lo <= MAXFILE * BSIZE ->
  0 <= bn < NDIRECT -> aget (addrs ip) bn = 0 ->
  wrote d ip d (set_addrs (aset (addrs ip) bn x) ip) lo [] /\
  baddr d (set_addrs (aset (addrs ip) bn x) ip) bn = x /\
  indirect (set_addrs (aset (addrs ip) bn x) ip) = indirect ip.
Proof.
  intros Hfs Hfo Hun Hlo Hbn Hz.
  pose proof (fo_len d ip Hfo) as Hlen.
  set (ip' := set_addrs (aset (addrs ip) bn x) ip).
  assert (indirect ip' = indirect ip) as Hind.
  { unfold indirect, ip'. rewrite addrs_set_addrs.
    apply aget_aset_ne; consts; lia. }
  assert (forall bn', 0 <= bn' < MAXFILE ->
     baddr d ip' bn' = if decide (bn' = bn) then x else baddr d ip bn') as Hba.
  { intros bn' Hbn'. case_decide as E.
    - subst bn'. rewrite baddr_direct by lia. unfold ip'.
      rewrite addrs_set_addrs. apply aget_aset_eq. rewrite Hlen. consts. lia.
    - destruct (decide (bn' < NDIRECT)).
      + rewrite !baddr_direct by lia. unfold ip'. rewrite addrs_set_addrs.
        apply aget_aset_ne; lia.
      + rewrite !baddr_indirect by lia. by rewrite Hind. }
  split; [|split; [|done]].
  - apply (wrote_link d ip d ip' bn x lo); try done.
    + consts. lia.
    + rewrite baddr_direct by lia. done.
    + unfold ip'. rewrite addrs_set_addrs, length_aset. done.
  - rewrite Hba by (consts; lia). case_decide; done.
Qed.

(** [ip->addrs[NDIRECT] = balloc()]: a zeroed indirect block maps nothing. *)
Lemma link_indirect d ip x lo :
  fs_ok d -> file_ok d ip -> unowned d ip x ->
  0 <= lo <= MAXFILE * BSIZE ->
  indirect ip = 0 ->
  wrote d ip d (set_addrs (aset (addrs ip) NDIRECT x) ip) lo [] /\
  indirect (set_addrs (aset (addrs ip) NDIRECT x) ip) = x /\
  (forall bn, 0 <= bn < MAXFILE ->
     baddr d (set_addrs (aset (addrs ip) NDIRECT x) ip) bn = baddr d ip bn).
Proof.
  intros Hfs Hfo [Hxd Hxb Hxi Hxz] Hlo Hz.
  pose proof (fo_len d ip Hfo) as Hlen.
  set (ip' := set_addrs (aset (addrs ip) NDIRECT x) ip).
  assert (x <> 0) as Hx0 by (pose proof (datablock_pos d x Hxd); lia).
  assert (indirect ip' = x) as Hind.
  { unfold indirect, ip'. rewrite addrs_set_addrs.
    apply aget_aset_eq. rewrite Hlen. consts. lia. }
  assert (forall bn, 0 <= bn < MAXFILE -> baddr d ip' bn = baddr d ip bn) as Hba.
  { intros bn Hbn. destruct (decide (bn < NDIRECT)).
    - rewrite !baddr_direct by lia. unfold ip'. rewrite addrs_set_addrs.
      apply aget_aset_ne; consts; lia.
    - rewrite !baddr_indirect by lia. rewrite Hind, Hz.
      apply Z.eqb_neq in Hx0. rewrite Hx0. cbn. by apply rd32_zero. }
  assert (forall i, 0 <= i < MAXFILE * BSIZE -> fbyte d ip' i = fbyte d ip i) as Hfb.
  { intros i Hi. unfold fbyte. rewrite Hba by (by apply block_of_byte). done. }
  split; [|split; [done|done]].
  split.
  - exact Hfs.
  - destruct Hfo as [Hl Hd Hj Hi Hs Hm Hn]. split.
    + unfold ip'. rewrite addrs_set_addrs, length_aset. done.
    + intros bn Hbn. rewrite Hba, Hind by done. intros Hne.
      destruct (Hd bn Hbn Hne). split; [done|]. by apply Hxb.
    + intros b1 b2 Hb1 Hb2. rewrite !Hba by done. by apply Hj.
    + rewrite Hind. done.
    + unfold ip'. by rewrite size_set_addrs.
    + unfold ip'. rewrite size_set_addrs.
      apply (mapped_ext d _ ip); [|lia|done]. intros. by apply Hba.
    + unfold ip'. by rewrite inum_set_addrs.
  - reflexivity.
  - unfold ip'. rewrite addrs_set_addrs. done.
  - intros. by apply Hba.
  - intros. by apply Hfb.
  - intros i Hi _ Hzi. rewrite Hba by (by apply block_of_byte). done.
  - intros i Hi. cbn [length] in Hi. lia.
  - lia.
  - cbn [length]. lia.
Qed.

(** [a[bn] = balloc()] in the indirect block. *)
Lemma link_entry d ip x bn lo :
  fs_ok d -> file_ok d ip -> unowned d ip x ->
  0 <= lo <= MAXFILE * BSIZE ->
  indirect ip <> 0 -> NDIRECT <= bn < MAXFILE -> baddr d ip bn = 0 ->
  wrote d ip (wr32 d (indirect ip) (4 * (bn - NDIRECT)) x) ip lo [] /\
  baddr (wr32 d (indirect ip) (4 * (bn - NDIRECT)) x) ip bn = x /\
  nfree (wr32 d (indirect ip) (4 * (bn - NDIRECT)) x) = nfree d.
Proof.
  intros Hfs Hfo Hun Hlo Hind Hbn Hz.
  pose proof Hun as [Hxd Hxb Hxi Hxz].
  set (d' := wr32 d (indirect ip) (4 * (bn - NDIRECT)) x).
  pose proof (fo_ind d ip Hfo Hind) as Hdi.
  assert (forall blk i, blk <> indirect ip -> rd d' blk i = rd d blk i) as Hag.
  { intros blk i Hne. unfold d'. apply rd_wr32_out. by left. }
  destruct (frame_fs d d' (indirect ip)) as (Hsb & Hin & Hnf & Hfs').
  { intros. by apply Hag. }
  { pose proof (datablock_pos d _ Hdi). lia. }
  { right. destruct Hdi. lia. }
  { intros y Hy Hf E. subst y. destruct Hdi. congruence. }
  { exact Hfs. }
  assert (0 <= x < WORD) as Hxr.
  { destruct Hxd as [Hr _]. pose proof (fs_bits d Hfs).
    pose proof (datastart_ge d). unfold WORD. lia. }
  assert (forall bn', 0 <= bn' < MAXFILE ->
     baddr d' ip bn' = if decide (bn' = bn) then x else baddr d ip bn') as Hba.
  { intros bn' Hbn'. case_decide as E.
    - subst bn'. rewrite baddr_indirect by lia.
      apply Z.eqb_neq in Hind. rewrite Hind. unfold d'.
      rewrite rd32_wr32. by apply Z.mod_small.
    - destruct (decide (bn' < NDIRECT)).
      + rewrite !baddr_direct by lia. done.
      + rewrite !baddr_indirect by lia.
        destruct (indirect ip =? 0); [done|].
        apply rd32_ext. intros k Hk. unfold d'. apply rd_wr32_out. lia. }
  split; [|split; [|done]].
  - apply (wrote_link d ip d' ip bn x lo); try done.
    + consts. lia.
    + by rewrite set_addrs_id.
    + apply (fo_len d ip Hfo).
  - rewrite Hba by (consts; lia). case_decide; done.
Qed.

Lemma bind_Panic {A B} (m : M A) (k : A -> M B) st msg :
  m st = Panic msg -> bind m k st = Panic msg.
Proof. intros H. unfold bind. rewrite H. reflexivity. Qed.

Lemma slack_le ip : (slack ip <= 1)%nat.
Proof. unfold slack. destruct (indirect ip =? 0); lia. Qed.

(** [bmap]: the block it returns is the one the block map holds
    afterwards; it allocates at most one block, and one more for the
    indirect block; it fails only when [balloc] does. *)
Lemma bmap_spec a bn d h b ns dl ip lo :
  h !! a = Some ip -> fs_ok d -> file_ok d ip ->
  0 <= bn < MAXFILE -> 0 <= lo <= MAXFILE * BSIZE ->
  match bmap a bn (mkState d h b ns dl) with
  | Ok x st' =>
      exists d' ip',
        st' = mkState d' (<[a := ip']> h) b ns dl /\
        wrote d ip d' ip' lo [] /\ x = baddr d' ip' bn /\ x <> 0 /\
        (nfree d + slack ip' <= nfree d' + 1 + slack ip)%nat /\
        (slack ip' <= slack ip)%nat /\
        (baddr d ip bn <> 0 -> nfree d' = nfree d)
  | Panic msg => msg = "balloc: out of blocks"%string /\ (nfree d <= slack ip)%nat
  | _ => False
  end.
Proof.
  intros Hh Hfs Hfo Hbn Hlo.
  destruct (decide (baddr d ip bn = 0)) as [Hz|Hnz].
  2:{ rewrite (bmap_mapped _ _ _ _ _ _ _ ip Hh Hbn Hnz).
      exists d, ip. rewrite insert_id by done.
      split; [done|]. split; [by apply wrote_refl|].
      split; [done|]. split; [done|]. split; [lia|]. split; [lia|done]. }
  unfold bmap. erewrite bind_Ok by (apply deref_Ok; exact Hh).
  destruct (Z.ltb_spec bn NDIRECT) as [Hd|Hi].
  - (* direct block *)
    rewrite baddr_direct in Hz by done. rewrite Hz.
    change (0 =? 0) with true. cbv beta iota.
    pose proof (balloc_spec (dev ip) d h b ns dl Hfs) as Hb.
    destruct (balloc (dev ip) _) as [x st1|msg| | |] eqn:Eb; try done.
    2:{ erewrite bind_Panic by exact Eb. destruct Hb as [-> ->]. split; [done|lia]. }
    destruct Hb as (Hx & Hfree & ->).
    erewrite bind_Ok by exact Eb.
    erewrite bind_Ok by apply store_Ok. rewrite ret_Ok.
    destruct (alloc_step d ip x lo Hfs Hfo Hlo Hx Hfree) as (Hw1 & Hun & Hnf & Hba1).
    destruct (link_direct (setbit d x) ip x bn lo) as (Hw2 & Hbx & Hix);
      [apply (w_fs _ _ _ _ _ _ Hw1)|apply (w_file _ _ _ _ _ _ Hw1)|done|done|lia|done|].
    eexists _, _. split; [reflexivity|].
    split.
    { apply (wrote_trans _ _ _ _ _ _ _ [] [] Hw1). cbn [length].
      by rewrite Z.add_0_r. }
    split; [by rewrite Hbx|].
    split; [pose proof (datablock_pos _ _ (un_data _ _ _ Hun)); lia|].
    unfold slack. rewrite Hix. split; [lia|]. split; [lia|].
    rewrite baddr_direct by done. done.
  - (* block of the indirect block *)
    assert ((bn - NDIRECT <? NINDIRECT) = true) as ->
      by (apply Z.ltb_lt; unfold MAXFILE in Hbn; lia).
    pose proof Hz as Hz'. rewrite baddr_indirect in Hz' by done.
    change (aget (addrs ip) NDIRECT) with (indirect ip).
    destruct (Z.eqb_spec (indirect ip) 0) as [Hi0|Hi0].
    + (* no indirect block yet *)
      pose proof (balloc_spec (dev ip) d h b ns dl Hfs) as Hb.
      destruct (balloc (dev ip) _) as [x0 st1|msg| | |] eqn:Eb; try done.
      2:{ erewrite bind_Panic by (erewrite bind_Panic by exact Eb; reflexivity).
          destruct Hb as [-> ->]. split; [done|lia]. }
      destruct Hb as (Hx0 & Hfree0 & ->).
      erewrite bind_Ok.
      2:{ erewrite bind_Ok by exact Eb.
          erewrite bind_Ok by apply store_Ok. apply ret_Ok. }
      erewrite bind_Ok by apply get_disk_Ok.
      destruct (alloc_step d ip x0 lo Hfs Hfo Hlo Hx0 Hfree0)
        as (Hw1 & Hun1 & Hnf1 & Hba1).
      set (d1 := setbit d x0) in *.
      destruct (link_indirect d1 ip x0 lo) as (Hw2 & Hix & Hbz);
        [apply (w_fs _ _ _ _ _ _ Hw1)|apply (w_file _ _ _ _ _ _ Hw1)|done|done|done|].
      change (aget (addrs ip) NDIRECT) with (indirect ip).
      set (ip1 := set_addrs (aset (addrs ip) NDIRECT x0) ip) in *.
      pose proof (w_fs _ _ _ _ _ _ Hw2) as Hfs1.
      pose proof (w_file _ _ _ _ _ _ Hw2) as Hfo1.
      assert (rd32 d1 x0 (4 * (bn - NDIRECT)) = 0) as He
        by (apply rd32_zero, (un_zero _ _ _ Hun1)).
      rewrite He. change (0 =? 0) with true. cbv beta iota.
      pose proof (balloc_spec (dev ip) d1 (<[a:=ip1]> h) b ns dl Hfs1) as Hb.
      destruct (balloc (dev ip) (mkState d1 (<[a:=ip1]> h) b ns dl))
        as [x1 st2|msg| | |] eqn:Eb2; try done.
      2:{ erewrite bind_Panic by exact Eb2. destruct Hb as [-> Hn0].
          split; [done|]. unfold slack. apply Z.eqb_eq in Hi0. rewrite Hi0. lia. }
      destruct Hb as (Hx1 & Hfree1 & ->).
      erewrite bind_Ok by exact Eb2.
      erewrite bind_Ok by apply get_disk_Ok.
      erewrite bind_Ok by apply put_disk_Ok. rewrite ret_Ok.
      destruct (alloc_step d1 ip1 x1 lo Hfs1 Hfo1 Hlo Hx1 Hfree1)
        as (Hw3 & Hun3 & Hnf3 & Hba3).
      assert (indirect ip1 <> 0) as Hi1.
      { rewrite Hix. pose proof (datablock_pos _ _ (un_data _ _ _ Hun1)). lia. }
      destruct (link_entry (setbit d1 x1) ip1 x1 bn lo) as (Hw4 & Hbx & Hnf4);
        [apply (w_fs _ _ _ _ _ _ Hw3)|apply (w_file _ _ _ _ _ _ Hw3)|done|done
        |done|consts; lia| |].
      { rewrite Hba3, Hbz, Hba1 by done. exact Hz. }
      rewrite Hix in Hw4, Hbx, Hnf4.
      eexists _, _. split; [reflexivity|].
      split.
      { apply (wrote_trans _ _ _ _ _ _ _ [] [] Hw1). cbn [length].
        rewrite Z.add_0_r.
        apply (wrote_trans _ _ _ _ _ _ _ [] [] Hw2). cbn [length].
        rewrite Z.add_0_r.
        apply (wrote_trans _ _ _ _ _ _ _ [] [] Hw3). cbn [length].
        by rewrite Z.add_0_r. }
      split; [by rewrite Hbx|].
      split; [pose proof (datablock_pos _ _ (un_data _ _ _ Hun3)); lia|].
      unfold slack. apply Z.eqb_neq in Hi1. rewrite Hi1.
      apply Z.eqb_eq in Hi0. rewrite Hi0.
      split; [lia|]. split; [lia|]. intros; done.
    + (* the indirect block is there, its entry is not *)
      erewrite bind_Ok by apply ret_Ok.
      erewrite bind_Ok by apply get_disk_Ok.
      cbv beta iota in Hz'.
      rewrite Hz'. change (0 =? 0) with true. cbv beta iota.
      pose proof (balloc_spec (dev ip) d h b ns dl Hfs) as Hb.
      destruct (balloc (dev ip) _) as [x st1|msg| | |] eqn:Eb; try done.
      2:{ erewrite bind_Panic by exact Eb. destruct Hb as [-> ->]. split; [done|lia]. }
      destruct Hb as (Hx & Hfree & ->).
      erewrite bind_Ok by exact Eb.
      erewrite bind_Ok by apply get_disk_Ok.
      erewrite bind_Ok by apply put_disk_Ok. rewrite ret_Ok.
      destruct (alloc_step d ip x lo Hfs Hfo Hlo Hx Hfree) as (Hw1 & Hun & Hnf & Hba1).
      destruct (link_entry (setbit d x) ip x bn lo) as (Hw2 & Hbx & Hnf2);
        [apply (w_fs _ _ _ _ _ _ Hw1)|apply (w_file _ _ _ _ _ _ Hw1)|done|done
        |done|consts; lia| |].
      { rewrite Hba1. exact Hz. }
      eexists _, ip. split; [rewrite insert_id by done; reflexivity|].
      split.
      { apply (wrote_trans _ _ _ _ _ _ _ [] [] Hw1). cbn [length].
        by rewrite Z.add_0_r. }
      split; [by rewrite Hbx|].
      split; [pose proof (datablock_pos _ _ (un_data _ _ _ Hun)); lia|].
      split; [lia|]. split; [lia|]. intros; done.
Qed.

(** One turn of the copy loop of [writei], after [bmap]. *)
Lemma write_step d ip off bytes :
  fs_ok d -> file_ok d ip ->
  0 <= off < MAXFILE * BSIZE ->
  off mod BSIZE + Z.of_nat (length bytes) <= BSIZE ->
  baddr d ip (off / BSIZE) <> 0 ->
  wrote d ip (wrs d (baddr d ip (off / BSIZE)) (off mod BSIZE) bytes) ip off bytes /\
  nfree (wrs d (baddr d ip (off / BSIZE)) (off mod BSIZE) bytes) = nfree d.
Proof.
  intros Hfs Hfo Hoff Hlen Hne.
  set (blk := baddr d ip (off / BSIZE)) in *.
  set (d' := wrs d blk (off mod BSIZE) bytes).
  pose proof (block_of_byte off Hoff) as Hb0.
  destruct (fo_data d ip Hfo _ Hb0 Hne) as [Hdb Hni]. fold blk in Hdb, Hni.
  assert (forall b i, b <> blk -> rd d' b i = rd d b i) as Hag.
  { intros b i Hb. unfold d'. rewrite rd_wrs. case_decide; [lia|done]. }
  destruct (frame_fs d d' blk) as (Hsb & Hin & Hnf & Hfs'); try done.
  { pose proof (datablock_pos d _ Hdb). lia. }
  { right. destruct Hdb. lia. }
  { intros y Hy Hf E. subst y. destruct Hdb. congruence. }
  destruct (frame_file d d' blk ip) as (Hba & Hfo'); try done.
  split; [|done]. split.
  - exact Hfs'.
  - exact Hfo'.
  - exact Hsb.
  - by rewrite set_addrs_id.
  - intros. apply Hba.
  - intros i Hi Hout Hm. unfold fbyte. rewrite Hba. unfold d'. rewrite rd_wrs.
    case_decide as Hc; [|done]. exfalso. destruct Hc as [Hc1 Hc2].
    assert (i / BSIZE = off / BSIZE) as Hq.
    { apply (fo_inj d ip Hfo); try done. by apply block_of_byte. }
    apply Hout. zdiv.
  - intros i Hi _ Hz. rewrite Hba. done.
  - intros i Hi.
    assert (i / BSIZE = off / BSIZE) as Hq by zdiv.
    rewrite Hba, Hq. split; [done|].
    unfold fbyte. rewrite Hba, Hq. fold blk. unfold d'. rewrite rd_wrs.
    case_decide as Hc.
    + do 3 f_equal. zdiv.
    + exfalso. apply Hc. split; [done|]. zdiv.
  - rewrite Hnf. lia.
  - zdiv.
Qed.

Lemma span_step off r :
  0 <= off -> 1 <= r ->
  let m := Z.min r (BSIZE - off mod BSIZE) in
  1 <= m <= r /\ off mod BSIZE + m <= BSIZE /\ 1 <= span off r /\
  span (off + m) (r - m) <= span off r - 1.
Proof.
  intros Hoff Hr m. unfold span.
  assert (1 <= m <= r /\ off mod BSIZE + m <= BSIZE) as [Hm1 Hm2]
    by (unfold m; zdiv).
  split; [done|]. split; [done|].
  destruct (Z.eqb_spec r 0); [lia|].
  destruct (Z.eqb_spec (r - m) 0) as [E|E]; [zdiv|].
  assert (m = BSIZE - off mod BSIZE) as Hm by (unfold m in *; lia).
  split; [zdiv|]. rewrite Hm. zdiv.
Qed.

Lemma baddr_set_size d s ip bn : baddr d (set_size s ip) bn = baddr d ip bn.
Proof. destruct ip. reflexivity. Qed.

Lemma fbyte_set_size d s ip i : fbyte d (set_size s ip) i = fbyte d ip i.
Proof. unfold fbyte. by rewrite baddr_set_size. Qed.

Lemma indirect_set_size s ip : indirect (set_size s ip) = indirect ip.
Proof. destruct ip. reflexivity. Qed.

Lemma file_ok_set_size d s ip :
  file_ok d ip -> 0 <= s <= MAXFILE * BSIZE -> mapped d ip 0 s ->
  file_ok d (set_size s ip).
Proof.
  intros [Hl Hd Hj Hi Hs Hm Hn] Hsr Hms. split.
  - destruct ip; exact Hl.
  - intros bn Hbn. rewrite baddr_set_size, indirect_set_size. by apply Hd.
  - intros b1 b2 Hb1 Hb2. rewrite !baddr_set_size. by apply Hj.
  - rewrite indirect_set_size. exact Hi.
  - destruct ip; exact Hsr.
  - intros i Hi'. rewrite baddr_set_size. apply Hms.
    destruct ip; exact Hi'.
  - destruct ip; exact Hn.
Qed.

Lemma length_dinode_addrs ip :
  length (d_addrs (dinode_of ip)) = Z.to_nat (NDIRECT + 1).
Proof. unfold dinode_of. cbn [d_addrs]. by rewrite length_map, length_seq. Qed.

(** [iupdate] writes inside the inode table and nowhere else. *)
Lemma iupdate_frame d ino di :
  fs_ok d -> 0 <= ino < sb_ninodes (readsb d) ->
  length (d_addrs di) = Z.to_nat (NDIRECT + 1) ->
  readsb (wr_dinode d ino di) = readsb d /\
  nfree (wr_dinode d ino di) = nfree d /\
  fs_ok (wr_dinode d ino di) /\
  (forall ip, file_ok d ip ->
     file_ok (wr_dinode d ino di) ip /\
     (forall bn, baddr (wr_dinode d ino di) ip bn = baddr d ip bn) /\
     (forall i, 0 <= i < MAXFILE * BSIZE ->
        fbyte (wr_dinode d ino di) ip i = fbyte d ip i)).
Proof.
  intros Hfs Hino Hlen. set (d' := wr_dinode d ino di).
  assert (forall b i, b <> IBLOCK ino -> rd d' b i = rd d b i) as Hag.
  { intros b i Hb. unfold d'. apply rd_wr_dinode_out; [done|by left]. }
  assert (2 <= IBLOCK ino < sb_ninodes (readsb d) / IPB + 3) as HB
    by (unfold IBLOCK; zdiv).
  assert (IBLOCK ino < datastart d) as HB' by (unfold datastart; lia).
  destruct (frame_fs d d' (IBLOCK ino)) as (Hsb & Hin & Hnf & Hfs'); try done.
  { lia. } { left. lia. }
  { intros y Hy Hf E. rewrite (fs_meta d Hfs y) in Hf; [done|lia|lia]. }
  split; [done|]. split; [done|]. split; [done|].
  intros ip Hfo.
  assert (IBLOCK ino <> indirect ip) as Hni.
  { destruct (decide (indirect ip = 0)) as [E|E]; [lia|].
    destruct (fo_ind d ip Hfo E) as [Hr _]. lia. }
  destruct (frame_file d d' (IBLOCK ino) ip) as (Hba & Hfo'); try done.
  split; [done|]. split; [done|].
  intros i Hi. unfold fbyte. rewrite Hba. apply Hag.
  destruct (decide (baddr d ip (i / BSIZE) = 0)) as [E|E]; [lia|].
  destruct (fo_data d ip Hfo _ (block_of_byte i Hi) E) as [[Hr _] _]. lia.
Qed.

Lemma u32_small x : 0 <= x < WORD -> u32 x = x.
Proof. apply Z.mod_small. Qed.

Lemma u32_wrap x : WORD <= x < 2 * WORD -> u32 x = x - WORD.
Proof.
  intros H. unfold u32. replace x with (x - WORD + 1 * WORD) at 1 by lia.
  rewrite Z.mod_add by (unfold WORD; lia). apply Z.mod_small. lia.
Qed.

(** What [writei] does when it does not refuse: the loop, then the size. *)

(** The copy loop, whatever it does: it returns only with the bytes
    written, and it fails only in [balloc], for want of room. *)
Lemma writei_loop_cases fuel a d h b ns dl ip src tot off n :
  h !! a = Some ip -> fs_ok d -> file_ok d ip ->
  0 <= tot <= n -> n < WORD -> 0 <= off ->
  off + (n - tot) <= MAXFILE * BSIZE ->
  n - tot <= Z.of_nat fuel -> n - tot <= Z.of_nat (length src) ->
  match writei_loop fuel a src tot off n (mkState d h b ns dl) with
  | Ok x st' =>
      exists d' ip',
        x = off + (n - tot) /\ st' = mkState d' (<[a := ip']> h) b ns dl /\
        wrote d ip d' ip' off (take (Z.to_nat (n - tot)) src)
  | Panic msg => ~ room d ip off (n - tot)
  | _ => False
  end.
Proof.
  revert d h ip src tot off.
  induction fuel as [|fuel IH];
    intros d h ip src tot off Hh Hfs Hfo Htot Hn Hoff Hmax Hfuel Hsrc.
  - assert (tot = n) as -> by lia. cbn [writei_loop]. rewrite Z.ltb_irrefl.
    rewrite ret_Ok. exists d, ip. rewrite insert_id by done.
    replace (n - n) with 0 by lia. rewrite Z.add_0_r. cbn [Z.to_nat take].
    split; [done|]. split; [done|]. apply wrote_refl; [done|done|lia].
  - cbn [writei_loop]. destruct (Z.ltb_spec tot n) as [Hlt|Hge].
    2:{ assert (tot = n) as -> by lia.
        rewrite ret_Ok. exists d, ip. rewrite insert_id by done.
        replace (n - n) with 0 by lia. rewrite Z.add_0_r. cbn [Z.to_nat take].
        split; [done|]. split; [done|]. apply wrote_refl; [done|done|lia]. }
    set (r := n - tot) in *.
    destruct (span_step off r Hoff ltac:(lia)) as (Hm1 & Hm2 & Hsp1 & Hsp2).
    set (m := Z.min r (BSIZE - off mod BSIZE)) in *.
    assert (0 <= off < MAXFILE * BSIZE) as Hoff' by lia.
    pose proof (block_of_byte off Hoff') as Hbn.
    pose proof (bmap_spec a (off / BSIZE) d h b ns dl ip off Hh Hfs Hfo Hbn
                  ltac:(lia)) as Hbm.
    destruct (bmap a (off / BSIZE) _) as [x st1|msg| | |] eqn:Eb; try done.
    2:{ erewrite bind_Panic by exact Eb. destruct Hbm as [_ Hnf].
        unfold room. lia. }
    destruct Hbm as (d1 & ip1 & -> & Hw1 & Hx & Hx0 & Hnf1 & Hsl1 & _).
    erewrite bind_Ok by exact Eb.
    erewrite bind_Ok by apply get_disk_Ok.
    erewrite bind_Ok by apply put_disk_Ok.
    pose proof (w_fs _ _ _ _ _ _ Hw1) as Hfs1.
    pose proof (w_file _ _ _ _ _ _ Hw1) as Hfo1.
    assert (length (take (Z.to_nat m) src) = Z.to_nat m) as Hlen
      by (rewrite length_take; lia).
    destruct (write_step d1 ip1 off (take (Z.to_nat m) src) Hfs1 Hfo1 Hoff')
      as (Hw2 & Hnf2); [rewrite Hlen; lia|by rewrite <- Hx|].
    rewrite <- Hx in Hw2, Hnf2.
    set (d2 := wrs d1 x (off mod BSIZE) (take (Z.to_nat m) src)) in *.
    unfold u32.
    rewrite (Z.mod_small (tot + m)), (Z.mod_small (off + m))
      by (consts; lia).
    pose proof (IH d2 (<[a:=ip1]> h) ip1 (drop (Z.to_nat m) src) (tot + m) (off + m)
                  (lookup_insert_eq _ _ _) (w_fs _ _ _ _ _ _ Hw2)
                  (w_file _ _ _ _ _ _ Hw2) ltac:(lia) ltac:(lia) ltac:(lia)
                  ltac:(lia) ltac:(lia) ltac:(rewrite length_drop; lia)) as HIH.
    replace (n - (tot + m)) with (r - m) in HIH by lia.
    destruct (writei_loop fuel a _ _ _ _ _) as [y st2|msg| | |]; try done.
    + destruct HIH as (d' & ip' & -> & -> & Hw3).
      exists d', ip'. rewrite insert_insert_eq.
      split; [lia|]. split; [done|].
      assert (take (Z.to_nat r) src =
              [] ++ take (Z.to_nat m) src
                 ++ take (Z.to_nat (r - m)) (drop (Z.to_nat m) src)) as ->.
      { cbn [app]. rewrite take_take_drop. f_equal. lia. }
      apply (wrote_trans _ _ _ _ _ _ _ _ _ Hw1). cbn [length].
      rewrite Z.add_0_r.
      apply (wrote_trans _ _ _ _ _ _ _ _ _ Hw2).
      rewrite Hlen, Z2Nat.id by lia. exact Hw3.
    + intros Hroom. apply HIH. unfold room in *. rewrite Hnf2. lia.
Qed.

(** What [writei] does when it does not refuse: it returns only with the
    bytes written, and it fails only for want of room. *)
Lemma writei_cases a d h b ns dl ip src off n :
  h !! a = Some ip -> type ip <> T_DEV -> uint off -> uint n ->
  fs_ok d -> file_ok d ip ->
  off <= size ip -> off + n < WORD ->
  Z.min n (MAXFILE * BSIZE - off) <= Z.of_nat (length src) ->
  match writei a src off n (mkState d h b ns dl) with
  | Ok x st' =>
      exists d1 ip1,
        wrote d ip d1 ip1 off
              (take (Z.to_nat (Z.min n (MAXFILE * BSIZE - off))) src) /\
        x = Z.min n (MAXFILE * BSIZE - off) /\
        st' = (if size ip <? off + Z.min n (MAXFILE * BSIZE - off)
               then mkState
                      (wr_dinode d1 (inum ip)
                         (dinode_of
                            (set_size (off + Z.min n (MAXFILE * BSIZE - off)) ip1)))
                      (<[a := set_size (off + Z.min n (MAXFILE * BSIZE - off)) ip1]> h)
                      b ns dl
               else mkState d1 (<[a := ip1]> h) b ns dl)
  | Panic msg => ~ room d ip off (Z.min n (MAXFILE * BSIZE - off))
  | _ => False
  end.
Proof.
  intros Hh Hty Hoff Hn Hfs Hfo Hle Hov Hsrc. unfold uint in *.
  pose proof (fo_size d ip Hfo) as Hsz.
  set (n' := Z.min n (MAXFILE * BSIZE - off)) in *.
  assert (0 <= n' <= MAXFILE * BSIZE) as Hn' by (unfold n'; lia).
  pose proof (writei_loop_cases (Z.to_nat n') a d h b ns dl ip src 0 off n'
                Hh Hfs Hfo ltac:(lia) ltac:(consts; lia) ltac:(lia)
                ltac:(unfold n'; lia) ltac:(lia) ltac:(lia)) as Hloop.
  replace (n' - 0) with n' in * by lia.
  unfold writei. erewrite bind_Ok by (apply deref_Ok; exact Hh).
  apply Z.eqb_neq in Hty. rewrite Hty.
  rewrite (u32_small (off + n)) by lia.
  assert ((size ip <? off) || (off + n <? off) = false) as ->.
  { apply orb_false_iff. split; apply Z.ltb_ge; lia. }
  assert ((if MAXFILE * BSIZE <? off + n then u32 (MAXFILE * BSIZE - off) else n)
          = n') as ->.
  { unfold n'. destruct (Z.ltb_spec (MAXFILE * BSIZE) (off + n)).
    - rewrite u32_small by (unfold WORD; consts; lia). lia.
    - lia. }
  destruct (writei_loop (Z.to_nat n') a src 0 off n' _)
    as [y st1|msg| | |] eqn:Hrun; try done.
  2:{ erewrite bind_Panic by exact Hrun. exact Hloop. }
  destruct Hloop as (d1 & ip1 & -> & -> & Hw).
  erewrite bind_Ok by exact Hrun.
  erewrite bind_Ok by (apply deref_Ok; apply lookup_insert_eq).
  rewrite to_int_small by (consts; lia).
  assert (size ip1 = size ip) as Hs1.
  { rewrite (w_fields _ _ _ _ _ _ Hw). apply size_set_addrs. }
  assert (inum ip1 = inum ip) as Hi1.
  { rewrite (w_fields _ _ _ _ _ _ Hw). apply inum_set_addrs. }
  rewrite Hs1.
  destruct (Z.ltb_spec (size ip) (off + n')) as [Hext|Hin].
  - assert ((0 <? n') = true) as -> by (apply Z.ltb_lt; lia).
    cbn [andb].
    erewrite bind_Ok.
    2:{ erewrite bind_Ok by apply store_Ok.
        apply iupdate_spec. apply lookup_insert_eq. }
    rewrite insert_insert_eq, ret_Ok.
    replace (inum (set_size (off + n') ip1)) with (inum ip)
      by (rewrite <- Hi1; destruct ip1; reflexivity).
    exists d1, ip1. done.
  - rewrite andb_false_r. erewrite bind_Ok by apply ret_Ok. rewrite ret_Ok.
    exists d1, ip1. done.
Qed.

Lemma writei_run a d h b ns dl ip src off n :
  h !! a = Some ip -> type ip <> T_DEV -> uint off -> uint n ->
  fs_ok d -> file_ok d ip ->
  off <= size ip -> off + n < WORD ->
  Z.min n (MAXFILE * BSIZE - off) <= Z.of_nat (length src) ->
  room d ip off (Z.min n (MAXFILE * BSIZE - off)) ->
  exists d1 ip1,
    wrote d ip d1 ip1 off (take (Z.to_nat (Z.min n (MAXFILE * BSIZE - off))) src) /\
    writei a src off n (mkState d h b ns dl) =
    Ok (Z.min n (MAXFILE * BSIZE - off))
       (if size ip <? off + Z.min n (MAXFILE * BSIZE - off)
        then mkState
               (wr_dinode d1 (inum ip)
                  (dinode_of (set_size (off + Z.min n (MAXFILE * BSIZE - off)) ip1)))
               (<[a := set_size (off + Z.min n (MAXFILE * BSIZE - off)) ip1]> h)
               b ns dl
        else mkState d1 (<[a := ip1]> h) b ns dl).
Proof.
  intros Hh Hty Hoff Hn Hfs Hfo Hle Hov Hsrc Hroom.
  pose proof (writei_cases a d h b ns dl ip src off n Hh Hty Hoff Hn Hfs Hfo
                Hle Hov Hsrc) as Hc.
  destruct (writei a src off n _) as [x st'|msg| | |]; try done.
  destruct Hc as (d1 & ip1 & Hw & -> & ->). by exists d1, ip1.
Qed.

Lemma set_size_fields s ip ip1 :
  ip1 = set_addrs (addrs ip1) ip ->
  set_size s ip1 =
  set_size (size (set_size s ip1)) (set_addrs (addrs (set_size s ip1)) ip).
Proof.
  intros H.
  destruct ip as [a1 a2 a3 a4 a5 a6 a7 a8 a9 a10 a11 a12].
  destruct ip1 as [b1 b2 b3 b4 b5 b6 b7 b8 b9 b10 b11 b12].
  cbv [set_addrs set_size addrs size] in H |- *.
  injection H as -> -> -> -> -> -> -> -> -> -> ->. reflexivity.
Qed.

Lemma same_size_fields ip ip1 :
  ip1 = set_addrs (addrs ip1) ip ->
  ip1 = set_size (size ip1) (set_addrs (addrs ip1) ip).
Proof.
  intros H.
  destruct ip as [a1 a2 a3 a4 a5 a6 a7 a8 a9 a10 a11 a12].
  destruct ip1 as [b1 b2 b3 b4 b5 b6 b7 b8 b9 b10 b11 b12].
  cbv [set_addrs set_size addrs size] in H |- *.
  injection H as -> -> -> -> -> -> -> -> -> -> ->. reflexivity.
Qed.

(** From the copy loop to the end of [writei]. *)
Lemma written_of_wrote d ip d1 ip1 off src :
  file_ok d ip -> off <= size ip ->
  wrote d ip d1 ip1 off src ->
  written d ip
    (if size ip <? off + Z.of_nat (length src)
     then wr_dinode d1 (inum ip)
            (dinode_of (set_size (off + Z.of_nat (length src)) ip1))
     else d1)
    (if size ip <? off + Z.of_nat (length src)
     then set_size (off + Z.of_nat (length src)) ip1 else ip1)
    off src.
Proof.
  intros Hfo Hle Hw.
  destruct Hw as [Hfs1 Hfo1 Hsb1 Hfl1 Hkeep Hold Hnew Hsrc Hfree Hrange].
  assert (size ip1 = size ip) as Hs1 by (rewrite Hfl1; apply size_set_addrs).
  assert (inum ip1 = inum ip) as Hi1 by (rewrite Hfl1; apply inum_set_addrs).
  pose proof (fo_size d ip Hfo) as Hsz.
  set (e := off + Z.of_nat (length src)) in *.
  destruct (Z.ltb_spec (size ip) e) as [Hext|Hin].
  - set (ip' := set_size e ip1).
    assert (mapped d1 ip1 0 e) as Hmap.
    { intros i Hi. destruct (decide (i < size ip)) as [Hlt|Hge].
      - apply (fo_mapped d1 ip1 Hfo1). lia.
      - split; [zdiv|]. apply Hsrc. lia. }
    assert (file_ok d1 ip') as Hfo'
      by (apply file_ok_set_size; [done|lia|done]).
    destruct (iupdate_frame d1 (inum ip) (dinode_of ip') Hfs1)
      as (Hsb & Hnf & Hfs' & Hfile).
    { rewrite <- Hi1. pose proof (fo_inum d1 ip1 Hfo1). lia. }
    { apply length_dinode_addrs. }
    destruct (Hfile ip' Hfo') as (Hfo'' & Hba & Hfb).
    split.
    + exact Hfs'.
    + exact Hfo''.
    + by rewrite Hsb.
    + unfold ip'. destruct ip1; cbn. lia.
    + unfold ip'. by apply set_size_fields.
    + intros bn Hbn Hne. rewrite Hba. unfold ip'. rewrite baddr_set_size.
      by apply Hkeep.
    + intros i Hi Hout Hne. rewrite Hfb by done. unfold ip'.
      rewrite fbyte_set_size. by apply Hold.
    + intros i Hi Hout Hz. rewrite Hba, Hfb by done. unfold ip'.
      rewrite baddr_set_size, fbyte_set_size. by apply Hnew.
    + intros i Hi. rewrite Hfb by lia. unfold ip'. rewrite fbyte_set_size.
      by apply Hsrc.
    + lia.
    + intros _. by exists d1.
  - split.
    + exact Hfs1.
    + exact Hfo1.
    + exact Hsb1.
    + lia.
    + by apply same_size_fields.
    + exact Hkeep.
    + exact Hold.
    + exact Hnew.
    + intros i Hi. by apply Hsrc.
    + exact Hfree.
    + intros. lia.
Qed.

(** [writei], case by case. *)
Lemma writei_ok (a : Z) (ip : inode) (st : state) (src : list Z) (off n : Z) :
  heap st !! a = Some ip ->
  type ip <> T_DEV ->
  uint off -> uint n ->
  fs_ok (sdisk st) -> file_ok (sdisk st) ip ->
  (size ip < off \/ WORD <= off + n -> writei a src off n st = Ok (-1) st) /\
  (off <= size ip -> off + n < WORD ->
   Z.min n (MAXFILE * BSIZE - off) <= Z.of_nat (length src) ->
   room (sdisk st) ip off (Z.min n (MAXFILE * BSIZE - off)) ->
   exists st', writei a src off n st = Ok (Z.min n (MAXFILE * BSIZE - off)) st') /\
  (off <= size ip -> off + n < WORD ->
   Z.min n (MAXFILE * BSIZE - off) <= Z.of_nat (length src) ->
   forall x st', writei a src off n st = Ok x st' ->
   x = Z.min n (MAXFILE * BSIZE - off) /\
   exists d' ip',
     st' = mkState d' (<[a := ip']> (heap st)) (brk st) (ins st) (delayed st) /\
     written (sdisk st) ip d' ip' off
             (take (Z.to_nat (Z.min n (MAXFILE * BSIZE - off))) src)).
Proof.
  intros Hh Hty Hoff Hn Hfs Hfo. destruct st as [d h b ns dl].
  cbn [heap sdisk brk ins delayed] in *. split; [|split].
  - intros Hrej. unfold uint in *. unfold writei.
    erewrite bind_Ok by (apply deref_Ok; exact Hh).
    apply Z.eqb_neq in Hty. rewrite Hty.
    assert ((size ip <? off) || (u32 (off + n) <? off) = true) as ->; [|done].
    apply orb_true_iff. destruct Hrej as [H|H].
    + left. apply Z.ltb_lt. lia.
    + right. apply Z.ltb_lt. rewrite u32_wrap by lia. lia.
  - intros Hle Hov Hsrc Hroom.
    destruct (writei_run a d h b ns dl ip src off n) as (d1 & ip1 & Hw & Hrun);
      try done.
    rewrite Hrun. by eexists.
  - intros Hle Hov Hsrc x st' Hrun.
    pose proof (writei_cases a d h b ns dl ip src off n Hh Hty Hoff Hn Hfs Hfo
                  Hle Hov Hsrc) as Hc.
    rewrite Hrun in Hc. destruct Hc as (d1 & ip1 & Hw & -> & ->).
    split; [done|].
    pose proof (fo_size d ip Hfo) as Hsz. unfold uint in *.
    set (n' := Z.min n (MAXFILE * BSIZE - off)) in *.
    assert (Z.of_nat (length (take (Z.to_nat n') src)) = n') as Hlen
      by (rewrite length_take; lia).
    pose proof (written_of_wrote d ip d1 ip1 off _ Hfo Hle Hw) as Hwn.
    rewrite Hlen in Hwn.
    destruct (size ip <? off + n'); eexists _, _; (split; [reflexivity|exact Hwn]).
Qed.

(** C4.  For an inode that is not a device, [writei] returns -1 when
    [off > size] or [off + n] overflows.  Otherwise, on a sound file system,
    with [n' = min n (MAXFILE*BSIZE - off)]: when there is room for the
    blocks it returns [n'], and whenever it returns it returns [n'] and has
    written the first [n'] bytes of [src] at [off], block by block through
    [bmap]: those bytes read back, the other bytes of the file are as
    before, [size] is the larger of the old [size] and [off + n'], and when
    that is larger the inode has gone to disk through [iupdate]. *)
Theorem writei_spec (a : Z) (ip : inode) (st : state) (src : list Z) (off n : Z) :
  heap st !! a = Some ip ->
  type ip <> T_DEV ->
  uint off -> uint n ->
  fs_ok (sdisk st) -> file_ok (sdisk st) ip ->
  (size ip < off \/ WORD <= off + n -> writei a src off n st = Ok (-1) st) /\
  (off <= size ip -> off + n < WORD ->
   Z.min n (MAXFILE * BSIZE - off) <= Z.of_nat (length src) ->
   room (sdisk st) ip off (Z.min n (MAXFILE * BSIZE - off)) ->
   exists st', writei a src off n st = Ok (Z.min n (MAXFILE * BSIZE - off)) st') /\
  (off <= size ip -> off + n < WORD ->
   Z.min n (MAXFILE * BSIZE - off) <= Z.of_nat (length src) ->
   forall x st', writei a src off n st = Ok x st' ->
   x = Z.min n (MAXFILE * BSIZE - off) /\
   exists d' ip',
     st' = mkState d' (<[a := ip']> (heap st)) (brk st) (ins st) (delayed st) /\
     written (sdisk st) ip d' ip' off
             (take (Z.to_nat (Z.min n (MAXFILE * BSIZE - off))) src)).
Proof. exact (writei_ok a ip st src off n). Qed.

Lemma fs_okb_sound d : fs_okb d = true -> fs_ok d.
Proof.
  unfold fs_okb. rewrite !andb_true_iff, !forallb_forall.
  intros [[Hb Hm] Hz]. apply Z.leb_le in Hb.
  assert (forall b, 0 <= b < datastart d -> inuse d b = true) as Hmeta.
  { intros b Hbr. rewrite <- (Z2Nat.id b) by lia. apply Hm.
    apply in_seq. lia. }
  split.
  - exact Hb.
  - intros b Hbr _. by apply Hmeta.
  - intros b i Hbr Hfree. unfold rd.
    destruct (d !! (b, i)) as [v|] eqn:Hl; [|done].
    apply elem_of_map_to_list in Hl.
    assert (In ((b, i), v) (map_to_list d)) as Hin
      by (by apply list_elem_of_In).
    apply Hz in Hin. cbn in Hin. apply orb_true_iff in Hin.
    destruct Hin as [H0|Hlt].
    + apply Z.eqb_eq in H0. exact H0.
    + apply Z.ltb_lt in Hlt. rewrite Hmeta in Hfree by lia. discriminate.
Qed.

Lemma fs_ok_mkfs : fs_ok mkfs.
Proof. apply fs_okb_sound. vm_compute. reflexivity. Qed.

(** A file without blocks fits any bitmap. *)
Lemma file_ok_empty d ip :
  addrs ip = repeat 0 (Z.to_nat (NDIRECT + 1)) -> size ip = 0 ->
  0 <= inum ip < sb_ninodes (readsb d) -> file_ok d ip.
Proof.
  intros Ha Hs Hi.
  assert (forall bn, 0 <= bn < MAXFILE -> baddr d ip bn = 0) as Hz.
  { intros bn Hbn. unfold baddr. rewrite Ha. unfold aget.
    destruct (bn <? NDIRECT).
    - apply nth_repeat.
    - rewrite nth_repeat. reflexivity. }
  split.
  - rewrite Ha. apply repeat_length.
  - intros bn Hbn Hne. by rewrite Hz in Hne.
  - intros bn bn' Hbn _ Hne. by rewrite Hz in Hne.
  - unfold indirect, aget. rewrite Ha, nth_repeat. done.
  - rewrite Hs. consts. lia.
  - intros i Hi'. lia.
  - exact Hi.
Qed.

Lemma file_ok_newfile : file_ok mkfs newfile.
Proof. apply file_ok_empty; [reflexivity|reflexivity|]. vm_compute. done. Qed.

Lemma room_newfile r : 0 <= r <= 8192 -> room mkfs newfile 0 r.
Proof.
  intros Hr. unfold room.
  assert (nfree mkfs = 4064%nat) as -> by (vm_compute; reflexivity).
  assert (slack newfile = 1%nat) as -> by reflexivity.
  assert (span 0 r <= 17); [|lia].
  unfold span. destruct (r =? 0); [lia|]. zdiv.
Qed.

Lemma writei_spec_witness :
  exists st',
    writei 10 [1; 2; 3] 0 3 st_new = Ok (Z.min 3 (MAXFILE * BSIZE - 0)) st'.
Proof.
  apply (proj1 (proj2 (writei_spec 10 newfile st_new [1; 2; 3] 0 3
                  eq_refl ltac:(discriminate) ltac:(unfold uint, WORD; lia)
                  ltac:(unfold uint, WORD; lia) fs_ok_mkfs file_ok_newfile))).
  - simpl. lia.
  - unfold WORD. lia.
  - vm_compute. discriminate.
  - apply room_newfile. vm_compute. split; discriminate.
Defined.

Lemma type_written s l ip : type (set_size s (set_addrs l ip)) = type ip.
Proof. destruct ip. reflexivity. Qed.

Lemma fbytes_written d ip d' ip' off src :
  written d ip d' ip' off src ->
  Forall (fun c => 0 <= c < 256) src ->
  fbytes d' ip' off (length src) = src.
Proof.
  intros Hw Hb. apply nth_ext with (d := 0) (d' := 0).
  - apply length_fbytes.
  - intros k Hk. rewrite length_fbytes in Hk. rewrite nth_fbytes by done.
    rewrite (wn_src _ _ _ _ _ _ Hw) by lia.
    replace (Z.to_nat (off + Z.of_nat k - off)) with k by lia.
    apply Z.mod_small.
    rewrite Forall_forall in Hb. apply Hb. apply list_elem_of_In, nth_In. done.
Qed.

(** C6.  Round trip of file contents.  For an inode that is not a device in
    a sound file system, when [writei] of [n] bytes at [off] returns [n], a
    [readi] of [n] bytes at [off] returns [n] and the bytes that were
    written, and leaves the state alone.  And on a file that [ialloc] has
    just made, the write of 8192 bytes [0x41] at offset 0 returns 8192 and
    leaves [size] 8192 with the twelve direct blocks and the indirect block
    there, and the [readi] of 8192 bytes at 0 returns the same bytes. *)
Theorem write_read_roundtrip :
  (forall (a : Z) (ip : inode) (st st' : state) (src : list Z) (off n : Z),
     heap st !! a = Some ip ->
     type ip <> T_DEV ->
     uint off -> uint n ->
     fs_ok (sdisk st) -> file_ok (sdisk st) ip ->
     n <= Z.of_nat (length src) ->
     Forall (fun c => 0 <= c < 256) src ->
     writei a src off n st = Ok n st' ->
     readi a off n st' = Ok (n, take (Z.to_nat n) src) st') /\
  value (write_read_8192 (mkState mkfs ∅ 1 [] [])) =
  Some (8192, 8192, [32; 33; 34; 35; 36; 37; 38; 39; 40; 41; 42; 43; 44],
        (8192, repeat 65 (Z.to_nat 8192))).
Proof.
  split; [|vm_compute; reflexivity].
  intros a ip st st' src off n Hh Hty Hoff Hn Hfs Hfo Hlen Hby Hrun.
  destruct (writei_ok a ip st src off n Hh Hty Hoff Hn Hfs Hfo)
    as (Hrej & _ & Hok).
  unfold uint in *.
  assert (off <= size ip /\ off + n < WORD) as [Hle Hov].
  { destruct (decide (size ip < off \/ WORD <= off + n)) as [Hr|Hr]; [|lia].
    rewrite (Hrej Hr) in Hrun. injection Hrun as Hn1 _. lia. }
  destruct (Hok Hle Hov ltac:(lia) n st' Hrun) as (Hnn & d' & ip' & -> & Hw).
  rewrite <- Hnn in Hw.
  pose proof (wn_file _ _ _ _ _ _ Hw) as Hfo'.
  pose proof (fo_size _ _ Hfo') as Hsz'.
  pose proof (wn_size _ _ _ _ _ _ Hw) as Hs'.
  assert (Z.of_nat (length (take (Z.to_nat n) src)) = n) as Hlt
    by (rewrite length_take; lia).
  rewrite Hlt in Hs'.
  destruct (readi_run a ip' (mkState d' (<[a := ip']> (heap st)) (brk st)
                                 (ins st) (delayed st)) off n)
    as (_ & Hrd).
  { apply lookup_insert_eq. }
  { rewrite (wn_fields _ _ _ _ _ _ Hw), type_written. exact Hty. }
  { unfold uint. lia. }
  { unfold uint. lia. }
  { unfold uint, WORD. revert Hsz'. consts. lia. }
  assert (Z.min n (size ip' - off) = n) as Hmin by lia.
  destruct Hrd as (_ & _ & Hrd); [lia|lia| |].
  { cbn [sdisk]. rewrite Hmin.
    eapply mapped_mono; [apply (fo_mapped _ _ Hfo')|lia|lia]. }
  rewrite Hrd, Hmin. cbn [sdisk]. do 2 f_equal.
  rewrite <- (fbytes_written _ _ _ _ _ _ Hw).
  - f_equal. lia.
  - by apply Forall_take.
Qed.

Lemma write_read_roundtrip_witness :
  readi 10 0 3 st_123 = Ok (3, take (Z.to_nat 3) [1; 2; 3]) st_123.
Proof.
  apply (proj1 write_read_roundtrip 10 newfile st_new st_123 [1; 2; 3] 0 3).
  - reflexivity.
  - discriminate.
  - unfold uint, WORD. lia.
  - unfold uint, WORD. lia.
  - exact fs_ok_mkfs.
  - exact file_ok_newfile.
  - simpl. lia.
  - repeat constructor; lia.
  - vm_compute. reflexivity.
Defined.

Ltac dconsts := change (BSIZE / DIRENT) with 32 in *; consts.
Ltac ddiv := dconsts; Z.div_mod_to_equations; lia.

Lemma dir_find_app d ip name n m k :
  dir_find d ip name (n + m) k =
  match dir_find d ip name n k with
  | Some x => Some x
  | None => dir_find d ip name m (k + Z.of_nat n)
  end.
Proof.
  revert k. induction n as [|n IH]; intros k.
  - cbn. f_equal. lia.
  - cbn [Nat.add dir_find]. destruct (de_match d ip name k); [done|].
    rewrite IH. destruct (dir_find d ip name n (k + 1)); [done|].
    f_equal. lia.
Qed.

Lemma dir_find_none d ip name n k :
  dir_find d ip name n k = None <->
  forall j, k <= j < k + Z.of_nat n -> de_match d ip name j = false.
Proof.
  revert k. induction n as [|n IH]; intros k.
  - cbn. split; [intros _ j Hj; lia|done].
  - cbn [dir_find]. destruct (de_match d ip name k) eqn:E.
    + split; [done|]. intros H. rewrite H in E by lia. done.
    + rewrite IH. split.
      * intros H j Hj. destruct (decide (j = k)) as [->|]; [done|]. apply H. lia.
      * intros H j Hj. apply H. lia.
Qed.

Lemma dir_find_some d ip name n k x :
  dir_find d ip name n k = Some x ->
  k <= x < k + Z.of_nat n /\ de_match d ip name x = true /\
  forall j, k <= j < x -> de_match d ip name j = false.
Proof.
  revert k. induction n as [|n IH]; intros k; [done|].
  cbn [dir_find]. destruct (de_match d ip name k) eqn:E.
  - intros [= <-]. split; [lia|]. split; [done|]. intros; lia.
  - intros H. destruct (IH _ H) as (Hr & Hm & Hf).
    split; [lia|]. split; [done|].
    intros j Hj. destruct (decide (j = k)) as [->|]; [done|]. apply Hf. lia.
Qed.

(** Free entries do not match. *)
Lemma dir_find_free d ip name n k :
  (forall j, k <= j < k + Z.of_nat n -> de_inum d ip j = 0) ->
  dir_find d ip name n k = None.
Proof.
  intros H. apply dir_find_none. intros j Hj. unfold de_match.
  rewrite H by done. reflexivity.
Qed.

(** The inner loop of [dirlookup] on block [bn] of the file. *)
Lemma dirscan_spec d ip name bn k j :
  0 <= bn -> 0 <= j -> j + Z.of_nat k <= BSIZE / DIRENT ->
  dirscan d (baddr d ip bn) name k (j * DIRENT) =
  match dir_find d ip name k (bn * (BSIZE / DIRENT) + j) with
  | Some x => Some (x * DIRENT - bn * BSIZE, de_inum d ip x)
  | None => None
  end.
Proof.
  intros Hbn. revert j. induction k as [|k IH]; intros j Hj Hk; [done|].
  cbn [dirscan dir_find].
  set (x := bn * (BSIZE / DIRENT) + j).
  assert (x * DIRENT / BSIZE = bn /\ x * DIRENT mod BSIZE = j * DIRENT
          /\ (x * DIRENT + 1) / BSIZE = bn
          /\ (x * DIRENT + 1) mod BSIZE = j * DIRENT + 1
          /\ (x * DIRENT + 2) / BSIZE = bn
          /\ (x * DIRENT + 2) mod BSIZE = j * DIRENT + 2)
    as (Hq0 & Hr0 & Hq1 & Hr1 & Hq2 & Hr2) by (unfold x; ddiv).
  assert (rd16 d (baddr d ip bn) (j * DIRENT) = de_inum d ip x) as Hi.
  { unfold rd16, de_inum, fbyte. by rewrite Hq0, Hr0, Hq1, Hr1. }
  assert (rds d (baddr d ip bn) (j * DIRENT + 2) (Z.to_nat DIRSIZ) = de_name d ip x)
    as Hn.
  { unfold de_name. rewrite <- rds_fbytes; [by rewrite Hq2, Hr2|unfold x; ddiv|].
    rewrite Hr2. ddiv. }
  rewrite Hi, Hn. unfold de_match.
  replace (j * DIRENT + DIRENT) with ((j + 1) * DIRENT) by lia.
  replace (x + 1) with (bn * (BSIZE / DIRENT) + (j + 1)) by (unfold x; lia).
  destruct (de_inum d ip x =? 0); cbn [negb andb].
  - apply IH; lia.
  - destruct (namecmp name (de_name d ip x) =? 0).
    + do 2 f_equal. unfold x. ddiv.
    + apply IH; lia.
Qed.

(** The outer loop, on [k] blocks from block [bn] on. *)
Lemma dirlookup_loop_spec k dp name bn d h b ns dl ip :
  h !! dp = Some ip -> 0 <= bn -> bn + Z.of_nat k <= MAXFILE ->
  (forall x, bn <= x < bn + Z.of_nat k -> baddr d ip x <> 0) ->
  dirlookup_loop k dp name (bn * BSIZE) (mkState d h b ns dl) =
  Ok (match dir_find d ip name (k * Z.to_nat (BSIZE / DIRENT))
                     (bn * (BSIZE / DIRENT)) with
      | Some x => Some (x * DIRENT, de_inum d ip x)
      | None => None
      end) (mkState d h b ns dl).
Proof.
  intros Hh. revert bn. induction k as [|k IH]; intros bn Hbn Hk Hm; [done|].
  cbn [dirlookup_loop].
  replace (bn * BSIZE / BSIZE) with bn by ddiv.
  erewrite bind_Ok by (apply (bmap_mapped _ _ _ _ _ _ _ ip Hh); [lia|apply Hm; lia]).
  erewrite bind_Ok by apply get_disk_Ok.
  change (S k * Z.to_nat (BSIZE / DIRENT))%nat
    with (Z.to_nat (BSIZE / DIRENT) + k * Z.to_nat (BSIZE / DIRENT))%nat.
  rewrite dir_find_app.
  pose proof (dirscan_spec d ip name bn (Z.to_nat (BSIZE / DIRENT)) 0 Hbn
                ltac:(lia) ltac:(dconsts; lia)) as Hs.
  rewrite Z.mul_0_l, Z.add_0_r in Hs. rewrite Hs.
  destruct (dir_find d ip name (Z.to_nat (BSIZE / DIRENT)) _) as [x|] eqn:E.
  - rewrite ret_Ok. do 3 f_equal.
    apply dir_find_some in E as (Hx & _). rewrite u32_small; [lia|].
    revert Hx Hk. dconsts. lia.
  - replace (bn * BSIZE + BSIZE) with ((bn + 1) * BSIZE) by lia.
    rewrite IH; [|lia|lia|intros; apply Hm; lia].
    replace ((bn + 1) * (BSIZE / DIRENT))
      with (bn * (BSIZE / DIRENT) + Z.of_nat (Z.to_nat (BSIZE / DIRENT)))
      by ddiv.
    reflexivity.
Qed.

(** Inversion of the monad's steps. *)
Lemma bind_inv {A B} (m : M A) (k : A -> M B) st x st' :
  bind m k st = Ok x st' -> exists y s1, m st = Ok y s1 /\ k y s1 = Ok x st'.
Proof. unfold bind. destruct (m st) as [y s1| | | |]; try done. by exists y, s1. Qed.

Lemma deref_inv a st ip st' :
  deref a st = Ok ip st' -> st' = st /\ heap st !! a = Some ip.
Proof. unfold deref. destruct (heap st !! a); [|done]. by intros [= -> ->]. Qed.

Lemma store_inv a ip st u st' :
  store a ip st = Ok u st' -> st' = set_heap (<[a := ip]> (heap st)) st.
Proof. by intros [= _ <-]. Qed.

Lemma modify_inv a f st u st' :
  modify a f st = Ok u st' ->
  exists ip, heap st !! a = Some ip /\ st' = set_heap (<[a := f ip]> (heap st)) st.
Proof.
  intros H. apply bind_inv in H as (ip & s1 & H1 & H2).
  apply deref_inv in H1 as [-> H1]. apply store_inv in H2. by exists ip.
Qed.

Lemma ns_lookup_In ns k a : ns_lookup ns k = Some a -> In (k, a) ns.
Proof.
  induction ns as [|[k' a'] ns IH]; [done|]. cbn [ns_lookup].
  destruct (Z.eqb_spec k' k) as [->|].
  - intros [= ->]. by left.
  - intros H. right. by apply IH.
Qed.

Lemma enumerate_evict_inv ns st r st' :
  ns_enumerate ns evict st = Ok r st' -> st' = st.
Proof.
  induction ns as [|[k a] ns IH]; cbn [ns_enumerate].
  - by intros [= _ <-].
  - intros H. apply bind_inv in H as (y & s1 & H1 & H2).
    unfold evict in H1. apply bind_inv in H1 as (ip & s2 & H3 & H4).
    apply deref_inv in H3 as [-> _].
    assert (s1 = st) as ->.
    { destruct (ref ip =? 0); by injection H4 as _ <-. }
    destruct y; [by injection H2 as _ <-|by apply IH].
Qed.

Lemma inum_iunlock_release ip :
  inum (iunlock_release ip) = inum ip /\ dev (iunlock_release ip) = dev ip.
Proof. destruct ip. done. Qed.

Lemma inum_set_flags f ip :
  inum (set_flags f ip) = inum ip /\ dev (set_flags f ip) = dev ip.
Proof. destruct ip. done. Qed.

Lemma inum_set_ref r ip :
  inum (set_ref r ip) = inum ip /\ dev (set_ref r ip) = dev ip.
Proof. destruct ip. done. Qed.

(** The inode [iget] returns has the number and the device asked for. *)
Lemma iget_inum dv ino st c st' :
  cache_ok st -> iget dv ino st = Ok c st' ->
  exists cp, heap st' !! c = Some cp /\ inum cp = ino /\ dev cp = dv.
Proof.
  intros Hc H. unfold iget in H.
  apply bind_inv in H as (ns & s1 & [= <- <-] & H).
  destruct (ns_lookup (ins st) ino) as [a|] eqn:El.
  - apply ns_lookup_In, Hc in El as (ip & Hh & Hi).
    apply bind_inv in H as (ip' & s1 & H1 & H).
    apply deref_inv in H1 as [-> H1]. rewrite Hh in H1. injection H1 as <-.
    destruct (Z.eqb_spec (dev ip) dv) as [Hd|]; [|done]. cbn [negb] in H.
    apply bind_inv in H as (u & s1 & H1 & H). apply store_inv in H1 as ->.
    destruct (Z.land (flags ip) I_FREE =? 0); cbn [negb] in H.
    2:{ apply bind_inv in H as (? & ? & _ & ?). done. }
    destruct (Z.land (flags ip) I_VALID =? 0); [done|].
    injection H as <- <-. exists (set_ref (int_inc (ref ip)) ip).
    cbn [heap set_heap]. rewrite lookup_insert_eq.
    destruct (inum_set_ref (int_inc (ref ip)) ip) as [-> ->]. done.
  - unfold iget_miss in H.
    apply bind_inv in H as (ns & s1 & [= <- <-] & H).
    apply bind_inv in H as (v & s1 & H1 & H).
    apply enumerate_evict_inv in H1 as ->.
    destruct v as [victim|]; [|done].
    apply bind_inv in H as (u & s1 & _ & H).
    apply bind_inv in H as (vp & s2 & _ & H).
    destruct (0 <? ref vp).
    { apply bind_inv in H as (? & ? & _ & ?). done. }
    apply bind_inv in H as (? & s3 & _ & H).
    apply bind_inv in H as (? & s4 & _ & H).
    apply bind_inv in H as (a & s5 & _ & H).
    apply bind_inv in H as (? & s6 & H1 & H). apply store_inv in H1.
    apply bind_inv in H as (ns' & s7 & [= _ <-] & H).
    destruct ns' as [l|].
    2:{ apply bind_inv in H as (? & ? & _ & ?). done. }
    apply bind_inv in H as (? & s7 & [= _ <-] & H).
    apply bind_inv in H as (d & s8 & [= <- <-] & H).
    apply bind_inv in H as (? & s9 & H2 & H).
    apply modify_inv in H2 as (ip1 & Hh1 & ->).
    apply bind_inv in H as (? & s10 & H3 & H).
    apply modify_inv in H3 as (ip2 & Hh2 & ->).
    apply bind_inv in H as (? & s11 & H4 & H). injection H as <- <-.
    unfold iunlock in H4. destruct (a =? 0); [done|].
    apply bind_inv in H4 as (ip3 & s12 & H5 & H4).
    apply deref_inv in H5 as [-> Hh3].
    destruct ((Z.land (flags ip3) (Z.lor I_BUSYR I_BUSYW) =? 0) || (ref ip3 <? 1));
      [done|].
    apply store_inv in H4 as ->.
    exists (iunlock_release ip3). cbn [heap set_heap]. rewrite lookup_insert_eq.
    split; [done|].
    cbn [heap set_heap set_ins] in Hh3, Hh2, Hh1.
    rewrite lookup_insert_eq in Hh3, Hh2. injection Hh3 as <-. injection Hh2 as <-.
    rewrite H1 in Hh1. cbn [heap set_heap] in Hh1.
    rewrite lookup_insert_eq in Hh1. injection Hh1 as <-.
    done.
Qed.

(** The blocks [dirlookup] visits hold the entries below [size] and, in the
    last block, free ones. *)
Lemma dir_find_blocks d ip name :
  0 <= size ip -> tail_free d ip ->
  dir_find d ip name (turns (size ip) BSIZE * Z.to_nat (BSIZE / DIRENT)) 0 =
  dir_find d ip name (Z.to_nat (nents ip)) 0.
Proof.
  intros Hs Ht.
  assert (exists r, (turns (size ip) BSIZE * Z.to_nat (BSIZE / DIRENT) =
                     Z.to_nat (nents ip) + r)%nat) as [r Hr].
  { exists (turns (size ip) BSIZE * Z.to_nat (BSIZE / DIRENT)
            - Z.to_nat (nents ip))%nat.
    assert (nents ip <= Z.of_nat (turns (size ip) BSIZE) * (BSIZE / DIRENT));
      [unfold nents, turns; ddiv|].
    revert H. dconsts. lia. }
  rewrite Hr, dir_find_app.
  destruct (dir_find d ip name (Z.to_nat (nents ip)) 0); [done|].
  apply dir_find_free. intros j Hj. apply Ht.
  assert (0 <= nents ip) by (unfold nents; ddiv).
  revert Hj Hr. dconsts. lia.
Qed.

Lemma dirlookup_run dp ip st name poff :
  heap st !! dp = Some ip -> type ip = T_DIR ->
  0 <= size ip <= MAXFILE * BSIZE ->
  mapped (sdisk st) ip 0 (size ip) -> tail_free (sdisk st) ip ->
  dirlookup dp name poff st =
  match dir_find (sdisk st) ip name (Z.to_nat (nents ip)) 0 with
  | None => Ok None st
  | Some k =>
      (c <- iget (dev ip) (de_inum (sdisk st) ip k);
       ret (Some (c, if poff then Some (k * DIRENT) else None))) st
  end.
Proof.
  intros Hh Hty Hs Hm Ht. destruct st as [d h b ns dl].
  cbn [heap sdisk] in *. unfold dirlookup.
  erewrite bind_Ok by (apply deref_Ok; exact Hh).
  rewrite Hty. change (negb (T_DIR =? T_DIR)) with false. cbv beta iota.
  erewrite bind_Ok.
  2:{ apply (dirlookup_loop_spec _ dp name 0 d h b ns dl ip Hh); [lia| |].
      - unfold turns. zdiv.
      - intros x Hx. destruct (Hm (x * BSIZE)) as [_ Hb].
        + revert Hx. unfold turns. zdiv.
        + replace (x * BSIZE / BSIZE) with x in Hb by zdiv. exact Hb. }
  change (0 * (BSIZE / DIRENT)) with 0.
  rewrite dir_find_blocks by (done || lia).
  destruct (dir_find d ip name (Z.to_nat (nents ip)) 0); [|apply ret_Ok].
  reflexivity.
Qed.

(** X13.  On a directory whose blocks are there, [dirlookup] returns null
    if and only if no entry below [size] that is in use has the name under
    [namecmp].  Otherwise the first such entry wins: [dirlookup] ends with
    [iget] of its [inum], whose inode it returns, and the offset handed back
    through [poff], when asked for, is the byte offset of that entry. *)
Theorem dirlookup_spec (dp : Z) (ip : inode) (st : state) (name : list Z)
        (poff : bool) :
  heap st !! dp = Some ip ->
  type ip = T_DIR ->
  0 <= size ip <= MAXFILE * BSIZE ->
  mapped (sdisk st) ip 0 (size ip) ->
  tail_free (sdisk st) ip ->
  cache_ok st ->
  dirlookup dp name poff st =
    match dir_find (sdisk st) ip name (Z.to_nat (nents ip)) 0 with
    | None => Ok None st
    | Some k =>
        (c <- iget (dev ip) (de_inum (sdisk st) ip k);
         ret (Some (c, if poff then Some (k * DIRENT) else None))) st
    end /\
  ((exists st', dirlookup dp name poff st = Ok None st') <->
   (forall k, 0 <= k < nents ip -> de_match (sdisk st) ip name k = false)) /\
  (forall c o st', dirlookup dp name poff st = Ok (Some (c, o)) st' ->
   exists k cp,
     0 <= k < nents ip /\ de_match (sdisk st) ip name k = true /\
     (forall j, 0 <= j < k -> de_match (sdisk st) ip name j = false) /\
     o = (if poff then Some (k * DIRENT) else None) /\
     heap st' !! c = Some cp /\
     inum cp = de_inum (sdisk st) ip k /\ dev cp = dev ip).
Proof.
  intros Hh Hty Hs Hm Ht Hc.
  pose proof (dirlookup_run dp ip st name poff Hh Hty Hs Hm Ht) as Hrun.
  assert (0 <= nents ip) as Hn by (unfold nents; ddiv).
  split; [exact Hrun|]. rewrite Hrun.
  destruct (dir_find (sdisk st) ip name (Z.to_nat (nents ip)) 0) as [k|] eqn:E.
  - apply dir_find_some in E as (Hk & Hmk & Hfirst). split.
    + split.
      * intros [st' H]. apply bind_inv in H as (c & s1 & _ & H). done.
      * intros H. rewrite H in Hmk by lia. done.
    + intros c o st' H. apply bind_inv in H as (c' & s1 & Hg & H).
      injection H as -> <- <-.
      destruct (iget_inum _ _ _ _ _ Hc Hg) as (cp & Hcp & Hi & Hd).
      exists k, cp. split; [lia|]. split; [done|].
      split; [intros; apply Hfirst; lia|]. done.
  - split; [|done]. split.
    + intros _ k Hk. apply (proj1 (dir_find_none _ _ _ _ _) E). lia.
    + intros _. by exists st.
Qed.

Lemma cache_okb_sound st : cache_okb st = true -> cache_ok st.
Proof.
  unfold cache_okb. rewrite forallb_forall. intros H k a Hin.
  apply H in Hin. cbn in Hin. destruct (heap st !! a) as [ip|]; [|done].
  exists ip. split; [done|]. by apply Z.eqb_eq.
Qed.

Lemma zrange_forallb (f : Z -> bool) lo hi :
  forallb f (zrange lo hi) = true -> forall k, lo <= k < hi -> f k = true.
Proof.
  unfold zrange. rewrite forallb_forall. intros H k Hk. apply H.
  apply in_map_iff. exists (Z.to_nat (k - lo)). split; [lia|].
  apply in_seq. lia.
Qed.

Lemma tail_freeb_sound d ip : tail_freeb d ip = true -> tail_free d ip.
Proof.
  intros H k Hk. apply Z.eqb_eq.
  by apply (zrange_forallb _ _ _ H).
Qed.

Lemma mappedb_sound d ip :
  0 <= size ip <= MAXFILE * BSIZE -> mappedb d ip = true ->
  mapped d ip 0 (size ip).
Proof.
  intros Hs H i Hi. split; [zdiv|].
  pose proof (zrange_forallb _ _ _ H (i / BSIZE)) as Hb. cbv beta in Hb.
  apply negb_true_iff, Z.eqb_neq in Hb; [done|]. unfold turns. zdiv.
Qed.

Lemma root_a_facts :
  heap st_a !! root = Some root_a /\ type root_a = T_DIR /\
  size root_a = 16 /\ cache_ok st_a /\ tail_free (sdisk st_a) root_a /\
  mapped (sdisk st_a) root_a 0 (size root_a).
Proof.
  assert (size root_a = 16) as Hs by (vm_compute; reflexivity).
  split; [vm_compute; reflexivity|].
  split; [vm_compute; reflexivity|].
  split; [exact Hs|].
  split; [apply cache_okb_sound; vm_compute; reflexivity|].
  split; [apply tail_freeb_sound; vm_compute; reflexivity|].
  apply mappedb_sound; [rewrite Hs; consts; lia|vm_compute; reflexivity].
Qed.

Lemma dirlookup_spec_witness :
  dirlookup root name_a true st_a =
  match dir_find (sdisk st_a) root_a name_a (Z.to_nat (nents root_a)) 0 with
  | None => Ok None st_a
  | Some k =>
      (c <- iget (dev root_a) (de_inum (sdisk st_a) root_a k);
       ret (Some (c, if true then Some (k * DIRENT) else None))) st_a
  end.
Proof.
  destruct root_a_facts as (Hh & Hty & Hs & Hc & Ht & Hm).
  apply (proj1 (dirlookup_spec root root_a st_a name_a true Hh Hty
                  ltac:(rewrite Hs; consts; lia) Hm Ht Hc)).
Defined.

(** What the witness is about: the entry is found, at offset 0. *)
Example dirlookup_a :
  dir_find (sdisk st_a) root_a name_a (Z.to_nat (nents root_a)) 0 = Some 0 /\
  de_inum (sdisk st_a) root_a 0 = 3 /\
  value ((r <- dirlookup root name_a true;
          match r with
          | Some (c, o) => ip <- deref c; ret (Some (inum ip, o))
          | None => ret None
          end) st_a) = Some (Some (3, Some 0)).
Proof. vm_compute. done. Qed.

Lemma dir_free_spec d ip n k :
  k <= dir_free d ip n k <= k + Z.of_nat n /\
  (forall j, k <= j < dir_free d ip n k -> de_inum d ip j <> 0) /\
  (dir_free d ip n k < k + Z.of_nat n -> de_inum d ip (dir_free d ip n k) = 0).
Proof.
  revert k. induction n as [|n IH]; intros k; cbn [dir_free].
  - split; [lia|]. split; intros; lia.
  - destruct (Z.eqb_spec (de_inum d ip k) 0) as [E|E].
    + split; [lia|]. split; [intros; lia|done].
    + destruct (IH (k + 1)) as (Hr & Hn & Hz). split; [lia|]. split.
      * intros j Hj. destruct (decide (j = k)) as [->|]; [done|]. apply Hn. lia.
      * intros H. apply Hz. lia.
Qed.

Lemma length_strncpy t n : length (strncpy t n) = n.
Proof.
  revert t. induction n as [|n IH]; intros t; [done|]. cbn [strncpy].
  destruct (hd 0 t =? 0); [apply repeat_length|]. cbn [length]. by rewrite IH.
Qed.

Lemma length_dirent_bytes name ino :
  length (dirent_bytes name ino) = Z.to_nat DIRENT.
Proof. unfold dirent_bytes. cbn [length]. rewrite length_strncpy. done. Qed.

(** The scan of [dirlink] for a free entry. *)
Lemma dirlink_scan_spec k dp j st ip :
  heap st !! dp = Some ip -> type ip <> T_DEV ->
  0 <= size ip <= MAXFILE * BSIZE -> mapped (sdisk st) ip 0 (size ip) ->
  0 <= j -> (j + Z.of_nat k) * DIRENT <= size ip ->
  dirlink_scan k dp (j * DIRENT) st =
  Ok (dir_free (sdisk st) ip k j * DIRENT) st.
Proof.
  intros Hh Hty Hs Hm. revert j. induction k as [|k IH]; intros j Hj Hk; [done|].
  cbn [dirlink_scan dir_free].
  destruct (readi_run dp ip st (j * DIRENT) DIRENT Hh Hty) as [_ Hrd].
  { unfold uint. revert Hs. consts. lia. }
  { unfold uint. consts. lia. }
  { unfold uint. revert Hs. consts. lia. }
  assert (Z.min DIRENT (size ip - j * DIRENT) = DIRENT) as Hmin
    by (revert Hk; consts; lia).
  destruct Hrd as (_ & _ & Hrd).
  { revert Hk. consts. lia. } { revert Hs. consts. lia. }
  { rewrite Hmin. eapply mapped_mono; [exact Hm|consts; lia|revert Hk; consts; lia]. }
  rewrite Hmin in Hrd. erewrite bind_Ok by exact Hrd.
  cbn [fst snd]. rewrite Z.eqb_refl. cbn [negb].
  rewrite !nth_fbytes by (consts; lia).
  change (Z.of_nat 0) with 0. change (Z.of_nat 1) with 1. rewrite Z.add_0_r.
  change (fbyte (sdisk st) ip (j * DIRENT)
          + 256 * fbyte (sdisk st) ip (j * DIRENT + 1))
    with (de_inum (sdisk st) ip j).
  destruct (de_inum (sdisk st) ip j =? 0); [apply ret_Ok|].
  replace (j * DIRENT + DIRENT) with ((j + 1) * DIRENT) by lia.
  apply IH; [lia|revert Hk; consts; lia].
Qed.

(** [dirlink], by what [dirlookup] finds. *)
Lemma dirlink_run dp ip st name ino :
  heap st !! dp = Some ip -> type ip = T_DIR ->
  0 <= size ip <= MAXFILE * BSIZE -> size ip mod DIRENT = 0 ->
  mapped (sdisk st) ip 0 (size ip) -> tail_free (sdisk st) ip ->
  dirlink dp name ino st =
  match dir_find (sdisk st) ip name (Z.to_nat (nents ip)) 0 with
  | Some k =>
      (c <- iget (dev ip) (de_inum (sdisk st) ip k); iput c;; ret (-1)) st
  | None =>
      (w <- writei dp (dirent_bytes name ino)
                   (dir_free (sdisk st) ip (Z.to_nat (nents ip)) 0 * DIRENT) DIRENT;
       if negb (w =? DIRENT) then panic "dirlink" else ret 0) st
  end.
Proof.
  intros Hh Hty Hs Hmod Hm Ht. unfold dirlink, bind at 1.
  rewrite (dirlookup_run dp ip st name false Hh Hty Hs Hm Ht).
  destruct (dir_find (sdisk st) ip name (Z.to_nat (nents ip)) 0) as [k|].
  - unfold bind, ret. destruct (iget _ _ st); reflexivity.
  - destruct st as [d h b ns dl]. cbn [heap sdisk] in *.
    erewrite bind_Ok by (apply deref_Ok; exact Hh).
    assert (turns (size ip) DIRENT = Z.to_nat (nents ip)) as ->
      by (unfold turns, nents; f_equal; zdiv).
    erewrite bind_Ok.
    2:{ apply (dirlink_scan_spec _ dp 0 (mkState d h b ns dl) ip Hh); cbn [sdisk];
          [rewrite Hty; done|done|done|lia|unfold nents; zdiv]. }
    reflexivity.
Qed.

Lemma dirlink_present dp ip st name ino k :
  heap st !! dp = Some ip -> type ip = T_DIR ->
  0 <= size ip <= MAXFILE * BSIZE -> size ip mod DIRENT = 0 ->
  mapped (sdisk st) ip 0 (size ip) -> tail_free (sdisk st) ip ->
  dir_find (sdisk st) ip name (Z.to_nat (nents ip)) 0 = Some k ->
  dirlink dp name ino st =
    (c <- iget (dev ip) (de_inum (sdisk st) ip k); iput c;; ret (-1)) st /\
  forall r st', dirlink dp name ino st = Ok r st' -> r = -1.
Proof.
  intros Hh Hty Hs Hmod Hm Ht Hf.
  rewrite (dirlink_run dp ip st name ino Hh Hty Hs Hmod Hm Ht), Hf.
  split; [done|]. intros r st' H.
  apply bind_inv in H as (c & s1 & _ & H).
  apply bind_inv in H as (u & s2 & _ & H). by injection H as <- _.
Qed.

Lemma dirlink_absent dp ip st name ino :
  heap st !! dp = Some ip -> type ip = T_DIR ->
  fs_ok (sdisk st) -> file_ok (sdisk st) ip ->
  size ip mod DIRENT = 0 -> tail_free (sdisk st) ip ->
  dir_find (sdisk st) ip name (Z.to_nat (nents ip)) 0 = None ->
  dir_slot (sdisk st) ip + DIRENT <= MAXFILE * BSIZE ->
  room (sdisk st) ip (dir_slot (sdisk st) ip) DIRENT ->
  exists d' ip',
    dirlink dp name ino st =
    Ok 0 (mkState d' (<[dp := ip']> (heap st)) (brk st) (ins st) (delayed st)) /\
    written (sdisk st) ip d' ip' (dir_slot (sdisk st) ip) (dirent_bytes name ino).
Proof.
  intros Hh Hty Hfs Hfo Hmod Ht Hf Hmax Hroom.
  pose proof (fo_size _ _ Hfo) as Hs. pose proof (fo_mapped _ _ Hfo) as Hm.
  rewrite (dirlink_run dp ip st name ino Hh Hty Hs Hmod Hm Ht), Hf.
  fold (dir_slot (sdisk st) ip).
  destruct (dir_free_spec (sdisk st) ip (Z.to_nat (nents ip)) 0) as (Hr & _).
  assert (0 <= dir_slot (sdisk st) ip <= size ip) as Hoff.
  { unfold dir_slot. revert Hr. unfold nents. zdiv. }
  assert (Z.min DIRENT (MAXFILE * BSIZE - dir_slot (sdisk st) ip) = DIRENT) as Hmin
    by lia.
  destruct (writei_ok dp ip st (dirent_bytes name ino) (dir_slot (sdisk st) ip)
              DIRENT Hh) as (_ & Hret & Hpost).
  { rewrite Hty. done. }
  { unfold uint. revert Hs. consts. lia. }
  { unfold uint. consts. lia. }
  { exact Hfs. } { exact Hfo. }
  rewrite Hmin in Hret, Hpost.
  assert (DIRENT <= Z.of_nat (length (dirent_bytes name ino))) as Hlen
    by (rewrite length_dirent_bytes; lia).
  assert (dir_slot (sdisk st) ip + DIRENT < WORD) as Hov
    by (revert Hmax; consts; lia).
  destruct (Hret ltac:(lia) Hov Hlen Hroom) as [st' Hw].
  destruct (Hpost ltac:(lia) Hov Hlen _ _ Hw) as (_ & d' & ip' & -> & Hwr).
  rewrite firstn_all2 in Hwr by (rewrite length_dirent_bytes; lia).
  exists d', ip'. erewrite bind_Ok by exact Hw.
  rewrite Z.eqb_refl. done.
Qed.

Lemma root_0_facts :
  heap st_boot !! root = Some root_0 /\ type root_0 = T_DIR /\
  fs_ok (sdisk st_boot) /\ file_ok (sdisk st_boot) root_0 /\
  size root_0 = 0 /\ tail_free (sdisk st_boot) root_0.
Proof.
  assert (size root_0 = 0) as Hs by (vm_compute; reflexivity).
  split; [vm_compute; reflexivity|].
  split; [vm_compute; reflexivity|].
  split; [apply fs_okb_sound; vm_compute; reflexivity|].
  split; [|split; [exact Hs|apply tail_freeb_sound; vm_compute; reflexivity]].
  apply file_ok_empty; [vm_compute; reflexivity|exact Hs|].
  vm_compute. split; [intros H; discriminate H|reflexivity].
Qed.

(** X14.  In a directory whose size is a whole number of entries, in a sound
    file system: when an entry in use has the name, [dirlink] is [iget] of
    that entry's [inum], [iput] of the inode, and -1.  When none has, the
    new entry goes to the first free entry, or to [size] when none is free,
    and with room to write it [dirlink] returns 0, the entry written by
    [writei].  In the example, linking [a] to inode 3 returns 0, linking
    [a] to inode 4 then returns -1, and [dirlookup] of [a] then returns
    inode 3. *)
Theorem dirlink_spec (dp : Z) (ip : inode) (st : state) (name : list Z) (ino : Z) :
  heap st !! dp = Some ip ->
  type ip = T_DIR ->
  fs_ok (sdisk st) -> file_ok (sdisk st) ip ->
  size ip mod DIRENT = 0 ->
  tail_free (sdisk st) ip ->
  (forall k, dir_find (sdisk st) ip name (Z.to_nat (nents ip)) 0 = Some k ->
     dirlink dp name ino st =
       (c <- iget (dev ip) (de_inum (sdisk st) ip k); iput c;; ret (-1)) st /\
     forall r st', dirlink dp name ino st = Ok r st' -> r = -1) /\
  (dir_find (sdisk st) ip name (Z.to_nat (nents ip)) 0 = None ->
     (0 <= dir_slot (sdisk st) ip <= size ip /\
      (forall j, 0 <= j < dir_slot (sdisk st) ip / DIRENT ->
                 de_inum (sdisk st) ip j <> 0) /\
      (dir_slot (sdisk st) ip < size ip ->
       de_inum (sdisk st) ip (dir_slot (sdisk st) ip / DIRENT) = 0)) /\
     (dir_slot (sdisk st) ip + DIRENT <= MAXFILE * BSIZE ->
      room (sdisk st) ip (dir_slot (sdisk st) ip) DIRENT ->
      exists d' ip',
        dirlink dp name ino st =
        Ok 0 (mkState d' (<[dp := ip']> (heap st)) (brk st) (ins st) (delayed st)) /\
        written (sdisk st) ip d' ip' (dir_slot (sdisk st) ip)
                (dirent_bytes name ino))) /\
  value (link_twice st_boot) = Some (0, -1, Some 3).
Proof.
  intros Hh Hty Hfs Hfo Hmod Ht.
  pose proof (fo_size _ _ Hfo) as Hs. pose proof (fo_mapped _ _ Hfo) as Hm.
  split; [|split; [|vm_compute; reflexivity]].
  - intros k Hf. by apply dirlink_present.
  - intros Hf. split; [|by apply dirlink_absent].
    destruct (dir_free_spec (sdisk st) ip (Z.to_nat (nents ip)) 0) as (Hr & Hn & Hz).
    unfold dir_slot.
    replace (dir_free (sdisk st) ip (Z.to_nat (nents ip)) 0 * DIRENT / DIRENT)
      with (dir_free (sdisk st) ip (Z.to_nat (nents ip)) 0) by zdiv.
    split; [revert Hr; unfold nents; zdiv|].
    split; [intros j Hj; apply Hn; lia|].
    intros Hlt. apply Hz. revert Hlt Hr. unfold nents. zdiv.
Qed.

Lemma dirlink_spec_witness :
  exists d' ip',
    dirlink root name_a 3 st_boot =
    Ok 0 (mkState d' (<[root := ip']> (heap st_boot)) (brk st_boot)
                  (ins st_boot) (delayed st_boot)) /\
    written (sdisk st_boot) root_0 d' ip' (dir_slot (sdisk st_boot) root_0)
            (dirent_bytes name_a 3).
Proof.
  destruct root_0_facts as (Hh & Hty & Hfs & Hfo & Hs & Ht).
  apply (proj2 (proj1 (proj2 (dirlink_spec root root_0 st_boot name_a 3 Hh Hty Hfs Hfo
                  ltac:(rewrite Hs; reflexivity) Ht)) ltac:(vm_compute; reflexivity))).
  - vm_compute. intros H. discriminate H.
  - unfold room. apply Nat.leb_le. vm_compute. reflexivity.
Defined.

(** What [iget] returns: the cached inode with one more reference, or the
    inode read from disk at a new address.  The disk is as it was. *)
Lemma iget_post dv ino st c st' :
  cache_ok st -> iget dv ino st = Ok c st' ->
  sdisk st' = sdisk st /\
  ((exists ip, ns_lookup (ins st) ino = Some c /\ heap st !! c = Some ip /\
               inum ip = ino /\ dev ip = dv /\
               heap st' !! c = Some (set_ref (int_inc (ref ip)) ip)) \/
   (ns_lookup (ins st) ino = None /\ c = brk st /\
    heap st' !! c = Some (fresh_inode dv ino (rd_dinode (sdisk st) ino)))).
Proof.
  intros Hc H. unfold iget in H.
  apply bind_inv in H as (ns & s1 & [= <- <-] & H).
  destruct (ns_lookup (ins st) ino) as [a|] eqn:El.
  - pose proof El as El'. apply ns_lookup_In, Hc in El as (ip & Hh & Hi).
    apply bind_inv in H as (ip' & s1 & H1 & H).
    apply deref_inv in H1 as [-> H1]. rewrite Hh in H1. injection H1 as <-.
    destruct (Z.eqb_spec (dev ip) dv) as [Hd|]; [|done]. cbn [negb] in H.
    apply bind_inv in H as (u & s1 & H1 & H). apply store_inv in H1 as ->.
    destruct (Z.land (flags ip) I_FREE =? 0); cbn [negb] in H.
    2:{ apply bind_inv in H as (? & ? & _ & ?). done. }
    destruct (Z.land (flags ip) I_VALID =? 0); [done|].
    injection H as <- <-. split; [done|]. left. exists ip.
    cbn [heap set_heap]. rewrite lookup_insert_eq. done.
  - unfold iget_miss in H.
    apply bind_inv in H as (ns & s1 & [= <- <-] & H).
    apply bind_inv in H as (v & s1 & H1 & H).
    apply enumerate_evict_inv in H1 as ->.
    destruct v as [victim|]; [|done].
    apply bind_inv in H as (u & s1 & H1 & H).
    apply modify_inv in H1 as (vp0 & _ & ->).
    apply bind_inv in H as (vp & s2 & H1 & H).
    apply deref_inv in H1 as [-> _].
    destruct (0 <? ref vp).
    { apply bind_inv in H as (? & ? & _ & ?). done. }
    apply bind_inv in H as (? & s3 & [= _ <-] & H).
    apply bind_inv in H as (? & s4 & [= _ <-] & H).
    apply bind_inv in H as (a & s5 & [= <- <-] & H).
    apply bind_inv in H as (? & s6 & H1 & H). apply store_inv in H1 as ->.
    apply bind_inv in H as (ns' & s7 & [= _ <-] & H).
    destruct ns' as [l|].
    2:{ apply bind_inv in H as (? & ? & _ & ?). done. }
    apply bind_inv in H as (? & s7 & [= _ <-] & H).
    apply bind_inv in H as (d & s8 & [= <- <-] & H).
    apply bind_inv in H as (? & s9 & H2 & H).
    apply modify_inv in H2 as (ip1 & Hh1 & ->).
    apply bind_inv in H as (? & s10 & H3 & H).
    apply modify_inv in H3 as (ip2 & Hh2 & ->).
    apply bind_inv in H as (? & s11 & H4 & H). injection H as <- <-.
    unfold iunlock in H4. destruct (_ =? 0) in H4; [done|].
    apply bind_inv in H4 as (ip3 & s12 & H5 & H4).
    apply deref_inv in H5 as [-> Hh3].
    destruct ((Z.land (flags ip3) (Z.lor I_BUSYR I_BUSYW) =? 0) || (ref ip3 <? 1));
      [done|].
    apply store_inv in H4 as ->.
    cbn [heap sdisk brk ins set_heap set_ins set_brk set_delayed] in *.
    split; [done|]. right. split; [done|]. split; [done|].
    rewrite lookup_insert_eq.
    rewrite lookup_insert_eq in Hh3, Hh2, Hh1.
    injection Hh3 as <-. injection Hh2 as <-. injection Hh1 as <-.
    reflexivity.
Qed.

(** [balloc] takes the first clear bit. *)
Lemma balloc_scan_first d blk k bi x :
  0 <= bi -> balloc_scan d blk k bi = Some x ->
  forall y, bi <= y < x -> Z.testbit (rd d blk (y / 8)) (y mod 8) = true.
Proof.
  revert bi. induction k as [|k IH]; intros bi Hbi; cbn [balloc_scan]; [done|].
  rewrite bit_clear by zdiv.
  destruct (Z.testbit (rd d blk (bi / 8)) (bi mod 8)) eqn:E; cbn [negb].
  - intros H y Hy. destruct (decide (y = bi)) as [->|]; [done|].
    apply (IH (bi + 1)); [lia|done|lia].
  - intros [= <-] y Hy. lia.
Qed.

Lemma bblock_chunk c x nin :
  0 <= c -> c * BPB <= x < c * BPB + BPB ->
  BBLOCK x nin = BBLOCK (c * BPB) nin /\ x mod BPB = x - c * BPB.
Proof. intros Hc Hx. unfold BBLOCK. split; [f_equal; f_equal|]; zdiv. Qed.

Lemma balloc_chunks_first k d c r d' :
  0 <= c ->
  balloc_chunks k d (readsb d) (c * BPB) = Some (r, d') ->
  exists x, c * BPB <= x < (c + Z.of_nat k) * BPB /\
            inuse d x = false /\ r = u32 x /\ d' = setbit d x /\
            forall y, c * BPB <= y < x -> inuse d y = true.
Proof.
  revert c. induction k as [|k IH]; intros c Hc; cbn [balloc_chunks]; [done|].
  pose proof (balloc_scan_spec d (BBLOCK (c * BPB) (sb_ninodes (readsb d)))
                (Z.to_nat BPB) 0 ltac:(lia)) as Hs.
  assert (Z.of_nat (Z.to_nat BPB) = BPB) as HB by (consts; lia).
  rewrite HB in Hs.
  destruct (balloc_scan _ _ _ 0) as [bi|] eqn:Es.
  - intros [= <- <-]. destruct Hs as [Hbi Hbit]. exists (c * BPB + bi).
    destruct (bblock_chunk c (c * BPB + bi) (sb_ninodes (readsb d)) Hc ltac:(lia))
      as [Hblk Hmod].
    replace (c * BPB + bi - c * BPB) with bi in Hmod by lia.
    split; [consts; lia|]. split; [|split; [done|split]].
    + rewrite inuse_bit by (consts; lia). rewrite Hblk, Hmod. done.
    + unfold setbit. rewrite Hblk, Hmod. done.
    + intros y Hy.
      assert (c * BPB <= y < c * BPB + BPB) as Hy' by lia.
      destruct (bblock_chunk c y (sb_ninodes (readsb d)) Hc Hy')
        as [Hblk' Hmod'].
      rewrite inuse_bit by (consts; lia). rewrite Hblk', Hmod'.
      eapply balloc_scan_first; [|exact Es|]; lia.
  - intros H.
    replace (c * BPB + BPB) with ((c + 1) * BPB) in H by lia.
    destruct (IH (c + 1) ltac:(lia) H) as (x & Hx & Hf & Hr & Hd & Hfirst).
    exists x. split; [consts; lia|]. split; [done|]. split; [done|]. split; [done|].
    intros y Hy. destruct (decide (y < (c + 1) * BPB)) as [Hlt|Hge].
    + assert (c * BPB <= y < c * BPB + BPB) as Hy' by lia.
      destruct (bblock_chunk c y (sb_ninodes (readsb d)) Hc Hy')
        as [Hblk' Hmod'].
      rewrite inuse_bit by (consts; lia). rewrite Hblk', Hmod'.
      apply Hs. lia.
    + apply Hfirst. lia.
Qed.

(** X1.  On a sound bitmap, [balloc] takes the first block whose bit
    is clear: it returns its number, sets that bit and changes nothing else
    on disk, so that one block less is free.  When no bit is clear it
    panics with [balloc: out of blocks]. *)
Theorem balloc_first_fit (dv : Z) (st : state) :
  fs_ok (sdisk st) ->
  ((exists y, 0 <= y < nbits (sdisk st) /\ inuse (sdisk st) y = false) ->
   exists b,
     balloc dv st = Ok b (set_disk (setbit (sdisk st) b) st) /\
     0 <= b < nbits (sdisk st) /\
     inuse (sdisk st) b = false /\
     (forall y, 0 <= y < b -> inuse (sdisk st) y = true) /\
     (forall y, 0 <= y -> inuse (setbit (sdisk st) b) y
                          = inuse (sdisk st) y || (y =? b)) /\
     (forall blk i, blk <> BBLOCK b (sb_ninodes (readsb (sdisk st))) ->
                    rd (setbit (sdisk st) b) blk i = rd (sdisk st) blk i) /\
     nfree (sdisk st) = S (nfree (setbit (sdisk st) b)) /\
     fs_ok (setbit (sdisk st) b)) /\
  ((forall y, 0 <= y < nbits (sdisk st) -> inuse (sdisk st) y = true) ->
   balloc dv st = Panic "balloc: out of blocks").
Proof.
  intros Hfs. destruct st as [d h b0 ns dl]. cbn [sdisk] in *.
  unfold balloc. cbn [sdisk].
  pose proof (balloc_chunks_spec (nchunks (sb_size (readsb d))) d 0 ltac:(lia)) as Hsp.
  pose proof (balloc_chunks_first (nchunks (sb_size (readsb d))) d 0) as Hfi.
  change (0 * BPB) with 0 in *.
  destruct (balloc_chunks _ d (readsb d) 0) as [[r d']|]; split.
  - intros _. destruct (Hfi r d' ltac:(lia) eq_refl) as (x & Hx & Hf & -> & -> & Hfirst).
    assert (0 <= x < nbits d) as Hx' by (unfold nbits; lia).
    pose proof (fs_bits d Hfs).
    rewrite u32_small by (unfold WORD; lia).
    exists x. split; [done|]. split; [done|]. split; [done|].
    split; [intros; apply Hfirst; lia|].
    split; [intros; apply inuse_setbit; lia|].
    split; [intros; by apply rd_setbit_ne|].
    split; [by apply nfree_setbit|by apply fs_ok_setbit].
  - intros Hall. destruct Hsp as (x & Hx & Hf & _).
    rewrite Hall in Hf; [done|]. unfold nbits. lia.
  - intros (y & Hy & Hf). rewrite Hsp in Hf; [done|]. unfold nbits in Hy. lia.
  - done.
Qed.

Lemma balloc_first_fit_witness :
  exists b,
    balloc 1 st_new = Ok b (set_disk (setbit (sdisk st_new) b) st_new) /\
    0 <= b < nbits (sdisk st_new) /\
    inuse (sdisk st_new) b = false /\
    (forall y, 0 <= y < b -> inuse (sdisk st_new) y = true) /\
    (forall y, 0 <= y -> inuse (setbit (sdisk st_new) b) y
                         = inuse (sdisk st_new) y || (y =? b)) /\
    (forall blk i, blk <> BBLOCK b (sb_ninodes (readsb (sdisk st_new))) ->
                   rd (setbit (sdisk st_new) b) blk i = rd (sdisk st_new) blk i) /\
    nfree (sdisk st_new) = S (nfree (setbit (sdisk st_new) b)) /\
    fs_ok (setbit (sdisk st_new) b).
Proof.
  apply (proj1 (balloc_first_fit 1 st_new fs_ok_mkfs)).
  exists 32. split; [|vm_compute; reflexivity].
  vm_compute. split; [intros H; discriminate H|reflexivity].
Defined.

(** Zeroing a block. *)
Lemma rd_bzero d b blk i :
  rd (bzero d b) blk i = if decide (blk = b /\ 0 <= i < BSIZE) then 0 else rd d blk i.
Proof.
  unfold bzero, memset. rewrite rd_wrs, repeat_length.
  assert (Z.of_nat (Z.to_nat BSIZE) = BSIZE) as -> by (consts; lia).
  repeat case_decide; try lia.
  rewrite nth_repeat. done.
Qed.

Lemma readsb_bzero d b : b <> 1 -> readsb (bzero d b) = readsb d.
Proof.
  intros Hb. apply readsb_ext. intros i. rewrite rd_bzero.
  case_decide; [lia|done].
Qed.

(** Clearing a bit. *)
Lemma rd_clearbit_ne d x b i :
  b <> BBLOCK x (sb_ninodes (readsb d)) -> rd (clearbit d x) b i = rd d b i.
Proof. intros H. unfold clearbit. apply rd_wr_ne. by left. Qed.

Lemma readsb_clearbit d x : 0 <= x -> readsb (clearbit d x) = readsb d.
Proof.
  intros Hx. apply readsb_ext. intros i. apply rd_clearbit_ne.
  unfold BBLOCK. pose proof (ninodes_nonneg d). zdiv.
Qed.

Lemma inuse_clearbit d x y :
  0 <= x -> 0 <= y -> inuse (clearbit d x) y = inuse d y && negb (y =? x).
Proof.
  intros Hx Hy. rewrite !inuse_bit by done. rewrite readsb_clearbit by done.
  unfold clearbit. rewrite rd_wr.
  set (nin := sb_ninodes (readsb d)).
  case_decide as Hc.
  - destruct Hc as [Hb Hi]. rewrite testbit_mod256 by zdiv.
    rewrite Z.land_spec, Z.lnot_spec, shiftl_1 by zdiv.
    rewrite Z.pow2_bits_eqb by zdiv.
    rewrite Hb, Hi. f_equal.
    unfold BBLOCK in Hb.
    destruct (Z.eqb_spec (x mod BPB mod 8) (y mod BPB mod 8)) as [E|E];
      destruct (Z.eqb_spec y x) as [E'|E']; try done.
    + exfalso. apply E'. zdiv.
    + exfalso. apply E. by rewrite E'.
  - destruct (Z.eqb_spec y x) as [->|E]; [tauto|]. by rewrite andb_true_r.
Qed.

Lemma count_free_clearbit d x n :
  0 <= x -> inuse d x = true ->
  count_free (clearbit d x) n =
  ((if decide (x < Z.of_nat n)%Z then 1 else 0) + count_free d n)%nat.
Proof.
  intros Hx Hused. induction n as [|n IH].
  - cbn [count_free]. case_decide; [lia|done].
  - cbn [count_free]. rewrite IH. rewrite inuse_clearbit by lia.
    destruct (Z.eqb_spec (Z.of_nat n) x) as [E|E].
    + rewrite E, Hused. cbn [andb negb]. repeat case_decide; lia.
    + rewrite andb_true_r. repeat case_decide; lia.
Qed.

Lemma nfree_clearbit d x :
  0 <= x < nbits d -> inuse d x = true ->
  nfree (clearbit d x) = S (nfree d).
Proof.
  intros Hx Hf. unfold nfree.
  rewrite (nbits_ext _ _ (readsb_clearbit d x ltac:(lia))).
  rewrite (count_free_clearbit d x) by (lia || done).
  case_decide; [done|lia].
Qed.

(** Zeroing a data block leaves the superblock and the bitmap alone. *)
Lemma bzero_data d b :
  datastart d <= b ->
  readsb (bzero d b) = readsb d /\
  (forall y, 0 <= y < nbits d -> inuse (bzero d b) y = inuse d y) /\
  nfree (bzero d b) = nfree d.
Proof.
  intros Hb. pose proof (datastart_ge d).
  assert (readsb (bzero d b) = readsb d) as Hsb by (apply readsb_bzero; lia).
  assert (forall y, 0 <= y < nbits d -> inuse (bzero d b) y = inuse d y) as Hin.
  { intros y Hy. apply inuse_ext; [done|]. intros i. rewrite rd_bzero.
    case_decide as Hc; [|done]. pose proof (bblock_range d y Hy). lia. }
  split; [done|]. split; [done|].
  apply nfree_ext; [done|]. intros y Hy. by apply Hin.
Qed.

(** [bfree] tests the bit of [b] after it has zeroed the block. *)
Lemma bfree_run dv b st :
  datastart (sdisk st) <= b < nbits (sdisk st) ->
  bfree dv b st =
  if inuse (sdisk st) b
  then Ok tt (set_disk (clearbit (bzero (sdisk st) b) b) st)
  else Panic "freeing free block".
Proof.
  intros Hb. pose proof (datastart_ge (sdisk st)).
  destruct (bzero_data (sdisk st) b ltac:(lia)) as (Hsb & Hin & _).
  unfold bfree. rewrite bit_clear by zdiv.
  rewrite <- inuse_bit by lia. rewrite Hin by lia.
  destruct (inuse (sdisk st) b); reflexivity.
Qed.

Lemma bfree_used d b :
  fs_ok d -> datastart d <= b < nbits d -> in_block d b -> inuse d b = true ->
  readsb (clearbit (bzero d b) b) = readsb d /\
  (forall y, 0 <= y < nbits d ->
     inuse (clearbit (bzero d b) b) y = inuse d y && negb (y =? b)) /\
  (forall i, rd (clearbit (bzero d b) b) b i = 0) /\
  (forall blk i, blk <> b -> blk <> BBLOCK b (sb_ninodes (readsb d)) ->
     rd (clearbit (bzero d b) b) blk i = rd d blk i) /\
  nfree (clearbit (bzero d b) b) = S (nfree d) /\
  fs_ok (clearbit (bzero d b) b).
Proof.
  intros Hfs Hb Hblk Hused. pose proof (datastart_ge d).
  destruct (bzero_data d b ltac:(lia)) as (Hsb0 & Hin0 & Hnf0).
  set (d0 := bzero d b) in *.
  assert (readsb (clearbit d0 b) = readsb d) as Hsb
    by (rewrite readsb_clearbit by lia; done).
  assert (forall y, 0 <= y < nbits d ->
            inuse (clearbit d0 b) y = inuse d y && negb (y =? b)) as Hin.
  { intros y Hy. rewrite inuse_clearbit by lia. by rewrite Hin0. }
  pose proof (bblock_range d b ltac:(lia)) as Hbb.
  assert (forall i, rd (clearbit d0 b) b i = 0) as Hz.
  { intros i. rewrite rd_clearbit_ne by (rewrite Hsb0; lia).
    unfold d0. rewrite rd_bzero. case_decide as Hc; [done|].
    apply Hblk. lia. }
  assert (forall blk i, blk <> b -> blk <> BBLOCK b (sb_ninodes (readsb d)) ->
            rd (clearbit d0 b) blk i = rd d blk i) as Hfr.
  { intros blk i H1 H2. rewrite rd_clearbit_ne by (by rewrite Hsb0).
    unfold d0. rewrite rd_bzero. case_decide; [lia|done]. }
  split; [done|]. split; [done|]. split; [done|]. split; [done|]. split.
  - rewrite nfree_clearbit.
    + by rewrite Hnf0.
    + rewrite (nbits_ext _ _ Hsb0). lia.
    + rewrite Hin0 by lia. done.
  - destruct Hfs as [Hbits Hmeta Hzero]. split.
    + by rewrite (nbits_ext _ _ Hsb).
    + rewrite (nbits_ext _ _ Hsb), (datastart_ext _ _ Hsb). intros y Hy1 Hy2.
      rewrite Hin by lia. rewrite Hmeta by done.
      destruct (Z.eqb_spec y b); [lia|done].
    + rewrite (nbits_ext _ _ Hsb). intros y i Hy Hfree.
      destruct (decide (y = b)) as [->|Hne]; [apply Hz|].
      rewrite Hin in Hfree by done.
      destruct (Z.eqb_spec y b); [done|]. rewrite andb_true_r in Hfree.
      rewrite Hfr; [by apply Hzero|done|].
      intros ->. rewrite Hmeta in Hfree; [done|lia|lia].
Qed.

(** X2.  For a block [b] of the data area on a sound bitmap: when its
    bit is clear [bfree] panics with [freeing free block]; when it is set
    [bfree] zeroes the block and clears that bit, and nothing else changes:
    one more block is free, the bitmap stays sound, and a second [bfree] of
    the same block panics. *)
Theorem bfree_spec (dv b : Z) (st : state) :
  fs_ok (sdisk st) ->
  datastart (sdisk st) <= b < nbits (sdisk st) ->
  in_block (sdisk st) b ->
  (inuse (sdisk st) b = false -> bfree dv b st = Panic "freeing free block") /\
  (inuse (sdisk st) b = true ->
   bfree dv b st = Ok tt (set_disk (clearbit (bzero (sdisk st) b) b) st) /\
   (forall y, 0 <= y < nbits (sdisk st) ->
      inuse (clearbit (bzero (sdisk st) b) b) y
      = inuse (sdisk st) y && negb (y =? b)) /\
   (forall i, rd (clearbit (bzero (sdisk st) b) b) b i = 0) /\
   (forall blk i, blk <> b -> blk <> BBLOCK b (sb_ninodes (readsb (sdisk st))) ->
      rd (clearbit (bzero (sdisk st) b) b) blk i = rd (sdisk st) blk i) /\
   nfree (clearbit (bzero (sdisk st) b) b) = S (nfree (sdisk st)) /\
   fs_ok (clearbit (bzero (sdisk st) b) b) /\
   bfree dv b (set_disk (clearbit (bzero (sdisk st) b) b) st)
   = Panic "freeing free block").
Proof.
  intros Hfs Hb Hblk. split.
  - intros Hf. rewrite bfree_run by done. by rewrite Hf.
  - intros Hu.
    destruct (bfree_used _ b Hfs Hb Hblk Hu) as (Hsb & Hin & Hz & Hfr & Hnf & Hfs').
    split; [rewrite bfree_run by done; by rewrite Hu|].
    split; [done|]. split; [done|]. split; [done|]. split; [done|]. split; [done|].
    destruct st as [d h b0 ns dl]. cbn [sdisk set_disk] in *.
    rewrite bfree_run; cbn [sdisk set_disk].
    + pose proof (datastart_ge d). rewrite Hin by lia.
      rewrite Hu, Z.eqb_refl. reflexivity.
    + rewrite (nbits_ext _ _ Hsb), (datastart_ext _ _ Hsb). done.
Qed.

Lemma in_blockb_sound d b : in_blockb d b = true -> in_block d b.
Proof.
  unfold in_blockb. rewrite forallb_forall. intros H i Hi. unfold rd.
  destruct (d !! (b, i)) as [v|] eqn:Hl; [|done].
  apply elem_of_map_to_list in Hl.
  assert (In ((b, i), v) (map_to_list d)) as Hin by (by apply list_elem_of_In).
  apply H in Hin. cbn in Hin. rewrite Z.eqb_refl in Hin. cbn [negb orb] in Hin.
  apply orb_true_iff in Hin as [Hin|Hin].
  - apply andb_true_iff in Hin as [H1 H2]. lia.
  - by apply Z.eqb_eq.
Qed.

Lemma st_alloc_facts :
  fs_ok (sdisk st_alloc) /\
  datastart (sdisk st_alloc) <= 32 < nbits (sdisk st_alloc) /\
  in_block (sdisk st_alloc) 32 /\ inuse (sdisk st_alloc) 32 = true.
Proof.
  split; [apply fs_okb_sound; vm_compute; reflexivity|].
  split; [vm_compute; split; [intros H; discriminate H|reflexivity]|].
  split; [apply in_blockb_sound; vm_compute; reflexivity|].
  vm_compute. reflexivity.
Qed.

Lemma bfree_spec_witness :
  bfree 1 32 st_alloc =
  Ok tt (set_disk (clearbit (bzero (sdisk st_alloc) 32) 32) st_alloc).
Proof.
  destruct st_alloc_facts as (Hfs & Hb & Hblk & Hu).
  apply (proj2 (bfree_spec 1 32 st_alloc Hfs Hb Hblk) Hu).
Defined.

Lemma clear_set_byte v j :
  0 <= v < 256 -> 0 <= j < 8 -> Z.testbit v j = false ->
  Z.land (Z.lor v (Z.shiftl 1 j) mod 256) (Z.lnot (Z.shiftl 1 j)) mod 256 = v.
Proof.
  intros Hv Hj Hbit. rewrite shiftl_1 by lia.
  apply Z.bits_inj'. intros n Hn. change 256 with (2 ^ 8).
  destruct (decide (n < 8)) as [Hlt|Hge].
  - rewrite Z.mod_pow2_bits_low by lia.
    rewrite Z.land_spec, Z.mod_pow2_bits_low by lia.
    rewrite Z.lor_spec, Z.lnot_spec, Z.pow2_bits_eqb by lia.
    destruct (Z.eqb_spec j n) as [<-|Hne].
    + rewrite Hbit. done.
    + cbn [negb]. by rewrite orb_false_r, andb_true_r.
  - rewrite Z.mod_pow2_bits_high by lia.
    rewrite <- (Z.mod_small v (2 ^ 8)) by (change (2 ^ 8) with 256; lia).
    rewrite Z.mod_pow2_bits_high by lia. done.
Qed.

(** X3.  On a sound bitmap, freeing the block that [balloc]
    has just returned succeeds and puts the disk back: every byte reads as
    before the allocation, and as many blocks are free. *)
Theorem balloc_bfree (dv b : Z) (st st1 : state) :
  fs_ok (sdisk st) ->
  balloc dv st = Ok b st1 ->
  exists d2,
    bfree dv b st1 = Ok tt (set_disk d2 st) /\
    (forall blk i, rd d2 blk i = rd (sdisk st) blk i) /\
    nfree d2 = nfree (sdisk st).
Proof.
  intros Hfs Hrun. destruct st as [d h b0 ns dl]. cbn [sdisk] in *.
  pose proof (balloc_spec dv d h b0 ns dl Hfs) as Hsp. rewrite Hrun in Hsp.
  destruct Hsp as (Hb & Hfree & ->).
  pose proof (datastart_ge d) as Hds.
  assert (datastart d <= b) as Hdata.
  { destruct (decide (datastart d <= b)); [done|].
    rewrite (fs_meta d Hfs) in Hfree; [done|lia|lia]. }
  pose proof (readsb_setbit d b ltac:(lia)) as Hsb1.
  pose proof (bblock_range d b Hb) as Hbb.
  set (d1 := setbit d b) in *.
  destruct (bzero_data d1 b) as (Hsb0 & Hin0 & Hnf0);
    [rewrite (datastart_ext _ _ Hsb1); lia|].
  exists (clearbit (bzero d1 b) b).
  split; [|split].
  - rewrite bfree_run; cbn [sdisk].
    + unfold d1. rewrite inuse_setbit by lia. rewrite Z.eqb_refl, orb_true_r.
      reflexivity.
    + rewrite (datastart_ext _ _ Hsb1), (nbits_ext _ _ Hsb1). lia.
  - intros blk i. unfold clearbit. rewrite Hsb0, Hsb1. rewrite rd_wr.
    case_decide as Hc.
    + destruct Hc as [-> ->]. rewrite rd_bzero.
      case_decide as Hc; [lia|].
      unfold d1, setbit. rewrite rd_wr_eq.
      apply clear_set_byte; [apply rd_range|zdiv|].
      rewrite <- inuse_bit by lia. done.
    + rewrite rd_bzero. case_decide as Hz.
      * destruct Hz as [-> Hi]. symmetry. apply (fs_zero d Hfs); [lia|done].
      * unfold d1, setbit. rewrite rd_wr. case_decide; [tauto|done].
  - rewrite nfree_clearbit.
    + rewrite Hnf0. unfold d1. rewrite (nfree_setbit d b) by done. done.
    + rewrite (nbits_ext _ _ Hsb0), (nbits_ext _ _ Hsb1). lia.
    + rewrite Hin0 by (rewrite (nbits_ext _ _ Hsb1); lia).
      unfold d1. rewrite inuse_setbit by lia. by rewrite Z.eqb_refl, orb_true_r.
Qed.

Lemma balloc_bfree_witness :
  exists d2,
    bfree 1 32 st_alloc = Ok tt (set_disk d2 st_new) /\
    (forall blk i, rd d2 blk i = rd (sdisk st_new) blk i) /\
    nfree d2 = nfree (sdisk st_new).
Proof.
  apply (balloc_bfree 1 32 st_new st_alloc fs_ok_mkfs).
  vm_compute. reflexivity.
Defined.

Lemma rd_dinode_ext d d' j :
  (forall k, dslot j <= k < dslot j + DINODE ->
             rd d' (IBLOCK j) k = rd d (IBLOCK j) k) ->
  rd_dinode d' j = rd_dinode d j.
Proof.
  intros H. unfold rd_dinode.
  rewrite !(rd16_ext d d') by (intros; apply H; consts; lia).
  rewrite !(rd32_ext d d') by (intros; apply H; consts; lia).
  f_equal. unfold rd32s. apply map_ext_in. intros k Hk. apply in_seq in Hk.
  apply rd32_ext. intros. apply H. revert Hk. consts. lia.
Qed.

Lemma rd_dinode_other d i di j :
  0 <= i -> 0 <= j -> j <> i ->
  length (d_addrs di) = Z.to_nat (NDIRECT + 1) ->
  rd_dinode (wr_dinode d i di) j = rd_dinode d j.
Proof.
  intros Hi Hj Hne Hl. apply rd_dinode_ext. intros k Hk.
  apply rd_wr_dinode_out; [done|].
  destruct (decide (IBLOCK j = IBLOCK i)) as [E|E]; [|by left].
  right. revert E Hk. unfold IBLOCK, dslot. zdiv.
Qed.

Lemma aget_map_seq l :
  length l = Z.to_nat (NDIRECT + 1) ->
  map (fun k => aget l (Z.of_nat k)) (seq 0 (Z.to_nat (NDIRECT + 1))) = l.
Proof.
  intros Hl. apply nth_ext with (d := 0) (d' := 0).
  - by rewrite length_map, length_seq.
  - intros n Hn. rewrite length_map, length_seq in Hn.
    rewrite (nth_indep _ 0 (aget l (Z.of_nat 0))) by (by rewrite length_map, length_seq).
    rewrite (map_nth (fun k => aget l (Z.of_nat k))), seq_nth by done.
    unfold aget. f_equal. lia.
Qed.

(** X4.  [iupdate] writes the inode's fields to its place in the
    inode table: read back, the on-disk inode is the in-memory one, field
    by field; every other on-disk inode and every block but that of the
    inode table is as before, and the in-memory state is untouched. *)
Theorem iupdate_roundtrip (a : Z) (ip : inode) (st : state) :
  heap st !! a = Some ip ->
  fits ip ->
  0 <= inum ip ->
  iupdate a st =
    Ok tt (set_disk (wr_dinode (sdisk st) (inum ip) (dinode_of ip)) st) /\
  rd_dinode (wr_dinode (sdisk st) (inum ip) (dinode_of ip)) (inum ip) =
    mkDinode (type ip) (major ip) (minor ip) (nlink ip) (size ip) (gen ip)
             (addrs ip) /\
  (forall j, 0 <= j -> j <> inum ip ->
     rd_dinode (wr_dinode (sdisk st) (inum ip) (dinode_of ip)) j
     = rd_dinode (sdisk st) j) /\
  (forall blk i, blk <> IBLOCK (inum ip) ->
     rd (wr_dinode (sdisk st) (inum ip) (dinode_of ip)) blk i
     = rd (sdisk st) blk i).
Proof.
  intros Hh [Ht Hma Hmi Hn Hs Hg Hl Ha] Hi.
  assert (dinode_of ip = mkDinode (type ip) (major ip) (minor ip) (nlink ip)
                                  (size ip) (gen ip) (addrs ip)) as Hd.
  { unfold dinode_of. f_equal. by apply aget_map_seq. }
  split; [|split; [|split]].
  - destruct st as [d h b ns dl]. cbn [heap sdisk] in *.
    by rewrite (iupdate_spec a d h b ns dl ip Hh).
  - rewrite Hd. by apply rd_wr_dinode.
  - intros j Hj Hne. apply rd_dinode_other; [done|done|done|].
    apply length_dinode_addrs.
  - intros blk i Hb. apply rd_wr_dinode_out; [apply length_dinode_addrs|by left].
Qed.

Lemma fits_newfile : fits newfile.
Proof.
  split.
  - vm_compute. split; [intros H; discriminate H|reflexivity].
  - vm_compute. split; [intros H; discriminate H|reflexivity].
  - vm_compute. split; [intros H; discriminate H|reflexivity].
  - vm_compute. split; [intros H; discriminate H|reflexivity].
  - vm_compute. split; [intros H; discriminate H|reflexivity].
  - vm_compute. split; [intros H; discriminate H|reflexivity].
  - reflexivity.
  - change (addrs newfile) with (repeat 0 13). apply Forall_forall.
    intros x Hx. apply list_elem_of_In, repeat_spec in Hx as ->.
    unfold uint, WORD. lia.
Qed.

Lemma iupdate_roundtrip_witness :
  rd_dinode (wr_dinode (sdisk st_new) (inum newfile) (dinode_of newfile))
            (inum newfile) =
  mkDinode (type newfile) (major newfile) (minor newfile) (nlink newfile)
           (size newfile) (gen newfile) (addrs newfile).
Proof.
  apply (proj1 (proj2 (iupdate_roundtrip 10 newfile st_new eq_refl fits_newfile
                         ltac:(cbn; lia)))).
Defined.

(** ** [iget] on a cached inode *)

Lemma set_ref_cancel ip :
  INT_MIN <= ref ip <= INT_MAX ->
  set_ref (int_dec (ref (set_ref (int_inc (ref ip)) ip)))
          (set_ref (int_inc (ref ip)) ip) = ip.
Proof.
  intros Hr. destruct ip as [a1 a2 a3 a4 a5 a6 a7 a8 a9 a10 a11 a12].
  cbv [set_ref ref dev inum flags readbusy gen type major minor nlink size addrs]
    in *.
  f_equal. by apply int_dec_inc.
Qed.

(** A reference taken and dropped again: [iput] after the increment of
    [iget] or [idup], on an inode that is referenced or linked. *)
Lemma bump_iput a d h b ns dl ip :
  h !! a = Some ip -> INT_MIN <= ref ip <= INT_MAX ->
  1 <= ref ip \/ nlink ip <> 0 ->
  iput a (mkState d (<[a := set_ref (int_inc (ref ip)) ip]> h) b ns dl) =
  Ok tt (mkState d h b ns dl).
Proof.
  intros Hh Hr Hkeep.
  rewrite (iput_keep a d _ b ns dl (set_ref (int_inc (ref ip)) ip)).
  - by rewrite insert_insert_eq, set_ref_cancel, insert_id.
  - apply lookup_insert_eq.
  - pose proof (int_dec_inc (ref ip) Hr) as Hc.
    destruct ip as [a1 a2 a3 a4 a5 a6 a7 a8 a9 a10 a11 a12].
    cbv [set_ref ref nlink] in *. rewrite Hc. lia.
Qed.

Lemma iget_hit_run dv ino st a ip :
  ns_lookup (ins st) ino = Some a -> heap st !! a = Some ip ->
  iget dv ino st =
  if negb (dev ip =? dv) then Panic "iget dev mismatch"
  else if negb (Z.land (flags ip) I_FREE =? 0) then Spin
  else if Z.land (flags ip) I_VALID =? 0 then Sleep
  else Ok a (set_heap (<[a := set_ref (int_inc (ref ip)) ip]> (heap st)) st).
Proof.
  intros Hl Hh. destruct st as [d h b ns dl]. cbn [heap ins] in *.
  unfold iget. erewrite bind_Ok by reflexivity. cbn [ins]. rewrite Hl.
  erewrite bind_Ok by (apply deref_Ok; exact Hh).
  destruct (dev ip =? dv); cbn [negb]; [|reflexivity].
  erewrite bind_Ok by apply store_Ok.
  destruct (Z.land (flags ip) I_FREE =? 0); cbn [negb].
  - destruct (Z.land (flags ip) I_VALID =? 0); reflexivity.
  - erewrite bind_Ok by (apply modify_Ok; apply lookup_insert_eq). reflexivity.
Qed.

(** X5.  [iget] of an inode number that is in the cache: it
    panics when the entry is of another device, retries for ever when the
    entry is being evicted ([I_FREE]), sleeps when it is not yet valid, and
    otherwise returns the cached pointer having only incremented [ref]:
    by one below [INT_MAX], and from [INT_MAX] around to [INT_MIN].  On an
    entry that is referenced or linked, [ref] being an [int], [iput] of
    what [iget] returned puts the whole state back. *)
Theorem iget_cached (dv ino a : Z) (ip : inode) (st : state) :
  ns_lookup (ins st) ino = Some a ->
  heap st !! a = Some ip ->
  (dev ip <> dv -> iget dv ino st = Panic "iget dev mismatch") /\
  (dev ip = dv -> Z.land (flags ip) I_FREE <> 0 -> iget dv ino st = Spin) /\
  (dev ip = dv -> Z.land (flags ip) I_FREE = 0 -> ~ valid ip ->
   iget dv ino st = Sleep) /\
  (dev ip = dv -> Z.land (flags ip) I_FREE = 0 -> valid ip ->
   (ref ip < INT_MAX ->
    iget dv ino st =
      Ok a (set_heap (<[a := set_ref (ref ip + 1) ip]> (heap st)) st)) /\
   (ref ip = INT_MAX ->
    iget dv ino st =
      Ok a (set_heap (<[a := set_ref INT_MIN ip]> (heap st)) st)) /\
   (INT_MIN <= ref ip <= INT_MAX -> 1 <= ref ip \/ nlink ip <> 0 ->
    (c <- iget dv ino; iput c) st = Ok tt st)).
Proof.
  intros Hl Hh. rewrite (iget_hit_run dv ino st a ip Hl Hh).
  split; [|split; [|split]].
  - intros Hd. apply Z.eqb_neq in Hd. by rewrite Hd.
  - intros Hd Hf. apply Z.eqb_eq in Hd. apply Z.eqb_neq in Hf. by rewrite Hd, Hf.
  - intros Hd Hf Hv. apply Z.eqb_eq in Hd. apply Z.eqb_eq in Hf.
    rewrite Hd, Hf. cbn [negb]. unfold valid in Hv.
    destruct (Z.eqb_spec (Z.land (flags ip) I_VALID) 0); [done|]. tauto.
  - intros Hd Hf Hv. apply Z.eqb_eq in Hd. apply Z.eqb_eq in Hf.
    unfold valid in Hv. apply Z.eqb_neq in Hv.
    assert (iget dv ino st =
            Ok a (set_heap (<[a := set_ref (int_inc (ref ip)) ip]> (heap st)) st))
      as Hrun.
    { rewrite (iget_hit_run dv ino st a ip Hl Hh), Hd, Hf, Hv. reflexivity. }
    rewrite Hd, Hf, Hv. cbn [negb]. split; [|split].
    + intros Hlt. rewrite int_inc_small by lia. reflexivity.
    + intros ->. reflexivity.
    + intros Hr Hkeep. erewrite bind_Ok by exact Hrun.
      destruct st as [d h b ns dl]. cbn [heap sdisk brk ins delayed] in *.
      unfold set_heap. cbn [sdisk brk ins delayed].
      by apply bump_iput.
Qed.

Lemma iget_cached_witness :
  iget ROOTDEV ROOTINO st_boot =
  Ok root (set_heap (<[root := set_ref (ref root_0 + 1) root_0]> (heap st_boot))
                    st_boot) /\
  (c <- iget ROOTDEV ROOTINO; iput c) st_boot = Ok tt st_boot.
Proof.
  assert (ns_lookup (ins st_boot) ROOTINO = Some root) as H1
    by (vm_compute; reflexivity).
  assert (heap st_boot !! root = Some root_0) as H2 by (vm_compute; reflexivity).
  assert (dev root_0 = ROOTDEV) as H3 by (vm_compute; reflexivity).
  assert (Z.land (flags root_0) I_FREE = 0) as H4 by (vm_compute; reflexivity).
  assert (valid root_0) as H5 by (vm_compute; intros H; discriminate H).
  assert (ref root_0 = 1) as H6 by (vm_compute; reflexivity).
  destruct (proj2 (proj2 (proj2
              (iget_cached ROOTDEV ROOTINO root root_0 st_boot H1 H2))) H3 H4 H5)
    as (Hlt & _ & Hback).
  split.
  - apply Hlt. rewrite H6. unfold INT_MAX. lia.
  - apply Hback; rewrite H6; [unfold INT_MIN, INT_MAX; lia|left; lia].
Defined.

(** ** [iget] on an inode that is not cached *)

Lemma enumerate_evict_run ns st :
  (forall k a, In (k, a) ns -> is_Some (heap st !! a)) ->
  ns_enumerate ns evict st = Ok (first_unref (heap st) ns) st.
Proof.
  induction ns as [|[k a] ns IH]; intros Hc; cbn [ns_enumerate first_unref].
  - reflexivity.
  - destruct (Hc k a ltac:(by left)) as [ip Hip]. rewrite Hip.
    unfold evict. unfold bind at 1 2. unfold deref. rewrite Hip.
    destruct (ref ip =? 0); cbn [ret].
    + reflexivity.
    + apply IH. intros k' a' Hin. apply (Hc k' a'). by right.
Qed.

Lemma first_unref_some h ns v :
  first_unref h ns = Some v ->
  exists k vp, In (k, v) ns /\ h !! v = Some vp /\ ref vp = 0.
Proof.
  induction ns as [|[k a] ns IH]; cbn [first_unref]; [done|].
  destruct (h !! a) as [ip|] eqn:E; [|done].
  destruct (Z.eqb_spec (ref ip) 0) as [Hz|Hz].
  - intros [= <-]. exists k, ip. split; [by left|done].
  - intros H. destruct (IH H) as (k' & vp & Hin & Hv). exists k', vp.
    split; [by right|done].
Qed.

Lemma first_unref_none h ns :
  (forall k a, In (k, a) ns -> exists ip, h !! a = Some ip /\ ref ip <> 0) ->
  first_unref h ns = None.
Proof.
  induction ns as [|[k a] ns IH]; intros H; cbn [first_unref]; [done|].
  destruct (H k a ltac:(by left)) as (ip & -> & Hr).
  apply Z.eqb_neq in Hr. rewrite Hr. apply IH. intros k' a' Hin.
  apply (H k' a'). by right.
Qed.

Lemma ns_lookup_none ns key :
  ns_lookup ns key = None <-> forall k a, In (k, a) ns -> k <> key.
Proof.
  induction ns as [|[k a] ns IH]; cbn [ns_lookup].
  - split; [intros _ k a []|done].
  - destruct (Z.eqb_spec k key) as [->|Hne].
    + split; [done|]. intros H. exfalso. apply (H key a); [by left|done].
    + rewrite IH. split.
      * intros H k' a' [[= <- <-]|Hin]; [done|by apply (H k' a')].
      * intros H k' a' Hin. apply (H k' a'). by right.
Qed.

Lemma ns_lookup_remove ns key k v :
  ns_lookup ns key = None -> ns_lookup (ns_remove ns k v) key = None.
Proof.
  rewrite !ns_lookup_none. intros H k' a' Hin. apply (H k' a').
  unfold ns_remove in Hin. apply list_elem_of_In in Hin.
  apply list_elem_of_filter in Hin as [_ Hin]. by apply list_elem_of_In.
Qed.

Lemma fresh_inode_eq dv ino di :
  iunlock_release
    (set_flags (Z.lor (Z.lor I_BUSYR I_BUSYW) I_VALID)
       (mkInode dv ino 1 (Z.lor I_BUSYR I_BUSYW) 1 (d_gen di) (d_type di)
                (d_major di) (d_minor di) (d_nlink di) (d_size di) (d_addrs di)))
  = fresh_inode dv ino di.
Proof. reflexivity. Qed.

Lemma inum_set_flags' f ip : inum (set_flags f ip) = inum ip.
Proof. destruct ip. reflexivity. Qed.

Lemma ref_set_flags f ip : ref (set_flags f ip) = ref ip.
Proof. destruct ip. reflexivity. Qed.

(** The miss path of [iget], run forward. *)
Lemma iget_miss_run dv ino d h b ns dl v vp :
  ns_lookup ns ino = None ->
  (forall k a, In (k, a) ns -> is_Some (h !! a)) ->
  first_unref h ns = Some v -> h !! v = Some vp -> b <> 0 ->
  iget dv ino (mkState d h b ns dl) =
  Ok b (mkState d
          (<[b := fresh_inode dv ino (rd_dinode d ino)]>
             (<[v := set_flags (Z.lor (flags vp) I_FREE) vp]> h))
          (b + 1) ((ino, b) :: ns_remove ns (inum vp) v) (dl ++ [KmFree v])).
Proof.
  intros Hl Hc Hv Hvp Hb.
  destruct (first_unref_some _ _ _ Hv) as (kv & vp' & _ & Hvp' & Hr).
  rewrite Hvp in Hvp'. injection Hvp' as <-.
  unfold iget. erewrite bind_Ok by reflexivity. cbn [ins]. rewrite Hl.
  unfold iget_miss. erewrite bind_Ok by reflexivity. cbn [ins].
  erewrite bind_Ok by (apply enumerate_evict_run; exact Hc).
  cbn [heap]. rewrite Hv.
  erewrite bind_Ok by (apply modify_Ok; exact Hvp).
  erewrite bind_Ok by (apply deref_Ok; apply lookup_insert_eq).
  rewrite ref_set_flags, Hr. change (0 <? 0) with false. cbv beta iota.
  erewrite bind_Ok by reflexivity. st_simpl.
  erewrite bind_Ok by reflexivity. st_simpl.
  erewrite bind_Ok by reflexivity. st_simpl.
  erewrite bind_Ok by apply store_Ok.
  erewrite bind_Ok by reflexivity. st_simpl.
  rewrite inum_set_flags'.
  unfold ns_insert. rewrite ns_lookup_remove by done.
  erewrite bind_Ok by reflexivity. st_simpl.
  erewrite bind_Ok by apply get_disk_Ok.
  erewrite bind_Ok by (apply modify_Ok; apply lookup_insert_eq).
  rewrite insert_insert_eq.
  erewrite bind_Ok by (apply modify_Ok; apply lookup_insert_eq).
  rewrite insert_insert_eq.
  cbn [dev inum ref flags readbusy].
  unfold iunlock. apply Z.eqb_neq in Hb. rewrite Hb.
  erewrite bind_Ok.
  2:{ erewrite bind_Ok by (apply deref_Ok; apply lookup_insert_eq).
      cbn [flags ref set_flags]. 
      change (Z.land (Z.lor (Z.lor I_BUSYR I_BUSYW) I_VALID) (Z.lor I_BUSYR I_BUSYW) =? 0)
        with false.
      change (1 <? 1) with false. cbn [orb].
      apply store_Ok. }
  rewrite insert_insert_eq, ret_Ok.
  reflexivity.
Qed.

Lemma first_unref_split h ns v :
  first_unref h ns = Some v ->
  exists k pre post,
    ns = pre ++ (k, v) :: post /\
    forall k' a', In (k', a') pre -> exists ip, h !! a' = Some ip /\ ref ip <> 0.
Proof.
  induction ns as [|[k a] ns IH]; cbn [first_unref]; [done|].
  destruct (h !! a) as [ip|] eqn:E; [|done].
  destruct (Z.eqb_spec (ref ip) 0) as [Hz|Hz].
  - intros [= <-]. exists k, [], ns. split; [done|]. intros k' a' [].
  - intros H. destruct (IH H) as (k0 & pre & post & -> & Hpre).
    exists k0, ((k, a) :: pre), post. split; [done|].
    intros k' a' [[= <- <-]|Hin]; [by exists ip|by apply (Hpre k' a')].
Qed.

Lemma iget_full_run dv ino d h b ns dl :
  ns_lookup ns ino = None ->
  (forall k a, In (k, a) ns -> is_Some (h !! a)) ->
  first_unref h ns = None ->
  iget dv ino (mkState d h b ns dl) = Panic "iget out of space".
Proof.
  intros Hl Hc Hv.
  unfold iget. erewrite bind_Ok by reflexivity. cbn [ins]. rewrite Hl.
  unfold iget_miss. erewrite bind_Ok by reflexivity. cbn [ins].
  erewrite bind_Ok by (apply enumerate_evict_run; exact Hc).
  cbn [heap]. rewrite Hv. reflexivity.
Qed.

(** X6.  [iget] of an inode number that is not in the cache,
    every cache entry being allocated memory: when every entry is
    referenced it panics with [iget out of space].  Otherwise the first
    unreferenced entry of the name space is the victim: it is flagged
    [I_FREE], taken out of the name space and handed to [rcu_delayed] for
    [kmfree]; the inode returned is at the fresh address [kmalloc] gave,
    holds the fields of the on-disk inode, has one reference, is valid and
    unlocked, and is entered in the name space under its number.  The disk
    is not written. *)
Theorem iget_uncached (dv ino : Z) (st : state) :
  ns_lookup (ins st) ino = None ->
  (forall k a, In (k, a) (ins st) -> is_Some (heap st !! a)) ->
  brk st <> 0 ->
  ((forall k a ip, In (k, a) (ins st) -> heap st !! a = Some ip -> ref ip <> 0) ->
   iget dv ino st = Panic "iget out of space") /\
  (forall v, first_unref (heap st) (ins st) = Some v ->
   exists k pre post vp,
     ins st = pre ++ (k, v) :: post /\
     (forall k' a', In (k', a') pre ->
        exists ip, heap st !! a' = Some ip /\ ref ip <> 0) /\
     heap st !! v = Some vp /\ ref vp = 0 /\
     iget dv ino st =
     Ok (brk st)
        (mkState (sdisk st)
           (<[brk st := fresh_inode dv ino (rd_dinode (sdisk st) ino)]>
              (<[v := set_flags (Z.lor (flags vp) I_FREE) vp]> (heap st)))
           (brk st + 1)
           ((ino, brk st) :: ns_remove (ins st) (inum vp) v)
           (delayed st ++ [KmFree v]))).
Proof.
  intros Hl Hc Hb. destruct st as [d h b ns dl].
  cbn [sdisk heap brk ins delayed] in *. split.
  - intros Hall. apply iget_full_run; [done|done|].
    apply first_unref_none. intros k a Hin.
    destruct (Hc k a Hin) as [ip Hip]. exists ip. split; [done|].
    by apply (Hall k a).
  - intros v Hv.
    destruct (first_unref_split _ _ _ Hv) as (k & pre & post & Hns & Hpre).
    destruct (first_unref_some _ _ _ Hv) as (_ & vp & _ & Hvp & Hr).
    exists k, pre, post, vp. split; [done|]. split; [done|].
    split; [done|]. split; [done|].
    by apply iget_miss_run.
Qed.

Lemma iget_uncached_witness :
  iget 1 7 st_new = Panic "iget out of space".
Proof.
  apply (proj1 (iget_uncached 1 7 st_new eq_refl
                  ltac:(intros k a [[= <- <-]|[]]; by eexists)
                  ltac:(discriminate))).
  intros k a ip [[= <- <-]|[]] [= <-]. discriminate.
Defined.

(** ** [iinit] *)

Lemma iinit_entries_step i b k (ns : list (Z * Z)) :
  map (fun j => (u32 (- (i + 1 + Z.of_nat j) - 1), b + 1 + Z.of_nat j))
      (rev (seq 0 k)) ++ (u32 (- i - 1), b) :: ns
  = map (fun j => (u32 (- (i + Z.of_nat j) - 1), b + Z.of_nat j))
        (rev (seq 0 (S k))) ++ ns.
Proof.
  cbn [seq rev]. rewrite map_app, <- app_assoc. cbn [map app].
  rewrite <- seq_shift, <- map_rev, map_map.
  f_equal.
  - apply map_ext. intros j. f_equal; [f_equal|]; lia.
  - f_equal. f_equal; [f_equal|]; lia.
Qed.

Lemma iinit_loop_run k i d h b ns dl :
  0 <= i -> i + Z.of_nat k <= WORD ->
  (forall k' a' j, In (k', a') ns -> i <= j < i + Z.of_nat k ->
                   k' <> u32 (- j - 1)) ->
  exists h',
    iinit_loop k i (mkState d h b ns dl) =
    Ok tt (mkState d h' (b + Z.of_nat k)
             (map (fun j => (u32 (- (i + Z.of_nat j) - 1), b + Z.of_nat j))
                  (rev (seq 0 k)) ++ ns) dl) /\
    forall a, h' !! a =
              if decide (b <= a < b + Z.of_nat k)
              then Some (blank (u32 (- (i + (a - b)) - 1)))
              else h !! a.
Proof.
  revert i h b ns. induction k as [|k IH]; intros i h b ns Hi Hk Hfresh.
  - exists h. split.
    + cbn [iinit_loop seq rev map app]. rewrite Z.add_0_r. reflexivity.
    + intros a. case_decide; [lia|done].
  - cbn [iinit_loop].
    erewrite bind_Ok by reflexivity. st_simpl.
    erewrite bind_Ok by apply store_Ok.
    assert (ns_insert ns (u32 (- i - 1)) b = Some ((u32 (- i - 1), b) :: ns)) as Hins.
    { unfold ns_insert.
      assert (ns_lookup ns (u32 (- i - 1)) = None) as ->; [|done].
      apply ns_lookup_none. intros k' a' Hin. apply (Hfresh k' a' i Hin). lia. }
    erewrite bind_Ok by (cbn [ins]; rewrite Hins; reflexivity). st_simpl.
    destruct (IH (i + 1) (<[b := blank (u32 (- i - 1))]> h) (b + 1)
                 ((u32 (- i - 1), b) :: ns)) as (h' & Hrun & Hh'); [lia|lia| |].
    { intros k' a' j [[= <- <-]|Hin] Hj.
      - unfold u32, WORD in *. intros E.
        assert ((- i - 1) mod 4294967296 = 4294967296 - 1 - i)
          by (Z.div_mod_to_equations; lia).
        assert ((- j - 1) mod 4294967296 = 4294967296 - 1 - j)
          by (Z.div_mod_to_equations; lia).
        lia.
      - apply (Hfresh k' a' j Hin). lia. }
    exists h'. split.
    + rewrite Hrun, iinit_entries_step. do 2 f_equal. lia.
    + intros a. rewrite Hh'. repeat case_decide; try lia.
      * do 3 f_equal. lia.
      * assert (a = b) as -> by lia. rewrite lookup_insert_eq.
        do 3 f_equal. lia.
      * rewrite lookup_insert_ne by lia. done.
Qed.

(** X7.  [iinit] makes a cache of [NINODE] blank, unreferenced
    entries at fresh addresses, under the keys [2^32 - 1 - i]; it leaves the
    disk and the other memory alone.  No inode number below
    [2^32 - NINODE] is cached then, so the first [iget] of such a number
    evicts one of the blank entries and returns the inode as read from
    disk. *)
Theorem iinit_spec (dv ino : Z) (st : state) :
  0 < brk st ->
  0 <= ino < WORD - NINODE ->
  exists st1,
    iinit st = Ok tt st1 /\
    sdisk st1 = sdisk st /\ brk st1 = brk st + NINODE /\
    delayed st1 = delayed st /\
    length (ins st1) = Z.to_nat NINODE /\
    (forall k a, In (k, a) (ins st1) ->
       WORD - NINODE <= k < WORD /\ brk st <= a < brk st + NINODE /\
       heap st1 !! a = Some (blank k)) /\
    (forall a, ~ (brk st <= a < brk st + NINODE) -> heap st1 !! a = heap st !! a) /\
    exists st2,
      iget dv ino st1 = Ok (brk st + NINODE) st2 /\
      sdisk st2 = sdisk st /\
      heap st2 !! (brk st + NINODE) =
        Some (fresh_inode dv ino (rd_dinode (sdisk st) ino)).
Proof.
  intros Hb Hino. destruct st as [d h b ns dl]. cbn [sdisk brk heap delayed] in *.
  unfold iinit. st_simpl.
  destruct (iinit_loop_run (Z.to_nat NINODE) 0 d h b [] dl) as (h' & Hrun & Hh');
    [lia|unfold WORD, NINODE; lia|intros k' a' j []|].
  rewrite app_nil_r in Hrun.
  set (ents := map (fun j => (u32 (- (0 + Z.of_nat j) - 1), b + Z.of_nat j))
                   (rev (seq 0 (Z.to_nat NINODE)))) in *.
  assert (Z.of_nat (Z.to_nat NINODE) = NINODE) as HN by (unfold NINODE; lia).
  rewrite HN in *.
  assert (forall k a, In (k, a) ents ->
            WORD - NINODE <= k < WORD /\ b <= a < b + NINODE /\
            h' !! a = Some (blank k)) as Hents.
  { intros k a Hin. unfold ents in Hin. apply in_map_iff in Hin as (j & [= <- <-] & Hj).
    apply in_rev, in_seq in Hj.
    assert (u32 (- (0 + Z.of_nat j) - 1) = WORD - 1 - Z.of_nat j) as Hk.
    { unfold u32, WORD, NINODE in *. Z.div_mod_to_equations. lia. }
    rewrite Hh'. case_decide; [|lia].
    split; [rewrite Hk; unfold NINODE in *; lia|]. split; [lia|].
    do 3 f_equal. lia. }
  eexists. split; [exact Hrun|]. cbn [sdisk brk delayed ins heap].
  split; [done|]. split; [done|]. split; [done|].
  split; [unfold ents; by rewrite length_map, length_rev, length_seq|].
  split; [exact Hents|].
  split; [intros a Ha; rewrite Hh'; case_decide; [lia|done]|].
  assert (exists rest, ents = (u32 (- 49 - 1), b + 49) :: rest) as [rest Hhead].
  { unfold ents. change (Z.to_nat NINODE) with (S 49).
    rewrite seq_S, rev_app_distr. cbn [rev app map Nat.add]. by eexists. }
  destruct (Hents _ _ ltac:(rewrite Hhead; by left)) as (_ & _ & Hv).
  eexists. split.
  - apply (iget_miss_run dv ino d h' (b + NINODE) ents dl (b + 49)
             (blank (u32 (- 49 - 1)))).
    + apply ns_lookup_none. intros k a Hin. destruct (Hents k a Hin). lia.
    + intros k a Hin. destruct (Hents k a Hin) as (_ & _ & ->). by eexists.
    + rewrite Hhead. cbn [first_unref]. rewrite Hv. reflexivity.
    + exact Hv.
    + unfold NINODE. lia.
  - cbn [sdisk heap]. split; [done|]. apply lookup_insert_eq.
Qed.

Lemma iinit_spec_witness :
  exists st1 st2,
    iinit (mkState mkfs ∅ 1 [] []) = Ok tt st1 /\
    iget 1 1 st1 = Ok (1 + NINODE) st2.
Proof.
  destruct (iinit_spec 1 1 (mkState mkfs ∅ 1 [] []))
    as (st1 & H1 & _ & _ & _ & _ & _ & _ & st2 & H2 & _).
  - cbn [brk]. lia.
  - unfold WORD, NINODE. lia.
  - exists st1, st2. split; assumption.
Defined.

(** ** Locking *)

Ltac bitcase n :=
  let H0 := fresh in let H1 := fresh in
  destruct (decide (n = 0)) as [->|H0];
    [|destruct (decide (n = 1)) as [->|H1]];
    [change (0 =? 0) with true; change (1 =? 0) with false
    |change (0 =? 1) with false; change (1 =? 1) with true
    |rewrite (proj2 (Z.eqb_neq 0 n)), (proj2 (Z.eqb_neq 1 n)) by lia];
    repeat match goal with H : Z.testbit _ _ = _ |- _ => rewrite H end;
    cbn [negb andb orb]; rewrite ?andb_true_r, ?orb_false_r; done.

Lemma release_acquire_flags f (w : bool) rb :
  Z.land f (Z.lor I_BUSYW (if w then I_BUSYR else 0)) = 0 ->
  (rb = 0 <-> Z.land f I_BUSYR = 0) ->
  Z.land (Z.lor f (Z.lor I_BUSYR (if w then I_BUSYW else 0)))
         (Z.lnot (Z.lor I_BUSYW (if rb =? 0 then I_BUSYR else 0))) = f.
Proof.
  intros Hfree Hrb.
  rewrite Z.land_lor_distr_r in Hfree. apply Z.lor_eq_0_iff in Hfree as [Hw Hr].
  apply (land_bit_zero f 1) in Hw; [|lia].
  change I_BUSYR with (2 ^ 0) in *. change I_BUSYW with (2 ^ 1) in *.
  rewrite (land_bit_zero f 0) in Hrb by lia.
  apply Z.bits_inj'. intros n Hn.
  rewrite Z.land_spec, Z.lnot_spec, !Z.lor_spec by done.
  destruct (Z.eqb_spec rb 0) as [E|E].
  - assert (Z.testbit f 0 = false) as H0 by tauto.
    destruct w; rewrite ?Z.pow2_bits_eqb, ?Z.bits_0 by lia; bitcase n.
  - assert (Z.testbit f 0 = true) as H0.
    { destruct (Z.testbit f 0); [done|]. exfalso. apply E. tauto. }
    destruct w.
    + apply (land_bit_zero f 0) in Hr; [|lia]. congruence.
    + rewrite ?Z.pow2_bits_eqb, ?Z.bits_0 by lia. bitcase n.
Qed.

Lemma release_acquire w ip ip' :
  ilock_acquire w ip = Some ip' ->
  (readbusy ip = 0 <-> Z.land (flags ip) I_BUSYR = 0) ->
  (INT_MIN <= readbusy ip <= INT_MAX -> iunlock_release ip' = ip) /\
  Z.land (flags ip') (Z.lor I_BUSYR I_BUSYW) <> 0 /\
  ref ip' = ref ip /\
  flags ip' = Z.lor (flags ip) (Z.lor I_BUSYR (if w then I_BUSYW else 0)) /\
  readbusy ip' = int_inc (readbusy ip).
Proof.
  unfold ilock_acquire.
  destruct (Z.eqb_spec (Z.land (flags ip)
                          (Z.lor I_BUSYW (if w then I_BUSYR else 0))) 0)
    as [Hfree|]; [|done].
  intros [= <-] Hrb.
  pose proof (release_acquire_flags (flags ip) w (readbusy ip) Hfree Hrb) as Hfl.
  destruct ip as [a1 a2 a3 a4 a5 a6 a7 a8 a9 a10 a11 a12].
  cbv [iunlock_release set_flags set_readbusy flags readbusy ref
       dev inum gen type major minor nlink size addrs] in *.
  split; [intros Hr; rewrite (int_dec_inc a5 Hr); f_equal; exact Hfl|].
  split; [|done].
  intros E. apply land_busy_zero in E as [E0 _].
  rewrite !Z.lor_spec in E0. change (Z.testbit I_BUSYR 0) with true in E0.
  rewrite orb_true_r in E0. cbn in E0.
  destruct (Z.testbit a4 0); discriminate.
Qed.

Lemma ilock_run a w d h b ns dl ip :
  a <> 0 -> h !! a = Some ip ->
  ilock a w (mkState d h b ns dl) =
  if ref ip <? 1 then Panic "ilock"
  else match ilock_acquire w ip with
       | None => Sleep
       | Some ip' =>
           if Z.land (flags ip') I_VALID =? 0 then Panic "ilock"
           else Ok tt (mkState d (<[a := ip']> h) b ns dl)
       end.
Proof.
  intros Ha Hh. unfold ilock. apply Z.eqb_neq in Ha. rewrite Ha.
  erewrite bind_Ok by (apply deref_Ok; exact Hh).
  destruct (ref ip <? 1); [reflexivity|].
  destruct (ilock_acquire w ip) as [ip'|]; [|reflexivity].
  erewrite bind_Ok by apply store_Ok.
  destruct (Z.land (flags ip') I_VALID =? 0); reflexivity.
Qed.

Lemma valid_acquired f (w : bool) :
  Z.land (Z.lor f (Z.lor I_BUSYR (if w then I_BUSYW else 0))) I_VALID
  = Z.land f I_VALID.
Proof.
  rewrite Z.land_lor_distr_l.
  assert (Z.land (Z.lor I_BUSYR (if w then I_BUSYW else 0)) I_VALID = 0) as ->
    by (destruct w; reflexivity).
  apply Z.lor_0_r.
Qed.

(** X8.  [ilock] on a non-null inode whose [readbusy] count agrees
    with its [I_BUSYR] flag: it panics when [ref < 1]; it sleeps while a
    writer holds the inode, and for a writer also while readers do;
    otherwise it sets [I_BUSYR] (and [I_BUSYW] for a writer), counts the
    holder in [readbusy], by one below [INT_MAX] and from [INT_MAX] around
    to [INT_MIN], and panics when the inode is not valid.  On a valid
    inode, [readbusy] being an [int], [iunlock] after [ilock] puts the
    whole state back, and [iunlock] of an inode that nobody holds
    panics. *)
Theorem ilock_iunlock (a : Z) (ip : inode) (st : state) (writer : bool) :
  heap st !! a = Some ip ->
  a <> 0 ->
  (readbusy ip = 0 <-> Z.land (flags ip) I_BUSYR = 0) ->
  (ref ip < 1 -> ilock a writer st = Panic "ilock") /\
  (1 <= ref ip ->
   Z.land (flags ip) (Z.lor I_BUSYW (if writer then I_BUSYR else 0)) <> 0 ->
   ilock a writer st = Sleep) /\
  (1 <= ref ip ->
   Z.land (flags ip) (Z.lor I_BUSYW (if writer then I_BUSYR else 0)) = 0 ->
   (~ valid ip -> ilock a writer st = Panic "ilock") /\
   (valid ip ->
    exists ip',
      ilock a writer st = Ok tt (set_heap (<[a := ip']> (heap st)) st) /\
      flags ip' = Z.lor (flags ip)
                    (Z.lor I_BUSYR (if writer then I_BUSYW else 0)) /\
      (readbusy ip < INT_MAX -> readbusy ip' = readbusy ip + 1) /\
      (readbusy ip = INT_MAX -> readbusy ip' = INT_MIN) /\
      ip' = set_readbusy (readbusy ip') (set_flags (flags ip') ip) /\
      (INT_MIN <= readbusy ip <= INT_MAX ->
       (ilock a writer;; iunlock a) st = Ok tt st))) /\
  (Z.land (flags ip) (Z.lor I_BUSYR I_BUSYW) = 0 ->
   iunlock a st = Panic "iunlock").
Proof.
  intros Hh Ha Hrb. destruct st as [d h b ns dl]. cbn [heap] in *.
  rewrite (ilock_run a writer d h b ns dl ip Ha Hh).
  split; [|split; [|split]].
  - intros Hr. apply Z.ltb_lt in Hr. by rewrite Hr.
  - intros Hr Hbusy. apply Z.ltb_ge in Hr. rewrite Hr.
    unfold ilock_acquire. apply Z.eqb_neq in Hbusy. by rewrite Hbusy.
  - intros Hr Hfree. pose proof Hr as Hr'. apply Z.ltb_ge in Hr'. rewrite Hr'.
    destruct (ilock_acquire writer ip) as [ip'|] eqn:Eacq.
    2:{ unfold ilock_acquire in Eacq. apply Z.eqb_eq in Hfree.
        rewrite Hfree in Eacq. done. }
    destruct (release_acquire _ _ _ Eacq Hrb) as (Hback & Hheld & Href & Hfl & Hcnt).
    assert (Z.land (flags ip') I_VALID = Z.land (flags ip) I_VALID) as Hv
      by (rewrite Hfl; apply valid_acquired).
    rewrite Hv. unfold valid. split.
    + intros Hnv. destruct (Z.eqb_spec (Z.land (flags ip) I_VALID) 0); [done|tauto].
    + intros Hval. apply Z.eqb_neq in Hval. rewrite Hval.
      exists ip'. split; [reflexivity|]. split; [done|].
      split; [intros Hlt; rewrite Hcnt; apply int_inc_small; lia|].
      split; [intros E; by rewrite Hcnt, E|].
      split.
      { unfold ilock_acquire in Eacq. apply Z.eqb_eq in Hfree.
        rewrite Hfree in Eacq. injection Eacq as <-.
        destruct ip as [a1 a2 a3 a4 a5 a6 a7 a8 a9 a10 a11 a12]. reflexivity. }
      intros Hint. erewrite bind_Ok.
      2:{ rewrite (ilock_run a writer d h b ns dl ip Ha Hh), Hr', Eacq, Hv, Hval.
          reflexivity. }
      rewrite (iunlock_spec a d _ b ns dl ip' Ha (lookup_insert_eq _ _ _) Hheld)
        by lia.
      rewrite insert_insert_eq, (Hback Hint), insert_id by done. reflexivity.
  - intros Hfree. unfold iunlock. apply Z.eqb_neq in Ha. rewrite Ha.
    erewrite bind_Ok by (apply deref_Ok; exact Hh).
    apply Z.eqb_eq in Hfree. rewrite Hfree. reflexivity.
Qed.

Lemma ilock_iunlock_witness :
  (ilock 9 true;; iunlock 9) (wit_state 1 1) = Ok tt (wit_state 1 1).
Proof.
  assert (readbusy (wit_inode 1 1) = 0 <->
          Z.land (flags (wit_inode 1 1)) I_BUSYR = 0) as Hrb
    by (split; intros _; reflexivity).
  assert (1 <= ref (wit_inode 1 1)) as H1 by (cbn; lia).
  assert (Z.land (flags (wit_inode 1 1))
                 (Z.lor I_BUSYW (if true then I_BUSYR else 0)) = 0) as H2
    by reflexivity.
  assert (valid (wit_inode 1 1)) as H3 by (intros H; discriminate H).
  destruct (proj2 (proj1 (proj2 (proj2
              (ilock_iunlock 9 (wit_inode 1 1) (wit_state 1 1) true eq_refl
                 ltac:(lia) Hrb))) H1 H2) H3)
    as (ip' & _ & _ & _ & _ & _ & H).
  apply H. cbn. unfold INT_MIN, INT_MAX. lia.
Defined.

(** X9.  [idup] returns its argument having only incremented [ref]:
    by one below [INT_MAX], and from [INT_MAX] around to [INT_MIN].  On an
    inode that is referenced or linked, [ref] being an [int], [iput] of
    what [idup] returned puts the whole state back. *)
Theorem idup_iput (a : Z) (ip : inode) (st : state) :
  heap st !! a = Some ip ->
  (ref ip < INT_MAX ->
   idup a st = Ok a (set_heap (<[a := set_ref (ref ip + 1) ip]> (heap st)) st)) /\
  (ref ip = INT_MAX ->
   idup a st = Ok a (set_heap (<[a := set_ref INT_MIN ip]> (heap st)) st)) /\
  (INT_MIN <= ref ip <= INT_MAX -> 1 <= ref ip \/ nlink ip <> 0 ->
   (c <- idup a; iput c) st = Ok tt st).
Proof.
  intros Hh. destruct st as [d h b ns dl]. cbn [heap] in *.
  assert (idup a (mkState d h b ns dl) =
          Ok a (mkState d (<[a := set_ref (int_inc (ref ip)) ip]> h) b ns dl))
    as Hrun.
  { unfold idup. erewrite bind_Ok by (apply modify_Ok; exact Hh). reflexivity. }
  split; [|split].
  - intros Hlt. rewrite Hrun, int_inc_small by lia. reflexivity.
  - intros E. rewrite Hrun, E. reflexivity.
  - intros Hr Hkeep. erewrite bind_Ok by exact Hrun. by apply bump_iput.
Qed.

Lemma idup_iput_witness :
  (c <- idup 9; iput c) (wit_state 1 1) = Ok tt (wit_state 1 1).
Proof.
  apply (proj2 (proj2 (idup_iput 9 (wit_inode 1 1) (wit_state 1 1) eq_refl))).
  - cbn. unfold INT_MIN, INT_MAX. lia.
  - left. cbn. lia.
Defined.

(** [ialloc] passes over the inodes that are in use on disk. *)
Lemma ialloc_loop_skip k m dv ty ino st :
  (forall i, ino <= i < ino + Z.of_nat k -> d_type (rd_dinode (sdisk st) i) <> 0) ->
  ialloc_loop (k + m) dv ty ino st = ialloc_loop m dv ty (ino + Z.of_nat k) st.
Proof.
  revert ino. induction k as [|k IH]; intros ino Hused.
  - cbn [Nat.add]. f_equal. lia.
  - cbn [Nat.add ialloc_loop]. unfold bind at 1, get_disk at 1.
    assert (d_type (rd_dinode (sdisk st) ino) <> 0) as Hne by (apply Hused; lia).
    apply Z.eqb_neq in Hne. rewrite Hne. rewrite IH.
    + f_equal. lia.
    + intros i Hi. apply Hused. lia.
Qed.

(** X10.  When no inode from 1 up to [sb.ninodes - 1] has type
    0 on disk, [ialloc] panics with [ialloc: no inodes]; it has not touched
    the cache. *)
Theorem ialloc_no_inodes (dv ty : Z) (st : state) :
  (forall i, 1 <= i < sb_ninodes (readsb (sdisk st)) ->
             d_type (rd_dinode (sdisk st) i) <> 0) ->
  ialloc dv ty st = Panic "ialloc: no inodes".
Proof.
  intros Hused. unfold ialloc, bind at 1, get_disk at 1.
  rewrite <- (Nat.add_0_r (Z.to_nat _)).
  rewrite ialloc_loop_skip; [reflexivity|].
  intros i Hi. apply Hused. lia.
Qed.

Lemma ialloc_no_inodes_witness :
  ialloc 1 T_FILE (mkState full_disk ∅ 1 [] []) = Panic "ialloc: no inodes".
Proof.
  apply (ialloc_no_inodes 1 T_FILE (mkState full_disk ∅ 1 [] [])).
  intros i Hi. cbn [sdisk] in *.
  assert (sb_ninodes (readsb full_disk) = 2) as E by (vm_compute; reflexivity).
  rewrite E in Hi. assert (i = 1) as -> by lia.
  vm_compute. intros H. discriminate H.
Defined.

Lemma allocated_fresh dv ino ty di :
  allocated ty (fresh_inode dv ino di) =
  mkInode dv ino 1 (Z.lor I_VALID (Z.lor I_BUSYR I_BUSYW)) 1
          (u32 (d_gen di + 1)) ty (d_major di) (d_minor di)
          (d_nlink di) (d_size di) (d_addrs di).
Proof. reflexivity. Qed.

(** [ialloc] at the first inode that is free on disk, when it is not in
    the cache. *)
Lemma ialloc_miss_run dv ty i0 d h b ns dl v vp :
  1 <= i0 < sb_ninodes (readsb d) ->
  (forall i, 1 <= i < i0 -> d_type (rd_dinode d i) <> 0) ->
  d_type (rd_dinode d i0) = 0 ->
  ns_lookup ns i0 = None ->
  (forall k a, In (k, a) ns -> is_Some (h !! a)) ->
  first_unref h ns = Some v -> h !! v = Some vp -> b <> 0 ->
  ialloc dv ty (mkState d h b ns dl) =
  if negb (d_nlink (rd_dinode d i0) =? 0) || negb (d_size (rd_dinode d i0) =? 0)
     || negb (aget (d_addrs (rd_dinode d i0)) 0 =? 0)
  then Panic "ialloc not zeroed"
  else Ok b (mkState
               (wr_dinode d i0
                  (dinode_of (allocated ty (fresh_inode dv i0 (rd_dinode d i0)))))
               (<[b := allocated ty (fresh_inode dv i0 (rd_dinode d i0))]>
                  (<[v := set_flags (Z.lor (flags vp) I_FREE) vp]> h))
               (b + 1) ((i0, b) :: ns_remove ns (inum vp) v)
               (dl ++ [KmFree v])).
Proof.
  intros Hi0 Hused Hfree Hl Hc Hv Hvp Hb.
  unfold ialloc. erewrite bind_Ok by apply get_disk_Ok.
  replace (Z.to_nat (sb_ninodes (readsb d) - 1))
    with (Z.to_nat (i0 - 1) + S (Z.to_nat (sb_ninodes (readsb d) - 1 - i0)))%nat
    by lia.
  rewrite ialloc_loop_skip by (cbn [sdisk]; intros i Hi; apply Hused; lia).
  replace (1 + Z.of_nat (Z.to_nat (i0 - 1))) with i0 by lia.
  cbn [ialloc_loop].
  erewrite bind_Ok by apply get_disk_Ok.
  rewrite Hfree. change (0 =? 0) with true. cbv beta iota.
  erewrite bind_Ok by (by apply (iget_miss_run dv i0 d h b ns dl v vp)).
  set (di := rd_dinode d i0) in *.
  set (h1 := <[v := set_flags (Z.lor (flags vp) I_FREE) vp]> h).
  set (F := fresh_inode dv i0 di).
  set (L := mkInode dv i0 1 (Z.lor I_VALID (Z.lor I_BUSYR I_BUSYW)) 1
                    (d_gen di) (d_type di) (d_major di) (d_minor di)
                    (d_nlink di) (d_size di) (d_addrs di)).
  assert (ilock_acquire true F = Some L) as Hacq by reflexivity.
  assert ((ref F <? 1) = false) as Href by reflexivity.
  assert ((Z.land (flags L) I_VALID =? 0) = false) as Hval by reflexivity.
  assert (set_gen (u32 (gen L + 1)) (set_type ty L) = allocated ty F) as Hall
    by reflexivity.
  erewrite bind_Ok.
  2:{ rewrite (ilock_run b true d _ (b + 1) _ _ F Hb (lookup_insert_eq _ _ _)).
      rewrite Href, Hacq, Hval. reflexivity. }
  rewrite insert_insert_eq.
  erewrite bind_Ok by (apply deref_Ok; apply lookup_insert_eq).
  rewrite Hall.
  unfold L at 1. cbn [type]. rewrite Hfree.
  change (0 =? 0) with true. cbv beta iota.
  erewrite bind_Ok by apply store_Ok.
  rewrite insert_insert_eq.
  unfold L. cbn [nlink size addrs].
  destruct (negb (d_nlink di =? 0) || negb (d_size di =? 0)
            || negb (aget (d_addrs di) 0 =? 0)); [reflexivity|].
  erewrite bind_Ok by (apply iupdate_spec; apply lookup_insert_eq).
  rewrite ret_Ok. reflexivity.
Qed.

(** X11.  [ialloc] when the first inode that has type 0 on disk is
    not in the cache and the cache has an unreferenced entry to evict: if
    the on-disk inode is not zeroed ([nlink], [size] or [addrs[0]]) it
    panics with [ialloc not zeroed]; otherwise it returns, at the address
    [kmalloc] gave, that inode locked for writing, valid, with one
    reference, the type asked for, [gen] incremented, [nlink] and [size]
    zero and the block map of the on-disk inode, and it has written the
    inode to disk. *)
Theorem ialloc_fresh (dv ty i0 v : Z) (vp : inode) (st : state) :
  1 <= i0 < sb_ninodes (readsb (sdisk st)) ->
  (forall i, 1 <= i < i0 -> d_type (rd_dinode (sdisk st) i) <> 0) ->
  d_type (rd_dinode (sdisk st) i0) = 0 ->
  ns_lookup (ins st) i0 = None ->
  (forall k a, In (k, a) (ins st) -> is_Some (heap st !! a)) ->
  first_unref (heap st) (ins st) = Some v -> heap st !! v = Some vp ->
  brk st <> 0 ->
  (d_nlink (rd_dinode (sdisk st) i0) <> 0 \/ d_size (rd_dinode (sdisk st) i0) <> 0
   \/ aget (d_addrs (rd_dinode (sdisk st) i0)) 0 <> 0 ->
   ialloc dv ty st = Panic "ialloc not zeroed") /\
  (d_nlink (rd_dinode (sdisk st) i0) = 0 -> d_size (rd_dinode (sdisk st) i0) = 0 ->
   aget (d_addrs (rd_dinode (sdisk st) i0)) 0 = 0 ->
   ialloc dv ty st =
   Ok (brk st)
      (mkState
         (wr_dinode (sdisk st) i0
            (dinode_of (allocated ty (fresh_inode dv i0 (rd_dinode (sdisk st) i0)))))
         (<[brk st := allocated ty (fresh_inode dv i0 (rd_dinode (sdisk st) i0))]>
            (<[v := set_flags (Z.lor (flags vp) I_FREE) vp]> (heap st)))
         (brk st + 1) ((i0, brk st) :: ns_remove (ins st) (inum vp) v)
         (delayed st ++ [KmFree v])) /\
   allocated ty (fresh_inode dv i0 (rd_dinode (sdisk st) i0)) =
   mkInode dv i0 1 (Z.lor I_VALID (Z.lor I_BUSYR I_BUSYW)) 1
           (u32 (d_gen (rd_dinode (sdisk st) i0) + 1)) ty
           (d_major (rd_dinode (sdisk st) i0)) (d_minor (rd_dinode (sdisk st) i0))
           0 0 (d_addrs (rd_dinode (sdisk st) i0))).
Proof.
  intros Hi0 Hused Hfree Hl Hc Hv Hvp Hb. destruct st as [d h b ns dl].
  cbn [sdisk heap brk ins delayed] in *.
  rewrite (ialloc_miss_run dv ty i0 d h b ns dl v vp) by done.
  split.
  - intros Hnz.
    assert (negb (d_nlink (rd_dinode d i0) =? 0) || negb (d_size (rd_dinode d i0) =? 0)
            || negb (aget (d_addrs (rd_dinode d i0)) 0 =? 0) = true) as ->; [|done].
    rewrite !orb_true_iff, !negb_true_iff, !Z.eqb_neq. tauto.
  - intros H1 H2 H3. rewrite allocated_fresh, H1, H2, H3.
    change (0 =? 0) with true. cbn [negb orb]. done.
Qed.

Lemma st_init_facts :
  (forall i, 1 <= i < 2 -> d_type (rd_dinode (sdisk st_init) i) <> 0) /\
  (forall k a, In (k, a) (ins st_init) -> is_Some (heap st_init !! a)) /\
  d_type (rd_dinode (sdisk st_init) 2) = 0 /\
  first_unref (heap st_init) (ins st_init) = Some 50 /\
  heap st_init !! 50 = Some (blank (u32 (- 49 - 1))).
Proof.
  split; [|split; [|split; [|split]]]; try (vm_compute; reflexivity).
  - intros i Hi. assert (i = 1) as -> by lia. vm_compute. intros H. discriminate H.
  - assert (cache_ok st_init) as Hc
      by (apply cache_okb_sound; vm_compute; reflexivity).
    intros k a Hin. destruct (Hc k a Hin) as (ip & Hip & _). by exists ip.
Qed.

Lemma ialloc_fresh_witness :
  ialloc ROOTDEV T_FILE st_init =
  Ok (brk st_init)
     (mkState
        (wr_dinode (sdisk st_init) 2
           (dinode_of (allocated T_FILE
                         (fresh_inode ROOTDEV 2 (rd_dinode (sdisk st_init) 2)))))
        (<[brk st_init := allocated T_FILE
                            (fresh_inode ROOTDEV 2 (rd_dinode (sdisk st_init) 2))]>
           (<[50 := set_flags (Z.lor (flags (blank (u32 (- 49 - 1)))) I_FREE)
                              (blank (u32 (- 49 - 1)))]> (heap st_init)))
        (brk st_init + 1)
        ((2, brk st_init)
           :: ns_remove (ins st_init) (inum (blank (u32 (- 49 - 1)))) 50)
        (delayed st_init ++ [KmFree 50])).
Proof.
  destruct st_init_facts as (H1 & H2 & H3 & H4 & H5).
  apply (proj2 (ialloc_fresh ROOTDEV T_FILE 2 50 (blank (u32 (- 49 - 1))) st_init
                  ltac:(vm_compute; split; [intros H; discriminate H|reflexivity])
                  H1 H3 ltac:(vm_compute; reflexivity) H2 H4 H5
                  ltac:(vm_compute; intros H; discriminate H))).
  - vm_compute. reflexivity.
  - vm_compute. reflexivity.
  - vm_compute. reflexivity.
Defined.

(** Inversion of [ilock] and [iupdate]. *)
Lemma ilock_inv a w st u st' :
  ilock a w st = Ok u st' ->
  exists ip ip',
    heap st !! a = Some ip /\ 1 <= ref ip /\ ilock_acquire w ip = Some ip' /\
    Z.land (flags ip') I_VALID <> 0 /\
    st' = set_heap (<[a := ip']> (heap st)) st.
Proof.
  unfold ilock. destruct (a =? 0); [done|]. intros H.
  apply bind_inv in H as (ip & s1 & H1 & H). apply deref_inv in H1 as [-> Hh].
  destruct (Z.ltb_spec (ref ip) 1); [done|].
  destruct (ilock_acquire w ip) as [ip'|] eqn:E; [|done].
  apply bind_inv in H as (? & s2 & H2 & H). apply store_inv in H2 as ->.
  destruct (Z.eqb_spec (Z.land (flags ip') I_VALID) 0); [done|].
  injection H as <-. by exists ip, ip'.
Qed.

Lemma iupdate_inv a st u st' :
  iupdate a st = Ok u st' ->
  exists ip, heap st !! a = Some ip /\
             st' = set_disk (wr_dinode (sdisk st) (inum ip) (dinode_of ip)) st.
Proof.
  unfold iupdate. intros H.
  apply bind_inv in H as (ip & s1 & H1 & H). apply deref_inv in H1 as [-> Hh].
  apply bind_inv in H as (d & s2 & [= <- <-] & H).
  injection H as <-. by exists ip.
Qed.

Lemma acquire_fields w ip ip' :
  ilock_acquire w ip = Some ip' ->
  flags ip' = Z.lor (flags ip) (Z.lor I_BUSYR (if w then I_BUSYW else 0)) /\
  type ip' = type ip /\ nlink ip' = nlink ip /\ size ip' = size ip /\
  addrs ip' = addrs ip /\ inum ip' = inum ip /\ gen ip' = gen ip /\
  ref ip' = ref ip /\ dev ip' = dev ip.
Proof.
  unfold ilock_acquire. destruct (_ =? 0); [|done]. intros [= <-].
  destruct ip as [a1 a2 a3 a4 a5 a6 a7 a8 a9 a10 a11 a12]. done.
Qed.

Lemma alloc_fields g ty ip :
  flags (set_gen g (set_type ty ip)) = flags ip /\
  type (set_gen g (set_type ty ip)) = ty /\
  nlink (set_gen g (set_type ty ip)) = nlink ip /\
  size (set_gen g (set_type ty ip)) = size ip /\
  addrs (set_gen g (set_type ty ip)) = addrs ip /\
  inum (set_gen g (set_type ty ip)) = inum ip /\
  gen (set_gen g (set_type ty ip)) = g /\
  ref (set_gen g (set_type ty ip)) = ref ip /\
  dev (set_gen g (set_type ty ip)) = dev ip.
Proof. destruct ip as [a1 a2 a3 a4 a5 a6 a7 a8 a9 a10 a11 a12]. done. Qed.

Lemma ialloc_loop_post k dv ty ino st a st' :
  ialloc_loop k dv ty ino st = Ok a st' ->
  exists ip d0,
    heap st' !! a = Some ip /\
    type ip = ty /\ nlink ip = 0 /\ size ip = 0 /\ aget (addrs ip) 0 = 0 /\
    1 <= ref ip /\
    busyr ip /\ busyw ip /\ valid ip /\
    sdisk st' = wr_dinode d0 (inum ip) (dinode_of ip).
Proof.
  revert ino st. induction k as [|k IH]; intros ino st; cbn [ialloc_loop]; [done|].
  intros H. apply bind_inv in H as (d & s0 & [= <- <-] & H).
  destruct (Z.eqb_spec (d_type (rd_dinode (sdisk st) ino)) 0) as [Hfree|];
    [|by apply (IH (ino + 1) st)].
  apply bind_inv in H as (a0 & s1 & Hget & H).
  apply bind_inv in H as (u & s2 & Hlock & H).
  apply ilock_inv in Hlock as (ip0 & ip' & Hh0 & Hr & Hacq & Hval & ->).
  apply bind_inv in H as (ip & s3 & Hd & H).
  apply deref_inv in Hd as [-> Hd]. cbn [heap set_heap] in Hd.
  rewrite lookup_insert_eq in Hd. injection Hd as <-.
  destruct (acquire_fields _ _ _ Hacq)
    as (Hfl & Hty & Hnl & Hsz & Had & Hin & Hgen & Href & Hdev).
  destruct (Z.eqb_spec (type ip') 0) as [Ht0|].
  2:{ apply bind_inv in H as (? & s4 & _ & H). by apply (IH _ _ H). }
  apply bind_inv in H as (? & s4 & Hst & H). apply store_inv in Hst as ->.
  destruct (Z.eqb_spec (nlink ip') 0) as [Hn0|]; [|done].
  destruct (Z.eqb_spec (size ip') 0) as [Hs0|]; [|done].
  destruct (Z.eqb_spec (aget (addrs ip') 0) 0) as [Ha0|]; [|done].
  cbn [negb orb] in H.
  apply bind_inv in H as (? & s5 & Hup & H). injection H as <- <-.
  apply iupdate_inv in Hup as (X & HX & ->).
  cbn [heap set_heap sdisk set_disk] in *. rewrite lookup_insert_eq in HX.
  injection HX as <-.
  destruct (alloc_fields (u32 (gen ip' + 1)) ty ip')
    as (Xfl & Xty & Xnl & Xsz & Xad & Xin & Xgen & Xref & Xdev).
  eexists _, (sdisk s1). rewrite lookup_insert_eq.
  split; [reflexivity|]. rewrite Xty, Xnl, Xsz, Xad, Xref, Xin.
  split; [done|]. split; [done|]. split; [done|]. split; [done|].
  split; [lia|].
  unfold busyr, busyw, valid. rewrite Xfl.
  split; [|split; [|split]].
  - rewrite Hfl. apply (land_bit _ 0); [lia|]. bits. done.
  - rewrite Hfl. apply (land_bit _ 1); [lia|]. bits. done.
  - done.
  - done.
Qed.

(** X12.  Whenever [ialloc] returns, the inode it returns is
    referenced, valid and locked for writing, has the type asked for,
    [nlink], [size] and [addrs[0]] zero, and the last thing written to disk
    is that inode, by [iupdate]. *)
Theorem ialloc_post (dv ty a : Z) (st st' : state) :
  ialloc dv ty st = Ok a st' ->
  exists ip d0,
    heap st' !! a = Some ip /\
    type ip = ty /\ nlink ip = 0 /\ size ip = 0 /\ aget (addrs ip) 0 = 0 /\
    1 <= ref ip /\
    busyr ip /\ busyw ip /\ valid ip /\
    sdisk st' = wr_dinode d0 (inum ip) (dinode_of ip).
Proof.
  unfold ialloc. intros H. apply bind_inv in H as (d & s0 & [= <- <-] & H).
  by apply ialloc_loop_post in H.
Qed.

Lemma ialloc_post_witness :
  exists ip d0,
    heap (final (ialloc ROOTDEV T_FILE) st_init) !! brk st_init = Some ip /\
    type ip = T_FILE /\ nlink ip = 0 /\ size ip = 0 /\ aget (addrs ip) 0 = 0 /\
    1 <= ref ip /\
    busyr ip /\ busyw ip /\ valid ip /\
    sdisk (final (ialloc ROOTDEV T_FILE) st_init)
    = wr_dinode d0 (inum ip) (dinode_of ip).
Proof.
  apply (ialloc_post ROOTDEV T_FILE (brk st_init) st_init
           (final (ialloc ROOTDEV T_FILE) st_init)).
  vm_compute. reflexivity.
Defined.

(** X15.  [bmap] panics with [bmap: out of range] for a block number
    from [MAXFILE] on.  For a block the file has it returns the address and
    changes nothing.  For a block the file lacks, in a sound file system,
    it allocates: the address it returns is the one the block map holds
    afterwards, the blocks the file had keep their addresses and their
    content, the new block reads as zeros, and at most two blocks were
    taken (one for the indirect block); it fails only by the panic of
    [balloc], when at most one block is free. *)
Theorem bmap_cases (a bn : Z) (ip : inode) (st : state) :
  heap st !! a = Some ip ->
  (MAXFILE <= bn -> bmap a bn st = Panic "bmap: out of range") /\
  (0 <= bn < MAXFILE -> baddr (sdisk st) ip bn <> 0 ->
   bmap a bn st = Ok (baddr (sdisk st) ip bn) st) /\
  (0 <= bn < MAXFILE -> fs_ok (sdisk st) -> file_ok (sdisk st) ip ->
   match bmap a bn st with
   | Ok x st' =>
       exists d' ip',
         st' = mkState d' (<[a := ip']> (heap st)) (brk st) (ins st) (delayed st) /\
         x = baddr d' ip' bn /\ x <> 0 /\ fs_ok d' /\ file_ok d' ip' /\
         (forall bn', 0 <= bn' < MAXFILE -> baddr (sdisk st) ip bn' <> 0 ->
            baddr d' ip' bn' = baddr (sdisk st) ip bn') /\
         (forall i, 0 <= i < MAXFILE * BSIZE ->
            baddr (sdisk st) ip (i / BSIZE) <> 0 ->
            fbyte d' ip' i = fbyte (sdisk st) ip i) /\
         (forall i, 0 <= i < MAXFILE * BSIZE ->
            baddr (sdisk st) ip (i / BSIZE) = 0 ->
            baddr d' ip' (i / BSIZE) <> 0 -> fbyte d' ip' i = 0) /\
         (nfree d' <= nfree (sdisk st) <= nfree d' + 2)%nat
   | Panic msg =>
       msg = "balloc: out of blocks"%string /\ (nfree (sdisk st) <= 1)%nat
   | _ => False
   end).
Proof.
  intros Hh. destruct st as [d h b ns dl]. cbn [heap sdisk brk ins delayed] in *.
  split; [|split].
  - intros Hbn. unfold bmap. erewrite bind_Ok by (apply deref_Ok; exact Hh).
    assert ((bn <? NDIRECT) = false) as -> by (apply Z.ltb_ge; consts; lia).
    assert ((bn - NDIRECT <? NINDIRECT) = false) as ->
      by (apply Z.ltb_ge; consts; lia).
    reflexivity.
  - intros Hbn Hne. by apply bmap_mapped.
  - intros Hbn Hfs Hfo.
    pose proof (bmap_spec a bn d h b ns dl ip 0 Hh Hfs Hfo Hbn
                  ltac:(consts; lia)) as Hsp.
    destruct (bmap a bn _) as [x st'|msg| | |]; try done.
    + destruct Hsp as (d' & ip' & -> & Hw & Hx & Hx0 & Hnf & Hsl & _).
      destruct Hw as [Hfs' Hfo' _ _ Hkeep Hold Hnew _ Hfree _].
      exists d', ip'. split; [done|]. split; [done|]. split; [done|].
      split; [done|]. split; [done|]. split; [exact Hkeep|].
      split; [intros i Hi; apply Hold; [done|cbn [length]; lia]|].
      split; [intros i Hi; apply Hnew; [done|cbn [length]; lia]|].
      pose proof (slack_le ip). pose proof (slack_le ip'). lia.
    + destruct Hsp as [-> Hnf]. split; [done|]. pose proof (slack_le ip). lia.
Qed.

Lemma bmap_cases_witness :
  bmap 9 1 (wit_state 1 1) = Ok (baddr (sdisk (wit_state 1 1)) (wit_inode 1 1) 1)
                                (wit_state 1 1).
Proof.
  apply (proj1 (proj2 (bmap_cases 9 1 (wit_inode 1 1) (wit_state 1 1) eq_refl))).
  - consts. lia.
  - vm_compute. intros H. discriminate H.
Defined.

(** What [itrunc] queues, and that it queues no block twice. *)
Lemma direct_frees_inv dv l i k w :
  w ∈ direct_frees dv l i k ->
  exists j, i <= j < i + Z.of_nat k /\ aget l j <> 0 /\ w = BFree dv (aget l j).
Proof.
  revert i. induction k as [|k IH]; intros i; cbn [direct_frees].
  - intros H. by apply elem_of_nil in H.
  - intros H. apply elem_of_app in H as [H|H].
    + destruct (Z.eqb_spec (aget l i) 0) as [|Hne]; [by apply elem_of_nil in H|].
      apply list_elem_of_singleton in H as ->. exists i. split; [lia|done].
    + destruct (IH _ H) as (j & Hj & Hne & ->). exists j. split; [lia|done].
Qed.

Lemma indirect_frees_inv dv d blk j0 k w :
  w ∈ indirect_frees dv d blk j0 k ->
  exists j, j0 <= j < j0 + Z.of_nat k /\ rd32 d blk (4 * j) <> 0 /\
            w = BFree dv (rd32 d blk (4 * j)).
Proof.
  revert j0. induction k as [|k IH]; intros j0; cbn [indirect_frees].
  - intros H. by apply elem_of_nil in H.
  - intros H. apply elem_of_app in H as [H|H].
    + destruct (Z.eqb_spec (rd32 d blk (4 * j0)) 0) as [|Hne];
        [by apply elem_of_nil in H|].
      apply list_elem_of_singleton in H as ->. exists j0. split; [lia|done].
    + destruct (IH _ H) as (j & Hj & Hne & ->). exists j. split; [lia|done].
Qed.

Lemma direct_frees_nodup dv l i k :
  (forall j j', i <= j < i + Z.of_nat k -> i <= j' < i + Z.of_nat k ->
                aget l j <> 0 -> aget l j = aget l j' -> j = j') ->
  NoDup (map work_block (direct_frees dv l i k)).
Proof.
  revert i. induction k as [|k IH]; intros i Hinj; cbn [direct_frees map].
  - constructor.
  - rewrite map_app. apply NoDup_app. split; [|split].
    + destruct (aget l i =? 0); cbn [map]; [constructor|].
      apply NoDup_singleton.
    + intros x Hx Hx'.
      destruct (Z.eqb_spec (aget l i) 0) as [|Hne]; [by apply elem_of_nil in Hx|].
      apply list_elem_of_singleton in Hx as ->. cbn [work_block] in Hx'.
      apply list_elem_of_fmap in Hx' as (w & Hw & Hin).
      apply direct_frees_inv in Hin as (j & Hj & _ & ->). cbn [work_block] in Hw.
      assert (i = j); [|lia]. apply Hinj; [lia|lia|done|done].
    + apply IH. intros j j' Hj Hj'. apply Hinj; lia.
Qed.

Lemma indirect_frees_nodup dv d blk j0 k :
  (forall j j', j0 <= j < j0 + Z.of_nat k -> j0 <= j' < j0 + Z.of_nat k ->
                rd32 d blk (4 * j) <> 0 ->
                rd32 d blk (4 * j) = rd32 d blk (4 * j') -> j = j') ->
  NoDup (map work_block (indirect_frees dv d blk j0 k)).
Proof.
  revert j0. induction k as [|k IH]; intros j0 Hinj; cbn [indirect_frees map].
  - constructor.
  - rewrite map_app. apply NoDup_app. split; [|split].
    + destruct (rd32 d blk (4 * j0) =? 0); cbn [map]; [constructor|].
      apply NoDup_singleton.
    + intros x Hx Hx'.
      destruct (Z.eqb_spec (rd32 d blk (4 * j0)) 0) as [|Hne];
        [by apply elem_of_nil in Hx|].
      apply list_elem_of_singleton in Hx as ->. cbn [work_block] in Hx'.
      apply list_elem_of_fmap in Hx' as (w & Hw & Hin).
      apply indirect_frees_inv in Hin as (j & Hj & _ & ->). cbn [work_block] in Hw.
      assert (j0 = j); [|lia]. apply Hinj; [lia|lia|done|done].
    + apply IH. intros j j' Hj Hj'. apply Hinj; lia.
Qed.

Lemma itrunc_frees_inv d ip w :
  w ∈ itrunc_frees d ip ->
  w = BFree (dev ip) (work_block w) /\ work_block w <> 0 /\
  ((exists bn, 0 <= bn < MAXFILE /\ work_block w = baddr d ip bn) \/
   work_block w = indirect ip).
Proof.
  unfold itrunc_frees. intros H. apply elem_of_app in H as [H|H].
  - apply direct_frees_inv in H as (j & Hj & Hne & ->). cbn [work_block].
    split; [done|]. split; [done|]. left. exists j.
    split; [revert Hj; consts; lia|]. rewrite baddr_direct; [done|].
    revert Hj. consts. lia.
  - fold (indirect ip) in H.
    destruct (Z.eqb_spec (indirect ip) 0) as [|Hi]; [by apply elem_of_nil in H|].
    apply elem_of_app in H as [H|H].
    + apply indirect_frees_inv in H as (j & Hj & Hne & ->). cbn [work_block].
      split; [done|]. split; [done|]. left. exists (NDIRECT + j).
      split; [revert Hj; consts; lia|]. rewrite baddr_indirect by lia.
      apply Z.eqb_neq in Hi. rewrite Hi. do 2 f_equal. lia.
    + apply list_elem_of_singleton in H as ->. cbn [work_block]. by split; [|split; [|right]].
Qed.

Lemma itrunc_frees_nodup d ip :
  file_ok d ip -> NoDup (map work_block (itrunc_frees d ip)).
Proof.
  intros Hfo. unfold itrunc_frees. rewrite map_app. apply NoDup_app.
  split; [|split].
  - apply direct_frees_nodup. intros j j' Hj Hj' Hne E.
    apply (fo_inj d ip Hfo); [revert Hj; consts; lia|revert Hj'; consts; lia| |].
    + rewrite baddr_direct; [done|revert Hj; consts; lia].
    + rewrite !baddr_direct; [done|revert Hj'; consts; lia|revert Hj; consts; lia].
  - intros x Hx Hx'.
    apply list_elem_of_fmap in Hx as (w & -> & Hw).
    apply direct_frees_inv in Hw as (j & Hj & Hne & ->). cbn [work_block] in *.
    fold (indirect ip) in Hx'.
    destruct (Z.eqb_spec (indirect ip) 0) as [|Hi]; [by apply elem_of_nil in Hx'|].
    assert (0 <= j < NDIRECT) as Hj' by (revert Hj; consts; lia).
    pose proof (baddr_direct d ip j ltac:(lia)) as Hb.
    rewrite map_app in Hx'. apply elem_of_app in Hx' as [Hx'|Hx'].
    + apply list_elem_of_fmap in Hx' as (w & Hw & Hin).
      apply indirect_frees_inv in Hin as (j2 & Hj2 & Hne2 & ->).
      cbn [work_block] in Hw.
      assert (j = NDIRECT + j2); [|lia].
      apply (fo_inj d ip Hfo); [revert Hj'; consts; lia|revert Hj2; consts; lia| |].
      * by rewrite Hb.
      * rewrite Hb, baddr_indirect by lia. apply Z.eqb_neq in Hi. rewrite Hi.
        rewrite Hw. do 2 f_equal. lia.
    + cbn [map work_block] in Hx'. apply list_elem_of_singleton in Hx'.
      destruct (fo_data d ip Hfo j ltac:(revert Hj'; consts; lia)) as [_ Hni];
        [by rewrite Hb|].
      rewrite Hb in Hni. done.
  - fold (indirect ip).
    destruct (Z.eqb_spec (indirect ip) 0) as [|Hi]; [constructor|].
    rewrite map_app. apply NoDup_app. split; [|split].
    + apply indirect_frees_nodup. intros j j' Hj Hj' Hne E.
      assert (NDIRECT + j = NDIRECT + j'); [|lia].
      apply Z.eqb_neq in Hi.
      apply (fo_inj d ip Hfo); [revert Hj; consts; lia|revert Hj'; consts; lia| |].
      * rewrite baddr_indirect by lia. rewrite Hi.
        replace (NDIRECT + j - NDIRECT) with j by lia. done.
      * rewrite !baddr_indirect by lia. rewrite Hi.
        replace (NDIRECT + j - NDIRECT) with j by lia.
        replace (NDIRECT + j' - NDIRECT) with j' by lia. done.
    + intros x Hx Hx'. cbn [map work_block] in Hx'.
      apply list_elem_of_singleton in Hx' as ->.
      apply list_elem_of_fmap in Hx as (w & Hw & Hin).
      apply indirect_frees_inv in Hin as (j & Hj & Hne & ->).
      cbn [work_block] in Hw.
      pose proof Hi as Hi'. apply Z.eqb_neq in Hi'.
      destruct (fo_data d ip Hfo (NDIRECT + j) ltac:(revert Hj; consts; lia))
        as [_ Hni].
      * rewrite baddr_indirect by lia. rewrite Hi'.
        replace (NDIRECT + j - NDIRECT) with j by lia. done.
      * rewrite baddr_indirect in Hni by lia. rewrite Hi' in Hni.
        replace (NDIRECT + j - NDIRECT) with j in Hni by lia. congruence.
    + cbn [map]. apply NoDup_singleton.
Qed.

(** Freeing a used data block, on the bitmap alone. *)
Lemma bfree_bits d b :
  datastart d <= b < nbits d -> inuse d b = true ->
  readsb (clearbit (bzero d b) b) = readsb d /\
  (forall y, 0 <= y < nbits d ->
     inuse (clearbit (bzero d b) b) y = inuse d y && negb (y =? b)) /\
  nfree (clearbit (bzero d b) b) = S (nfree d).
Proof.
  intros Hb Hused. pose proof (datastart_ge d).
  destruct (bzero_data d b ltac:(lia)) as (Hsb0 & Hin0 & Hnf0).
  split; [rewrite readsb_clearbit by lia; done|]. split.
  - intros y Hy. rewrite inuse_clearbit by lia. by rewrite Hin0.
  - rewrite nfree_clearbit.
    + by rewrite Hnf0.
    + rewrite (nbits_ext _ _ Hsb0). lia.
    + rewrite Hin0 by lia. done.
Qed.

(** Running a queue of [bfree] on distinct used data blocks. *)
Lemma run_frees l d h b ns dl :
  NoDup (map work_block l) ->
  (forall w, w ∈ l -> w = BFree (match w with BFree dv _ => dv | _ => 0 end)
                                (work_block w) /\
                      datastart d <= work_block w < nbits d /\
                      inuse d (work_block w) = true) ->
  exists d',
    run_works l (mkState d h b ns dl) = Ok tt (mkState d' h b ns dl) /\
    readsb d' = readsb d /\
    (forall y, 0 <= y < nbits d ->
       inuse d' y = inuse d y && negb (bool_decide (y ∈ map work_block l))) /\
    nfree d' = (nfree d + length l)%nat.
Proof.
  revert d. induction l as [|w l IH]; intros d Hnd Hall.
  - exists d. split; [reflexivity|]. split; [done|]. split; [|cbn; lia].
    intros y Hy. cbn [map]. rewrite bool_decide_eq_false_2 by apply not_elem_of_nil.
    by rewrite andb_true_r.
  - cbn [map] in Hnd. apply NoDup_cons in Hnd as [Hnotin Hnd].
    destruct (Hall w ltac:(left)) as (Hw & Hr & Hu).
    pose proof (datastart_ge d) as Hds.
    destruct (bfree_bits d (work_block w) Hr Hu) as (Hsb1 & Hin1 & Hnf1).
    set (d1 := clearbit (bzero d (work_block w)) (work_block w)) in *.
    destruct (IH d1 Hnd) as (d' & Hrun & Hsb & Hin & Hnf).
    { intros w' Hw'. destruct (Hall w' ltac:(by right)) as (Hw'' & Hr' & Hu').
      split; [done|].
      rewrite (datastart_ext _ _ Hsb1), (nbits_ext _ _ Hsb1). split; [done|].
      rewrite Hin1 by lia. rewrite Hu'.
      destruct (Z.eqb_spec (work_block w') (work_block w)) as [E|]; [|done].
      exfalso. apply Hnotin. rewrite <- E. apply list_elem_of_fmap.
      by exists w'. }
    exists d'. split; [|split; [|split]].
    + cbn [run_works]. rewrite Hw at 1. cbn [run_work].
      erewrite bind_Ok.
      2:{ rewrite bfree_run by done. cbn [sdisk]. rewrite Hu. reflexivity. }
      exact Hrun.
    + by rewrite Hsb.
    + intros y Hy. rewrite Hin by (rewrite (nbits_ext _ _ Hsb1); done).
      rewrite Hin1 by done. cbn [map].
      destruct (Z.eqb_spec y (work_block w)) as [->|Hne].
      * rewrite (bool_decide_eq_true_2 (work_block w ∈ work_block w :: _))
          by (by left).
        by rewrite !andb_false_r.
      * cbn [negb]. rewrite andb_true_r. f_equal. f_equal.
        apply bool_decide_ext. rewrite elem_of_cons. tauto.
    + rewrite Hnf, Hnf1. cbn [length]. lia.
Qed.

Lemma iupdate_inuse d ino di :
  fs_ok d -> 0 <= ino < sb_ninodes (readsb d) ->
  length (d_addrs di) = Z.to_nat (NDIRECT + 1) ->
  forall y, 0 <= y < nbits d -> inuse (wr_dinode d ino di) y = inuse d y.
Proof.
  intros Hfs Hino Hlen. set (d' := wr_dinode d ino di).
  assert (forall b i, b <> IBLOCK ino -> rd d' b i = rd d b i) as Hag.
  { intros b i Hb. unfold d'. apply rd_wr_dinode_out; [done|by left]. }
  assert (2 <= IBLOCK ino < sb_ninodes (readsb d) / IPB + 3) as HB
    by (unfold IBLOCK; zdiv).
  assert (IBLOCK ino < datastart d) as HB' by (unfold datastart; lia).
  destruct (frame_fs d d' (IBLOCK ino)) as (Hsb & Hin & Hnf & Hfs'); try done.
  { lia. } { left. lia. }
  { intros y Hy Hf E. rewrite (fs_meta d Hfs y) in Hf; [done|lia|lia]. }
Qed.

Lemma size_truncated ip : size (truncated ip) = 0.
Proof. destruct ip. reflexivity. Qed.

(** X16.  Truncation followed by reclamation gives the blocks back.  In a
    sound file system with no work pending, [itrunc] of a file and then the
    run of the delayed work leave the inode with size 0 and an empty block
    map, and the bitmap with exactly the blocks of the file and its
    indirect block cleared: every other bit is as before, and as many more
    blocks are free as [itrunc] queued. *)
Theorem itrunc_gc (a : Z) (ip : inode) (st : state) :
  heap st !! a = Some ip ->
  fs_ok (sdisk st) -> file_ok (sdisk st) ip ->
  delayed st = [] ->
  exists d2,
    (itrunc a;; rcu_gc) st =
      Ok tt (mkState d2 (<[a := truncated ip]> (heap st)) (brk st) (ins st) []) /\
    size (truncated ip) = 0 /\
    (forall i, 0 <= i <= NDIRECT -> aget (addrs (truncated ip)) i = 0) /\
    (forall bn, 0 <= bn < MAXFILE -> baddr (sdisk st) ip bn <> 0 ->
       inuse d2 (baddr (sdisk st) ip bn) = false) /\
    (indirect ip <> 0 -> inuse d2 (indirect ip) = false) /\
    (forall y, 0 <= y < nbits (sdisk st) ->
       (forall bn, 0 <= bn < MAXFILE -> baddr (sdisk st) ip bn <> y) ->
       indirect ip <> y -> inuse d2 y = inuse (sdisk st) y) /\
    nfree d2 = (nfree (sdisk st) + length (itrunc_frees (sdisk st) ip))%nat.
Proof.
  intros Hh Hfs Hfo Hdl. destruct st as [d h b ns dl].
  cbn [heap sdisk brk ins delayed] in *. subst dl.
  set (d1 := wr_dinode d (inum ip) (dinode_of (truncated ip))).
  pose proof (fo_inum d ip Hfo) as Hino.
  pose proof (length_dinode_addrs (truncated ip)) as Hlen.
  destruct (iupdate_frame d (inum ip) (dinode_of (truncated ip)) Hfs Hino Hlen)
    as (Hsb1 & Hnf1 & Hfs1 & Hfile).
  destruct (Hfile ip Hfo) as (Hfo1 & Hba1 & _).
  pose proof (iupdate_inuse d (inum ip) (dinode_of (truncated ip)) Hfs Hino Hlen)
    as Hin1.
  fold d1 in Hsb1, Hnf1, Hfs1, Hfo1, Hba1, Hin1.
  destruct (run_frees (itrunc_frees d ip) d1 (<[a := truncated ip]> h) b ns [])
    as (d2 & Hrun & Hsb2 & Hin2 & Hnf2).
  { by apply itrunc_frees_nodup. }
  { intros w Hw. destruct (itrunc_frees_inv d ip w Hw) as (Hwe & Hne & Hwhich).
    split; [rewrite Hwe at 1; by rewrite Hwe|].
    destruct Hwhich as [(bn & Hbn & Hb)|Hi].
    - rewrite Hb in *. rewrite <- (Hba1 bn) in *.
      destruct (fo_data d1 ip Hfo1 bn Hbn Hne) as [[Hr Hu] _]. done.
    - rewrite Hi in *. destruct (fo_ind d1 ip Hfo1 Hne) as [Hr Hu]. done. }
  exists d2. split; [|split; [|split; [|split; [|split; [|split]]]]].
  - erewrite bind_Ok by (apply itrunc_spec; exact Hh).
    unfold rcu_gc. st_simpl. rewrite app_nil_l. exact Hrun.
  - apply size_truncated.
  - intros i Hi. by apply aget_truncated.
  - intros bn Hbn Hne.
    destruct (fo_data d ip Hfo bn Hbn Hne) as [[Hr Hu] _].
    pose proof (datastart_ge d).
    rewrite Hin2 by (rewrite (nbits_ext _ _ Hsb1); lia).
    rewrite bool_decide_eq_true_2; [by rewrite andb_false_r|].
    apply list_elem_of_fmap. exists (BFree (dev ip) (baddr d ip bn)).
    split; [done|]. by apply itrunc_frees_data.
  - intros Hne. destruct (fo_ind d ip Hfo Hne) as [Hr Hu].
    pose proof (datastart_ge d).
    rewrite Hin2 by (rewrite (nbits_ext _ _ Hsb1); lia).
    rewrite bool_decide_eq_true_2; [by rewrite andb_false_r|].
    apply list_elem_of_fmap. exists (BFree (dev ip) (indirect ip)).
    split; [done|]. by apply itrunc_frees_indirect.
  - intros y Hy Hnb Hni.
    rewrite Hin2 by (rewrite (nbits_ext _ _ Hsb1); lia).
    rewrite Hin1 by done.
    rewrite bool_decide_eq_false_2; [by rewrite andb_true_r|].
    intros Hin. apply list_elem_of_fmap in Hin as (w & Hy' & Hw).
    destruct (itrunc_frees_inv d ip w Hw) as (_ & _ & [(bn & Hbn & Hb)|Hi]).
    + apply (Hnb bn Hbn). congruence.
    + congruence.
  - rewrite Hnf2, Hnf1. done.
Qed.

Lemma st_123_facts :
  heap st_123 !! 10 = Some ip_123 /\ fs_ok (sdisk st_123) /\
  file_ok (sdisk st_123) ip_123 /\ delayed st_123 = [] /\
  baddr (sdisk st_123) ip_123 0 = 32.
Proof.
  assert (heap st_123 !! 10 = Some ip_123) as Hh by (vm_compute; reflexivity).
  assert (baddr (sdisk st_123) ip_123 0 = 32) as Hb by (vm_compute; reflexivity).
  assert (delayed st_123 = []) as Hdl by (vm_compute; reflexivity).
  split; [exact Hh|].
  cut (fs_ok (sdisk st_123) /\ file_ok (sdisk st_123) ip_123).
  { intros [H1 H2]. split; [exact H1|]. split; [exact H2|].
    split; [exact Hdl|exact Hb]. }
  clear Hb Hdl.
  assert (writei 10 [1; 2; 3] 0 3 st_new = Ok 3 st_123) as Hrun
    by (vm_compute; reflexivity).
  destruct (writei_ok 10 newfile st_new [1; 2; 3] 0 3
              eq_refl ltac:(intros H; discriminate H)
              ltac:(unfold uint, WORD; lia) ltac:(unfold uint, WORD; lia)
              fs_ok_mkfs file_ok_newfile) as (_ & _ & H3).
  destruct (H3 ltac:(cbn; lia) ltac:(unfold WORD; lia)
               ltac:(vm_compute; intros H; discriminate H) 3 st_123 Hrun)
    as (_ & d' & ip' & Hst & Hw).
  clear H3 Hrun. pose proof (wn_file _ _ _ _ _ _ Hw) as Hfo.
  pose proof (wn_fs _ _ _ _ _ _ Hw) as Hfs. clear Hw.
  clear Hh.
  assert (heap st_123 !! 10 = Some ip') as Hh
    by (rewrite Hst; cbn [heap]; apply lookup_insert_eq).
  assert (ip_123 = ip') as Hip by (unfold ip_123; rewrite Hh; reflexivity).
  assert (sdisk st_123 = d') as Hd by (rewrite Hst; reflexivity).
  rewrite Hd, Hip. split; [exact Hfs|exact Hfo].
Qed.

Lemma itrunc_gc_witness :
  exists d2,
    (itrunc 10;; rcu_gc) st_123 =
      Ok tt (mkState d2 (<[10 := truncated ip_123]> (heap st_123))
                     (brk st_123) (ins st_123) []) /\
    inuse d2 32 = false.
Proof.
  destruct st_123_facts as (Hh & Hfs & Hfo & Hdl & Hb).
  destruct (itrunc_gc 10 ip_123 st_123 Hh Hfs Hfo Hdl)
    as (d2 & Hrun & _ & _ & Hfree & _).
  exists d2. split; [exact Hrun|].
  rewrite <- Hb. apply Hfree; [consts; lia|].
  rewrite Hb. lia.
Defined.

Lemma strncmp_strncpy name n : strncmp name (strncpy name n) n = 0.
Proof.
  revert name. induction n as [|n IH]; intros name; [done|].
  cbn [strncmp strncpy]. destruct (Z.eqb_spec (hd 0 name) 0) as [E|E].
  - cbn [repeat hd]. rewrite E. reflexivity.
  - cbn [hd tl]. rewrite Z.eqb_refl.
    destruct (Z.eqb_spec (hd 0 name) 0) as [|_]; [done|]. cbn [negb andb].
    apply IH.
Qed.

Lemma strncpy_bytes name n : Forall is_byte name -> Forall is_byte (strncpy name n).
Proof.
  revert name. induction n as [|n IH]; intros name Hn; [constructor|].
  cbn [strncpy]. destruct (Z.eqb_spec (hd 0 name) 0) as [E|E].
  - apply Forall_forall. intros x Hx. apply list_elem_of_In, repeat_spec in Hx.
    subst x. unfold is_byte. lia.
  - destruct name as [|c name]; [done|]. cbn [hd tl].
    apply Forall_cons in Hn as [Hc Hn]. constructor; [done|]. by apply IH.
Qed.

(** An entry that lies below [size] and outside the bytes written is as it
    was. *)
Lemma written_entry_keep d ip d' ip' off src k :
  written d ip d' ip' off src -> file_ok d ip ->
  0 <= k -> k * DIRENT + DIRENT <= size ip ->
  k * DIRENT + DIRENT <= off \/ off + Z.of_nat (length src) <= k * DIRENT ->
  de_inum d' ip' k = de_inum d ip k /\ de_name d' ip' k = de_name d ip k.
Proof.
  intros Hw Hfo Hk Hsz Hout.
  pose proof (fo_size _ _ Hfo) as Hs. pose proof (fo_mapped _ _ Hfo) as Hm.
  assert (forall i, k * DIRENT <= i < k * DIRENT + DIRENT ->
            fbyte d' ip' i = fbyte d ip i) as Hb.
  { intros i Hi. apply (wn_old _ _ _ _ _ _ Hw); [consts; lia|consts; lia|].
    apply Hm. consts. lia. }
  split.
  - unfold de_inum. rewrite !Hb by (consts; lia). done.
  - unfold de_name, fbytes. apply map_ext_in. intros j Hj.
    apply in_seq in Hj. apply Hb. revert Hj. consts. lia.
Qed.

(** The entry [dirlink] has written. *)
Lemma written_entry_new d ip d' ip' f name ino :
  written d ip d' ip' (f * DIRENT) (dirent_bytes name ino) -> 0 <= f ->
  Forall is_byte name ->
  de_inum d' ip' f = ino mod 65536 /\
  de_name d' ip' f = strncpy name (Z.to_nat DIRSIZ).
Proof.
  intros Hw Hf Hn. pose proof (length_dirent_bytes name ino) as Hlen.
  assert (forall j, (j < 16)%nat ->
            fbyte d' ip' (f * DIRENT + Z.of_nat j) =
            nth j (dirent_bytes name ino) 0 mod 256) as Hb.
  { intros j Hj. rewrite (wn_src _ _ _ _ _ _ Hw).
    - f_equal. f_equal. lia.
    - rewrite Hlen. consts. lia. }
  split.
  - unfold de_inum. pose proof (Hb 0%nat ltac:(lia)) as H0.
    pose proof (Hb 1%nat ltac:(lia)) as H1.
    rewrite Z.add_0_r in H0. change (Z.of_nat 1) with 1 in H1.
    rewrite H0, H1. cbn [nth dirent_bytes]. Z.div_mod_to_equations. lia.
  - apply nth_ext with (d := 0) (d' := 0).
    + unfold de_name. rewrite length_fbytes, length_strncpy. done.
    + intros j Hj. unfold de_name in *. rewrite length_fbytes in Hj.
      rewrite nth_fbytes by done.
      replace (f * DIRENT + 2 + Z.of_nat j)
        with (f * DIRENT + Z.of_nat (S (S j))) by lia.
      rewrite Hb by (revert Hj; consts; lia). cbn [nth dirent_bytes].
      apply Z.mod_small.
      pose proof (strncpy_bytes name (Z.to_nat DIRSIZ) Hn) as Hr.
      rewrite Forall_forall in Hr. apply Hr. apply list_elem_of_In, nth_In.
      rewrite length_strncpy. done.
Qed.

Lemma fbyte_range d ip i : 0 <= fbyte d ip i < 256.
Proof. apply rd_range. Qed.

Lemma de_inum_zero d ip k :
  de_inum d ip k = 0 <->
  fbyte d ip (k * DIRENT) = 0 /\ fbyte d ip (k * DIRENT + 1) = 0.
Proof.
  unfold de_inum. pose proof (fbyte_range d ip (k * DIRENT)).
  pose proof (fbyte_range d ip (k * DIRENT + 1)). lia.
Qed.

(** After an entry went to entry [f] of a directory, whose next block was
    not there when it ended at a block boundary: the size is a whole number
    of entries still, and what lies beyond it in the last block is free. *)
Lemma written_tail_free d ip d' ip' f src :
  written d ip d' ip' (f * DIRENT) src -> length src = Z.to_nat DIRENT ->
  file_ok d ip -> size ip mod DIRENT = 0 -> tail_free d ip ->
  (size ip mod BSIZE = 0 -> size ip / BSIZE < MAXFILE ->
   baddr d ip (size ip / BSIZE) = 0) ->
  0 <= f <= nents ip -> f * DIRENT + DIRENT <= MAXFILE * BSIZE ->
  size ip' mod DIRENT = 0 /\ nents ip' = Z.max (nents ip) (f + 1) /\
  tail_free d' ip'.
Proof.
  intros Hw Hlen Hfo Hmod Ht Hend Hf Hmax.
  pose proof (fo_size _ _ Hfo) as Hs.
  pose proof (wn_size _ _ _ _ _ _ Hw) as Hs'. rewrite Hlen in Hs'.
  pose proof (fo_mapped _ _ (wn_file _ _ _ _ _ _ Hw)) as Hm'.
  pose proof (fo_mapped _ _ Hfo) as Hm.
  assert (size ip' mod DIRENT = 0) as Hmod'.
  { revert Hs' Hmod Hf. unfold nents. zdiv. }
  assert (nents ip' = Z.max (nents ip) (f + 1)) as Hn'.
  { revert Hs' Hmod Hf. unfold nents. zdiv. }
  split; [exact Hmod'|]. split; [exact Hn'|].
  intros k Hk. unfold turns in Hk. apply de_inum_zero.
  assert (forall i, k * DIRENT <= i <= k * DIRENT + 1 -> fbyte d' ip' i = 0)
    as Hz; [|split; apply Hz; lia].
  intros i Hi.
  assert (0 <= i < MAXFILE * BSIZE /\ i / BSIZE = k / (BSIZE / DIRENT) /\
          0 <= i / BSIZE * BSIZE < size ip' /\
          i / BSIZE * BSIZE / BSIZE = i / BSIZE /\
          ~ (f * DIRENT <= i < f * DIRENT + Z.of_nat (length src)))
    as (Hi0 & Hblk & Hpos & Hdiv & Hout).
  { rewrite Hlen. revert Hk Hi Hs Hs' Hmod Hn' Hf Hmax. unfold nents. ddiv. }
  destruct (decide (baddr d ip (i / BSIZE) = 0)) as [E|E].
  - apply (wn_new _ _ _ _ _ _ Hw); [done|done|done|].
    rewrite <- Hdiv. apply Hm'. lia.
  - rewrite (wn_old _ _ _ _ _ _ Hw) by done.
    assert (k < Z.of_nat (turns (size ip) BSIZE) * (BSIZE / DIRENT)) as Hlt.
    { destruct (decide (k < Z.of_nat (turns (size ip) BSIZE) * (BSIZE / DIRENT)))
        as [|Hge]; [done|]. exfalso. apply E.
      assert (size ip mod BSIZE = 0 /\ size ip / BSIZE < MAXFILE /\
              i / BSIZE = size ip / BSIZE) as (H1 & H2 & H3).
      { revert Hge Hk Hi Hs Hs' Hmod Hn' Hf Hmax. unfold turns, nents. ddiv. }
      rewrite H3. by apply Hend. }
    assert (de_inum d ip k = 0) as H0.
    { apply Ht. split; [|done]. revert Hk Hn'. lia. }
    apply de_inum_zero in H0 as [Ha Hb].
    destruct (decide (i = k * DIRENT)) as [->|]; [done|].
    replace i with (k * DIRENT + 1) by lia. done.
Qed.

Lemma dir_find_first d ip name n k x :
  k <= x < k + Z.of_nat n ->
  (forall j, k <= j < x -> de_match d ip name j = false) ->
  de_match d ip name x = true ->
  dir_find d ip name n k = Some x.
Proof.
  revert k. induction n as [|n IH]; intros k Hx Hbefore Hm; [lia|].
  cbn [dir_find]. destruct (decide (x = k)) as [->|Hne].
  - by rewrite Hm.
  - rewrite Hbefore by lia. apply IH; [lia| |done].
    intros j Hj. apply Hbefore. lia.
Qed.

Lemma dir_find_ext d ip d' ip' name n k :
  (forall j, k <= j < k + Z.of_nat n ->
     de_match d' ip' name j = de_match d ip name j) ->
  dir_find d' ip' name n k = dir_find d ip name n k.
Proof.
  revert k. induction n as [|n IH]; intros k H; [done|].
  cbn [dir_find]. rewrite H by lia. rewrite IH; [done|].
  intros j Hj. apply H. lia.
Qed.

Lemma dev_written s l ip : dev (set_size s (set_addrs l ip)) = dev ip.
Proof. destruct ip. reflexivity. Qed.

(** What a [dirlink] that returned 0 has done. *)
Lemma dirlink_inv dp ip st name ino st' :
  heap st !! dp = Some ip -> type ip = T_DIR ->
  fs_ok (sdisk st) -> file_ok (sdisk st) ip ->
  size ip mod DIRENT = 0 -> tail_free (sdisk st) ip ->
  dirlink dp name ino st = Ok 0 st' ->
  dir_find (sdisk st) ip name (Z.to_nat (nents ip)) 0 = None /\
  dir_slot (sdisk st) ip + DIRENT <= MAXFILE * BSIZE /\
  exists d' ip',
    st' = mkState d' (<[dp := ip']> (heap st)) (brk st) (ins st) (delayed st) /\
    written (sdisk st) ip d' ip' (dir_slot (sdisk st) ip) (dirent_bytes name ino).
Proof.
  intros Hh Hty Hfs Hfo Hmod Ht Hrun.
  pose proof (fo_size _ _ Hfo) as Hs. pose proof (fo_mapped _ _ Hfo) as Hm.
  rewrite (dirlink_run dp ip st name ino Hh Hty Hs Hmod Hm Ht) in Hrun.
  destruct (dir_find (sdisk st) ip name (Z.to_nat (nents ip)) 0) as [k|].
  { apply bind_inv in Hrun as (c & s1 & _ & H).
    apply bind_inv in H as (u & s2 & _ & H). by injection H as H _. }
  split; [done|]. fold (dir_slot (sdisk st) ip) in Hrun.
  apply bind_inv in Hrun as (w & s1 & Hw & Hrest).
  destruct (Z.eqb_spec w DIRENT) as [->|Hne]; [|done].
  injection Hrest as ->.
  destruct (dir_free_spec (sdisk st) ip (Z.to_nat (nents ip)) 0) as (Hr & _).
  assert (0 <= dir_slot (sdisk st) ip <= size ip) as Hoff.
  { unfold dir_slot. revert Hr. unfold nents. zdiv. }
  destruct (writei_ok dp ip st (dirent_bytes name ino) (dir_slot (sdisk st) ip)
              DIRENT Hh) as (_ & _ & Hpost).
  { rewrite Hty. done. }
  { unfold uint. revert Hs. consts. lia. }
  { unfold uint. consts. lia. }
  { exact Hfs. } { exact Hfo. }
  assert (Z.min DIRENT (MAXFILE * BSIZE - dir_slot (sdisk st) ip)
          <= Z.of_nat (length (dirent_bytes name ino))) as Hlen
    by (rewrite length_dirent_bytes; lia).
  assert (dir_slot (sdisk st) ip + DIRENT < WORD) as Hov
    by (revert Hs Hoff; consts; lia).
  destruct (Hpost ltac:(lia) Hov Hlen _ _ Hw) as (Hmin & d' & ip' & -> & Hwr).
  split; [lia|].
  rewrite <- Hmin in Hwr.
  rewrite firstn_all2 in Hwr by (rewrite length_dirent_bytes; lia).
  by exists d', ip'.
Qed.

(** The directory after an entry for [name] went to its first free entry. *)
Lemma linked_dir d ip d' ip' name ino :
  file_ok d ip -> size ip mod DIRENT = 0 -> tail_free d ip ->
  (size ip mod BSIZE = 0 -> size ip / BSIZE < MAXFILE ->
   baddr d ip (size ip / BSIZE) = 0) ->
  Forall is_byte name ->
  dir_slot d ip + DIRENT <= MAXFILE * BSIZE ->
  written d ip d' ip' (dir_slot d ip) (dirent_bytes name ino) ->
  let f := dir_free d ip (Z.to_nat (nents ip)) 0 in
  size ip' mod DIRENT = 0 /\ tail_free d' ip' /\
  0 <= f < nents ip' /\ f <= nents ip /\
  (forall j, 0 <= j < f -> de_inum d ip j <> 0) /\
  (f < nents ip -> de_inum d ip f = 0) /\
  nents ip' = Z.max (nents ip) (f + 1) /\
  de_inum d' ip' f = ino mod 65536 /\
  de_name d' ip' f = strncpy name (Z.to_nat DIRSIZ) /\
  (forall j, 0 <= j < nents ip -> j <> f ->
     de_inum d' ip' j = de_inum d ip j /\ de_name d' ip' j = de_name d ip j).
Proof.
  intros Hfo Hmod Ht Hend Hname Hmax Hw f. unfold dir_slot in *. fold f in Hw, Hmax.
  pose proof (fo_size _ _ Hfo) as Hs.
  assert (0 <= nents ip) as Hn0 by (unfold nents; zdiv).
  destruct (dir_free_spec d ip (Z.to_nat (nents ip)) 0) as (Hr & Hused & Hfree).
  fold f in Hr, Hused, Hfree. rewrite Z2Nat.id in Hr, Hfree by done.
  destruct (written_tail_free d ip d' ip' f _ Hw (length_dirent_bytes name ino)
              Hfo Hmod Ht Hend ltac:(lia) Hmax) as (Hmod' & Hn' & Ht').
  destruct (written_entry_new d ip d' ip' f name ino Hw ltac:(lia) Hname)
    as (Hino & Hnm).
  split; [done|]. split; [done|]. split; [lia|]. split; [lia|].
  split; [exact Hused|]. split; [intros; apply Hfree; lia|].
  split; [done|]. split; [done|]. split; [done|].
  intros j Hj Hne. apply (written_entry_keep d ip d' ip' _ _ j Hw Hfo); [lia| |].
  - revert Hj Hmod. unfold nents. zdiv.
  - rewrite length_dirent_bytes. consts. lia.
Qed.

Lemma de_match_keep d ip d' ip' name j :
  de_inum d' ip' j = de_inum d ip j /\ de_name d' ip' j = de_name d ip j ->
  de_match d' ip' name j = de_match d ip name j.
Proof. intros [H1 H2]. unfold de_match. by rewrite H1, H2. Qed.

(** X17.  Linking, then looking up.  When [dirlink] has
    returned 0 for a name of bytes and an inode number that is not 0 as a
    [ushort], in a sound directory whose next block is not there when it
    ends at a block boundary: [dirlookup] of the name is then [iget] of that
    number at the offset of the first entry that was free; [dirlookup] of a
    name that differs from it under [namecmp] finds what it found before;
    and a second [dirlink] of the name can only return -1. *)
Theorem dirlink_dirlookup (dp : Z) (ip : inode) (st st' : state)
        (name : list Z) (ino : Z) :
  heap st !! dp = Some ip -> type ip = T_DIR ->
  fs_ok (sdisk st) -> file_ok (sdisk st) ip ->
  size ip mod DIRENT = 0 -> tail_free (sdisk st) ip ->
  (size ip mod BSIZE = 0 -> size ip / BSIZE < MAXFILE ->
   baddr (sdisk st) ip (size ip / BSIZE) = 0) ->
  Forall is_byte name -> ino mod 65536 <> 0 ->
  dirlink dp name ino st = Ok 0 st' ->
  (forall poff,
     dirlookup dp name poff st' =
       (c <- iget (dev ip) (ino mod 65536);
        ret (Some (c, if poff then Some (dir_slot (sdisk st) ip) else None))) st') /\
  (forall other poff,
     namecmp other (strncpy name (Z.to_nat DIRSIZ)) <> 0 ->
     dirlookup dp other poff st' =
       match dir_find (sdisk st) ip other (Z.to_nat (nents ip)) 0 with
       | None => Ok None st'
       | Some k =>
           (c <- iget (dev ip) (de_inum (sdisk st) ip k);
            ret (Some (c, if poff then Some (k * DIRENT) else None))) st'
       end) /\
  (forall ino2 r st'', dirlink dp name ino2 st' = Ok r st'' -> r = -1).
Proof.
  intros Hh Hty Hfs Hfo Hmod Ht Hend Hname Hino Hrun.
  destruct (dirlink_inv dp ip st name ino st' Hh Hty Hfs Hfo Hmod Ht Hrun)
    as (Hnone & Hmax & d' & ip' & -> & Hw).
  destruct (linked_dir _ ip d' ip' name ino Hfo Hmod Ht Hend Hname Hmax Hw)
    as (Hmod' & Ht' & Hf & Hfn & Hused & Hfree & Hn' & Hfi & Hfn' & Hkeep).
  set (f := dir_free (sdisk st) ip (Z.to_nat (nents ip)) 0) in *.
  set (d := sdisk st) in *.
  pose proof (wn_file _ _ _ _ _ _ Hw) as Hfo'.
  pose proof (fo_size _ _ Hfo') as Hs'. pose proof (fo_mapped _ _ Hfo') as Hm'.
  pose proof (wn_fields _ _ _ _ _ _ Hw) as Hfields.
  assert (type ip' = T_DIR) as Hty' by (rewrite Hfields, type_written; done).
  assert (dev ip' = dev ip) as Hdev by (rewrite Hfields; apply dev_written).
  set (st' := mkState d' (<[dp := ip']> (heap st)) (brk st) (ins st) (delayed st)).
  assert (heap st' !! dp = Some ip') as Hh' by apply lookup_insert_eq.
  assert (forall j, 0 <= j < nents ip -> de_match d ip name j = false) as Hno.
  { intros j Hj. rewrite dir_find_none in Hnone. apply Hnone. lia. }
  assert (de_match d' ip' name f = true) as Hmf.
  { unfold de_match. rewrite Hfi, Hfn'. apply andb_true_iff. split.
    - apply negb_true_iff, Z.eqb_neq. done.
    - apply Z.eqb_eq. apply strncmp_strncpy. }
  assert (dir_find d' ip' name (Z.to_nat (nents ip')) 0 = Some f) as Hfind.
  { apply dir_find_first; [lia| |done].
    intros j Hj. rewrite (de_match_keep d ip d' ip') by (apply Hkeep; lia).
    apply Hno. lia. }
  split; [|split].
  - intros poff.
    rewrite (dirlookup_run dp ip' st' name poff Hh' Hty' Hs' Hm' Ht').
    change (sdisk st') with d'. rewrite Hfind, Hfi, Hdev. reflexivity.
  - intros other poff Hdiff.
    rewrite (dirlookup_run dp ip' st' other poff Hh' Hty' Hs' Hm' Ht').
    change (sdisk st') with d'.
    assert (de_match d' ip' other f = false) as Hof.
    { unfold de_match. rewrite Hfn'. apply andb_false_iff. right.
      by apply Z.eqb_neq. }
    assert (dir_find d' ip' other (Z.to_nat (nents ip')) 0 =
            dir_find d ip other (Z.to_nat (nents ip)) 0) as ->.
    { destruct (decide (f < nents ip)) as [Hlt|Hge].
      - replace (nents ip') with (nents ip) by lia. apply dir_find_ext.
        intros j Hj. destruct (decide (j = f)) as [->|Hne].
        + rewrite Hof. unfold de_match. rewrite Hfree by done. reflexivity.
        + apply de_match_keep, Hkeep; lia.
      - replace (Z.to_nat (nents ip')) with (Z.to_nat (nents ip) + 1)%nat by lia.
        rewrite dir_find_app.
        rewrite (dir_find_ext d ip d' ip').
        2:{ intros j Hj. apply de_match_keep, Hkeep; lia. }
        destruct (dir_find d ip other (Z.to_nat (nents ip)) 0); [done|].
        cbn [dir_find]. replace (0 + Z.of_nat (Z.to_nat (nents ip))) with f by lia.
        by rewrite Hof. }
    destruct (dir_find d ip other (Z.to_nat (nents ip)) 0) as [k|] eqn:Ek; [|done].
    apply dir_find_some in Ek as (Hk & Hmk & _).
    assert (k <> f) as Hkf.
    { intros ->. unfold de_match in Hmk. rewrite Hfree in Hmk by lia. done. }
    destruct (Hkeep k ltac:(lia) Hkf) as [-> _]. rewrite Hdev. reflexivity.
  - intros ino2 r st'' Hrun2.
    destruct (dirlink_present dp ip' st' name ino2 f Hh' Hty' Hs' Hmod' Hm' Ht' Hfind)
      as [_ Hr]. by apply (Hr r st'').
Qed.

Lemma dirlink_dirlookup_witness :
  dirlookup root name_a false (final (dirlink root name_a 3) st_boot) =
  (c <- iget (dev root_0) (3 mod 65536); ret (Some (c, None)))
    (final (dirlink root name_a 3) st_boot).
Proof.
  destruct root_0_facts as (Hh & Hty & Hfs & Hfo & Hs & Ht).
  assert (size root_0 mod DIRENT = 0) as Hmod by (rewrite Hs; reflexivity).
  assert (baddr (sdisk st_boot) root_0 (size root_0 / BSIZE) = 0) as Hend
    by (vm_compute; reflexivity).
  assert (Forall is_byte name_a) as Hname
    by (repeat constructor; unfold is_byte; lia).
  assert (3 mod 65536 <> 0) as Hino by (intros H; discriminate H).
  assert (dirlink root name_a 3 st_boot =
          Ok 0 (final (dirlink root name_a 3) st_boot)) as Hrun
    by (vm_compute; reflexivity).
  apply (proj1 (dirlink_dirlookup root root_0 st_boot _ name_a 3 Hh Hty Hfs Hfo
                  Hmod Ht (fun _ _ => Hend) Hname Hino Hrun) false).
Defined.

Lemma bind_ext {A B} (m : M A) (k1 k2 : A -> M B) st :
  (forall x s, k1 x s = k2 x s) -> bind m k1 st = bind m k2 st.
Proof. intros H. unfold bind. destruct (m st); try done. Qed.

Lemma length_skip_slashes p : (length (skip_slashes p) <= length p)%nat.
Proof.
  induction p as [|c p IH]; [done|]. cbn [skip_slashes].
  destruct (c =? slash); cbn [length]; lia.
Qed.

Lemma length_skip_name p :
  hd 0 p <> 0 -> hd 0 p <> slash -> (length (skip_name p) < length p)%nat.
Proof.
  destruct p as [|c p]; [done|]. cbn [hd skip_name]. intros H0 Hs.
  destruct (Z.eqb_spec c slash) as [|_]; [done|].
  destruct (Z.eqb_spec c 0) as [|_]; [done|]. cbn [negb andb length].
  assert (forall q, (length (skip_name q) <= length q)%nat) as Hle.
  { induction q as [|x q IH]; [done|]. cbn [skip_name].
    destruct (negb (x =? slash) && negb (x =? 0)); cbn [length]; lia. }
  specialize (Hle p). lia.
Qed.

(** Every call of [skipelem] that returns a path has consumed a character. *)
Lemma skipelem_shorter path name rest name' :
  skipelem path name = Some (rest, name') -> (length rest < length path)%nat.
Proof.
  unfold skipelem. destruct (Z.eqb_spec (hd 0 (skip_slashes path)) 0) as [|H0]; [done|].
  intros [= <- _].
  destruct (skip_slashes_spec path) as (k & _ & Hns).
  pose proof (length_skip_slashes path).
  pose proof (length_skip_slashes (skip_name (skip_slashes path))).
  pose proof (length_skip_name (skip_slashes path) H0 Hns). lia.
Qed.

Lemma namex_loop_fuel E np f1 f2 :
  forall ip path name st,
    (length path < f1)%nat -> (length path < f2)%nat ->
    namex_loop f1 E np ip path name st = namex_loop f2 E np ip path name st.
Proof.
  revert f2. induction f1 as [|f1 IH]; intros f2 ip path name st H1 H2; [lia|].
  destruct f2 as [|f2]; [lia|]. cbn [namex_loop].
  destruct (skipelem path name) as [[path' name']|] eqn:Es; [|done].
  apply skipelem_shorter in Es.
  assert (forall nx s, namex_loop f1 E np nx path' name' s =
                       namex_loop f2 E np nx path' name' s) as Hrec
    by (intros; apply IH; lia).
  apply bind_ext. intros [nx|] s; [apply Hrec|].
  apply bind_ext. intros _ s1. apply bind_ext. intros i s2.
  destruct (type i =? 0); [done|].
  destruct (negb (type i =? T_DIR)); [done|].
  destruct (np && (hd 0 path' =? 0)); [done|].
  apply bind_ext. intros [[nx o]|] s3; [|done].
  apply bind_ext. intros _ s4. apply bind_ext. intros _ s5. apply Hrec.
Qed.

Lemma fields_set_ref r ip :
  flags (set_ref r ip) = flags ip /\ readbusy (set_ref r ip) = readbusy ip /\
  type (set_ref r ip) = type ip /\ size (set_ref r ip) = size ip /\
  addrs (set_ref r ip) = addrs ip /\ dev (set_ref r ip) = dev ip /\
  nlink (set_ref r ip) = nlink ip /\ ref (set_ref r ip) = r /\
  inum (set_ref r ip) = inum ip.
Proof. destruct ip. cbv. repeat split. Qed.

Lemma readable_set_ref r ip : readable ip -> readable (set_ref r ip).
Proof.
  unfold readable, valid. destruct (fields_set_ref r ip) as (-> & -> & _). done.
Qed.

Lemma set_ref_back ip :
  0 <= ref ip ->
  set_ref (int_dec (ref (set_ref (ref ip + 1) ip))) (set_ref (ref ip + 1) ip) = ip.
Proof.
  intros Hr. destruct ip as [a1 a2 a3 a4 a5 a6 a7 a8 a9 a10 a11 a12].
  cbv [set_ref ref dev inum flags readbusy gen type major minor nlink size addrs]
    in *.
  rewrite int_dec_small by (unfold INT_MIN; lia). f_equal. lia.
Qed.

(** Where [namex] starts. *)
Lemma start_run E path st a ip :
  start_at E path st a ip -> valid ip ->
  (if hd 0 path =? slash then iget ROOTDEV ROOTINO else idup (cwd E)) st =
  Ok a (set_heap (<[a := set_ref (int_inc (ref ip)) ip]> (heap st)) st).
Proof.
  intros [Hh Hs] Hv. destruct (hd 0 path =? slash).
  - destruct Hs as (Hl & Hd & Hf).
    rewrite (iget_hit_run ROOTDEV ROOTINO st a ip Hl Hh).
    rewrite Hd, Hf. destruct (Z.eqb_spec (Z.land (flags ip) I_VALID) 0); done.
  - subst a. destruct st as [d h b ns dl]. cbn [heap] in *. unfold idup.
    erewrite bind_Ok by (apply modify_Ok; exact Hh). reflexivity.
Qed.

(** The read lock of a readable inode. *)
Lemma visit_lock a d h b ns dl ip :
  a <> 0 -> h !! a = Some ip -> 1 <= ref ip -> readable ip ->
  exists L,
    ilock a false (mkState d h b ns dl) = Ok tt (mkState d (<[a := L]> h) b ns dl) /\
    iunlock_release L = ip /\
    Z.land (flags L) (Z.lor I_BUSYR I_BUSYW) <> 0 /\ ref L = ref ip /\
    type L = type ip /\ size L = size ip /\ addrs L = addrs ip /\
    dev L = dev ip.
Proof.
  intros Ha Hh Hr (Hv & Hw & Hrb & Hrange).
  assert (ilock_acquire false ip =
          Some (set_readbusy (int_inc (readbusy ip))
                  (set_flags (Z.lor (flags ip) (Z.lor I_BUSYR 0)) ip))) as Hacq.
  { unfold ilock_acquire. change (Z.lor I_BUSYW 0) with I_BUSYW. rewrite Hw.
    reflexivity. }
  destruct (release_acquire false ip _ Hacq Hrb) as (Hrel & Hbusy & Href & Hfl & _).
  eexists. split; [|split; [|split; [exact Hbusy|split; [exact Href|]]]].
  - rewrite (ilock_run a false d h b ns dl ip Ha Hh), Hacq.
    assert ((ref ip <? 1) = false) as -> by (apply Z.ltb_ge; lia).
    rewrite Hfl, (valid_acquired (flags ip) false).
    destruct (Z.eqb_spec (Z.land (flags ip) I_VALID) 0); done.
  - apply Hrel. unfold INT_MIN. lia.
  - destruct ip. cbv. repeat split.
Qed.

Lemma visit_unlockput a d h b ns dl L ip :
  a <> 0 -> h !! a = Some L -> iunlock_release L = ip ->
  Z.land (flags L) (Z.lor I_BUSYR I_BUSYW) <> 0 -> 1 <= ref L ->
  int_dec (ref ip) <> 0 \/ nlink ip <> 0 ->
  iunlockput a (mkState d h b ns dl) =
  Ok tt (mkState d (<[a := set_ref (int_dec (ref ip)) ip]> h) b ns dl).
Proof.
  intros Ha Hh Hrel Hbusy Hr Hkeep. unfold iunlockput.
  erewrite bind_Ok by (apply iunlock_spec; done).
  rewrite Hrel.
  rewrite (iput_keep a d _ b ns dl ip) by (done || apply lookup_insert_eq).
  by rewrite insert_insert_eq.
Qed.

(** Unlocking and releasing the inode the walk had locked puts it back,
    when it was referenced or linked before the walk took its reference. *)
Lemma visit_back a d h b ns dl L ip :
  a <> 0 -> h !! a = Some L -> 0 <= ref ip ->
  iunlock_release L = set_ref (ref ip + 1) ip ->
  Z.land (flags L) (Z.lor I_BUSYR I_BUSYW) <> 0 -> ref L = ref ip + 1 ->
  1 <= ref ip \/ nlink ip <> 0 ->
  iunlockput a (mkState d h b ns dl) =
  Ok tt (mkState d (<[a := ip]> h) b ns dl).
Proof.
  intros Ha Hh Hr Hrel Hbusy HrL Hkeep.
  destruct (fields_set_ref (ref ip + 1) ip)
    as (_ & _ & _ & _ & _ & _ & Hnl & Href & _).
  rewrite (visit_unlockput a d h b ns dl L _ Ha Hh Hrel Hbusy).
  - by rewrite set_ref_back.
  - lia.
  - rewrite Href, Hnl, int_dec_small by (unfold INT_MIN; lia). lia.
Qed.

(** The first turn of the walk, up to the test of the inode's type: the
    name cache had nothing, and the starting inode is now locked. *)
Lemma namex_first E path np name st a ip rest name' :
  start_at E path st a ip -> a <> 0 -> 0 <= ref ip < INT_MAX -> readable ip ->
  skipelem path name = Some (rest, name') ->
  (np = false -> forall s, nc_lookup E a name' s = Ok None s) ->
  exists L,
    iunlock_release L = set_ref (ref ip + 1) ip /\
    Z.land (flags L) (Z.lor I_BUSYR I_BUSYW) <> 0 /\ ref L = ref ip + 1 /\
    type L = type ip /\ size L = size ip /\ addrs L = addrs ip /\
    dev L = dev ip /\
    namex E path np name st =
      (if type ip =? 0 then panic "namex" else
       if negb (type ip =? T_DIR) then iunlockput a;; ret (None, name')
       else if np && (hd 0 rest =? 0) then iunlock a;; ret (Some a, name')
       else
         r <- dirlookup a name' false;
         match r with
         | None => iunlockput a;; ret (None, name')
         | Some (nx, _) =>
             nc_insert E a name' nx;;
             iunlockput a;;
             namex_loop (length path) E np nx rest name'
         end)
      (set_heap (<[a := L]> (heap st)) st).
Proof.
  intros Hst Ha Hr Hrd Hsk Hnc. pose proof Hrd as (Hv & _).
  destruct (fields_set_ref (ref ip + 1) ip)
    as (_ & _ & Hty & Hsz & Had & Hdv & _ & Href & _).
  pose proof (start_run E path st a ip Hst Hv) as Hstart.
  rewrite int_inc_small in Hstart by lia.
  destruct st as [d h b ns dl].
  destruct (visit_lock a d (<[a := set_ref (ref ip + 1) ip]> h) b ns dl
              (set_ref (ref ip + 1) ip) Ha (lookup_insert_eq _ _ _)
              ltac:(rewrite Href; lia) (readable_set_ref _ _ Hrd))
    as (L & Hlock & Hrel & Hbusy & HrL & HtL & HsL & HaL & HdL).
  rewrite insert_insert_eq in Hlock.
  exists L. rewrite Hrel.
  split; [done|]. split; [done|]. split; [congruence|]. split; [congruence|].
  split; [congruence|]. split; [congruence|]. split; [congruence|].
  unfold namex. erewrite bind_Ok by exact Hstart.
  cbn [namex_loop]. rewrite Hsk. unfold set_heap. cbn [sdisk heap brk ins delayed].
  assert ((if np then ret None else nc_lookup E a name')
            (mkState d (<[a := set_ref (ref ip + 1) ip]> h) b ns dl) =
          Ok None (mkState d (<[a := set_ref (ref ip + 1) ip]> h) b ns dl)) as Hmiss.
  { destruct np; [reflexivity|]. by apply Hnc. }
  erewrite bind_Ok by exact Hmiss. cbv beta iota.
  erewrite bind_Ok by exact Hlock.
  erewrite bind_Ok by (apply deref_Ok, lookup_insert_eq).
  rewrite HtL, Hty. reflexivity.
Qed.

(** X18.  A path without an element, empty or of slashes only:
    [namex] as [namei] calls it returns the inode the walk starts from,
    the root directory for an absolute path and the current directory
    otherwise, with [ref] incremented, by one below [INT_MAX] and from
    [INT_MAX] around to [INT_MIN], and nothing else changed;
    [nameiparent] returns null and, when that inode is referenced or
    linked, [ref] being an [int], leaves the state as it was.  The buffer
    [name] is not written. *)
Theorem namex_no_element (E : penv) (path name : list Z) (st : state)
        (a : Z) (ip : inode) :
  skipelem path name = None ->
  start_at E path st a ip -> valid ip ->
  (ref ip < INT_MAX ->
   namex E path false name st =
     Ok (Some a, name)
        (set_heap (<[a := set_ref (ref ip + 1) ip]> (heap st)) st)) /\
  (ref ip = INT_MAX ->
   namex E path false name st =
     Ok (Some a, name) (set_heap (<[a := set_ref INT_MIN ip]> (heap st)) st)) /\
  (INT_MIN <= ref ip <= INT_MAX -> 1 <= ref ip \/ nlink ip <> 0 ->
   nameiparent E path name st = Ok (None, name) st).
Proof.
  intros Hsk Hst Hv. unfold nameiparent, namex.
  rewrite !(bind_Ok _ _ _ _ _ (start_run E path st a ip Hst Hv)).
  cbn [namex_loop]. rewrite Hsk. split; [|split].
  - intros Hlt. rewrite int_inc_small by lia. reflexivity.
  - intros ->. reflexivity.
  - intros Hr Hkeep. destruct Hst as [Hh _]. destruct st as [d h b ns dl].
    unfold set_heap. cbn [sdisk heap brk ins delayed] in *.
    erewrite bind_Ok by (by apply bump_iput). reflexivity.
Qed.

(** X19.  A path with an element, walked from an inode that a
    reader can lock, that the name cache knows nothing under, and whose
    [ref] is not negative and below [INT_MAX]: [namex] panics with [namex]
    when the inode has type 0; when it is something other than a
    directory, [namex] returns null, in either mode, and, the inode being
    referenced or linked, unlocks and releases it so that the state is as
    before, but for the element copied to [name]. *)
Theorem namex_not_dir (E : penv) (path name : list Z) (np : bool) (st : state)
        (a : Z) (ip : inode) (rest name' : list Z) :
  start_at E path st a ip -> a <> 0 -> 0 <= ref ip < INT_MAX -> readable ip ->
  skipelem path name = Some (rest, name') ->
  (np = false -> forall s, nc_lookup E a name' s = Ok None s) ->
  (type ip = 0 -> namex E path np name st = Panic "namex") /\
  (type ip <> 0 -> type ip <> T_DIR -> 1 <= ref ip \/ nlink ip <> 0 ->
   namex E path np name st = Ok (None, name') st).
Proof.
  intros Hst Ha Hr Hrd Hsk Hnc.
  destruct (namex_first E path np name st a ip rest name' Hst Ha Hr Hrd Hsk Hnc)
    as (L & Hrel & Hbusy & HrL & _ & _ & _ & _ & ->).
  split.
  - intros ->. reflexivity.
  - intros H0 Hd Hkeep.
    apply Z.eqb_neq in H0, Hd. rewrite H0, Hd. cbn [negb].
    destruct Hst as [Hh _]. destruct st as [d h b ns dl].
    unfold set_heap. cbn [sdisk heap brk ins delayed] in *.
    erewrite bind_Ok.
    2:{ apply (visit_back a d _ b ns dl L ip Ha (lookup_insert_eq _ _ _)
                 ltac:(lia) Hrel Hbusy HrL Hkeep). }
    rewrite insert_insert_eq, insert_id by done. reflexivity.
Qed.

(** X20.  [nameiparent] stops one level early.  For a path of
    one element, walked from a directory that a reader can lock and whose
    [ref] is not negative and below [INT_MAX]: [nameiparent] returns that
    directory, unlocked and with one more reference, and the element in
    [name]; the directory is not searched, so it does not matter whether
    it has the name. *)
Theorem nameiparent_last (E : penv) (path name : list Z) (st : state)
        (a : Z) (ip : inode) (rest name' : list Z) :
  start_at E path st a ip -> a <> 0 -> 0 <= ref ip < INT_MAX -> readable ip ->
  skipelem path name = Some (rest, name') ->
  hd 0 rest = 0 -> type ip = T_DIR ->
  nameiparent E path name st =
    Ok (Some a, name') (set_heap (<[a := set_ref (ref ip + 1) ip]> (heap st)) st).
Proof.
  intros Hst Ha Hr Hrd Hsk Hlast Hty. unfold nameiparent.
  destruct (namex_first E path true name st a ip rest name' Hst Ha Hr Hrd Hsk
              ltac:(intros H; discriminate H))
    as (L & Hrel & Hbusy & HrL & _ & _ & _ & _ & ->).
  rewrite Hty, Hlast. change (T_DIR =? 0) with false.
  change (negb (T_DIR =? T_DIR)) with false.
  change (true && (0 =? 0)) with true. cbv beta iota.
  destruct st as [d h b ns dl]. unfold set_heap. cbn [sdisk heap brk ins delayed].
  erewrite bind_Ok.
  2:{ apply iunlock_spec; [done|apply lookup_insert_eq|done|lia]. }
  rewrite Hrel, insert_insert_eq. reflexivity.
Qed.

Lemma fbyte_addrs d ip ip' i : addrs ip' = addrs ip -> fbyte d ip' i = fbyte d ip i.
Proof. intros H. unfold fbyte, baddr. by rewrite H. Qed.

Lemma dir_addrs d ip ip' :
  addrs ip' = addrs ip -> size ip' = size ip ->
  (mapped d ip 0 (size ip) -> mapped d ip' 0 (size ip')) /\
  (tail_free d ip -> tail_free d ip') /\
  nents ip' = nents ip /\
  (forall k, de_inum d ip' k = de_inum d ip k) /\
  (forall name n k, dir_find d ip' name n k = dir_find d ip name n k).
Proof.
  intros Ha Hs.
  assert (forall k, de_inum d ip' k = de_inum d ip k) as Hi.
  { intros k. unfold de_inum. by rewrite !(fbyte_addrs d ip ip'). }
  assert (forall k, de_name d ip' k = de_name d ip k) as Hn.
  { intros k. unfold de_name, fbytes. apply map_ext. intros j.
    by apply fbyte_addrs. }
  assert (nents ip' = nents ip) as Hne by (unfold nents; by rewrite Hs).
  split; [|split; [|split; [done|split; [done|]]]].
  - intros Hm i Hi'. rewrite Hs in Hi'. unfold baddr. rewrite Ha. by apply Hm.
  - intros Ht k Hk. rewrite Hi. apply Ht. by rewrite <- Hs, <- Hne.
  - intros name n k. apply dir_find_ext. intros j _.
    apply de_match_keep. by split.
Qed.

(** X21.  [namei] of a path of one element, walked from a sound
    directory that a reader can lock, that is referenced or linked and
    whose [ref] is not negative and below [INT_MAX], the name cache having
    nothing and keeping nothing.  When no entry has the name, [namei]
    returns null and the state is as before.  When the first entry that
    has it names an inode the cache holds, other than the directory,
    [namei] returns that inode with [ref] incremented as [iget] does, by
    one below [INT_MAX] and from [INT_MAX] around to [INT_MIN], and the
    directory is left unlocked as it was. *)
Theorem namei_one (E : penv) (buf path : list Z) (st : state)
        (a : Z) (ip : inode) (rest name' : list Z) :
  start_at E path st a ip -> a <> 0 -> 0 <= ref ip < INT_MAX -> readable ip ->
  1 <= ref ip \/ nlink ip <> 0 ->
  skipelem path buf = Some (rest, name') -> skipelem rest name' = None ->
  (forall s, nc_lookup E a name' s = Ok None s) ->
  (forall c s, nc_insert E a name' c s = Ok tt s) ->
  type ip = T_DIR -> 0 <= size ip <= MAXFILE * BSIZE ->
  mapped (sdisk st) ip 0 (size ip) -> tail_free (sdisk st) ip ->
  (dir_find (sdisk st) ip name' (Z.to_nat (nents ip)) 0 = None ->
   namei E buf path st = Ok None st) /\
  (forall k c cp,
     dir_find (sdisk st) ip name' (Z.to_nat (nents ip)) 0 = Some k ->
     ns_lookup (ins st) (de_inum (sdisk st) ip k) = Some c -> c <> a ->
     heap st !! c = Some cp -> dev cp = dev ip ->
     Z.land (flags cp) I_FREE = 0 -> valid cp ->
     namei E buf path st =
       Ok (Some c)
          (set_heap (<[c := set_ref (int_inc (ref cp)) cp]> (heap st)) st)).
Proof.
  intros Hst Ha Hr Hrd Hkeep Hsk Hlast Hnc Hins Hty Hsz Hm Ht.
  destruct (namex_first E path false buf st a ip rest name' Hst Ha Hr Hrd Hsk
              (fun _ => Hnc))
    as (L & Hrel & Hbusy & HrL & HtL & HsL & HaL & HdL & Hfirst).
  rewrite Hty in Hfirst. change (T_DIR =? 0) with false in Hfirst.
  change (negb (T_DIR =? T_DIR)) with false in Hfirst.
  cbv beta iota in Hfirst. cbn [andb] in Hfirst.
  destruct Hst as [Hh _]. destruct st as [d h b ns dl].
  unfold set_heap in *. cbn [sdisk heap brk ins delayed] in *.
  destruct (dir_addrs d ip L HaL HsL) as (HmL & HtfL & HnL & HiL & HfL).
  set (s2 := mkState d (<[a := L]> h) b ns dl) in *.
  assert (dirlookup a name' false s2 =
          match dir_find d ip name' (Z.to_nat (nents ip)) 0 with
          | None => Ok None s2
          | Some k => (c <- iget (dev ip) (de_inum d ip k);
                       ret (Some (c, None))) s2
          end) as Hlook.
  { rewrite (dirlookup_run a L s2 name' false (lookup_insert_eq _ _ _)
               ltac:(congruence) ltac:(rewrite HsL; exact Hsz) (HmL Hm) (HtfL Ht)).
    change (sdisk s2) with d. rewrite HfL, HnL.
    destruct (dir_find d ip name' (Z.to_nat (nents ip)) 0); [|done].
    by rewrite HiL, HdL. }
  assert (forall h', h' !! a = Some L ->
            iunlockput a (mkState d h' b ns dl) =
            Ok tt (mkState d (<[a := ip]> h') b ns dl)) as Hput.
  { intros h' Hh'.
    apply (visit_back a d h' b ns dl L ip Ha Hh' ltac:(lia) Hrel Hbusy HrL Hkeep). }
  unfold namei. split.
  - intros Hnone. rewrite Hnone in Hlook.
    erewrite bind_Ok.
    2:{ rewrite Hfirst. erewrite bind_Ok by exact Hlook. cbv beta iota.
        erewrite bind_Ok by (apply Hput, lookup_insert_eq). reflexivity. }
    rewrite insert_insert_eq, insert_id by done. reflexivity.
  - intros k c cp Hfind Hl Hca Hc Hdev Hfree Hv. rewrite Hfind in Hlook.
    assert (iget (dev ip) (de_inum d ip k) s2 =
            Ok c (mkState d (<[c := set_ref (int_inc (ref cp)) cp]>
                               (<[a := L]> h)) b ns dl)) as Hget.
    { rewrite (iget_hit_run (dev ip) (de_inum d ip k) s2 c cp Hl)
        by (unfold s2; cbn [heap]; rewrite lookup_insert_ne by done; exact Hc).
      rewrite Hdev, Z.eqb_refl, Hfree. cbn [negb Z.eqb].
      destruct (Z.eqb_spec (Z.land (flags cp) I_VALID) 0); done. }
    erewrite bind_Ok in Hlook by exact Hget.
    pose proof (skipelem_shorter _ _ _ _ Hsk) as Hlen.
    destruct (length path) as [|n] eqn:En; [lia|].
    erewrite bind_Ok.
    2:{ rewrite Hfirst. erewrite bind_Ok by exact Hlook. cbv beta iota.
        erewrite bind_Ok by apply Hins.
        erewrite bind_Ok.
        2:{ apply Hput. rewrite lookup_insert_ne by done. apply lookup_insert_eq. }
        cbn [namex_loop]. rewrite Hlast. reflexivity. }
    cbn [fst ret].
    rewrite (insert_insert_ne (<[a := L]> h)) by done.
    rewrite insert_insert_eq, (insert_id h a ip) by done. reflexivity.
Qed.

(** X22.  The walk ends.  A call of [skipelem] that returns a
    path returns a shorter one, so the loop of [namex] takes at most one
    turn more than the path has characters: with any more turns allowed,
    the result is the same. *)
Theorem namex_walk_ends (E : penv) (np : bool) (ip : Z) (path name : list Z)
        (st : state) (fuel : nat) :
  (forall rest name', skipelem path name = Some (rest, name') ->
     (length rest < length path)%nat) /\
  ((length path < fuel)%nat ->
   namex_loop fuel E np ip path name st =
   namex_loop (S (length path)) E np ip path name st).
Proof.
  split.
  - intros rest name'. apply skipelem_shorter.
  - intros Hf. apply namex_loop_fuel; lia.
Qed.

Lemma st_dir_facts :
  start_at (no_cache 0) path_a st_dir 51 root_d /\
  start_at (no_cache 0) [slash] st_dir 51 root_d /\
  readable root_d /\ ref root_d = 1 /\ type root_d = T_DIR /\
  size root_d = 16 /\
  mapped (sdisk st_dir) root_d 0 (size root_d) /\
  tail_free (sdisk st_dir) root_d.
Proof.
  assert (size root_d = 16) as Hs by (vm_compute; reflexivity).
  assert (heap st_dir !! 51 = Some root_d) as Hh by (vm_compute; reflexivity).
  assert (ns_lookup (ins st_dir) ROOTINO = Some 51) as Hl
    by (vm_compute; reflexivity).
  assert (dev root_d = ROOTDEV) as Hd by (vm_compute; reflexivity).
  assert (Z.land (flags root_d) I_FREE = 0) as Hf by (vm_compute; reflexivity).
  assert (readbusy root_d = 0) as Hrb by (vm_compute; reflexivity).
  split; [split; [exact Hh|]; split; [exact Hl|split; [exact Hd|exact Hf]]|].
  split; [split; [exact Hh|]; split; [exact Hl|split; [exact Hd|exact Hf]]|].
  split.
  { unfold readable, valid. split; [vm_compute; intros H; discriminate H|].
    split; [vm_compute; reflexivity|].
    split; [vm_compute; split; intros _; reflexivity|].
    rewrite Hrb. unfold INT_MAX. lia. }
  split; [vm_compute; reflexivity|]. split; [vm_compute; reflexivity|].
  split; [exact Hs|].
  split; [|apply tail_freeb_sound; vm_compute; reflexivity].
  apply mappedb_sound; [rewrite Hs; consts; lia|vm_compute; reflexivity].
Qed.

Lemma namex_no_element_witness :
  nameiparent (no_cache 0) [slash] [] st_dir = Ok (None, []) st_dir.
Proof.
  destruct st_dir_facts as (_ & Hst & (Hv & _) & Hr & _).
  apply (proj2 (proj2 (namex_no_element (no_cache 0) [slash] [] st_dir 51 root_d
                         eq_refl Hst Hv))).
  - rewrite Hr. unfold INT_MIN, INT_MAX. lia.
  - left. rewrite Hr. lia.
Defined.

Lemma nameiparent_last_witness :
  nameiparent (no_cache 0) path_a (repeat 7 14) st_dir =
  Ok (Some 51, 97 :: 0 :: repeat 7 12)
     (set_heap (<[51 := set_ref (ref root_d + 1) root_d]> (heap st_dir)) st_dir).
Proof.
  destruct st_dir_facts as (Hst & _ & Hrd & Hr & Hty & _).
  apply (nameiparent_last (no_cache 0) path_a (repeat 7 14) st_dir 51 root_d []
           (97 :: 0 :: repeat 7 12) Hst ltac:(lia)
           ltac:(rewrite Hr; unfold INT_MAX; lia) Hrd eq_refl eq_refl Hty).
Defined.

Lemma namex_not_dir_witness :
  namex (no_cache 9) [97] false (repeat 7 14) (wit_state 1 1) =
  Ok (None, 97 :: 0 :: repeat 7 12) (wit_state 1 1).
Proof.
  assert (readable (wit_inode 1 1)) as Hrd.
  { unfold readable, valid. split; [vm_compute; intros H; discriminate H|].
    split; [reflexivity|]. split; [split; intros _; reflexivity|].
    cbn. unfold INT_MAX. lia. }
  apply (proj2 (namex_not_dir (no_cache 9) [97] (repeat 7 14) false
                  (wit_state 1 1) 9 (wit_inode 1 1) [] (97 :: 0 :: repeat 7 12)
                  (conj eq_refl eq_refl) ltac:(lia)
                  ltac:(cbn; unfold INT_MAX; lia) Hrd eq_refl
                  (fun _ _ => eq_refl))).
  - intros H. discriminate H.
  - intros H. discriminate H.
  - left. cbn. lia.
Defined.

Lemma namei_one_witness :
  namei (no_cache 0) (repeat 7 14) path_a st_dir =
  Ok (Some 52)
     (set_heap (<[52 := set_ref (int_inc (ref ino3_d)) ino3_d]> (heap st_dir))
               st_dir).
Proof.
  destruct st_dir_facts as (Hst & _ & Hrd & Hr & Hty & Hs & Hm & Ht).
  assert (dir_find (sdisk st_dir) root_d (97 :: 0 :: repeat 7 12)
            (Z.to_nat (nents root_d)) 0 = Some 0) as Hfind
    by (vm_compute; reflexivity).
  assert (ns_lookup (ins st_dir) (de_inum (sdisk st_dir) root_d 0) = Some 52)
    as Hl by (vm_compute; reflexivity).
  assert (heap st_dir !! 52 = Some ino3_d) as Hc by (vm_compute; reflexivity).
  assert (dev ino3_d = dev root_d) as Hdev by (vm_compute; reflexivity).
  assert (Z.land (flags ino3_d) I_FREE = 0) as Hfree by (vm_compute; reflexivity).
  assert (valid ino3_d) as Hv by (vm_compute; intros H; discriminate H).
  apply (proj2 (namei_one (no_cache 0) (repeat 7 14) path_a st_dir 51 root_d []
                  (97 :: 0 :: repeat 7 12) Hst ltac:(lia)
                  ltac:(rewrite Hr; unfold INT_MAX; lia)
                  Hrd ltac:(left; rewrite Hr; lia) eq_refl eq_refl
                  (fun _ => eq_refl) (fun _ _ => eq_refl) Hty
                  ltac:(rewrite Hs; consts; lia) Hm Ht)
          0 52 ino3_d Hfind Hl ltac:(lia) Hc Hdev Hfree Hv).
Defined.

(** The blocks [itrunc] has queued are given back by the run of the queue,
    on a disk that has the bitmap of the one [itrunc] saw. *)
Lemma frees_run d d1 ip h b ns :
  file_ok d ip -> readsb d1 = readsb d ->
  (forall y, 0 <= y < nbits d -> inuse d1 y = inuse d y) ->
  nfree d1 = nfree d ->
  exists d2,
    run_works (itrunc_frees d ip) (mkState d1 h b ns []) =
      Ok tt (mkState d2 h b ns []) /\
    (forall bn, 0 <= bn < MAXFILE -> baddr d ip bn <> 0 ->
       inuse d2 (baddr d ip bn) = false) /\
    (indirect ip <> 0 -> inuse d2 (indirect ip) = false) /\
    (forall y, 0 <= y < nbits d ->
       (forall bn, 0 <= bn < MAXFILE -> baddr d ip bn <> y) ->
       indirect ip <> y -> inuse d2 y = inuse d y) /\
    nfree d2 = (nfree d + length (itrunc_frees d ip))%nat.
Proof.
  intros Hfo Hsb Hin Hnf. pose proof (datastart_ge d) as Hds.
  destruct (run_frees (itrunc_frees d ip) d1 h b ns [])
    as (d2 & Hrun & Hsb2 & Hin2 & Hnf2).
  { by apply itrunc_frees_nodup. }
  { intros w Hw. destruct (itrunc_frees_inv d ip w Hw) as (Hwe & Hne & Hwhich).
    split; [rewrite Hwe at 1; by rewrite Hwe|].
    rewrite (nbits_ext _ _ Hsb), (datastart_ext _ _ Hsb).
    destruct Hwhich as [(bn & Hbn & Hb)|Hi].
    - rewrite Hb in *. destruct (fo_data d ip Hfo bn Hbn Hne) as [[Hr Hu] _].
      split; [done|]. rewrite Hin by lia. done.
    - rewrite Hi in *. destruct (fo_ind d ip Hfo Hne) as [Hr Hu].
      split; [done|]. rewrite Hin by lia. done. }
  rewrite (nbits_ext _ _ Hsb) in Hin2.
  exists d2. split; [exact Hrun|]. split; [|split; [|split]].
  - intros bn Hbn Hne. destruct (fo_data d ip Hfo bn Hbn Hne) as [[Hr Hu] _].
    rewrite Hin2 by lia.
    rewrite bool_decide_eq_true_2; [by rewrite andb_false_r|].
    apply list_elem_of_fmap. exists (BFree (dev ip) (baddr d ip bn)).
    split; [done|]. by apply itrunc_frees_data.
  - intros Hne. destruct (fo_ind d ip Hfo Hne) as [Hr Hu].
    rewrite Hin2 by lia.
    rewrite bool_decide_eq_true_2; [by rewrite andb_false_r|].
    apply list_elem_of_fmap. exists (BFree (dev ip) (indirect ip)).
    split; [done|]. by apply itrunc_frees_indirect.
  - intros y Hy Hnb Hni. rewrite Hin2, Hin by done.
    rewrite bool_decide_eq_false_2; [by rewrite andb_true_r|].
    intros Hel. apply list_elem_of_fmap in Hel as (w & Hy' & Hw).
    destruct (itrunc_frees_inv d ip w Hw) as (_ & _ & [(bn & Hbn & Hb)|Hi]).
    + apply (Hnb bn Hbn). congruence.
    + congruence.
  - rewrite Hnf2, Hnf. done.
Qed.

(** Two writes of the inode leave the bitmap alone. *)
Lemma wr_dinode_twice d ino di1 di2 :
  fs_ok d -> 0 <= ino < sb_ninodes (readsb d) ->
  length (d_addrs di1) = Z.to_nat (NDIRECT + 1) ->
  length (d_addrs di2) = Z.to_nat (NDIRECT + 1) ->
  readsb (wr_dinode (wr_dinode d ino di1) ino di2) = readsb d /\
  (forall y, 0 <= y < nbits d ->
     inuse (wr_dinode (wr_dinode d ino di1) ino di2) y = inuse d y) /\
  nfree (wr_dinode (wr_dinode d ino di1) ino di2) = nfree d.
Proof.
  intros Hfs Hino H1 H2.
  destruct (iupdate_frame d ino di1 Hfs Hino H1) as (Hsb1 & Hnf1 & Hfs1 & _).
  pose proof (iupdate_inuse d ino di1 Hfs Hino H1) as Hin1.
  assert (0 <= ino < sb_ninodes (readsb (wr_dinode d ino di1))) as Hino1
    by (by rewrite Hsb1).
  destruct (iupdate_frame _ ino di2 Hfs1 Hino1 H2) as (Hsb2 & Hnf2 & _ & _).
  pose proof (iupdate_inuse _ ino di2 Hfs1 Hino1 H2) as Hin2.
  split; [congruence|]. split; [|congruence].
  intros y Hy. rewrite Hin2 by (by rewrite (nbits_ext _ _ Hsb1)). by apply Hin1.
Qed.

(** C1.  [iput] of an unlocked inode with [ref >= 1] returns with [ref] one
    less.  When that makes [ref] zero while [nlink] is zero, the inode is
    truncated: all [addrs] are zero and [size] is zero; [type] is 0, [gen]
    is one more, and the on-disk inode holds exactly these values.  Every
    block of the file and its indirect block has been handed to [bfree]
    through [rcu_delayed2], and in a sound file system with nothing else
    queued the run of the queue frees them: [bfree] clears the bit of each
    of them in the bitmap, no other bit changes, and the free blocks are
    as many more as the file had. *)
Theorem iput_last_drop (a : Z) (ip : inode) (st : state) :
  heap st !! a = Some ip ->
  1 <= ref ip ->
  unlocked ip ->
  valid ip ->
  exists st' ip',
    iput a st = Ok tt st' /\
    heap st' !! a = Some ip' /\
    ref ip' = ref ip - 1 /\
    (ref ip = 1 -> nlink ip = 0 ->
       type ip' = 0 /\ size ip' = 0 /\ gen ip' = u32 (gen ip + 1) /\
       (forall i, 0 <= i <= NDIRECT -> aget (addrs ip') i = 0) /\
       delayed st' = delayed st ++ itrunc_frees (sdisk st) ip /\
       (forall bn, 0 <= bn < MAXFILE -> baddr (sdisk st) ip bn <> 0 ->
          BFree (dev ip) (baddr (sdisk st) ip bn) ∈ delayed st') /\
       (aget (addrs ip) NDIRECT <> 0 ->
          BFree (dev ip) (aget (addrs ip) NDIRECT) ∈ delayed st') /\
       rd_dinode (sdisk st') (inum ip) =
         mkDinode 0 0 0 0 0 (u32 (gen ip + 1))
                  (repeat 0 (Z.to_nat (NDIRECT + 1))) /\
       (fs_ok (sdisk st) -> file_ok (sdisk st) ip -> delayed st = [] ->
        exists d2,
          rcu_gc st' = Ok tt (mkState d2 (heap st') (brk st') (ins st') []) /\
          (forall bn, 0 <= bn < MAXFILE -> baddr (sdisk st) ip bn <> 0 ->
             inuse d2 (baddr (sdisk st) ip bn) = false) /\
          (indirect ip <> 0 -> inuse d2 (indirect ip) = false) /\
          (forall y, 0 <= y < nbits (sdisk st) ->
             (forall bn, 0 <= bn < MAXFILE -> baddr (sdisk st) ip bn <> y) ->
             indirect ip <> y -> inuse d2 y = inuse (sdisk st) y) /\
          nfree d2 =
            (nfree (sdisk st) + length (itrunc_frees (sdisk st) ip))%nat)).
Proof.
  intros Hh Hr Hu Hv. destruct st as [d h b ns dl]. cbn [heap sdisk delayed] in *.
  destruct (decide (ref ip = 1 /\ nlink ip = 0)) as [[H1 H0]|Hc].
  - rewrite (iput_teardown _ _ _ _ _ _ ip Hh H1 H0 Hu Hv).
    eexists _, _. split; [reflexivity|]. cbn [heap sdisk delayed brk ins].
    rewrite lookup_insert_eq. split; [reflexivity|].
    split; [cbn [ref freed set_gen set_minor set_major set_type truncated
                 set_size set_addrs set_ref set_readbusy]; lia|]. intros _ _.
    split; [reflexivity|]. split; [reflexivity|]. split; [reflexivity|].
    split; [intros i Hi; apply (aget_truncated (set_ref 0 ip) i Hi)|].
    split; [reflexivity|].
    split; [intros bn Hbn Hne; apply elem_of_app; right; by apply itrunc_frees_data|].
    split; [intros Hne; apply elem_of_app; right; by apply itrunc_frees_indirect|].
    split.
    + rewrite dinode_of_freed by done.
      apply rd_wr_dinode; cbn [d_type d_major d_minor d_nlink d_size d_gen d_addrs];
        unfold short, uint, u32, WORD; try lia.
      * apply Z.mod_pos_bound. lia.
      * apply repeat_length.
      * apply Forall_forall. intros x Hx%list_elem_of_In%repeat_spec. lia.
    + intros Hfs Hfo ->. rewrite app_nil_l.
      destruct (wr_dinode_twice d (inum ip)
                  (dinode_of (truncated (iput_enter (set_ref 0 ip))))
                  (dinode_of (freed ip)) Hfs (fo_inum _ _ Hfo)
                  (length_dinode_addrs _) (length_dinode_addrs _))
        as (Hsb & Hin & Hnf).
      destruct (frees_run d _ ip
                  (<[a := set_readbusy (int_dec (int_inc (readbusy ip)))
                             (freed ip)]> h) b ns Hfo Hsb Hin Hnf)
        as (d2 & Hrun & Hbits).
      exists d2. split; [|exact Hbits].
      unfold rcu_gc. st_simpl. exact Hrun.
  - assert (int_dec (ref ip) = ref ip - 1) as Hdec
      by (apply int_dec_small; unfold INT_MIN; lia).
    rewrite (iput_keep _ _ _ _ _ _ ip Hh) by (rewrite Hdec; lia).
    eexists _, _. split; [reflexivity|]. cbn [heap].
    rewrite lookup_insert_eq. split; [reflexivity|].
    split; [by rewrite <- Hdec|].
    intros. lia.
Qed.

Lemma file_ok_same d ip ip' :
  file_ok d ip -> addrs ip' = addrs ip -> size ip' = size ip ->
  inum ip' = inum ip -> file_ok d ip'.
Proof.
  intros [Hl Hd Hj Hi Hs Hm Hn] Ha Hsz Hin.
  assert (forall bn, baddr d ip' bn = baddr d ip bn) as Hb
    by (intros bn; unfold baddr; by rewrite Ha).
  assert (indirect ip' = indirect ip) as Hind by (unfold indirect; by rewrite Ha).
  split.
  - by rewrite Ha.
  - intros bn Hbn. rewrite Hb, Hind. by apply Hd.
  - intros bn bn' Hbn Hbn'. rewrite !Hb. by apply Hj.
  - by rewrite Hind.
  - by rewrite Hsz.
  - intros i Hi'. rewrite Hsz in Hi'. rewrite Hb. by apply Hm.
  - by rewrite Hin.
Qed.

Lemma fields_written s l ip :
  flags (set_size s (set_addrs l ip)) = flags ip /\
  ref (set_size s (set_addrs l ip)) = ref ip /\
  inum (set_size s (set_addrs l ip)) = inum ip.
Proof. destruct ip. cbv. repeat split. Qed.

Lemma fields_release ip :
  addrs (iunlock_release ip) = addrs ip /\ size (iunlock_release ip) = size ip /\
  inum (iunlock_release ip) = inum ip.
Proof. destruct ip. cbv. repeat split. Qed.

(** [iunlock], and then the reclamation of one evicted cache entry. *)
Lemma unlock_gc a d h b ns v ip :
  a <> 0 -> h !! a = Some ip ->
  Z.land (flags ip) (Z.lor I_BUSYR I_BUSYW) <> 0 -> 1 <= ref ip ->
  final (iunlock a;; rcu_gc) (mkState d h b ns [KmFree v]) =
  mkState d (delete v (<[a := iunlock_release ip]> h)) b ns [].
Proof.
  intros Ha Hh Hb Hr. unfold final.
  erewrite bind_Ok by (by apply iunlock_spec). reflexivity.
Qed.

Lemma st_last_facts :
  heap st_last !! 51 = Some ip_last /\ ref ip_last = 1 /\ nlink ip_last = 0 /\
  unlocked ip_last /\ valid ip_last /\ delayed st_last = [] /\
  fs_ok (sdisk st_last) /\ file_ok (sdisk st_last) ip_last /\
  baddr (sdisk st_last) ip_last 0 = 32 /\ baddr (sdisk st_last) ip_last 1 = 33 /\
  length (itrunc_frees (sdisk st_last) ip_last) = 2%nat.
Proof.
  assert (heap st_last !! 51 = Some ip_last) as Hlast by (vm_compute; reflexivity).
  split; [exact Hlast|]. split; [vm_compute; reflexivity|].
  split; [vm_compute; reflexivity|]. split; [vm_compute; reflexivity|].
  split; [vm_compute; intros H; discriminate H|].
  split; [vm_compute; reflexivity|].
  cut (fs_ok (sdisk st_last) /\ file_ok (sdisk st_last) ip_last).
  { intros [H1 H2]. split; [exact H1|]. split; [exact H2|].
    split; [vm_compute; reflexivity|]. split; vm_compute; reflexivity. }
  assert (heap st_file !! 51 = Some ip_file) as Hh0 by (vm_compute; reflexivity).
  assert (type ip_file <> T_DEV) as Hty by (vm_compute; intros H; discriminate H).
  assert (fs_ok (sdisk st_file)) as Hfs0
    by (apply fs_okb_sound; vm_compute; reflexivity).
  assert (file_ok (sdisk st_file) ip_file) as Hfo0.
  { apply file_ok_empty; [vm_compute; reflexivity|vm_compute; reflexivity|].
    vm_compute. split; [intros H; discriminate H|reflexivity]. }
  assert (size ip_file = 0) as Hs0 by (vm_compute; reflexivity).
  assert (flags ip_file = 7 /\ ref ip_file = 1) as [Hfl0 Hr0]
    by (split; vm_compute; reflexivity).
  assert (delayed st_file = [KmFree 50]) as Hdl0 by (vm_compute; reflexivity).
  assert (room (sdisk st_file) ip_file 0 1000) as Hroom.
  { unfold room.
    assert (nfree (sdisk st_file) = 4064%nat) as -> by (vm_compute; reflexivity).
    assert (slack ip_file = 1%nat) as -> by (vm_compute; reflexivity).
    assert (span 0 1000 = 2) as -> by (vm_compute; reflexivity). lia. }
  destruct (writei_ok 51 ip_file st_file (repeat 65 1000) 0 1000 Hh0 Hty
              ltac:(unfold uint, WORD; lia) ltac:(unfold uint, WORD; lia)
              Hfs0 Hfo0) as (_ & H2 & H3).
  assert (Z.min 1000 (MAXFILE * BSIZE - 0) = 1000) as Hmin by (consts; lia).
  rewrite Hmin in H2, H3.
  destruct (H2 ltac:(rewrite Hs0; lia) ltac:(unfold WORD; lia)
               ltac:(rewrite repeat_length; lia) Hroom) as (st' & Hrun).
  destruct (H3 ltac:(rewrite Hs0; lia) ltac:(unfold WORD; lia)
               ltac:(rewrite repeat_length; lia) 1000 st' Hrun)
    as (_ & d' & ip' & Hst & Hw).
  clear H2 H3 Hroom.
  pose proof (wn_file _ _ _ _ _ _ Hw) as Hfo.
  pose proof (wn_fs _ _ _ _ _ _ Hw) as Hfs.
  pose proof (wn_fields _ _ _ _ _ _ Hw) as Hfields. clear Hw.
  destruct (fields_written (size ip') (addrs ip') ip_file) as (Hfl & Hr & _).
  rewrite <- Hfields in Hfl, Hr.
  assert (st_last =
          mkState d' (delete 50 (<[51 := iunlock_release ip']> (heap st_file)))
                  (brk st_file) (ins st_file) []) as Hl.
  { unfold st_last, st_1000, final at 2. rewrite Hrun, Hst, Hdl0.
    rewrite (unlock_gc 51 d' _ _ _ 50 ip').
    - rewrite insert_insert_eq. reflexivity.
    - lia.
    - apply lookup_insert_eq.
    - rewrite Hfl, Hfl0. intros H; discriminate H.
    - rewrite Hr, Hr0. lia. }
  clear Hrun Hst.
  assert (Some ip_last = Some (iunlock_release ip')) as E.
  { rewrite <- Hlast, Hl. cbn [heap].
    rewrite lookup_delete_ne by lia. apply lookup_insert_eq. }
  apply (inj Some) in E.
  destruct (fields_release ip') as (Ha & Hsz & Hin).
  rewrite Hl. cbn [sdisk]. split; [exact Hfs|].
  apply (file_ok_same d' ip'); [exact Hfo| | |]; rewrite E;
    [exact Ha|exact Hsz|exact Hin].
Qed.

Lemma iput_last_drop_witness :
  exists st' ip' d2,
    iput 51 st_last = Ok tt st' /\ heap st' !! 51 = Some ip' /\
    ref ip' = 0 /\ type ip' = 0 /\ size ip' = 0 /\
    rcu_gc st' = Ok tt (mkState d2 (heap st') (brk st') (ins st') []) /\
    inuse d2 32 = false /\ inuse d2 33 = false /\
    nfree d2 = (nfree (sdisk st_last) + 2)%nat.
Proof.
  destruct st_last_facts
    as (Hh & Hr & Hn & Hu & Hv & Hdl & Hfs & Hfo & Hb0 & Hb1 & Hlen).
  destruct (iput_last_drop 51 ip_last st_last Hh ltac:(rewrite Hr; lia) Hu Hv)
    as (st' & ip' & Hrun & Hh' & Href & Htear).
  destruct (Htear Hr Hn) as (Hty & Hsz & _ & _ & _ & _ & _ & _ & Hgc).
  destruct (Hgc Hfs Hfo Hdl) as (d2 & Hgcrun & Hdata & _ & _ & Hnf).
  exists st', ip', d2.
  split; [exact Hrun|]. split; [exact Hh'|].
  split; [rewrite Href, Hr; reflexivity|].
  split; [exact Hty|]. split; [exact Hsz|]. split; [exact Hgcrun|].
  split; [|split].
  - rewrite <- Hb0. apply Hdata; [consts; lia|]. rewrite Hb0. lia.
  - rewrite <- Hb1. apply Hdata; [consts; lia|]. rewrite Hb1. lia.
  - rewrite Hnf, Hlen. reflexivity.
Defined.
